(* ===== verification/_CoqProject ===== *)
-Q . S2P
Prelude.v
GoString.v
Config.v
Gsm7.v
Sha256.v
Pdu.v
PduSpec.v
RateLimit.v
Buffer.v
Serializer.v
Protocol.v
Registry.v
Worker.v
WorkerFrame.v
WorkerSafety.v
WorkerTasks.v
WorkerSend.v
Supervisor.v
Tunnel.v
TunnelProps.v
Gateway.v
Breaker.v
Dedup.v
Slices.v
Dlq.v
Diskqueue.v
Float64.v
Backoff.v
TokenBucket.v
Webhook.v
Watchdog.v
TlsConfig.v
Modemspool.v
Safe.v
Metrics.v
Program.v
Gsm7Gen.v
Dial.v
Lifecycle.v
GatewayWf.v
Concurrent.v
ConcurrentBounds.v
ConcurrentTasks.v
