(* ===== verification/Prelude.v ===== *)
(** * sms-gate: a verification library

    sms-gate is a gateway between GSM modems and a cloud server: it receives
    SMS from SIMs and forwards them, and sends SMS the cloud asks for.  This
    library translates its Go packages into executable definitions and proves
    the properties its users rely on.  File and function names below are
    relative to src/internal/.

    ** The program and the files that model it

    - [Prelude]: outcomes of Go functions (value, error, panic), checked
      indexing, bytes and bits, error values, wrap-around, the state monad [st]
      and [preserves], the relations actions respect.  [GoString]: strings as
      bytes and runes (UTF-8, hex, TrimSpace, Split, Atoi, Sscanf "%d").
      [Sha256]: the hash of crypto/sha256.
    - [Config] (config/config.go): settings, defaults, environment, validation,
      [Load].
    - [Gsm7] (at/pdu.go): the GSM 7-bit alphabet and the two septet packers.
      [Pdu] (at/pdu.go): UCS-2, addresses, the SMS-DELIVER decoder and the
      SMS-SUBMIT encoder.  The decoders work on integer lengths and checked
      indexes and slices ([go_index], [go_slice]); a check that fails is [Panic].
      [PduSpec]: a receiver after 3GPP 23.040 that decodes each part on its own,
      the specification of the encoder.
    - [RateLimit] (modem/ratelimit.go): sliding windows, the limiter of a SIM
      and the registry of limiters, with the history of permitted sends as
      specification.
    - [Buffer] (buffer/buffer.go): the durable message buffer, over any SQL
      engine ([SqlEngine], with SQLite's documented behaviour as [SqlLaws] and
      an in-memory instance [memdb]); the abstract [inbox] it implements.
    - [Serializer] (at/serializer.go, at/csq.go): the AT command port.  The
      reader goroutine, the waiting command and the timers are interleaved by
      an explicit list of [event]s; the modem is the class [Modem].
    - [Protocol] (tunnel/protocol.go): messages and their JSON decoding.
      [Registry] (modem/registry.go, router/router.go, the Worker struct of
      modem/worker.go): workers on a heap, routing of tasks; the registry's
      Dispatch is the lookup ([workers]) and then the send ([Registry_send]).
    - [Worker] (modem/worker.go): every handler as an action on a [world]
      (worker, port, buffer, limiters, registry, pushed events, clock), the main
      loop as a run over [loop_event]s.  [WorkerFrame]: how handlers are
      composed; a relation the primitive actions respect is respected by all of
      them.  [WorkerSafety], [WorkerTasks], [WorkerSend]: its theorems.
    - [Supervisor] (modem/supervisor.go): restarts of a port's worker.
    - [Tunnel] (tunnel/manager.go): outbox, inbound messages, flush,
      acknowledgements, sessions, reconnection, over [session_event]s.
      [TunnelProps]: its theorems.  [Dial] (manager.go: dial, backOff): the
      request, and the pace of reconnection.
    - [Gateway] (gateway/gateway.go): all of it together, the steps of several
      supervised workers, the tunnel and the control API on one buffer, registry
      and table of limiters.  [GatewayWf]: its invariant.  [Concurrent]: the same
      with the goroutines of a session (writer, reader, flush, tickers) as state
      machines of their own: every write, every registration of an
      acknowledgement and every send of a task to the worker looked up is a
      step, the reader is blocked until its read returns, and a write that meets
      another one may panic.  [ConcurrentBounds]: what the tunnel keeps in memory
      over its runs; [ConcurrentTasks]: the ledger of tasks.  [Lifecycle] (gateway.go: Run and the handlers): routes and responses
      of the HTTP server, the scraper, the end of [Run].
    - [Program] (config/watcher.go, cmd/gateway/main.go): reload on SIGHUP, the
      command line, the logger.  [Metrics] (metrics/metrics.go): the metrics and
      their registration.  [Gsm7Gen] (at/gen_gsm7.go): the generator of the
      alphabet tables, and a reader of the source it prints.
    - Packages of the repository that the gateway does not call: [Breaker]
      (breaker/breaker.go), [Dedup] (dedup/dedup.go), [Dlq] (dlq/dlq.go, on
      [Slices], Go's slices over a shared store), [Diskqueue]
      (diskqueue/diskqueue.go, over a file system with failing and interrupted
      calls), [TokenBucket] (ratelimit/limiter.go, registry.go), [Webhook]
      (webhook/webhook.go), [Watchdog] (watchdog/watchdog.go), [TlsConfig]
      (tlsconfig/tlsconfig.go), [Modemspool] (modemspool/metrics.go).
    - [Backoff] (backoff/backoff.go) and [Safe] (safe/go.go), used by the tunnel,
      the webhook and the gateway.  [Float64]: IEEE double precision as rounded
      rational arithmetic, with error bounds.

    ** What is proved

    - Messages: an SMS stays on its SIM until it is in the buffer, and in the
      buffer until the cloud acknowledges it by the id it was stored under: per
      component ([sms_never_lost], [pending_until_acked], [only_acks_deliver])
      and for every interleaving of the gateway's goroutines and restarts of its
      workers ([concurrent_never_loses_sms]).  The buffer refines an inbox; a flush
      replays the queue in order, and empties it when it is acknowledged.
    - The composition: the running gateway stays well formed
      ([concurrent_well_formed]), every task is answered exactly once unless the
      outbox overflows ([tasks_answered_once]), a session ends when its reader's
      read returns and not before ([session_ends_with_read]), and the tunnel's
      memory is bounded ([tunnel_queues_bounded]).  The flush of [Tunnel] is a run
      of the goroutine of [Concurrent] ([flush_simulated]).  The HTTP server can
      request resets and nothing else; the waits between dials are bounded.
    - Codec: what a standard receiver reassembles from the encoder's parts is
      what was sent (GSM 7-bit, where no cut separates an escape from its code,
      and UCS-2), parts are numbered and sized without
      wrap-around, the decoder never panics and returns the fields of a
      well-formed message; the packers are inverse to the unpacker and agree
      with each other; the generated tables are those of the codec.
    - Limits: from one registration of a SIM to the next, no minute, hour or day
      sees more sends than configured, whatever the other SIMs do; the limiter
      answers exactly as its specification, and refuses without side effect.
    - AT port: a response is the modem's lines and nothing else, complete
      responses are returned, URCs survive any command, a timeout closes the
      port, the PDU waits for the prompt.
    - Tasks: each task accepted is acknowledged once and in order; each inbound
      task is queued or refused; the branches of SEND_SMS; routing.
    - Life cycle: only the expected SIM is put to work, a worker that leaves its
      loop is deregistered, a supervisor stops only for a ban or cancellation,
      loaded configurations are valid and made of environment, file and defaults
      field by field, a reload is never lost; [gateway_stops_after_30s] shows that
      [Run] returns thirty seconds after it has started.
    - The other packages against specifications: the dead-letter queue is a
      bounded FIFO whose drained entries are never overwritten, the disk queue a
      map of entries whose insertion is atomic under crashes, the deduplicator a
      bounded history, the breaker a cycle of trip, refusal and probe; the token
      bucket bounds the rate and recovers, rounding included; webhook delivery
      ends after three attempts; the watchdog pings while all probes pass.
    - Some lemmas record where the code does not do what it means to, each by
      evaluation on a concrete input, such as [decode_ignores_fill_bit],
      [scts_bcd_read_as_hex], [capacity_purge_loses_sms],
      [failed_worker_drops_queue], [gateway_stops_after_30s],
      [two_goroutines_write_at_once], [panic_leaves_session_without_writer],
      [task_sent_to_dead_worker], [unsolicited_line_loses_sms],
      [escape_split_between_parts], [same_pdu_second_sim_dropped] and
      [drain_error_loses_entries].

    ** Modelling choices

    - Concurrency is explicit: a schedule is a list of events, the theorems
      quantify over all schedules.  A handler of a worker is one step, the
      watchdog goroutine of a worker acts between handlers; the goroutines of a
      session are stepped between their blocking operations ([Concurrent]).
      Methods under a mutex are one step.
    - Schedules are finite lists, so every definition is structurally recursive
      and total; a schedule that ends while a command or a flush waits is the
      timeout, the one event that always comes.  Fuel is used only where text
      is scanned ([trim_left], [expand], [json_chars], [literals],
      [decode_gsm7_loop]) and is the length of the text; every round consumes a
      byte ([expand_fuel], and [expand_iff] for the result).
    - Integers are [Z]; where the code narrows or may overflow ([byte],
      [int32], the percentage of [checkCapacity], counters of 64 bits in
      [Breaker] and [Modemspool]) the wrap-around is written.  Other counters of
      events and times in nanoseconds are not wrapped.  Floating point is rounded
      at every operation; the sign of zero is not kept.
    - Code outside the repository is a parameter or a class: the SQL engine, the
      modem and its SIM ([SimStorage]: what is stored at an index stays there
      until a command deletes it; nothing is assumed about the answers to
      commands), the YAML decoder, the local calendar
      ([AddDays]), UUIDs, random draws, whether a write on the connection
      succeeds, HTTP and TLS, the growth of a slice, the text form of a time,
      the metrics registry.  Each class has an instance, used by the witnesses.
    - Upper case is that of ASCII ([ToUpper] of a PDU or an ICCID); lower case
      that of the letters whose lower case is an ASCII letter.  A rate limit below
      -1, for which [make] panics, gives a window that permits nothing.  Logs, metric updates and latency callbacks
      are left out.

    ** Not modelled

    The network side of the HTTP server, its pprof handlers and the goroutine
    dump on SIGUSR1; the installation of signal handlers; file modes; the
    no-op methods of the TCP port; updates of the metrics; what the WebSocket
    library sends when two goroutines write at once and it does not panic; the
    test helper modem/testutil.go. *)

From Stdlib Require Export ZArith Lia ZifyNat ZifyBool.
From stdpp Require Export base list list_numbers gmap strings.

Ltac Zify.zify_post_hook ::= Z.div_mod_to_equations.

Declare Scope go_scope.
Delimit Scope go_scope with go.

(** ** Outcomes of Go functions

    A Go function that returns [(T, error)] and may index or slice out of
    range has three outcomes: a value, an error value, or a run-time panic. *)

Inductive outcome (E A : Type) : Type :=
| Ok (a : A)
| Err (e : E)
| Panic.

Arguments Ok {E A} a.
Arguments Err {E A} e.
Arguments Panic {E A}.

#[global] Instance outcome_ret E : MRet (outcome E) := fun A a => Ok a.
#[global] Instance outcome_bind E : MBind (outcome E) := fun A B f m =>
  match m with
  | Ok a => f a
  | Err e => Err e
  | Panic => Panic
  end.

(** [guard_err b e]: the early return [if b { return nil, e }]. *)
Definition guard_err {E} (b : bool) (e : E) : outcome E () :=
  if b then Err e else Ok tt.

(** Indexing, slicing, storing and [make] with Go's run-time checks; indexes
    and lengths are [int]s and may be negative.  A slice expression may in Go
    reach up to the capacity; the model panics beyond the length, which is the
    stricter of the two. *)
Definition zlen {A} (l : list A) : Z := Z.of_nat (length l).

Definition go_index {E A} (l : list A) (i : Z) : outcome E A :=
  if (i <? 0)%Z then Panic else
  match l !! Z.to_nat i with
  | Some x => Ok x
  | None => Panic
  end.

Definition go_slice {E A} (l : list A) (a b : Z) : outcome E (list A) :=
  if ((0 <=? a) && (a <=? b) && (b <=? zlen l))%Z
  then Ok (take (Z.to_nat (b - a)) (drop (Z.to_nat a) l)) else Panic.

Definition go_store {E A} (l : list A) (i : Z) (x : A) : outcome E (list A) :=
  if ((0 <=? i) && (i <? zlen l))%Z then Ok (<[Z.to_nat i := x]> l) else Panic.

Definition go_make {E A} (n : Z) (x : A) : outcome E (list A) :=
  if (n <? 0)%Z then Panic else Ok (replicate (Z.to_nat n) x).

Notation "l .[ i ]" := (go_index l i)
  (at level 1, left associativity, format "l .[ i ]") : go_scope.
Notation "l .[: a , b ]" := (go_slice l a b)
  (at level 1, left associativity, format "l .[: a , b ]") : go_scope.

Definition no_panic {E A} (m : outcome E A) : Prop := m <> Panic.

Lemma no_panic_Ok {E A} (a : A) : @no_panic E A (Ok a).
Proof. discriminate. Qed.

Lemma no_panic_Err {E A} (e : E) : @no_panic E A (Err e).
Proof. discriminate. Qed.

Lemma no_panic_bind {E A B} (m : outcome E A) (f : A -> outcome E B) :
  no_panic m -> (forall a, m = Ok a -> no_panic (f a)) -> no_panic (m ≫= f).
Proof. destruct m; cbn; intros Hm Hf; [by apply Hf | discriminate | done]. Qed.

Lemma no_panic_guard_err {E} (b : bool) (e : E) : no_panic (guard_err b e).
Proof. by destruct b. Qed.

Lemma guard_err_Ok {E} (b : bool) (e : E) u : guard_err b e = Ok u -> b = false.
Proof. by destruct b. Qed.

Lemma go_index_Ok {E A} (l : list A) i x : l !! i = Some x -> @go_index E A l (Z.of_nat i) = Ok x.
Proof. intros H. unfold go_index. replace (Z.of_nat i <? 0)%Z with false by lia. by rewrite Nat2Z.id, H. Qed.

Lemma go_index_at {E A} (l : list A) i x k : k = Z.of_nat i -> l !! i = Some x -> @go_index E A l k = Ok x.
Proof. intros -> H. by apply go_index_Ok. Qed.

Lemma go_slice_Ok {E A} (l : list A) a b :
  a <= b -> b <= length l -> @go_slice E A l (Z.of_nat a) (Z.of_nat b) = Ok (take (b - a) (drop a l)).
Proof.
  intros Ha Hb. unfold go_slice, zlen. destruct (_ && _) eqn:E1; [|lia]. do 2 f_equal; [lia|f_equal; lia].
Qed.

Lemma no_panic_index {E A} (l : list A) i : (0 <= i < zlen l)%Z -> @no_panic E A (go_index l i).
Proof.
  unfold zlen. intros Hi. unfold go_index. replace (i <? 0)%Z with false by lia.
  destruct (lookup_lt_is_Some_2 l (Z.to_nat i) ltac:(lia)) as [x ->]. discriminate.
Qed.

Lemma no_panic_slice {E A} (l : list A) a b :
  (0 <= a <= b)%Z -> (b <= zlen l)%Z -> @no_panic E _ (go_slice l a b).
Proof. intros Ha Hb. unfold go_slice. destruct (_ && _) eqn:E1; [discriminate | lia]. Qed.

(** What an index or slice expression yields comes from its operand. *)
Lemma go_index_Forall {E A} (P : A -> Prop) (l : list A) i x :
  Forall P l -> @go_index E A l i = Ok x -> P x.
Proof.
  intros Hl. unfold go_index. destruct (i <? 0)%Z; [done|]. destruct (l !! _) eqn:E1; [|done].
  intros [= ->]. by eapply Forall_lookup in Hl.
Qed.

Lemma go_slice_Forall {E A} (P : A -> Prop) (l : list A) a b r :
  Forall P l -> @go_slice E A l a b = Ok r -> Forall P r.
Proof.
  intros Hl. unfold go_slice. destruct (_ && _); [|done]. intros [= <-]. by apply Forall_take, Forall_drop.
Qed.

Lemma go_slice_length {E A} (l : list A) a b r : @go_slice E A l a b = Ok r -> zlen r = (b - a)%Z.
Proof.
  unfold go_slice, zlen. destruct (_ && _) eqn:E1; [|done]. intros [= <-].
  rewrite length_take, length_drop. lia.
Qed.

Create HintDb gosafe.
#[export] Hint Resolve no_panic_Ok no_panic_Err no_panic_guard_err : gosafe.

(** [go_safe] walks a monadic function and leaves the range conditions of its
    index and slice expressions. *)
Ltac go_safe :=
  repeat first
    [ progress auto with gosafe
    | apply no_panic_index
    | apply no_panic_slice
    | apply no_panic_bind; [ | let x := fresh "x" in let H := fresh "Hx" in intros x H;
                               try apply guard_err_Ok in H; cbv beta ]
    | match goal with |- no_panic (let '(_, _) := ?p in _) => destruct p end ].

(** Decides a closed proposition by evaluating its [Decision] instance. *)
Ltac by_eval := apply (bool_decide_unpack _); vm_compute; exact I.

(** ** Machine integers *)

Definition is_byte (b : Z) : Prop := (0 <= b < 256)%Z.
Definition is_septet (b : Z) : Prop := (0 <= b < 128)%Z.

#[global] Instance is_byte_dec b : Decision (is_byte b) := _.
#[global] Instance is_septet_dec b : Decision (is_septet b) := _.

(** The conversion [byte(x)], and the byte shift [x << n], which both drop the
    bits above the eighth. *)
Definition to_byte (z : Z) : Z := (z mod 256)%Z.
Definition byte_shl (b n : Z) : Z := to_byte (Z.shiftl b n).

(** Signed 64-bit range of Go's [int] and [int64] on the supported targets. *)
Definition in_int64 (z : Z) : bool := ((-9223372036854775808 <=? z) && (z <=? 9223372036854775807))%Z.

Lemma is_byte_to_byte z : is_byte (to_byte z).
Proof. unfold is_byte, to_byte. lia. Qed.

Lemma to_byte_id b : is_byte b -> to_byte b = b.
Proof. unfold is_byte, to_byte. intros. lia. Qed.

Lemma septet_byte b : is_septet b -> is_byte b.
Proof. unfold is_byte, is_septet. lia. Qed.

Lemma testbit_small (k b n : Z) :
  (0 <= b < 2 ^ k)%Z -> (0 <= k <= n)%Z -> Z.testbit b n = false.
Proof.
  intros Hb Hk. destruct (decide (b = 0)%Z) as [-> | Hz]; [apply Z.testbit_0_l|].
  apply Z.bits_above_log2; [lia|].
  apply Z.lt_le_trans with k; [|lia]. apply Z.log2_lt_pow2; lia.
Qed.

Lemma testbit_byte b n : is_byte b -> (8 <= n)%Z -> Z.testbit b n = false.
Proof. intros Hb Hn. apply (testbit_small 8); unfold is_byte in *; lia. Qed.

Lemma testbit_septet b n : is_septet b -> (7 <= n)%Z -> Z.testbit b n = false.
Proof. intros Hb Hn. apply (testbit_small 7); unfold is_septet in *; lia. Qed.

Lemma testbit_to_byte z n :
  (0 <= n)%Z -> Z.testbit (to_byte z) n = (n <? 8)%Z && Z.testbit z n.
Proof.
  intros Hn. unfold to_byte. change 256%Z with (2 ^ 8)%Z.
  destruct (Z.ltb_spec n 8).
  - rewrite Z.mod_pow2_bits_low by lia. done.
  - rewrite Z.mod_pow2_bits_high by lia. done.
Qed.

Lemma testbit_byte_shl b s n :
  (0 <= s)%Z -> (0 <= n)%Z ->
  Z.testbit (byte_shl b s) n = (n <? 8)%Z && (s <=? n)%Z && Z.testbit b (n - s).
Proof.
  intros Hs Hn. unfold byte_shl. rewrite testbit_to_byte by done.
  rewrite Z.shiftl_spec by done.
  destruct (Z.leb_spec s n); rewrite ?andb_true_r, ?andb_false_r; [done|].
  rewrite Z.testbit_neg_r by lia. by rewrite andb_false_r.
Qed.

Lemma testbit_mask7 b n : (0 <= n)%Z -> Z.testbit (Z.land b 127) n = (n <? 7)%Z && Z.testbit b n.
Proof.
  intros Hn. change 127%Z with (Z.ones 7). rewrite Z.land_spec, Z.testbit_ones by lia.
  destruct (Z.ltb_spec n 7), (Z.leb_spec 0 n); try lia; by destruct (Z.testbit b n).
Qed.

(** Two numbers below [2^k] are equal when their [k] low bits agree. *)
Lemma bits_ext (k a b : Z) :
  (0 <= k)%Z -> (0 <= a < 2 ^ k)%Z -> (0 <= b < 2 ^ k)%Z ->
  (forall n, (0 <= n < k)%Z -> Z.testbit a n = Z.testbit b n) -> a = b.
Proof.
  intros Hk Ha Hb H. apply Z.bits_inj'. intros n Hn.
  destruct (Z.lt_ge_cases n k); [apply H; lia|].
  rewrite (testbit_small k a), (testbit_small k b) by lia. done.
Qed.

Lemma lor_bound (k a b : Z) :
  (0 <= k)%Z -> (0 <= a < 2 ^ k)%Z -> (0 <= b < 2 ^ k)%Z -> (0 <= Z.lor a b < 2 ^ k)%Z.
Proof.
  intros Hk Ha Hb. replace (Z.lor a b) with (Z.lor a b mod 2 ^ k)%Z.
  - apply Z.mod_pos_bound. lia.
  - apply Z.bits_inj'. intros n Hn. destruct (Z.lt_ge_cases n k).
    + by rewrite Z.mod_pow2_bits_low by lia.
    + rewrite Z.mod_pow2_bits_high, Z.lor_spec by lia.
      by rewrite (testbit_small k a), (testbit_small k b) by lia.
Qed.

Lemma is_byte_lor a b : is_byte a -> is_byte b -> is_byte (Z.lor a b).
Proof. unfold is_byte. change 256%Z with (2 ^ 8)%Z. apply lor_bound. lia. Qed.

Lemma is_byte_shiftr b n : is_byte b -> (0 <= n)%Z -> is_byte (Z.shiftr b n).
Proof.
  unfold is_byte. intros Hb Hn. rewrite Z.shiftr_div_pow2 by done. split.
  - apply Z.div_pos; lia.
  - apply Z.le_lt_trans with b; [|lia]. apply Z.div_le_upper_bound; [lia|]. nia.
Qed.

#[export] Hint Resolve is_byte_to_byte septet_byte is_byte_lor is_byte_shiftr : gosafe.

(** ** Error values

    An [error] is kept as the tree the code builds: the format of an
    [errors.New] or [fmt.Errorf] call, its printed arguments and, in [Wrapf],
    the wrapped ([%w]) cause.  [WrapV] is [fmt.Errorf("%w: %v", cause, detail)], [ATError]
    the struct of the same name (internal/at/serializer.go). *)

Inductive go_error : Type :=
| Errorf (fmt : string) (args : list string)
| Wrapf (fmt : string) (args : list string) (cause : go_error)
| WrapV (cause detail : go_error)
| ATError (Cmd : string) (Cause : go_error) (Raw : string).

Definition errors_New (msg : string) : go_error := Errorf msg [].

(** [errors.Is(e, errors.New(msg))] for a package-level sentinel. *)
Fixpoint errors_Is (e : go_error) (msg : string) : bool :=
  match e with
  | Errorf fmt args => String.eqb fmt msg && bool_decide (args = [])
  | Wrapf _ _ c => errors_Is c msg
  | WrapV c _ => errors_Is c msg
  | ATError _ c _ => errors_Is c msg
  end.

(** The results [(T, error)] of code that cannot panic. *)
Definition res (A : Type) : Type := (go_error + A)%type.

(** ** Lists *)

Lemma Forall_filter {A} (P Q : A -> Prop) `{!forall x, Decision (Q x)} l :
  Forall P l -> Forall P (filter Q l).
Proof. rewrite !Forall_forall. intros HP x [_ Hx]%list_elem_of_filter. by apply HP. Qed.

(** The last [n] elements: what a bounded queue that evicts its oldest entry
    still holds of all that was pushed. *)
Definition keep_last {A} (n : nat) (l : list A) : list A := drop (length l - n) l.

Lemma length_keep_last {A} n (l : list A) : length (keep_last n l) = length l `min` n.
Proof. unfold keep_last. rewrite length_drop. lia. Qed.

(** Evicting the head of a full queue before appending keeps the last [n]. *)
Lemma keep_last_snoc {A} n (l : list A) x :
  1 <= n ->
  (if n <=? length (keep_last n l) then drop 1 (keep_last n l) else keep_last n l) ++ [x]
  = keep_last n (l ++ [x]).
Proof.
  intros Hn. rewrite length_keep_last. unfold keep_last. rewrite length_app. cbn [length].
  destruct (Nat.leb_spec n (length l `min` n)).
  - rewrite drop_drop, drop_app_le by lia. do 2 f_equal. lia.
  - rewrite drop_app_le by lia. do 2 f_equal. lia.
Qed.

(** ** Wrap-around of signed integers *)

Definition wrap (bits : Z) (z : Z) : Z :=
  ((z + 2 ^ (bits - 1)) mod 2 ^ bits - 2 ^ (bits - 1))%Z.
Definition to_int32 (z : Z) : Z := wrap 32 z.
Definition to_int64 (z : Z) : Z := wrap 64 z.

Lemma to_int64_id z : in_int64 z = true -> to_int64 z = z.
Proof.
  unfold in_int64, to_int64, wrap. change (2 ^ (64 - 1))%Z with 9223372036854775808%Z.
  change (2 ^ 64)%Z with 18446744073709551616%Z. lia.
Qed.

(** ** Stateful code

    A function on a state [S] with a result: methods that update their
    receiver and the resources it owns. *)

Definition st (S A : Type) : Type := S -> S * A.

#[global] Instance st_ret S : MRet (st S) := fun A a s => (s, a).
#[global] Instance st_bind S : MBind (st S) := fun A B f m s => let '(s, a) := m s in f a s.

Definition st_get {S A} (f : S -> A) : st S A := fun s => (s, f s).
Definition st_modify {S} (f : S -> S) : st S () := fun s => (f s, tt).

(** ** Relations an action respects *)

Definition preserves {S A} (R : S -> S -> Prop) (a : st S A) : Prop := forall s, R s (a s).1.

Section Preserves.
Context {S : Type} (R : S -> S -> Prop) `{!PreOrder R}.

Lemma preserves_ret {A} (x : A) : preserves R (mret x).
Proof. intros s. reflexivity. Qed.

Lemma preserves_get {A} (f : S -> A) : preserves R (st_get f).
Proof. intros s. reflexivity. Qed.

Lemma preserves_bind {A B} (m : st S A) (f : A -> st S B) :
  preserves R m -> (forall a, preserves R (f a)) -> preserves R (m ≫= f).
Proof.
  intros Hm Hf s. unfold mbind, st_bind. specialize (Hm s). destruct (m s) as [s1 a]. cbn in Hm.
  etransitivity; [exact Hm|apply Hf].
Qed.

Lemma preserves_modify f : (forall s, R s (f s)) -> preserves R (st_modify f).
Proof. intros Hf s. apply Hf. Qed.
End Preserves.
