(* ===== verification/GoString.v ===== *)
(** * Go strings

    A Go [string] is an immutable sequence of bytes, which is what the standard
    library's [string] is here; a [[]byte] is a [list Z] of numbers below 256.
    This file models the language operations on strings the gateway uses
    ([range] over runes, [[]rune(s)], [string(runes)]) and the functions of
    [strings], [strconv], [fmt] and [encoding/hex] it calls, with the round
    trips the PDU codec builds on. *)

From S2P Require Import Prelude.
From stdpp Require Export pretty.
From Stdlib Require Import Ascii.

(** ** Bytes *)

Definition byte_of_ascii (a : ascii) : Z := Z.of_N (N_of_ascii a).
Definition ascii_of_byte (b : Z) : ascii := ascii_of_N (Z.to_N b).

(** [[]byte(s)] and [string(b)]. *)
Fixpoint bytes_of (s : string) : list Z :=
  match s with
  | EmptyString => []
  | String a s => byte_of_ascii a :: bytes_of s
  end.

Fixpoint string_of (l : list Z) : string :=
  match l with
  | [] => EmptyString
  | b :: l => String (ascii_of_byte b) (string_of l)
  end.

(** ** UTF-8

    The decoder yields U+FFFD with width one on every invalid sequence, as
    [range] over a string and [[]rune(s)] do; the encoder replaces surrogates
    and out-of-range values by U+FFFD, as [string(runes)] and [WriteRune] do. *)

Definition rune_error : Z := 65533.

Definition valid_rune (r : Z) : bool :=
  ((0 <=? r) && (r <=? 1114111) && negb ((55296 <=? r) && (r <=? 57343)))%Z.

Definition is_cont (b : Z) : bool := ((128 <=? b) && (b <=? 191))%Z.

(** Second-byte ranges of three- and four-byte sequences (the decoder's accept ranges). *)
Definition accept3 (b0 b1 : Z) : bool :=
  ((if b0 =? 224 then 160 <=? b1 else 128 <=? b1) && (if b0 =? 237 then b1 <=? 159 else b1 <=? 191))%Z.
Definition accept4 (b0 b1 : Z) : bool :=
  ((if b0 =? 240 then 144 <=? b1 else 128 <=? b1) && (if b0 =? 244 then b1 <=? 143 else b1 <=? 191))%Z.

Fixpoint utf8_decode (l : list Z) : list Z :=
  match l with
  | [] => []
  | b0 :: l0 =>
    if (b0 <? 128)%Z then b0 :: utf8_decode l0 else
    match l0 with
    | [] => rune_error :: utf8_decode l0
    | b1 :: l1 =>
      if ((194 <=? b0) && (b0 <=? 223) && is_cont b1)%Z
      then ((b0 - 192) * 64 + (b1 - 128))%Z :: utf8_decode l1 else
      match l1 with
      | [] => rune_error :: utf8_decode l0
      | b2 :: l2 =>
        if ((224 <=? b0) && (b0 <=? 239) && accept3 b0 b1 && is_cont b2)%Z
        then ((b0 - 224) * 4096 + (b1 - 128) * 64 + (b2 - 128))%Z :: utf8_decode l2 else
        match l2 with
        | [] => rune_error :: utf8_decode l0
        | b3 :: l3 =>
          if ((240 <=? b0) && (b0 <=? 244) && accept4 b0 b1 && is_cont b2 && is_cont b3)%Z
          then ((b0 - 240) * 262144 + (b1 - 128) * 4096 + (b2 - 128) * 64 + (b3 - 128))%Z
               :: utf8_decode l3
          else rune_error :: utf8_decode l0
        end
      end
    end
  end.

Definition utf8_encode_rune (r0 : Z) : list Z :=
  let r := if valid_rune r0 then r0 else rune_error in
  if (r <? 128)%Z then [r]
  else if (r <? 2048)%Z then [192 + r / 64; 128 + r mod 64]%Z
  else if (r <? 65536)%Z then [224 + r / 4096; 128 + r / 64 mod 64; 128 + r mod 64]%Z
  else [240 + r / 262144; 128 + r / 4096 mod 64; 128 + r / 64 mod 64; 128 + r mod 64]%Z.

Definition utf8_encode (rs : list Z) : list Z := flat_map utf8_encode_rune rs.

(** [[]rune(s)] (and the runes [range s] visits), and [string(runes)]. *)
Definition runes_of (s : string) : list Z := utf8_decode (bytes_of s).
Definition string_of_runes (rs : list Z) : string := string_of (utf8_encode rs).

(** ** encoding/hex *)

Definition hex_digit (n : Z) : Z := if (n <? 10)%Z then (48 + n)%Z else (97 + (n - 10))%Z.

(** [hex.EncodeToString] (lower case). *)
Definition hex_encode (l : list Z) : list Z :=
  flat_map (fun b => [hex_digit (b / 16); hex_digit (b mod 16)]%Z) l.

Definition from_hex_char (c : Z) : option Z :=
  if ((48 <=? c) && (c <=? 57))%Z then Some (c - 48)%Z
  else if ((97 <=? c) && (c <=? 102))%Z then Some (c - 97 + 10)%Z
  else if ((65 <=? c) && (c <=? 70))%Z then Some (c - 65 + 10)%Z
  else None.

(** [hex.DecodeString]: [None] on an odd length or a character that is no hex digit. *)
Fixpoint hex_decode (l : list Z) : option (list Z) :=
  match l with
  | [] => Some []
  | c1 :: c2 :: l =>
    match from_hex_char c1, from_hex_char c2, hex_decode l with
    | Some a, Some b, Some r => Some ((16 * a + b)%Z :: r)
    | _, _, _ => None
    end
  | [_] => None
  end.

(** ** strings *)

(** [strings.ToUpper] on ASCII letters; bytes from 128 up are left unchanged
    (Go also maps letters beyond ASCII). *)
Definition upper_byte (b : Z) : Z := if ((97 <=? b) && (b <=? 122))%Z then (b - 32)%Z else b.
Definition ToUpper (s : string) : string := string_of (map upper_byte (bytes_of s)).

Definition lower_byte (b : Z) : Z := if ((65 <=? b) && (b <=? 90))%Z then (b + 32)%Z else b.

(** [strings.ToLower] on ASCII letters and on the two other runes whose lower
    case is one (U+0130 and U+212A); the other runes are left unchanged, their
    lower case is not an ASCII letter. *)
Definition lower_rune (r : Z) : Z :=
  if (r =? 304)%Z then 105%Z else if (r =? 8490)%Z then 107%Z else lower_byte r.
Definition ToLower (s : string) : string := string_of_runes (map lower_rune (runes_of s)).

(** The UTF-8 encodings of the runes [unicode.IsSpace] accepts. *)
Definition space_seqs : list (list Z) :=
  [[9]; [10]; [11]; [12]; [13]; [32]; [194; 133]; [194; 160]; [225; 154; 128];
   [226; 128; 128]; [226; 128; 129]; [226; 128; 130]; [226; 128; 131]; [226; 128; 132];
   [226; 128; 133]; [226; 128; 134]; [226; 128; 135]; [226; 128; 136]; [226; 128; 137];
   [226; 128; 138]; [226; 128; 168]; [226; 128; 169]; [226; 128; 175]; [226; 129; 159];
   [227; 128; 128]]%Z.

Fixpoint strip_list (p l : list Z) : option (list Z) :=
  match p, l with
  | [], _ => Some l
  | a :: p, b :: l => if (a =? b)%Z then strip_list p l else None
  | _ :: _, [] => None
  end.

Fixpoint strip_first (ps : list (list Z)) (l : list Z) : option (list Z) :=
  match ps with
  | [] => None
  | p :: ps => match strip_list p l with Some r => Some r | None => strip_first ps l end
  end.

Fixpoint trim_left (fuel : nat) (ps : list (list Z)) (l : list Z) : list Z :=
  match fuel with
  | O => l
  | S fuel => match strip_first ps l with Some r => trim_left fuel ps r | None => l end
  end.

(** [strings.TrimSpace]: every round of [trim_left] removes at least one byte,
    so the length of the string is enough fuel. *)
Definition TrimSpace (s : string) : string :=
  let l := bytes_of s in
  let l1 := trim_left (length l) space_seqs l in
  string_of (rev (trim_left (length l1) (map (@rev Z) space_seqs) (rev l1))).

Fixpoint strip_prefix (p s : string) : option string :=
  match p, s with
  | EmptyString, _ => Some s
  | String a p, String b s => if Ascii.eqb a b then strip_prefix p s else None
  | String _ _, EmptyString => None
  end.

Definition HasPrefix (s p : string) : bool :=
  match strip_prefix p s with Some _ => true | None => false end.
Definition TrimPrefix (s p : string) : string := default s (strip_prefix p s).

(** [strings.TrimRight(s, "\r")]. *)
Definition TrimRightCR (s : string) : string :=
  let l := rev (bytes_of s) in
  string_of (rev (trim_left (length l) [[13%Z]] l)).

(** [strings.Split] on a one-byte separator, [strings.Contains] of one byte, and
    [strings.ReplaceAll(s, " ", "")]. *)
Fixpoint Split (sep : ascii) (s : string) : list string :=
  match s with
  | EmptyString => [EmptyString]
  | String a s =>
    if Ascii.eqb a sep then EmptyString :: Split sep s
    else match Split sep s with
         | [] => [String a EmptyString]
         | w :: ws => String a w :: ws
         end
  end.

Fixpoint ContainsByte (s : string) (c : ascii) : bool :=
  match s with
  | EmptyString => false
  | String a s => Ascii.eqb a c || ContainsByte s c
  end.

Fixpoint remove_byte (c : ascii) (s : string) : string :=
  match s with
  | EmptyString => EmptyString
  | String a s => if Ascii.eqb a c then remove_byte c s else String a (remove_byte c s)
  end.

(** ** strconv and fmt *)

Definition is_digit (b : Z) : bool := ((48 <=? b) && (b <=? 57))%Z.

(** The longest run of decimal digits, as a number with its count of digits, and the rest. *)
Fixpoint scan_digits (acc : Z) (n : nat) (l : list Z) : Z * nat * list Z :=
  match l with
  | b :: l' => if is_digit b then scan_digits (10 * acc + (b - 48)) (S n) l' else (acc, n, l)
  | [] => (acc, n, l)
  end.

(** An optional sign. *)
Definition scan_sign (l : list Z) : bool * list Z :=
  match l with
  | 43%Z :: l => (false, l)
  | 45%Z :: l => (true, l)
  | _ => (false, l)
  end.

Definition scan_signed (l : list Z) : option (Z * list Z) :=
  let '(neg, l) := scan_sign l in
  let '(v, n, rest) := scan_digits 0 0 l in
  let z := if neg then (- v)%Z else v in
  if (n =? 0) || negb (in_int64 z) then None else Some (z, rest).

(** [strconv.Atoi]: the whole string, in the range of [int]. *)
Definition Atoi (s : string) : option Z :=
  match scan_signed (bytes_of s) with
  | Some (z, []) => Some z
  | _ => None
  end.

(** The leading blanks [Sscanf] skips before a [%d]; a newline there is an error
    ([Sscanf] does not treat newlines as space). *)
Definition skip_blank (l : list Z) : option (list Z) :=
  let l' := trim_left (length l) (filter (fun p => bool_decide (p <> [10%Z])) space_seqs) l in
  match l' with
  | 10%Z :: _ => None
  | _ => Some l'
  end.

(** One [%d] of [fmt.Sscanf]. *)
Definition scan_d (l : list Z) : option (Z * list Z) :=
  l ← skip_blank l; scan_signed l.

(** [fmt.Sprintf("%d", z)]. *)
Definition itoa (z : Z) : string := pretty z.

(** ** Lemmas: bytes *)

Lemma byte_of_ascii_of_byte b : is_byte b -> byte_of_ascii (ascii_of_byte b) = b.
Proof.
  unfold is_byte, byte_of_ascii, ascii_of_byte. intros Hb.
  rewrite N_ascii_embedding by lia. lia.
Qed.

Lemma ascii_of_byte_of_ascii a : ascii_of_byte (byte_of_ascii a) = a.
Proof. unfold byte_of_ascii, ascii_of_byte. by rewrite N2Z.id, ascii_N_embedding. Qed.

Lemma is_byte_of_ascii a : is_byte (byte_of_ascii a).
Proof. unfold is_byte, byte_of_ascii. pose proof (N_ascii_bounded a). lia. Qed.

Lemma bytes_of_is_byte s : Forall is_byte (bytes_of s).
Proof. induction s; constructor; auto using is_byte_of_ascii. Qed.

Lemma bytes_of_string_of l : Forall is_byte l -> bytes_of (string_of l) = l.
Proof. induction 1; cbn; [done|]. by rewrite byte_of_ascii_of_byte, IHForall. Qed.

Lemma string_of_bytes_of s : string_of (bytes_of s) = s.
Proof. induction s; cbn; [done|]. by rewrite ascii_of_byte_of_ascii, IHs. Qed.

Lemma bytes_of_app s1 s2 : bytes_of (s1 +:+ s2) = bytes_of s1 ++ bytes_of s2.
Proof. induction s1 as [|a s1 IH]; [done|]. change (String a s1 +:+ s2) with (String a (s1 +:+ s2)). cbn. by rewrite IH. Qed.

Lemma string_of_app l1 l2 : string_of (l1 ++ l2) = string_of l1 +:+ string_of l2.
Proof.
  induction l1 as [|b l1 IH]; [done|]. cbn. rewrite IH. done.
Qed.

Lemma bytes_of_inj s1 s2 : bytes_of s1 = bytes_of s2 -> s1 = s2.
Proof. intros H. by rewrite <- (string_of_bytes_of s1), H, string_of_bytes_of. Qed.

Lemma string_app_assoc a b c : (a +:+ b) +:+ c = a +:+ (b +:+ c).
Proof. apply bytes_of_inj. by rewrite !bytes_of_app, app_assoc. Qed.

Lemma string_app_inv_r a b c : a +:+ c = b +:+ c -> a = b.
Proof. intros H%(f_equal bytes_of). rewrite !bytes_of_app in H. apply bytes_of_inj. by apply app_inv_tail in H. Qed.

Lemma string_app_inv_l a b c : c +:+ a = c +:+ b -> a = b.
Proof. intros H%(f_equal bytes_of). rewrite !bytes_of_app in H. apply bytes_of_inj. by apply app_inv_head in H. Qed.

Lemma length_bytes_of s : length (bytes_of s) = String.length s.
Proof. induction s; cbn; congruence. Qed.

(** ** Lemmas: UTF-8 *)

Lemma utf8_encode_rune_byte r : Forall is_byte (utf8_encode_rune r).
Proof.
  unfold utf8_encode_rune. set (r' := if valid_rune r then r else rune_error).
  assert (Hv : valid_rune r' = true) by (subst r'; by destruct (valid_rune r) eqn:?).
  clearbody r'. unfold valid_rune in Hv.
  repeat case_match; repeat constructor; unfold is_byte; lia.
Qed.

Lemma utf8_encode_byte rs : Forall is_byte (utf8_encode rs).
Proof.
  induction rs; cbn; [done|]. apply Forall_app. auto using utf8_encode_rune_byte.
Qed.

Lemma utf8_decode_encode_rune r l :
  valid_rune r = true -> utf8_decode (utf8_encode_rune r ++ l) = r :: utf8_decode l.
Proof.
  intros Hv. unfold utf8_encode_rune. rewrite Hv. unfold valid_rune in Hv.
  destruct (Z.ltb_spec r 128); [|destruct (Z.ltb_spec r 2048); [|destruct (Z.ltb_spec r 65536)]];
    cbn [app utf8_decode].
  - by replace (r <? 128)%Z with true by lia.
  - replace (192 + r / 64 <? 128)%Z with false by lia.
    replace (_ && is_cont _) with true by (unfold is_cont; lia). f_equal. lia.
  - replace (224 + r / 4096 <? 128)%Z with false by lia.
    replace ((194 <=? 224 + r / 4096)%Z && _ && is_cont _) with false by (unfold is_cont; lia).
    replace (_ && accept3 _ _ && is_cont _) with true
      by (unfold is_cont, accept3; repeat case_match; lia).
    f_equal. lia.
  - replace (240 + r / 262144 <? 128)%Z with false by lia.
    replace ((194 <=? 240 + r / 262144)%Z && _ && is_cont _) with false by (unfold is_cont; lia).
    replace ((224 <=? 240 + r / 262144)%Z && _ && accept3 _ _ && is_cont _) with false by lia.
    replace (_ && accept4 _ _ && is_cont _ && is_cont _) with true
      by (unfold is_cont, accept4; repeat case_match; lia).
    f_equal. lia.
Qed.

(** Encoding valid runes and decoding them gives them back. *)
Lemma utf8_decode_encode rs :
  Forall (fun r => valid_rune r = true) rs -> utf8_decode (utf8_encode rs) = rs.
Proof.
  induction 1; cbn; [done|]. rewrite utf8_decode_encode_rune by done. by f_equal.
Qed.

Lemma runes_of_string_of_runes rs :
  Forall (fun r => valid_rune r = true) rs -> runes_of (string_of_runes rs) = rs.
Proof.
  intros H. unfold runes_of, string_of_runes.
  rewrite bytes_of_string_of by apply utf8_encode_byte. by apply utf8_decode_encode.
Qed.

(** One step of the decoder: either it reports U+FFFD, or it consumes the
    encoding of the rune it yields. *)
Lemma utf8_decode_step b0 l :
  Forall is_byte (b0 :: l) ->
  utf8_decode (b0 :: l) = rune_error :: utf8_decode l \/
  exists r l', utf8_decode (b0 :: l) = r :: utf8_decode l' /\ valid_rune r = true /\
               b0 :: l = utf8_encode_rune r ++ l' /\ length l' <= length l.
Proof.
  intros Hb. cbn [utf8_decode].
  destruct (Z.ltb_spec b0 128).
  { right. exists b0, l. inversion Hb as [|? ? Hb0 _]; unfold is_byte in Hb0; subst.
    assert (Hv : valid_rune b0 = true) by (unfold valid_rune; lia).
    repeat split; auto. unfold utf8_encode_rune. rewrite Hv. by replace (b0 <? 128)%Z with true by lia. }
  destruct l as [|b1 l1]; [by left|].
  destruct (_ && is_cont b1) eqn:E2.
  { right. eexists _, l1. split; [done|]. unfold is_cont in E2.
    set (r := ((b0 - 192) * 64 + (b1 - 128))%Z).
    assert (Hv : valid_rune r = true) by (unfold valid_rune; lia).
    repeat split; [done| |cbn; lia]. unfold utf8_encode_rune. rewrite Hv.
    replace (r <? 128)%Z with false by lia. replace (r <? 2048)%Z with true by lia.
    cbn. repeat f_equal; lia. }
  destruct l1 as [|b2 l2]; [by left|].
  destruct (_ && accept3 b0 b1 && is_cont b2) eqn:E3.
  { right. eexists _, l2. split; [done|]. unfold is_cont, accept3 in E3.
    set (r := ((b0 - 224) * 4096 + (b1 - 128) * 64 + (b2 - 128))%Z).
    assert (Hr : (2048 <= r < 65536 /\ valid_rune r = true)%Z)
      by (unfold valid_rune; repeat case_match; lia).
    destruct Hr as [Hr Hv]. repeat split; [done| |cbn; lia]. unfold utf8_encode_rune. rewrite Hv.
    replace (r <? 128)%Z with false by lia. replace (r <? 2048)%Z with false by lia.
    replace (r <? 65536)%Z with true by lia.
    cbn. repeat f_equal; repeat case_match; lia. }
  destruct l2 as [|b3 l3]; [by left|].
  destruct (_ && accept4 b0 b1 && is_cont b2 && is_cont b3) eqn:E4; [|by left].
  right. eexists _, l3. split; [done|]. unfold is_cont, accept4 in E4.
  set (r := ((b0 - 240) * 262144 + (b1 - 128) * 4096 + (b2 - 128) * 64 + (b3 - 128))%Z).
  assert (Hr : (65536 <= r /\ valid_rune r = true)%Z) by (unfold valid_rune; repeat case_match; lia).
  destruct Hr as [Hr Hv]. repeat split; [done| |cbn; lia]. unfold utf8_encode_rune. rewrite Hv.
  replace (r <? 128)%Z with false by lia. replace (r <? 2048)%Z with false by lia.
  replace (r <? 65536)%Z with false by lia.
  cbn. repeat f_equal; repeat case_match; lia.
Qed.

Lemma valid_rune_error : valid_rune rune_error = true.
Proof. done. Qed.

(** The runes of any string are valid, ... *)
Lemma utf8_decode_valid l :
  Forall is_byte l -> Forall (fun r => valid_rune r = true) (utf8_decode l).
Proof.
  induction l as [l IH] using (induction_ltof1 _ (@length Z)); unfold ltof in IH.
  destruct l as [|b l]; [done|]. intros Hb.
  destruct (utf8_decode_step b l Hb) as [-> | (r & l' & -> & Hv & Heq & Hlen)].
  - constructor; [done|]. apply IH; [cbn; lia|]. by inversion Hb.
  - constructor; [done|]. apply IH; [cbn; lia|]. rewrite Heq in Hb. by apply Forall_app in Hb as [_ ?].
Qed.

(** ... and a string whose runes contain no U+FFFD is the encoding of its runes. *)
Lemma utf8_encode_decode l :
  Forall is_byte l -> rune_error ∉ utf8_decode l -> utf8_encode (utf8_decode l) = l.
Proof.
  induction l as [l IH] using (induction_ltof1 _ (@length Z)); unfold ltof in IH.
  destruct l as [|b l]; [done|]. intros Hb.
  destruct (utf8_decode_step b l Hb) as [-> | (r & l' & -> & Hv & Heq & Hlen)].
  - intros Hn. exfalso. apply Hn. by left.
  - intros Hn. apply not_elem_of_cons in Hn as [_ Hn]. cbn [utf8_encode flat_map].
    rewrite Heq. f_equal. apply IH; [cbn; lia| |done].
    rewrite Heq in Hb. by apply Forall_app in Hb as [_ ?].
Qed.

Lemma runes_of_valid s : Forall (fun r => valid_rune r = true) (runes_of s).
Proof. apply utf8_decode_valid, bytes_of_is_byte. Qed.

Lemma string_of_runes_runes_of s : rune_error ∉ runes_of s -> string_of_runes (runes_of s) = s.
Proof.
  intros H. unfold string_of_runes. unfold runes_of in *.
  rewrite utf8_encode_decode; [apply string_of_bytes_of | apply bytes_of_is_byte | done].
Qed.

Lemma string_of_runes_app rs1 rs2 :
  string_of_runes (rs1 ++ rs2) = string_of_runes rs1 +:+ string_of_runes rs2.
Proof. unfold string_of_runes, utf8_encode. by rewrite flat_map_app, string_of_app. Qed.

(** Every rune takes at least one byte. *)
Lemma length_utf8_decode l : length (utf8_decode l) <= length l.
Proof.
  induction l as [l IH] using (induction_ltof1 _ (@length Z)); unfold ltof in IH.
  destruct l as [|b0 l]; [done|].
  assert (H0 := IH l). cbn [utf8_decode length] in *.
  destruct (_ <? _)%Z; [cbn [length] in *; lia|]. destruct l as [|b1 l1]; [cbn [length] in *; lia|].
  assert (H1 := IH l1). cbn [length] in *. destruct (_ && is_cont b1); [cbn [length] in *; lia|].
  destruct l1 as [|b2 l2]; [cbn [length] in *; lia|].
  assert (H2 := IH l2). cbn [length] in *. destruct (_ && accept3 b0 b1 && is_cont b2); [cbn [length] in *; lia|].
  destruct l2 as [|b3 l3]; [cbn [length] in *; lia|].
  assert (H3 := IH l3). cbn [length] in *. destruct (_ && _); cbn [length] in *; lia.
Qed.

(** ** Lemmas: hex *)

Lemma hex_digit_byte n : (0 <= n < 16)%Z -> is_byte (hex_digit n).
Proof. unfold hex_digit, is_byte. intros. case_match; lia. Qed.

Lemma from_hex_digit n : (0 <= n < 16)%Z -> from_hex_char (upper_byte (hex_digit n)) = Some n.
Proof.
  intros Hn. unfold hex_digit, upper_byte, from_hex_char.
  repeat case_match; try lia; f_equal; lia.
Qed.

(** Upper-case hex is the form the PDU builders emit; decoding it is the identity. *)
Lemma hex_decode_encode l :
  Forall is_byte l -> hex_decode (map upper_byte (hex_encode l)) = Some l.
Proof.
  induction 1 as [|b l Hb Hl IH]; [done|]. unfold hex_encode in *. cbn.
  unfold is_byte in Hb. rewrite !from_hex_digit by lia.
  cbn in IH. rewrite IH. do 2 f_equal. lia.
Qed.

Lemma hex_encode_byte l : Forall is_byte l -> Forall is_byte (map upper_byte (hex_encode l)).
Proof.
  induction 1 as [|b l Hb Hl IH]; [done|]. unfold is_byte in Hb.
  cbn. assert (Hu : forall c, is_byte c -> is_byte (upper_byte c)).
  { unfold is_byte, upper_byte. intros. case_match; lia. }
  constructor; [apply Hu, hex_digit_byte; lia|]. constructor; [apply Hu, hex_digit_byte; lia|]. done.
Qed.

Lemma hex_decode_byte l r : hex_decode l = Some r -> Forall is_byte r.
Proof.
  revert r. induction l as [l IH] using (induction_ltof1 _ (@length Z)); unfold ltof in IH.
  assert (Hc : forall c v, from_hex_char c = Some v -> (0 <= v < 16)%Z).
  { intros c v. unfold from_hex_char. repeat case_match; intros; simplify_eq; lia. }
  destruct l as [|c1 [|c2 l]]; intros r; cbn; [intros; by simplify_eq | done |].
  destruct (from_hex_char c1) eqn:E1; [|done]. destruct (from_hex_char c2) eqn:E2; [|done].
  destruct (hex_decode l) eqn:E3; [|done]. intros; simplify_eq. constructor.
  - apply Hc in E1, E2. unfold is_byte. lia.
  - eapply IH; [|done]. cbn. lia.
Qed.

Lemma length_hex_encode l : length (hex_encode l) = 2 * length l.
Proof. induction l; [done|]. unfold hex_encode in *. cbn in *. lia. Qed.

(** ** Lemmas: decimal numbers *)

Lemma scan_digit_char (x : N) acc n l :
  (x < 10)%N -> scan_digits acc n (byte_of_ascii (pretty_N_char x) :: l) = scan_digits (10 * acc + Z.of_N x) (S n) l.
Proof.
  intros Hx. assert (is_digit (byte_of_ascii (pretty_N_char x)) = true /\
    byte_of_ascii (pretty_N_char x) = 48 + Z.of_N x)%Z as [Hd Hv].
  { assert (x = 0 \/ x = 1 \/ x = 2 \/ x = 3 \/ x = 4 \/ x = 5 \/ x = 6 \/ x = 7 \/ x = 8 \/ x = 9)%N as Hc by lia.
    by destruct_or! Hc; subst x. }
  cbn [scan_digits]. rewrite Hd, Hv. f_equal. lia.
Qed.

(** Reading back the digits of [x] written before [s]. *)
Lemma scan_pretty x : forall s, exists k, ((0 < x)%N -> 0 < k) /\ forall acc n,
  scan_digits acc n (bytes_of (pretty_N_go x s)) = scan_digits (acc * 10 ^ Z.of_nat k + Z.of_N x) (n + k) (bytes_of s).
Proof.
  induction (N.lt_wf_0 x) as [x _ IH]. intros s. destruct (decide (x = 0%N)) as [->|Hx].
  - exists 0. split; [lia|]. intros. rewrite pretty_N_go_0. f_equal; lia.
  - rewrite pretty_N_go_step by lia.
    destruct (IH (x / 10)%N ltac:(apply N.div_lt; lia) (String (pretty_N_char (x mod 10)) s)) as (k & _ & Hk).
    exists (S k). split; [lia|]. intros acc n. rewrite Hk. cbn [bytes_of].
    rewrite scan_digit_char by (apply N.mod_lt; lia). f_equal; [|lia].
    rewrite Nat2Z.inj_succ, Z.pow_succ_r, N2Z.inj_div, N2Z.inj_mod by lia. lia.
Qed.

Lemma scan_pretty_N (x : N) : exists k, 0 < k /\ scan_digits 0 0 (bytes_of (pretty x)) = (Z.of_N x, k, []).
Proof.
  unfold pretty, pretty_N. destruct (decide (x = 0%N)) as [->|Hx]; [exists 1; split; [lia|done]|].
  destruct (scan_pretty x "") as (k & H0 & Hk). exists k. split; [apply H0; lia|]. by rewrite Hk.
Qed.

Lemma pretty_N_head (x : N) : scan_sign (bytes_of (pretty x)) = (false, bytes_of (pretty x)).
Proof.
  destruct (scan_pretty_N x) as (k & Hk & E). destruct (bytes_of (pretty x)) as [|b l]; [done|].
  cbn [scan_digits] in E. destruct (is_digit b) eqn:Hb; [|congruence]. unfold is_digit in Hb.
  cbn [scan_sign]. do 6 (destruct b as [|b|b]; try done; try lia).
Qed.

Lemma Atoi_itoa z : in_int64 z = true -> Atoi (itoa z) = Some z.
Proof.
  intros Hz. unfold Atoi, scan_signed, itoa.
  assert (forall p : positive, exists k, 0 < k /\
    scan_digits 0 0 (bytes_of (pretty (N.pos p))) = (Z.pos p, k, [])) as Hs.
  { intros p. apply (scan_pretty_N (N.pos p)). }
  destruct z as [|p|p].
  - done.
  - destruct (Hs p) as (k & Hk & E). change (pretty (Z.pos p)) with (pretty (N.pos p)). rewrite pretty_N_head, E. cbn [negb].
    rewrite Hz. by destruct k; [lia|].
  - destruct (Hs p) as (k & Hk & E). change (pretty (Z.neg p)) with ("-" +:+ pretty (N.pos p)).
    rewrite bytes_of_app. cbn [bytes_of app scan_sign].
    change (byte_of_ascii "-") with 45%Z. cbv iota beta. rewrite E. change (- Z.pos p)%Z with (Z.neg p).
    rewrite Hz. by destruct k; [lia|].
Qed.
