(* ===== verification/Config.v ===== *)
(** * Configuration (internal/config/config.go)

    The configuration of the gateway: defaults, overrides from the
    environment, validation, and [Load], which composes them.  The YAML
    decoder is a parameter, the environment a function. *)

From S2P Require Import Prelude GoString.

(** ** Data *)

Record GatewaySection := { G_ID : string; G_LogLevel : string; G_LogFormat : string }.

Record TunnelSection := {
  T_URL : string; T_Token : string; T_PingIntervalS : Z; T_PingTimeoutS : Z; T_HeartbeatIntervalS : Z;
  T_ACKTimeoutS : Z; T_ReconnectBaseS : Z; T_ReconnectMaxS : Z; T_HandshakeTimeoutS : Z }.

Record BufferSection := { B_DBPath : string; B_RetentionDays : Z; B_FlushIntervalM : Z }.

Record RateLimitSection := { R_PerMin : Z; R_PerHour : Z; R_PerDay : Z }.

Record ModemConfig := {
  MC_Port : string; MC_Baud : Z; MC_RateLimit : RateLimitSection; MC_ExpectedICCID : string }.

Record HealthSection := {
  H_KeepaliveIntervalS : Z; H_SIMCapacityWarnPct : Z; H_SIMCapacityPurgePct : Z; H_SignalPollIntervalS : Z }.

Record MetricsSection := { X_Addr : string }.

Record GatewayConfig := {
  Gateway : GatewaySection; Tunnel : TunnelSection; Buffer : BufferSection; Modems : list ModemConfig;
  Health : HealthSection; Metrics : MetricsSection }.

(** ** Defaults *)

Definition or_str (s d : string) : string := if String.eqb s "" then d else s.
Definition or_int (n d : Z) : Z := if (n =? 0)%Z then d else n.

Definition modem_defaults (m : ModemConfig) : ModemConfig :=
  {| MC_Port := MC_Port m; MC_Baud := or_int (MC_Baud m) 115200;
     MC_RateLimit := {| R_PerMin := or_int (R_PerMin (MC_RateLimit m)) 3;
                        R_PerHour := or_int (R_PerHour (MC_RateLimit m)) 30;
                        R_PerDay := or_int (R_PerDay (MC_RateLimit m)) 200 |};
     MC_ExpectedICCID := MC_ExpectedICCID m |}.

Definition defaults (cfg : GatewayConfig) : GatewayConfig :=
  let g := Gateway cfg in let t := Tunnel cfg in let b := Buffer cfg in let h := Health cfg in
  {| Gateway := {| G_ID := G_ID g; G_LogLevel := or_str (G_LogLevel g) "info"; G_LogFormat := or_str (G_LogFormat g) "text" |};
     Tunnel := {| T_URL := T_URL t; T_Token := T_Token t; T_PingIntervalS := or_int (T_PingIntervalS t) 30;
                  T_PingTimeoutS := or_int (T_PingTimeoutS t) 10;
                  T_HeartbeatIntervalS := or_int (T_HeartbeatIntervalS t) 60;
                  T_ACKTimeoutS := or_int (T_ACKTimeoutS t) 10;
                  T_ReconnectBaseS := or_int (T_ReconnectBaseS t) 1;
                  T_ReconnectMaxS := or_int (T_ReconnectMaxS t) 300;
                  T_HandshakeTimeoutS := or_int (T_HandshakeTimeoutS t) 15 |};
     Buffer := {| B_DBPath := or_str (B_DBPath b) "./sms.db"; B_RetentionDays := or_int (B_RetentionDays b) 7;
                  B_FlushIntervalM := or_int (B_FlushIntervalM b) 10 |};
     Modems := map modem_defaults (Modems cfg);
     Health := {| H_KeepaliveIntervalS := or_int (H_KeepaliveIntervalS h) 60;
                  H_SIMCapacityWarnPct := or_int (H_SIMCapacityWarnPct h) 80;
                  H_SIMCapacityPurgePct := or_int (H_SIMCapacityPurgePct h) 95;
                  H_SignalPollIntervalS := or_int (H_SignalPollIntervalS h) 30 |};
     Metrics := {| X_Addr := or_str (X_Addr (Metrics cfg)) ":9200" |} |}.

(** ** Environment *)

(** [os.LookupEnv] and [os.Getenv]. *)
Definition environment : Type := string -> option string.
Definition Getenv (env : environment) (name : string) : string := default EmptyString (env name).

(** A match of [envVarRe], [\$\{([A-Z0-9_]+)\}], at the start: the name and the rest. *)
Definition name_byte (b : Z) : bool := ((65 <=? b) && (b <=? 90))%Z || is_digit b || (b =? 95)%Z.

Fixpoint span_name (l : list Z) : list Z * list Z :=
  match l with
  | b :: l' => if name_byte b then let '(n, r) := span_name l' in (b :: n, r) else ([], l)
  | [] => ([], [])
  end.

Definition match_token (l : list Z) : option (list Z * list Z) :=
  match l with
  | 36%Z :: 123%Z :: l =>
    match span_name l with
    | ((_ :: _) as n, 125%Z :: r) => Some (n, r)
    | _ => None
    end
  | _ => None
  end.

(** [ReplaceAllStringFunc]: the replaced text and the last unset variable. *)
Fixpoint expand (env : environment) (fuel : nat) (l : list Z) : list Z * option string :=
  match fuel, l with
  | S fuel, b :: l' =>
    match match_token l with
    | Some (n, r) =>
      let '(out, err) := expand env fuel r in
      match env (string_of n) with
      | Some v => (bytes_of v ++ out, err)
      | None => ((36 :: 123 :: n ++ [125])%Z ++ out, match err with Some _ => err | None => Some (string_of n) end)
      end
    | None => let '(out, err) := expand env fuel l' in (b :: out, err)
    end
  | _, _ => ([], None)
  end.

Definition expandEnv (env : environment) (s : string) : res string :=
  let '(out, err) := expand env (String.length s) (bytes_of s) in
  match err with
  | Some name => inl (Errorf "environment variable %q is not set" [name])
  | None => inr (string_of out)
  end.

(** [applyEnvOverrides]. *)
Definition override (env : environment) (name : string) (old : string) : string :=
  let v := Getenv env name in if String.eqb v "" then old else v.

Definition override_poll (env : environment) (old : Z) : Z :=
  let v := Getenv env "SIGNAL_POLL_INTERVAL" in
  if String.eqb v "" then old else
  match Atoi v with
  | Some s => if (0 <? s)%Z then s else old
  | None => old
  end.

Definition applyEnvOverrides (env : environment) (cfg : GatewayConfig) : GatewayConfig :=
  let g := Gateway cfg in let t := Tunnel cfg in let h := Health cfg in
  {| Gateway := {| G_ID := override env "GATEWAY_ID" (G_ID g); G_LogLevel := override env "LOG_LEVEL" (G_LogLevel g);
                   G_LogFormat := override env "LOG_FORMAT" (G_LogFormat g) |};
     Tunnel := {| T_URL := override env "TUNNEL_URL" (T_URL t); T_Token := override env "TUNNEL_TOKEN" (T_Token t);
                  T_PingIntervalS := T_PingIntervalS t; T_PingTimeoutS := T_PingTimeoutS t;
                  T_HeartbeatIntervalS := T_HeartbeatIntervalS t; T_ACKTimeoutS := T_ACKTimeoutS t;
                  T_ReconnectBaseS := T_ReconnectBaseS t; T_ReconnectMaxS := T_ReconnectMaxS t;
                  T_HandshakeTimeoutS := T_HandshakeTimeoutS t |};
     Buffer := Buffer cfg; Modems := Modems cfg;
     Health := {| H_KeepaliveIntervalS := H_KeepaliveIntervalS h; H_SIMCapacityWarnPct := H_SIMCapacityWarnPct h;
                  H_SIMCapacityPurgePct := H_SIMCapacityPurgePct h;
                  H_SignalPollIntervalS := override_poll env (H_SignalPollIntervalS h) |};
     Metrics := {| X_Addr := override env "METRICS_ADDR" (X_Addr (Metrics cfg)) |} |}.

(** ** Validation *)

(** The [switch] on the lower-cased level. *)
Definition known_level (s : string) : bool :=
  existsb (String.eqb (ToLower s)) ["debug"; "info"; "warn"; "error"].

Definition device_path (p : string) : bool := HasPrefix p "/dev/" || HasPrefix p "/tmp/".

Fixpoint validate_modems (i : nat) (ms : list ModemConfig) : option go_error :=
  match ms with
  | [] => None
  | m :: ms =>
    if String.eqb (MC_Port m) "" then Some (Errorf "modems[%d].port must not be empty" [itoa (Z.of_nat i)])
    else if negb (device_path (MC_Port m)) then
      Some (Errorf "modems[%d].port %q must start with /dev/ or /tmp/" [itoa (Z.of_nat i); MC_Port m])
    else validate_modems (S i) ms
  end.

Definition validate (cfg : GatewayConfig) : option go_error :=
  if String.eqb (G_ID (Gateway cfg)) "" then Some (errors_New "gateway.id must not be empty")
  else if negb (known_level (G_LogLevel (Gateway cfg))) then
    Some (Errorf "gateway.log_level %q is invalid; must be debug, info, warn, or error" [G_LogLevel (Gateway cfg)])
  else if String.eqb (T_URL (Tunnel cfg)) "" then Some (errors_New "tunnel.url must not be empty")
  else if negb (HasPrefix (T_URL (Tunnel cfg)) "ws://") && negb (HasPrefix (T_URL (Tunnel cfg)) "wss://") then
    Some (Errorf "tunnel.url must start with ws:// or wss://, got %q" [T_URL (Tunnel cfg)])
  else if String.eqb (T_Token (Tunnel cfg)) "" then Some (errors_New "tunnel.token must not be empty")
  else if (length (Modems cfg) =? 0)%nat then Some (errors_New "at least one modem must be configured")
  else validate_modems 0 (Modems cfg).

(** [Load]: [file] is what reading the file gave, [decode] the YAML decoder. *)
Definition Load (decode : string -> res GatewayConfig) (env : environment) (file : res string) : res GatewayConfig :=
  match file with
  | inl e => inl (Wrapf "read config: %w" [] e)
  | inr raw =>
    match expandEnv env raw with
    | inl e => inl (Wrapf "config env expansion: %w" [] e)
    | inr expanded =>
      match decode expanded with
      | inl e => inl (Wrapf "parse config: %w" [] e)
      | inr cfg =>
        let cfg := applyEnvOverrides env (defaults cfg) in
        match validate cfg with
        | Some e => inl (Wrapf "invalid config: %w" [] e)
        | None => inr cfg
        end
      end
    end
  end.

(** ** What is accepted *)

Record acceptable (cfg : GatewayConfig) : Prop := {
  ac_id : G_ID (Gateway cfg) <> "";
  ac_level : known_level (G_LogLevel (Gateway cfg)) = true;
  ac_url : HasPrefix (T_URL (Tunnel cfg)) "ws://" = true \/ HasPrefix (T_URL (Tunnel cfg)) "wss://" = true;
  ac_token : T_Token (Tunnel cfg) <> "";
  ac_modems : Modems cfg <> [];
  ac_ports : Forall (fun m => device_path (MC_Port m) = true) (Modems cfg) }.

(** A number the file sets is kept, otherwise it is the default. *)
Definition number_from (file dflt value : Z) : Prop :=
  (file <> 0%Z -> value = file) /\ (file = 0%Z -> value = dflt).

(** A string is that of the environment [v], if set, else that of the file, if
    set, else the default. *)
Definition string_from (v file dflt value : string) : Prop :=
  (v <> "" -> value = v) /\ (v = "" -> file <> "" -> value = file) /\ (v = "" -> file = "" -> value = dflt).

Record modem_from (m0 m : ModemConfig) : Prop := {
  mf_port : MC_Port m = MC_Port m0;
  mf_iccid : MC_ExpectedICCID m = MC_ExpectedICCID m0;
  mf_baud : number_from (MC_Baud m0) 115200 (MC_Baud m);
  mf_min : number_from (R_PerMin (MC_RateLimit m0)) 3 (R_PerMin (MC_RateLimit m));
  mf_hour : number_from (R_PerHour (MC_RateLimit m0)) 30 (R_PerHour (MC_RateLimit m));
  mf_day : number_from (R_PerDay (MC_RateLimit m0)) 200 (R_PerDay (MC_RateLimit m)) }.

(** [cfg] is made of the file's [cfg0], the environment and the defaults. *)
Record effective (env : environment) (cfg0 cfg : GatewayConfig) : Prop := {
  ef_strings : Forall (fun '(v, file, dflt, value) => string_from v file dflt value)
    [(Getenv env "GATEWAY_ID", G_ID (Gateway cfg0), "", G_ID (Gateway cfg));
     (Getenv env "LOG_LEVEL", G_LogLevel (Gateway cfg0), "info", G_LogLevel (Gateway cfg));
     (Getenv env "LOG_FORMAT", G_LogFormat (Gateway cfg0), "text", G_LogFormat (Gateway cfg));
     (Getenv env "TUNNEL_URL", T_URL (Tunnel cfg0), "", T_URL (Tunnel cfg));
     (Getenv env "TUNNEL_TOKEN", T_Token (Tunnel cfg0), "", T_Token (Tunnel cfg));
     (Getenv env "METRICS_ADDR", X_Addr (Metrics cfg0), ":9200", X_Addr (Metrics cfg));
     ("", B_DBPath (Buffer cfg0), "./sms.db", B_DBPath (Buffer cfg))];
  ef_numbers : Forall (fun '(file, dflt, value) => number_from file dflt value)
    [(T_PingIntervalS (Tunnel cfg0), 30, T_PingIntervalS (Tunnel cfg));
     (T_PingTimeoutS (Tunnel cfg0), 10, T_PingTimeoutS (Tunnel cfg));
     (T_HeartbeatIntervalS (Tunnel cfg0), 60, T_HeartbeatIntervalS (Tunnel cfg));
     (T_ACKTimeoutS (Tunnel cfg0), 10, T_ACKTimeoutS (Tunnel cfg));
     (T_ReconnectBaseS (Tunnel cfg0), 1, T_ReconnectBaseS (Tunnel cfg));
     (T_ReconnectMaxS (Tunnel cfg0), 300, T_ReconnectMaxS (Tunnel cfg));
     (T_HandshakeTimeoutS (Tunnel cfg0), 15, T_HandshakeTimeoutS (Tunnel cfg));
     (B_RetentionDays (Buffer cfg0), 7, B_RetentionDays (Buffer cfg));
     (B_FlushIntervalM (Buffer cfg0), 10, B_FlushIntervalM (Buffer cfg));
     (H_KeepaliveIntervalS (Health cfg0), 60, H_KeepaliveIntervalS (Health cfg));
     (H_SIMCapacityWarnPct (Health cfg0), 80, H_SIMCapacityWarnPct (Health cfg));
     (H_SIMCapacityPurgePct (Health cfg0), 95, H_SIMCapacityPurgePct (Health cfg))]%Z;
  ef_poll : let v := Atoi (Getenv env "SIGNAL_POLL_INTERVAL") in
    let value := H_SignalPollIntervalS (Health cfg) in
    (forall s, v = Some s -> (0 < s)%Z -> value = s) /\
    ((forall s, v = Some s -> (s <= 0)%Z) -> number_from (H_SignalPollIntervalS (Health cfg0)) 30 value);
  ef_modems : Forall2 modem_from (Modems cfg0) (Modems cfg) }.

Lemma validate_modems_None ms : forall i,
  validate_modems i ms = None <-> Forall (fun m => device_path (MC_Port m) = true) ms.
Proof.
  induction ms as [|m ms IH]; intros i; cbn [validate_modems]; [by split|]. rewrite Forall_cons.
  destruct (String.eqb_spec (MC_Port m) "") as [He|He].
  - split; [done|]. intros [Hd _]. by rewrite He in Hd.
  - destruct (device_path (MC_Port m)); cbn [negb]; [|by split; [|intros [? _]]]. rewrite IH. by split; [|intros [_ ?]].
Qed.

Lemma validate_None cfg : validate cfg = None <-> acceptable cfg.
Proof.
  unfold validate. destruct (String.eqb_spec (G_ID (Gateway cfg)) "") as [|Hid]; [split; [done|by intros []]|].
  destruct (known_level _) eqn:Hl; cbn [negb]; [|split; [done|intros []; congruence]].
  destruct (String.eqb_spec (T_URL (Tunnel cfg)) "") as [Hu|Hu].
  { split; [done|]. intros [_ _ Hurl _ _ _]. rewrite Hu in Hurl. by destruct Hurl. }
  destruct (HasPrefix (T_URL (Tunnel cfg)) "ws://") eqn:H1, (HasPrefix (T_URL (Tunnel cfg)) "wss://") eqn:H2; cbn [negb andb];
    try (split; [done|]; intros [_ _ [] _ _ _]; congruence);
    (destruct (String.eqb_spec (T_Token (Tunnel cfg)) ""); [split; [done|by intros []]|]);
    (destruct (Modems cfg) as [|m ms] eqn:Hm; [split; [done|by intros []]|]); cbn [length Nat.eqb];
    rewrite validate_modems_None, <- Hm; (split; [intros HF; split; auto; by rewrite Hm|by intros []]).
Qed.

Lemma number_from_iff file dflt value : number_from file dflt value <-> value = or_int file dflt.
Proof. unfold number_from, or_int. destruct (Z.eqb_spec file 0); tauto. Qed.

Lemma string_from_iff env name file dflt value :
  string_from (Getenv env name) file dflt value <-> value = override env name (or_str file dflt).
Proof.
  unfold string_from, override, or_str. destruct (String.eqb_spec (Getenv env name) ""), (String.eqb_spec file ""); tauto.
Qed.

Lemma file_from_iff file dflt value : string_from "" file dflt value <-> value = or_str file dflt.
Proof. unfold string_from, or_str. destruct (String.eqb_spec file ""); tauto. Qed.

Lemma or_str_empty s : or_str s "" = s.
Proof. unfold or_str. by destruct (String.eqb_spec s ""). Qed.

Lemma poll_from_iff env file value :
  let v := Atoi (Getenv env "SIGNAL_POLL_INTERVAL") in
  (forall s, v = Some s -> (0 < s)%Z -> value = s) /\ ((forall s, v = Some s -> (s <= 0)%Z) -> number_from file 30 value) <->
  value = override_poll env (or_int file 30).
Proof.
  cbv zeta. rewrite number_from_iff. unfold override_poll. destruct (String.eqb_spec (Getenv env "SIGNAL_POLL_INTERVAL") "") as [->|_].
  - split; [|by intros ->]. intros [_ H]. by apply H.
  - destruct (Atoi _) as [n|].
    + destruct (Z.ltb_spec 0 n) as [Hn|Hn].
      * split; [intros [H _]; by apply H|]. intros ->. split; [by intros s [= ->]|]. intros H. specialize (H n eq_refl). lia.
      * split; [intros [_ H]; apply H; by intros s [= <-]|]. intros ->. split; [intros s [= <-]; lia|done].
    + split; [|by intros ->]. intros [_ H]. by apply H.
Qed.

Lemma modems_from_iff ms0 : forall ms, Forall2 modem_from ms0 ms <-> ms = map modem_defaults ms0.
Proof.
  assert (forall m0 m, modem_from m0 m <-> m = modem_defaults m0) as Hm.
  { intros m0 [port baud [rmin rhour rday] ic]. split.
    - intros [Hp Hi H1 H2 H3 H4]. rewrite number_from_iff in H1, H2, H3, H4. cbn in *. unfold modem_defaults. by subst.
    - intros [= -> -> -> -> -> ->]. split; cbn; rewrite ?number_from_iff; done. }
  induction ms0 as [|m0 ms0 IH]; intros ms; cbn [map].
  - split; [by inversion 1|intros ->; constructor].
  - split.
    + inversion 1; subst. f_equal; [by apply Hm|by apply IH].
    + intros ->. constructor; [by apply Hm|by apply IH].
Qed.

(** Defaults and overrides give the effective configuration, and it is the only one. *)
Lemma effective_iff env cfg0 cfg : effective env cfg0 cfg <-> cfg = applyEnvOverrides env (defaults cfg0).
Proof.
  split.
  - intros [HS HN HP HM]. rewrite poll_from_iff in HP. apply modems_from_iff in HM.
    repeat (apply Forall_cons in HS as [? HS]). repeat (apply Forall_cons in HN as [? HN]).
    repeat match goal with
    | H : string_from _ _ _ _ |- _ => first [apply string_from_iff in H | apply file_from_iff in H]
    | H : number_from _ _ _ |- _ => apply number_from_iff in H
    end.
    rewrite ?or_str_empty in *. destruct cfg as [[] [] [] ms [] []]. cbn [Gateway Tunnel Buffer Modems Health Metrics G_ID G_LogLevel G_LogFormat
      T_URL T_Token T_PingIntervalS T_PingTimeoutS T_HeartbeatIntervalS T_ACKTimeoutS T_ReconnectBaseS T_ReconnectMaxS
      T_HandshakeTimeoutS B_DBPath B_RetentionDays B_FlushIntervalM H_KeepaliveIntervalS H_SIMCapacityWarnPct
      H_SIMCapacityPurgePct H_SignalPollIntervalS X_Addr] in *. by subst.
  - intros ->. split; [| |by apply poll_from_iff|by apply modems_from_iff].
    + repeat apply Forall_cons_2; try apply Forall_nil_2;
        first [apply string_from_iff; by rewrite ?or_str_empty | by apply file_from_iff].
    + repeat apply Forall_cons_2; try apply Forall_nil_2; by apply number_from_iff.
Qed.

Lemma Load_returns decode env file cfg : Load decode env file = inr cfg -> acceptable cfg.
Proof.
  unfold Load. destruct file as [e|raw]; [done|]. destruct (expandEnv env raw) as [e|text]; [done|].
  destruct (decode text) as [e|cfg0]; [done|]. destruct (validate _) eqn:Hv; [done|]. intros [= <-].
  by apply validate_None.
Qed.

(** The fuel of [expand], the length of the text, is enough: every step
    consumes at least one byte. *)
Lemma span_name_length l : length (span_name l).2 <= length l.
Proof.
  induction l as [|b l IH]; cbn; [lia|]. destruct (name_byte b); [|cbn; lia].
  destruct (span_name l) as [n r]. cbn in *. lia.
Qed.

Lemma match_token_length l n r : match_token l = Some (n, r) -> length r < length l.
Proof.
  unfold match_token. intros Hm. repeat case_match; simplify_eq.
  match goal with H : span_name ?x = _ |- _ => pose proof (span_name_length x) as HL; rewrite H in HL end.
  cbn in *. lia.
Qed.

Lemma expand_fuel env : forall f1 f2 l, length l <= f1 -> length l <= f2 -> expand env f1 l = expand env f2 l.
Proof.
  induction f1 as [|f1 IH]; intros [|f2] [|b l] H1 H2; cbn in H1, H2; try lia; try done. cbn [expand].
  destruct (match_token (b :: l)) as [[n r]|] eqn:Hm; [apply match_token_length in Hm; cbn in Hm|];
    rewrite (IH f2) by lia; done.
Qed.

(** ** What expansion is to give *)

(** The text starts with a reference [${n}]; [r] follows it. *)
Definition reference (l n r : list Z) : Prop :=
  l = (36 :: 123 :: n ++ 125 :: r)%Z /\ n <> [] /\ Forall (fun b => name_byte b = true) n.

(** The references of [l], from left to right, replaced by the values of their
    variables, all of them set, and everything else as it is. *)
Inductive expands (env : environment) : list Z -> list Z -> Prop :=
| expands_end : expands env [] []
| expands_reference l n r v out :
    reference l n r -> env (string_of n) = Some v -> expands env r out -> expands env l (bytes_of v ++ out)
| expands_byte b l out : (forall n r, ~ reference (b :: l) n r) -> expands env l out -> expands env (b :: l) (b :: out).

Lemma span_name_app n r : Forall (fun b => name_byte b = true) n -> span_name (n ++ 125%Z :: r) = (n, 125%Z :: r).
Proof. induction 1 as [|b n Hb _ IH]; [done|]. cbn [app span_name]. by rewrite Hb, IH. Qed.

Lemma span_name_spec l : l = (span_name l).1 ++ (span_name l).2 /\ Forall (fun b => name_byte b = true) (span_name l).1.
Proof.
  induction l as [|b l IH]; cbn [span_name]; [by split; [|constructor]|]. destruct (name_byte b) eqn:Hb; [|by split; [|constructor]].
  destruct (span_name l) as [n r]. destruct IH as [-> IH]. by split; [|constructor].
Qed.

Lemma match_token_iff l n r : match_token l = Some (n, r) <-> reference l n r.
Proof.
  unfold reference. split.
  - unfold match_token. intros Hm. repeat case_match; simplify_eq.
    match goal with H : span_name ?x = _ |- _ => pose proof (span_name_spec x) as [HL HN]; rewrite H in HL, HN end.
    cbn [fst snd] in *. by rewrite HL.
  - intros (-> & Hn & HF). cbn [match_token]. rewrite span_name_app by done. by destruct n.
Qed.

Lemma expand_iff env fuel : forall l out, length l <= fuel -> (expand env fuel l = (out, None) <-> expands env l out).
Proof.
  induction fuel as [|fuel IH]; intros [|b l] out Hl; cbn [length] in Hl; try lia; cbn [expand].
  1, 2: split; [intros [= <-]; constructor|]; inversion 1 as [|? ? ? ? ? [? _]|]; by subst.
  destruct (match_token (b :: l)) as [[n r]|] eqn:Hm.
  - pose proof (match_token_length _ _ _ Hm) as Hlen. apply match_token_iff in Hm. cbn [length] in Hlen.
    specialize (IH r). destruct (expand env fuel r) as [o err]. split.
    + destruct (env (string_of n)) as [v|] eqn:Hv; [|by destruct err]. intros [= <- ->].
      econstructor; [done|done|]. apply IH; [lia|done].
    + inversion 1 as [|? n' r' v out' Hr Hv He|? ? ? Hno]; subst; [|by destruct (Hno n r)].
      apply match_token_iff in Hr, Hm. assert ((n', r') = (n, r)) as [= -> ->] by congruence.
      rewrite Hv. apply IH in He; [|lia]. by injection He as -> ->.
  - specialize (IH l). destruct (expand env fuel l) as [o err]. split.
    + intros [= <- ->]. constructor; [intros n r Hr%match_token_iff; congruence|]. apply IH; [lia|done].
    + inversion 1 as [|? n' r' v out' Hr Hv He|? ? out' Hno He]; subst.
      * apply match_token_iff in Hr. congruence.
      * apply IH in He; [|lia]. by injection He as -> ->.
Qed.

Lemma expandEnv_iff env raw text : expandEnv env raw = inr text <-> expands env (bytes_of raw) (bytes_of text).
Proof.
  rewrite <- (expand_iff env (String.length raw)) by (by rewrite length_bytes_of). unfold expandEnv.
  destruct (expand env (String.length raw) (bytes_of raw)) as [out [name|]] eqn:E; [done|]. split.
  - intros [= <-]. rewrite bytes_of_string_of; [done|]. apply expand_iff in E; [|by rewrite length_bytes_of].
    assert (Forall is_byte (bytes_of raw)) as Hb by apply bytes_of_is_byte. clear -E Hb.
    induction E as [|l n r v out [-> _] Hv _ IH|b l out _ _ IH]; [constructor| |].
    + apply Forall_app. split; [apply bytes_of_is_byte|]. apply IH.
      apply Forall_cons in Hb as [_ Hb]. apply Forall_cons in Hb as [_ Hb]. apply Forall_app in Hb as [_ Hb].
      by apply Forall_cons in Hb as [_ Hb].
    + apply Forall_cons in Hb as [? Hb]. constructor; [done|by apply IH].
  - intros [= ->]. by rewrite string_of_bytes_of.
Qed.


(** Text without a dollar sign is left as it is. *)
Lemma expandEnv_plain env s : 36%Z ∉ bytes_of s -> expandEnv env s = inr s.
Proof.
  intros Hd. unfold expandEnv. rewrite <- length_bytes_of.
  cut (expand env (length (bytes_of s)) (bytes_of s) = (bytes_of s, None)).
  { intros ->. by rewrite string_of_bytes_of. }
  induction (bytes_of s) as [|b l IH]; [done|]. rewrite not_elem_of_cons in Hd. destruct Hd as [Hb Hl].
  cbn [expand length]. rewrite (IH Hl). unfold match_token. repeat case_match; simplify_eq; done.
Qed.

(** ** Examples *)

Definition demo_file : GatewayConfig :=
  {| Gateway := {| G_ID := "gw1"; G_LogLevel := EmptyString; G_LogFormat := EmptyString |};
     Tunnel := {| T_URL := "wss://cloud"; T_Token := "file-token"; T_PingIntervalS := 0; T_PingTimeoutS := 0;
                  T_HeartbeatIntervalS := 0; T_ACKTimeoutS := 0; T_ReconnectBaseS := 0; T_ReconnectMaxS := 0;
                  T_HandshakeTimeoutS := 0 |};
     Buffer := {| B_DBPath := EmptyString; B_RetentionDays := 0; B_FlushIntervalM := 0 |};
     Modems := [{| MC_Port := "/dev/ttyUSB0"; MC_Baud := 0;
                   MC_RateLimit := {| R_PerMin := 5; R_PerHour := 0; R_PerDay := 0 |}; MC_ExpectedICCID := EmptyString |}];
     Health := {| H_KeepaliveIntervalS := 0; H_SIMCapacityWarnPct := 0; H_SIMCapacityPurgePct := 0; H_SignalPollIntervalS := 0 |};
     Metrics := {| X_Addr := EmptyString |} |}.

Definition demo_env : environment := fun name =>
  if String.eqb name "TUNNEL_TOKEN" then Some "secret" else
  if String.eqb name "SIGNAL_POLL_INTERVAL" then Some "15" else None.

Example demo_load :
  match Load (fun _ => inr demo_file) demo_env (inr "token: ${TUNNEL_TOKEN}") with
  | inr c => Some (T_Token (Tunnel c), T_PingIntervalS (Tunnel c), H_SignalPollIntervalS (Health c), Modems c)
  | inl _ => None
  end =
  Some ("secret", 30%Z, 15%Z, [{| MC_Port := "/dev/ttyUSB0"; MC_Baud := 115200;
    MC_RateLimit := {| R_PerMin := 5; R_PerHour := 30; R_PerDay := 200 |}; MC_ExpectedICCID := EmptyString |}]) /\
  expandEnv demo_env "a ${TUNNEL_TOKEN} $X ${}" = inr "a secret $X ${}" /\
  expandEnv demo_env "${GATEWAY_ID}${TUNNEL_TOKEN}" = inl (Errorf "environment variable %q is not set" ["GATEWAY_ID"]).
Proof. by vm_compute. Qed.

(** The comparison with the log levels folds the case of U+0130 too. *)
Example level_folding : map known_level ["INFO"; "Warn"; string_of [196; 176; 110; 102; 111]%Z; "verbose"] = [true; true; true; false].
Proof. by vm_compute. Qed.
