(* ===== verification/Gsm7.v ===== *)
(** * The GSM 7-bit alphabet (internal/at/pdu.go, first part)

    The character tables, the packing of septets into octets and back, and the
    conversions between text and GSM 7-bit codes.  Packing is specified by the
    bit stream: bit [n] of the packed octets is bit [n mod 7] of septet [n / 7]. *)

From S2P Require Import Prelude GoString.

Local Open Scope go_scope.

(** ** Tables *)

(** [gsm7Charset]: Unicode code points, in the source's order. *)
Definition gsm7Charset : list Z :=
  [
   64; 163; 36; 165; 232; 233; 249; 236; 242; 199; 10; 216; 248; 13; 197; 229;
   916; 95; 934; 915; 923; 937; 928; 936; 931; 920; 926; 27; 198; 230; 223; 201;
   32; 33; 34; 35; 164; 37; 38; 39; 40; 41; 42; 43; 44; 45; 46; 47;
   48; 49; 50; 51; 52; 53; 54; 55; 56; 57; 58; 59; 60; 61; 62; 63;
   161; 65; 66; 67; 68; 69; 70; 71; 72; 73; 74; 75; 76; 77; 78; 79;
   80; 81; 82; 83; 84; 85; 86; 87; 88; 89; 90; 196; 214; 209; 220; 167;
   191; 97; 98; 99; 100; 101; 102; 103; 104; 105; 106; 107; 108; 109; 110; 111;
   112; 113; 114; 115; 116; 117; 118; 119; 120; 121; 122; 228; 246; 241; 252; 224]%Z.

(** [gsm7Extension]. *)
Definition gsm7Extension : gmap Z Z :=
  list_to_map [(10, 12); (20, 94); (40, 123); (41, 125); (47, 92); (60, 91); (61, 126); (62, 93); (64, 124); (101, 8364)]%Z.

(** The [init] function: every non-zero entry of the table, under its rune. *)
Definition runeToGSM7 : gmap Z Z :=
  fold_left (fun m '(i, r) => if (r =? 0)%Z then m else <[r := i]> m)
            (zip (seqZ 0 128) gsm7Charset) ∅.

(** The loops over [gsm7Extension] that look for a rune return at the first
    match of an iteration in an unspecified order; this is one such order. *)
Definition extension_code (r : Z) : option Z :=
  fst <$> find (fun p => (p.2 =? r)%Z) (map_to_list gsm7Extension).

(** [IsGSM7]. *)
Definition is_gsm7_rune (r : Z) : bool :=
  match runeToGSM7 !! r with
  | Some _ => true
  | None => bool_decide (is_Some (extension_code r))
  end.
Definition IsGSM7 (s : string) : bool := forallb is_gsm7_rune (runes_of s).

(** ** Packing *)

(** The loop of [unpackGSM7] from septet [i] with [n] rounds left: [break] past
    the end of the data, otherwise the septet is stored in [out]. *)
Fixpoint unpack_loop {E} (data out : list Z) (i n : nat) : outcome E (list Z) :=
  match n with
  | O => Ok out
  | S n =>
    let bytePos := (Z.of_nat i * 7 / 8)%Z in
    let bitPos := (Z.of_nat i * 7 mod 8)%Z in
    if (zlen data <=? bytePos)%Z then Ok out else
    d ← data.[bytePos];
    let b := Z.land (Z.shiftr d bitPos) 127 in
    b ← (if ((1 <? bitPos) && (bytePos + 1 <? zlen data))%Z
         then d' ← data.[bytePos + 1]; Ok (Z.lor b (Z.land (byte_shl d' (8 - bitPos)) 127))
         else Ok b);
    out ← go_store out (Z.of_nat i) b;
    unpack_loop data out (S i) n
  end.

Definition unpackGSM7 {E} (data : list Z) (nChars : Z) : outcome E (list Z) :=
  let maxChars := (zlen data * 8 / 7)%Z in
  let nChars := if (maxChars <? nChars)%Z then maxChars else nChars in
  out ← go_make nChars 0%Z;
  unpack_loop data out 0 (Z.to_nat nChars).

(** Its result as a function of the bit stream: septet [i] of the packed data,
    zero past the end. *)
Definition unpack_septet (data : list Z) (i : nat) : Z :=
  let bytePos := (i * 7) / 8 in
  let bitPos := (i * 7) mod 8 in
  if length data <=? bytePos then 0%Z else
  let b := Z.land (Z.shiftr (nth bytePos data 0%Z) (Z.of_nat bitPos)) 127 in
  if (1 <? bitPos) && (bytePos + 1 <? length data)
  then Z.lor b (Z.land (byte_shl (nth (bytePos + 1) data 0%Z) (8 - Z.of_nat bitPos)) 127)
  else b.

Definition unpack_septets (data : list Z) (nChars : nat) : list Z :=
  let maxChars := (length data * 8) / 7 in
  let nChars := if maxChars <? nChars then maxChars else nChars in
  map (unpack_septet data) (seq 0 nChars).

(** One round of the loop of [packGSM7]. *)
Definition pack_step (packed : list Z) (i : nat) (c : Z) : list Z :=
  let bytePos := (i * 7) / 8 in
  let bitPos := (i * 7) mod 8 in
  let packed :=
    <[bytePos := Z.lor (nth bytePos packed 0%Z) (byte_shl c (Z.of_nat bitPos))]> packed in
  if (1 <? bitPos) && (bytePos + 1 <? length packed)
  then <[bytePos + 1 := Z.lor (nth (bytePos + 1) packed 0%Z)
                              (Z.shiftr c (8 - Z.of_nat bitPos))]> packed
  else packed.

Fixpoint pack_loop (packed : list Z) (i : nat) (chars : list Z) : list Z :=
  match chars with
  | [] => packed
  | c :: chars => pack_loop (pack_step packed i c) (S i) chars
  end.

Definition packGSM7 (chars : list Z) : list Z :=
  pack_loop (replicate ((length chars * 7 + 7) / 8) 0%Z) 0 chars.

(** [repackWithFill]: the bit array, then the octets it is gathered into. *)
Definition septet_bits (c : Z) : list bool :=
  map (fun b => Z.testbit c b) (seqZ 0 7).

Fixpoint gather_bits (out : list Z) (i : nat) (bits : list bool) : list Z :=
  match bits with
  | [] => out
  | bit :: bits =>
    let out := if bit
               then <[i / 8 := Z.lor (nth (i / 8) out 0%Z) (byte_shl 1 (Z.of_nat (i mod 8)))]> out
               else out in
    gather_bits out (S i) bits
  end.

Definition repackWithFill (chars : list Z) (fillBits : nat) : list Z :=
  let bits := replicate fillBits false ++ flat_map septet_bits chars in
  gather_bits (replicate ((length bits + 7) / 8) 0%Z) 0 bits.

(** ** Text *)

(** The loop of [decodeGSM7Text] from index [i], as the runes it writes; [fuel]
    bounds the rounds. *)
Fixpoint decode_gsm7_loop {E} (codes : list Z) (i : Z) (fuel : nat) : outcome E (list Z) :=
  match fuel with
  | O => Panic
  | S fuel =>
    if negb (i <? zlen codes)%Z then Ok [] else
    c ← codes.[i];
    if (c =? 27)%Z then
      if (i + 1 <? zlen codes)%Z then
        e ← codes.[i + 1];
        rs ← decode_gsm7_loop codes (i + 2) fuel;
        Ok (default 32%Z (gsm7Extension !! e) :: rs)
      else decode_gsm7_loop codes (i + 1) fuel
    else if (c <? zlen gsm7Charset)%Z then
      r ← gsm7Charset.[c];
      rs ← decode_gsm7_loop codes (i + 1) fuel;
      Ok (r :: rs)
    else decode_gsm7_loop codes (i + 1) fuel
  end.

Definition decodeGSM7Text {E} (codes : list Z) : outcome E string :=
  rs ← decode_gsm7_loop codes 0 (S (length codes)); Ok (string_of_runes rs).

(** The text of a sequence of codes, by recursion on it. *)
Fixpoint decode_gsm7_runes (codes : list Z) : list Z :=
  match codes with
  | [] => []
  | c :: rest =>
    if (c =? 27)%Z then
      match rest with
      | [] => []
      | e :: rest => default 32%Z (gsm7Extension !! e) :: decode_gsm7_runes rest
      end
    else
      match gsm7Charset !! Z.to_nat c with
      | Some r => r :: decode_gsm7_runes rest
      | None => decode_gsm7_runes rest
      end
  end.
Definition gsm7_text (codes : list Z) : string := string_of_runes (decode_gsm7_runes codes).

(** [encodeGSM7Text]: a rune in neither table is skipped. *)
Definition encode_gsm7_rune (r : Z) : list Z :=
  match runeToGSM7 !! r with
  | Some b => [b]
  | None =>
    match extension_code r with
    | Some code => [27%Z; code]
    | None => []
    end
  end.
Definition encodeGSM7Text (s : string) : list Z := flat_map encode_gsm7_rune (runes_of s).

(** ** The bit stream of packed octets *)

(** Bit [n] of a byte sequence, least significant bit of the first byte first. *)
Definition bit_at (data : list Z) (n : nat) : bool :=
  Z.testbit (nth (n / 8) data 0%Z) (Z.of_nat (n mod 8)).

(** Bit [n] of a septet sequence. *)
Definition septet_bit (chars : list Z) (n : nat) : bool :=
  Z.testbit (nth (n / 7) chars 0%Z) (Z.of_nat (n mod 7)).

(** ** Packing lemmas *)

Lemma nth_insert (l : list Z) k v n :
  k < length l -> nth n (<[k := v]> l) 0%Z = if decide (n = k) then v else nth n l 0%Z.
Proof.
  intros Hk. rewrite !nth_lookup. destruct (decide (n = k)) as [->|Hne].
  - by rewrite list_lookup_insert_eq.
  - by rewrite list_lookup_insert_ne.
Qed.

Lemma bit_at_insert (l : list Z) k v n :
  k < length l ->
  bit_at (<[k := v]> l) n = if decide (n / 8 = k) then Z.testbit v (Z.of_nat (n mod 8)) else bit_at l n.
Proof. intros Hk. unfold bit_at. rewrite nth_insert by done. by case_decide. Qed.

Lemma Forall_byte_nth l n : Forall is_byte l -> is_byte (nth n l 0%Z).
Proof.
  intros Hl. rewrite nth_lookup. destruct (l !! n) eqn:E; cbn; [|unfold is_byte; lia].
  by eapply Forall_lookup in Hl.
Qed.

Lemma length_pack_step packed i c : length (pack_step packed i c) = length packed.
Proof. unfold pack_step. case_match; by rewrite !length_insert. Qed.

Lemma length_pack_loop chars : forall packed i, length (pack_loop packed i chars) = length packed.
Proof. induction chars; intros; cbn; [done|]. by rewrite IHchars, length_pack_step. Qed.

Lemma pack_step_byte packed i c :
  Forall is_byte packed -> is_septet c -> Forall is_byte (pack_step packed i c).
Proof.
  intros Hp Hc. unfold pack_step.
  assert (H1 : Forall is_byte (<[(i * 7) / 8 := Z.lor (nth ((i * 7) / 8) packed 0%Z)
                                   (byte_shl c (Z.of_nat ((i * 7) mod 8)))]> packed)).
  { apply Forall_insert; [done|]. apply is_byte_lor; [by apply Forall_byte_nth|apply is_byte_to_byte]. }
  case_match; [|done]. apply Forall_insert; [done|].
  apply is_byte_lor; [by apply Forall_byte_nth|]. apply is_byte_shiftr; [by apply septet_byte|lia].
Qed.

(** A round writes the seven bits of its septet, and only them. *)
Lemma pack_step_bit packed i c n :
  is_septet c -> 7 * i + 7 <= 8 * length packed ->
  (forall m, 7 * i <= m -> bit_at packed m = false) ->
  bit_at (pack_step packed i c) n =
    if decide (7 * i <= n < 7 * i + 7) then Z.testbit c (Z.of_nat (n - 7 * i)) else bit_at packed n.
Proof.
  intros Hc Hlen Hzero. unfold pack_step.
  set (bp := (i * 7) / 8). set (bi := (i * 7) mod 8).
  assert (Hbp : bp < length packed) by (subst bp; lia).
  assert (Hi : 7 * i = 8 * bp + bi /\ bi < 8) by (subst bp bi; lia).
  assert (H1 : bit_at (<[bp := Z.lor (nth bp packed 0%Z) (byte_shl c (Z.of_nat bi))]> packed) n =
               if decide (n / 8 = bp /\ 7 * i <= n)
               then Z.testbit c (Z.of_nat (n - 7 * i)) else bit_at packed n).
  { rewrite bit_at_insert by done. destruct (decide (n / 8 = bp)) as [Hn|Hn].
    - rewrite Z.lor_spec, testbit_byte_shl by lia.
      replace (Z.testbit (nth bp packed 0%Z) (Z.of_nat (n mod 8))) with (bit_at packed n)
        by (unfold bit_at; by rewrite Hn).
      replace (Z.of_nat (n mod 8) <? 8)%Z with true by lia.
      destruct (decide (n / 8 = bp /\ 7 * i <= n)) as [[_ Hle]|Hlt].
      + rewrite Hzero by done. replace (Z.of_nat bi <=? Z.of_nat (n mod 8))%Z with true by lia.
        rewrite !andb_true_l, orb_false_l. f_equal. lia.
      + replace (Z.of_nat bi <=? Z.of_nat (n mod 8))%Z with false by lia.
        by rewrite andb_false_r, orb_false_r.
    - by rewrite decide_False by (intros [? _]; done). }
  destruct ((1 <? bi) && _) eqn:E.
  - rewrite length_insert in E. rewrite bit_at_insert by (rewrite length_insert; lia).
    destruct (decide (n / 8 = bp + 1)) as [Hn|Hn].
    + rewrite Z.lor_spec, Z.shiftr_spec, nth_insert by lia. rewrite decide_False by lia.
      replace (Z.testbit (nth (bp + 1) packed 0%Z) (Z.of_nat (n mod 8))) with (bit_at packed n)
        by (unfold bit_at; by rewrite Hn).
      rewrite Hzero, orb_false_l by lia. destruct (decide (7 * i <= n < 7 * i + 7)).
      * f_equal. lia.
      * apply testbit_septet; [done|lia].
    + rewrite H1. destruct (decide (7 * i <= n < 7 * i + 7)), (decide (n / 8 = bp /\ 7 * i <= n)); done || lia.
  - rewrite length_insert in E. rewrite H1.
    destruct (decide (7 * i <= n < 7 * i + 7)), (decide (n / 8 = bp /\ 7 * i <= n)); try done; try lia.
    rewrite Hzero by lia. apply testbit_septet; [done|lia].
Qed.

Lemma pack_loop_bit chars : forall packed i n,
  Forall is_septet chars -> 7 * (i + length chars) <= 8 * length packed ->
  (forall m, 7 * i <= m -> bit_at packed m = false) ->
  bit_at (pack_loop packed i chars) n =
    if decide (7 * i <= n) then septet_bit chars (n - 7 * i) else bit_at packed n.
Proof.
  induction chars as [|c chars IH]; intros packed i n Hs Hlen Hzero; cbn [pack_loop length] in *.
  - destruct (decide (7 * i <= n)); [|done]. rewrite Hzero by done.
    unfold septet_bit. by rewrite nth_lookup, lookup_nil, Z.testbit_0_l.
  - inversion Hs as [|? ? Hc Hcs]; subst.
    assert (Hstep := fun m => pack_step_bit packed i c m Hc ltac:(lia) Hzero).
    rewrite IH; [|done|rewrite length_pack_step; lia|].
    + rewrite Hstep. unfold septet_bit.
      destruct (decide (7 * S i <= n)), (decide (7 * i <= n < 7 * i + 7)), (decide (7 * i <= n)); try lia; try done.
      * replace ((n - 7 * i) / 7) with (S ((n - 7 * S i) / 7)) by lia. cbn [nth].
        by replace ((n - 7 * S i) mod 7) with ((n - 7 * i) mod 7) by lia.
      * replace ((n - 7 * i) / 7) with 0 by lia. cbn [nth].
        by replace ((n - 7 * i) mod 7) with (n - 7 * i) by lia.
    + intros m Hm. rewrite Hstep. rewrite decide_False by lia. apply Hzero. lia.
Qed.

Lemma bit_at_zeros k n : bit_at (replicate k 0%Z) n = false.
Proof.
  unfold bit_at. rewrite nth_lookup. destruct (replicate k 0%Z !! (n / 8)) eqn:E; cbn.
  - apply lookup_replicate in E as [-> _]. apply Z.testbit_0_l.
  - apply Z.testbit_0_l.
Qed.

(** The bit stream of packed septets is the bit stream of the septets. *)
Lemma bit_at_packGSM7 chars n :
  Forall is_septet chars -> bit_at (packGSM7 chars) n = septet_bit chars n.
Proof.
  intros Hs. unfold packGSM7. rewrite pack_loop_bit; [|done|rewrite length_replicate; lia|].
  - rewrite decide_True by lia. f_equal. lia.
  - intros. apply bit_at_zeros.
Qed.

Lemma length_packGSM7 chars : length (packGSM7 chars) = (length chars * 7 + 7) / 8.
Proof. unfold packGSM7. by rewrite length_pack_loop, length_replicate. Qed.

Lemma pack_loop_byte chars : forall packed i,
  Forall is_byte packed -> Forall is_septet chars -> Forall is_byte (pack_loop packed i chars).
Proof.
  induction chars; intros packed i Hp Hc; cbn; [done|]. inversion Hc; subst.
  apply IHchars; [|done]. by apply pack_step_byte.
Qed.

Lemma packGSM7_byte chars : Forall is_septet chars -> Forall is_byte (packGSM7 chars).
Proof.
  intros. apply pack_loop_byte; [|done]. apply Forall_replicate. unfold is_byte. lia.
Qed.

(** ** Unpacking lemmas *)

(** Bit [j] of unpacked septet [i] is bit [7 i + j] of the data. *)
Lemma unpack_septet_bit data i j :
  Forall is_byte data -> j < 7 ->
  Z.testbit (unpack_septet data i) (Z.of_nat j) = bit_at data (7 * i + j).
Proof.
  intros Hd Hj. unfold unpack_septet, bit_at.
  set (bp := (i * 7) / 8). set (bi := (i * 7) mod 8).
  assert (Hi : 7 * i = 8 * bp + bi /\ bi < 8) by (subst bp bi; lia). clearbody bp bi.
  assert (Hnth : forall k, length data <= k -> nth k data 0%Z = 0%Z) by (intros; by apply nth_overflow).
  destruct (Nat.leb_spec (length data) bp).
  { rewrite Hnth by lia. by rewrite !Z.testbit_0_l. }
  set (b := Z.land (Z.shiftr (nth bp data 0%Z) (Z.of_nat bi)) 127).
  assert (Hb : Z.testbit b (Z.of_nat j) = Z.testbit (nth bp data 0%Z) (Z.of_nat (bi + j))).
  { subst b. rewrite testbit_mask7, Z.shiftr_spec by lia.
    replace (Z.of_nat j <? 7)%Z with true by lia. rewrite andb_true_l. f_equal. lia. }
  assert (Hhi : 8 <= bi + j -> Z.testbit (nth bp data 0%Z) (Z.of_nat (bi + j)) = false).
  { intros. apply testbit_byte; [by apply Forall_byte_nth|lia]. }
  destruct ((1 <? bi) && _) eqn:E.
  - rewrite Z.lor_spec, Hb, testbit_mask7, testbit_byte_shl by lia.
    replace (Z.of_nat j <? 7)%Z with true by lia. replace (Z.of_nat j <? 8)%Z with true by lia.
    rewrite !andb_true_l. destruct (decide (8 <= bi + j)).
    + rewrite Hhi, orb_false_l by lia. replace ((7 * i + j) / 8) with (bp + 1) by lia.
      replace (8 - Z.of_nat bi <=? Z.of_nat j)%Z with true by lia. rewrite andb_true_l. f_equal. lia.
    + replace (8 - Z.of_nat bi <=? Z.of_nat j)%Z with false by lia. rewrite andb_false_l, orb_false_r.
      replace ((7 * i + j) / 8) with bp by lia. f_equal. lia.
  - rewrite Hb. destruct (decide (8 <= bi + j)).
    + rewrite Hhi, Hnth by lia. by rewrite Z.testbit_0_l.
    + replace ((7 * i + j) / 8) with bp by lia. f_equal. lia.
Qed.

Lemma unpack_septet_septet data i : Forall is_byte data -> is_septet (unpack_septet data i).
Proof.
  intros Hd. unfold unpack_septet, is_septet. change 128%Z with (2 ^ 7)%Z.
  assert (Hm : forall z, (0 <= Z.land z 127 < 2 ^ 7)%Z).
  { intros z. change 127%Z with (Z.ones 7). rewrite Z.land_ones by lia. apply Z.mod_pos_bound. lia. }
  case_match; [lia|]. case_match; [|apply Hm]. apply lor_bound; auto; lia.
Qed.

Lemma septet_eq_bits a b :
  is_septet a -> is_septet b ->
  (forall j, j < 7 -> Z.testbit a (Z.of_nat j) = Z.testbit b (Z.of_nat j)) -> a = b.
Proof.
  intros Ha Hb H. apply (bits_ext 7); unfold is_septet in *; try lia.
  intros n Hn. replace n with (Z.of_nat (Z.to_nat n)) by lia. apply H. lia.
Qed.

Lemma septet_bit_at chars i j :
  j < 7 -> septet_bit chars (7 * i + j) = Z.testbit (nth i chars 0%Z) (Z.of_nat j).
Proof.
  intros Hj. unfold septet_bit. replace ((7 * i + j) / 7) with i by lia.
  by replace ((7 * i + j) mod 7) with j by lia.
Qed.

Lemma Forall_septet_nth l n : Forall is_septet l -> is_septet (nth n l 0%Z).
Proof.
  intros Hl. rewrite nth_lookup. destruct (l !! n) eqn:E; cbn; [|unfold is_septet; lia].
  by eapply Forall_lookup in Hl.
Qed.

(** Unpacking [n] septets from data whose bit stream is that of [chars]. *)
Lemma unpack_of_bits data chars :
  Forall is_byte data -> Forall is_septet chars ->
  length chars * 7 <= length data * 8 ->
  (forall n, n < 7 * length chars -> bit_at data n = septet_bit chars n) ->
  unpack_septets data (length chars) = chars.
Proof.
  intros Hd Hc Hlen Hbits. unfold unpack_septets.
  replace (if _ <? _ then _ else _) with (length chars) by (case_match; lia).
  apply list_eq. intros i. rewrite list_lookup_fmap.
  destruct (decide (i < length chars)) as [Hi|Hi].
  - rewrite lookup_seq_lt by done. rewrite Nat.add_0_l. cbn [fmap option_fmap option_map].
    destruct (lookup_lt_is_Some_2 chars i Hi) as [c Hl]. rewrite Hl. f_equal.
    assert (Hnth : nth i chars 0%Z = c) by (by rewrite nth_lookup, Hl).
    apply septet_eq_bits; [by apply unpack_septet_septet|by eapply Forall_lookup in Hc|].
    intros j Hj. rewrite unpack_septet_bit by done. rewrite Hbits by lia.
    rewrite septet_bit_at by done. by rewrite Hnth.
  - rewrite lookup_seq_ge by lia. symmetry. apply lookup_ge_None. lia.
Qed.

Lemma unpack_pack chars : Forall is_septet chars -> unpack_septets (packGSM7 chars) (length chars) = chars.
Proof.
  intros Hc. apply unpack_of_bits; [by apply packGSM7_byte|done|rewrite length_packGSM7; lia|].
  intros. by apply bit_at_packGSM7.
Qed.

(** ** The loops compute the functions

    No index is out of range, whatever the data and the count. *)

Lemma go_index_nth {E} (l : list Z) k : k < length l -> @go_index E Z l (Z.of_nat k) = Ok (nth k l 0%Z).
Proof.
  intros Hk. apply go_index_Ok. destruct (lookup_lt_is_Some_2 l k Hk) as [x Hx]. by rewrite nth_lookup, Hx.
Qed.

Lemma unpack_septet_past data i : length data <= i * 7 / 8 -> unpack_septet data i = 0%Z.
Proof. intros H. unfold unpack_septet. by destruct (Nat.leb_spec (length data) (i * 7 / 8)); [|lia]. Qed.

Lemma go_store_snoc {E} (l1 l2 : list Z) (x y : Z) :
  @go_store E Z (l1 ++ x :: l2) (Z.of_nat (length l1)) y = Ok (l1 ++ y :: l2).
Proof.
  unfold go_store, zlen. rewrite length_app. cbn [length].
  destruct (_ && _) eqn:E1; [|lia]. by rewrite Nat2Z.id, insert_app_r_alt, Nat.sub_diag by lia.
Qed.

Lemma unpack_loop_spec {E} data n : forall i,
  @unpack_loop E data (map (unpack_septet data) (seq 0 i) ++ replicate n 0%Z) i n =
    Ok (map (unpack_septet data) (seq 0 (i + n))).
Proof.
  induction n as [|n IH]; intros i; cbn [unpack_loop].
  { cbn [replicate]. by rewrite app_nil_r, Nat.add_0_r. }
  replace (Z.of_nat i * 7 / 8)%Z with (Z.of_nat (i * 7 / 8)) by lia.
  replace (Z.of_nat i * 7 mod 8)%Z with (Z.of_nat (i * 7 mod 8)) by lia.
  unfold zlen at 1. destruct (Z.leb_spec (Z.of_nat (length data)) (Z.of_nat (i * 7 / 8))) as [Hge|Hlt].
  { rewrite seq_app, map_app. cbn [Nat.add]. do 2 f_equal. apply list_eq. intros k.
    rewrite list_lookup_fmap. destruct (decide (k < S n)) as [Hk|Hk].
    - rewrite lookup_seq_lt, lookup_replicate_2 by done. cbn. f_equal. symmetry. apply unpack_septet_past. lia.
    - rewrite lookup_seq_ge by lia. apply lookup_replicate_None. lia. }
  rewrite go_index_nth by lia. cbn [mbind outcome_bind]. cbv zeta.
  match goal with |- (?b ≫= _) = _ => assert (Hb : b = Ok (unpack_septet data i)) end.
  { unfold unpack_septet, zlen. destruct (Nat.leb_spec (length data) (i * 7 / 8)); [lia|].
    replace (1 <? Z.of_nat (i * 7 mod 8))%Z with (1 <? i * 7 mod 8) by lia.
    replace (Z.of_nat (i * 7 / 8) + 1 <? Z.of_nat (length data))%Z with (i * 7 / 8 + 1 <? length data) by lia.
    destruct (_ && _) eqn:E1; [|done].
    replace (Z.of_nat (i * 7 / 8) + 1)%Z with (Z.of_nat (i * 7 / 8 + 1)) by lia.
    by rewrite go_index_nth by lia. }
  rewrite Hb. cbn [mbind outcome_bind replicate].
  replace (Z.of_nat i) with (Z.of_nat (length (map (unpack_septet data) (seq 0 i))))
    by (by rewrite length_map, length_seq).
  rewrite go_store_snoc. cbn [mbind outcome_bind].
  replace (i + S n) with (S i + n) by lia. rewrite <- IH. f_equal.
  rewrite seq_S, map_app, <- app_assoc. done.
Qed.

Lemma unpackGSM7_spec {E} data n :
  (0 <= n)%Z -> @unpackGSM7 E data n = Ok (unpack_septets data (Z.to_nat n)).
Proof.
  intros Hn. unfold unpackGSM7, unpack_septets, go_make, zlen.
  set (k := if (_ <? n)%Z then _ else n).
  assert (Hk : (0 <= k)%Z) by (subst k; case_match; lia).
  replace (k <? 0)%Z with false by lia. cbn [mbind outcome_bind].
  pose proof (@unpack_loop_spec E data (Z.to_nat k) 0) as HL. cbn [seq map app Nat.add] in HL. rewrite HL.
  do 3 f_equal. subst k. repeat case_match; lia.
Qed.

(** [k] codes have been read; the structural function goes on with the rest. *)
Lemma decode_gsm7_loop_spec {E} codes fuel : forall k,
  Forall (fun c => 0 <= c)%Z codes -> k <= length codes -> length codes < fuel + k ->
  @decode_gsm7_loop E codes (Z.of_nat k) fuel = Ok (decode_gsm7_runes (drop k codes)).
Proof.
  induction fuel as [|fuel IH]; intros k Hc Hk Hf; [lia|]. cbn [decode_gsm7_loop]. unfold zlen.
  destruct (Z.ltb_spec (Z.of_nat k) (Z.of_nat (length codes))) as [Hlt|Hge]; cbn [negb].
  2:{ by rewrite drop_ge by lia. }
  replace (Z.of_nat k + 1)%Z with (Z.of_nat (S k)) by lia.
  replace (Z.of_nat k + 2)%Z with (Z.of_nat (S (S k))) by lia.
  destruct (lookup_lt_is_Some_2 codes k ltac:(lia)) as [c Hl].
  rewrite (go_index_Ok _ _ _ Hl). cbn [mbind outcome_bind]. rewrite (drop_S _ _ _ Hl). cbn [decode_gsm7_runes].
  destruct (c =? 27)%Z.
  - destruct (Z.ltb_spec (Z.of_nat (S k)) (Z.of_nat (length codes))) as [H2|H2].
    + destruct (lookup_lt_is_Some_2 codes (S k) ltac:(lia)) as [e He].
      rewrite (go_index_Ok _ _ _ He). cbn [mbind outcome_bind]. rewrite (drop_S _ _ _ He).
      by rewrite IH by (done || lia).
    + rewrite IH by (done || lia). by rewrite drop_ge by lia.
  - assert (H0 : (0 <= c)%Z) by (by eapply Forall_lookup in Hc).
    destruct (Z.ltb_spec c (Z.of_nat (length gsm7Charset))) as [Hin|Hout].
    + destruct (lookup_lt_is_Some_2 gsm7Charset (Z.to_nat c) ltac:(lia)) as [r Hr].
      rewrite Hr, (go_index_at _ (Z.to_nat c) r c ltac:(lia) Hr). cbn [mbind outcome_bind].
      by rewrite IH by (done || lia).
    + rewrite lookup_ge_None_2 by lia. by rewrite IH by (done || lia).
Qed.

Lemma decodeGSM7Text_spec {E} codes :
  Forall (fun c => 0 <= c)%Z codes -> @decodeGSM7Text E codes = Ok (gsm7_text codes).
Proof.
  intros Hc. unfold decodeGSM7Text. change 0%Z with (Z.of_nat 0).
  by rewrite decode_gsm7_loop_spec by (done || lia).
Qed.

Lemma unpack_septets_septet data n : Forall is_byte data -> Forall is_septet (unpack_septets data n).
Proof.
  intros Hd. apply Forall_lookup. intros i c. unfold unpack_septets. rewrite list_lookup_fmap.
  destruct (seq _ _ !! i); [|done]. intros [= <-]. by apply unpack_septet_septet.
Qed.

(** The text of packed octets: both loops, without a panic. *)
Lemma unpack_text_spec {E} data n :
  Forall is_byte data -> (0 <= n)%Z ->
  (codes ← @unpackGSM7 E data n; decodeGSM7Text codes) = Ok (gsm7_text (unpack_septets data (Z.to_nat n))).
Proof.
  intros Hd Hn. rewrite unpackGSM7_spec by done. cbn [mbind outcome_bind]. apply decodeGSM7Text_spec.
  eapply Forall_impl; [by apply unpack_septets_septet|]. unfold is_septet. lia.
Qed.

(** ** Packing with fill bits *)

Lemma length_gather_bits bits : forall out i, length (gather_bits out i bits) = length out.
Proof.
  induction bits as [|b bits IH]; intros; cbn; [done|]. rewrite IH.
  destruct b; by rewrite ?length_insert.
Qed.

Lemma testbit_one_shl k j : k < 8 -> Z.testbit (byte_shl 1 (Z.of_nat k)) (Z.of_nat j) = bool_decide (j = k).
Proof.
  intros Hk. rewrite testbit_byte_shl by lia. change 1%Z with (2 ^ 0)%Z.
  rewrite Z.pow2_bits_eqb by lia.
  destruct (bool_decide_reflect (j = k)); lia.
Qed.

Lemma gather_bits_bit bits : forall out i n,
  i + length bits <= 8 * length out ->
  (forall m, i <= m -> bit_at out m = false) ->
  bit_at (gather_bits out i bits) n =
    if decide (i <= n) then nth (n - i) bits false else bit_at out n.
Proof.
  induction bits as [|b bits IH]; intros out i n Hlen Hzero; cbn [gather_bits length] in *.
  - destruct (decide (i <= n)); [|done]. rewrite Hzero by done. by destruct (n - i).
  - set (out' := if b then _ else out).
    assert (Hout : forall m, bit_at out' m = if decide (m = i) then b else bit_at out m).
    { intros m. subst out'. destruct b.
      - rewrite bit_at_insert by lia. destruct (decide (m / 8 = i / 8)) as [Hm|Hm].
        + rewrite Z.lor_spec, testbit_one_shl by lia. rewrite <- Hm.
          change (Z.testbit (nth (m / 8) out 0%Z) (Z.of_nat (m mod 8))) with (bit_at out m).
          destruct (decide (m = i)) as [->|Hne].
          * rewrite bool_decide_true by done. by rewrite orb_true_r.
          * rewrite bool_decide_false by lia. by rewrite orb_false_r.
        + rewrite decide_False by (intros ->; done). done.
      - destruct (decide (m = i)) as [->|]; [|done]. by apply Hzero. }
    assert (Hl : length out' = length out) by (subst out'; destruct b; by rewrite ?length_insert).
    rewrite IH; [|lia|].
    + rewrite Hout. destruct (decide (S i <= n)), (decide (i <= n)), (decide (n = i)); try lia; try done.
      * replace (n - i) with (S (n - S i)) by lia. done.
      * replace (n - i) with 0 by lia. done.
    + intros m Hm. rewrite Hout, decide_False by lia. apply Hzero. lia.
Qed.

Lemma length_septet_bits c : length (septet_bits c) = 7.
Proof. done. Qed.

Lemma length_flat_septet_bits chars : length (flat_map septet_bits chars) = 7 * length chars.
Proof. induction chars; [done|]. cbn [flat_map]. rewrite length_app, IHchars, length_septet_bits. cbn. lia. Qed.

Lemma nth_septet_bits c j : j < 7 -> nth j (septet_bits c) false = Z.testbit c (Z.of_nat j).
Proof. intros. do 7 (destruct j as [|j]; [done|]). lia. Qed.

Lemma nth_flat_septet_bits chars : forall n,
  nth n (flat_map septet_bits chars) false = septet_bit chars n.
Proof.
  induction chars as [|c chars IH]; intros n; cbn [flat_map].
  - unfold septet_bit. rewrite !nth_lookup, !lookup_nil. cbn. by rewrite Z.testbit_0_l.
  - destruct (decide (n < 7)).
    + rewrite app_nth1 by (by rewrite length_septet_bits). rewrite nth_septet_bits by done. unfold septet_bit.
      replace (n / 7) with 0 by lia. by replace (n mod 7) with n by lia.
    + rewrite app_nth2 by (rewrite length_septet_bits; lia). rewrite length_septet_bits, IH.
      unfold septet_bit. replace (n / 7) with (S ((n - 7) / 7)) by lia.
      by replace ((n - 7) mod 7) with (n mod 7) by lia.
Qed.

Lemma length_repackWithFill chars k : length (repackWithFill chars k) = (7 * length chars + k + 7) / 8.
Proof.
  unfold repackWithFill. rewrite length_gather_bits, length_replicate, length_app, length_replicate,
    length_flat_septet_bits. f_equal. lia.
Qed.

Lemma bit_at_repack chars k n :
  bit_at (repackWithFill chars k) n = if decide (n < k) then false else septet_bit chars (n - k).
Proof.
  unfold repackWithFill. rewrite gather_bits_bit.
  - rewrite decide_True by lia. rewrite Nat.sub_0_r. destruct (decide (n < k)).
    + rewrite app_nth1 by (by rewrite length_replicate). rewrite nth_lookup.
      by rewrite lookup_replicate_2.
    + rewrite app_nth2 by (rewrite length_replicate; lia). rewrite length_replicate.
      apply nth_flat_septet_bits.
  - rewrite length_replicate. lia.
  - intros. apply bit_at_zeros.
Qed.

Lemma gather_bits_byte bits : forall out i, Forall is_byte out -> Forall is_byte (gather_bits out i bits).
Proof.
  induction bits as [|b bits IH]; intros out i Ho; cbn; [done|]. apply IH. destruct b; [|done].
  apply Forall_insert; [done|]. apply is_byte_lor; [by apply Forall_byte_nth|apply is_byte_to_byte].
Qed.

Lemma repack_byte chars k : Forall is_byte (repackWithFill chars k).
Proof. apply gather_bits_byte, Forall_replicate. unfold is_byte. lia. Qed.

(** Byte sequences with the same length and bit stream are equal. *)
Lemma bytes_eq_bits l1 l2 :
  Forall is_byte l1 -> Forall is_byte l2 -> length l1 = length l2 ->
  (forall n, bit_at l1 n = bit_at l2 n) -> l1 = l2.
Proof.
  intros H1 H2 Hlen Hbits. apply list_eq_same_length with (length l2); [done|done|].
  intros i x y Hi Hx Hy. apply (bits_ext 8); [lia|by eapply Forall_lookup in H1|by eapply Forall_lookup in H2|].
  intros n Hn. specialize (Hbits (8 * i + Z.to_nat n)). unfold bit_at in Hbits.
  replace ((8 * i + Z.to_nat n) / 8) with i in Hbits by lia.
  replace (Z.of_nat ((8 * i + Z.to_nat n) mod 8)) with n in Hbits by lia.
  rewrite !nth_lookup, Hx, Hy in Hbits. done.
Qed.

(** ** Table lemmas *)

Lemma runeToGSM7_ok :
  map_Forall (fun r b => is_septet b /\ gsm7Charset !! Z.to_nat b = Some r) runeToGSM7.
Proof. by_eval. Qed.

Lemma runeToGSM7_complete :
  Forall (fun p => runeToGSM7 !! p.2 = Some p.1) (zip (seqZ 0 128) gsm7Charset).
Proof. by_eval. Qed.

Lemma gsm7Extension_ok :
  map_Forall (fun c r => is_septet c /\ extension_code r = Some c /\ runeToGSM7 !! r = None) gsm7Extension.
Proof. by_eval. Qed.

Lemma extension_code_Some r c :
  extension_code r = Some c -> gsm7Extension !! c = Some r /\ is_septet c.
Proof.
  unfold extension_code. intros H. apply fmap_Some in H as ([c' r'] & Hf & ->).
  apply find_some in Hf as [Hin Hr]. apply list_elem_of_In, elem_of_map_to_list in Hin.
  cbn in *. apply Z.eqb_eq in Hr as ->. split; [done|]. by apply gsm7Extension_ok in Hin as [? _].
Qed.

(** The order in which the extension table is visited does not matter: a rune
    occurs in it at most once. *)
Lemma extension_code_unique r c : gsm7Extension !! c = Some r -> extension_code r = Some c.
Proof. intros H. by apply gsm7Extension_ok in H as (_ & ? & _). Qed.

Lemma gsm7Charset_esc : gsm7Charset !! Z.to_nat 27 = Some 27%Z.
Proof. done. Qed.

Lemma encode_gsm7_rune_septet r : Forall is_septet (encode_gsm7_rune r).
Proof.
  unfold encode_gsm7_rune. destruct (runeToGSM7 !! r) eqn:E.
  - apply runeToGSM7_ok in E as [? _]. by apply Forall_singleton.
  - destruct (extension_code r) eqn:Ex; [|done].
    apply extension_code_Some in Ex as [_ ?]. rewrite !Forall_cons, Forall_nil.
    split_and!; [unfold is_septet; lia..|done|done].
Qed.

Lemma encodeGSM7Text_septet s : Forall is_septet (encodeGSM7Text s).
Proof.
  unfold encodeGSM7Text. induction (runes_of s); cbn; [done|].
  apply Forall_app. auto using encode_gsm7_rune_septet.
Qed.

Lemma length_encode_gsm7_rune r : length (encode_gsm7_rune r) <= 2.
Proof. unfold encode_gsm7_rune. repeat case_match; cbn; lia. Qed.

(** A body of [n] bytes has at most [2 n] septets. *)
Lemma length_encodeGSM7Text s : length (encodeGSM7Text s) <= 2 * String.length s.
Proof.
  rewrite <- length_bytes_of. unfold encodeGSM7Text, runes_of.
  pose proof (length_utf8_decode (bytes_of s)) as H. revert H.
  generalize (utf8_decode (bytes_of s)) as rs. generalize (length (bytes_of s)) as n.
  intros n rs Hn. assert (length (flat_map encode_gsm7_rune rs) <= 2 * length rs); [|lia].
  clear Hn. induction rs as [|r rs IH]; cbn; [done|]. rewrite length_app.
  pose proof (length_encode_gsm7_rune r). lia.
Qed.

(** ** Text lemmas *)

Lemma decode_encode_gsm7_rune r l :
  is_gsm7_rune r = true -> r <> 27%Z ->
  decode_gsm7_runes (encode_gsm7_rune r ++ l) = r :: decode_gsm7_runes l.
Proof.
  unfold is_gsm7_rune, encode_gsm7_rune. intros Hg Hr. destruct (runeToGSM7 !! r) as [b|] eqn:E.
  - apply runeToGSM7_ok in E as [Hb Hl]. cbn. destruct (Z.eqb_spec b 27) as [->|Hne].
    + rewrite gsm7Charset_esc in Hl. congruence.
    + by rewrite Hl.
  - apply bool_decide_eq_true in Hg as [c Hc]. rewrite Hc.
    apply extension_code_Some in Hc as [Hc _]. cbn [app decode_gsm7_runes]. by rewrite Z.eqb_refl, Hc.
Qed.

Lemma decode_encode_gsm7_runes rs :
  forallb is_gsm7_rune rs = true -> 27%Z ∉ rs ->
  decode_gsm7_runes (flat_map encode_gsm7_rune rs) = rs.
Proof.
  induction rs as [|r rs IH]; [done|]. cbn [forallb flat_map]. intros [Hr Hrs]%andb_true_iff Hesc.
  apply not_elem_of_cons in Hesc as [Hne Hesc].
  rewrite decode_encode_gsm7_rune by done. by rewrite IH.
Qed.

Lemma is_gsm7_rune_error : is_gsm7_rune rune_error = false.
Proof. by vm_compute. Qed.

Lemma IsGSM7_no_error s : IsGSM7 s = true -> rune_error ∉ runes_of s.
Proof.
  unfold IsGSM7. intros H Hin. rewrite forallb_forall in H.
  apply list_elem_of_In, H in Hin. by rewrite is_gsm7_rune_error in Hin.
Qed.

(** ** Properties *)

(** Packing septets and unpacking them gives the septets back: for every
    list of 7-bit codes, [unpackGSM7 (packGSM7 cs) (len cs)] is [cs], and the
    packed form takes [ceil (7 n / 8)] octets, each a byte. *)
Theorem gsm7_pack_roundtrip (chars : list Z) :
  Forall is_septet chars ->
  @unpackGSM7 () (packGSM7 chars) (zlen chars) = Ok chars /\
  length (packGSM7 chars) = (length chars * 7 + 7) / 8 /\
  Forall is_byte (packGSM7 chars).
Proof.
  intros Hc. split_and!; [|apply length_packGSM7|by apply packGSM7_byte].
  unfold zlen. by rewrite unpackGSM7_spec, Nat2Z.id, unpack_pack by (done || lia).
Qed.

Lemma gsm7_pack_roundtrip_witness :
  @unpackGSM7 () (packGSM7 [104; 101; 108; 108; 111]%Z) 5 = Ok [104; 101; 108; 108; 111]%Z.
Proof. apply (gsm7_pack_roundtrip [104; 101; 108; 108; 111]%Z). by_eval. Defined.

(** The bit-array packer used for concatenated messages, with no fill bits,
    computes the same octets as the shift-and-or packer used for single ones. *)
Theorem repack_nofill_is_pack (chars : list Z) :
  Forall is_septet chars -> repackWithFill chars 0 = packGSM7 chars.
Proof.
  intros Hc. apply bytes_eq_bits; [apply repack_byte|by apply packGSM7_byte| |].
  - rewrite length_repackWithFill, length_packGSM7. f_equal. lia.
  - intros n. rewrite bit_at_repack, bit_at_packGSM7 by done. rewrite decide_False by lia. f_equal. lia.
Qed.

Lemma repack_nofill_is_pack_witness :
  repackWithFill [127; 0; 85; 42; 1; 2; 3; 64; 99]%Z 0 = packGSM7 [127; 0; 85; 42; 1; 2; 3; 64; 99]%Z.
Proof. apply (repack_nofill_is_pack [127; 0; 85; 42; 1; 2; 3; 64; 99]%Z). by_eval. Defined.

(** Text that [IsGSM7] accepts survives encoding and decoding unchanged,
    provided it does not contain the escape character itself. *)
Theorem gsm7_text_roundtrip (s : string) :
  IsGSM7 s = true -> 27%Z ∉ runes_of s -> gsm7_text (encodeGSM7Text s) = s.
Proof.
  intros Hg Hesc. unfold gsm7_text, encodeGSM7Text.
  rewrite decode_encode_gsm7_runes by done. by apply string_of_runes_runes_of, IsGSM7_no_error.
Qed.

Lemma gsm7_text_roundtrip_witness :
  gsm7_text (encodeGSM7Text "Preis: 5€ {ok} äö"%string) = "Preis: 5€ {ok} äö"%string.
Proof.
  apply (gsm7_text_roundtrip "Preis: 5€ {ok} äö"%string); [by vm_compute|].
  by_eval.
Defined.

(** The escape character is in the basic table, so [IsGSM7] accepts it, but it
    does not survive: it is taken for the start of an extension sequence. *)
Lemma gsm7_escape_not_preserved :
  let s := string_of [27; 101]%Z in
  IsGSM7 s = true /\ gsm7_text (encodeGSM7Text s) = "€"%string /\ s <> "€"%string.
Proof. vm_compute. done. Qed.
