(* ===== verification/Sha256.v ===== *)
(** * SHA-256 (crypto/sha256, as the gateway uses it)

    [sha256.Sum256] fingerprints a PDU ([DecodePDU]) and a message
    ([dedup.fingerprint]).  The function of FIPS 180-4 on byte sequences, with
    words as integers below [2^32]. *)

From S2P Require Import Prelude GoString.

Local Open Scope Z_scope.

Definition w32 (z : Z) : Z := z mod 4294967296.
Definition rotr (x n : Z) : Z := Z.lor (Z.shiftr x n) (w32 (Z.shiftl x (32 - n))).

Definition sha_k : list Z :=
  [
   1116352408; 1899447441; 3049323471; 3921009573; 961987163; 1508970993;
   2453635748; 2870763221; 3624381080; 310598401; 607225278; 1426881987;
   1925078388; 2162078206; 2614888103; 3248222580; 3835390401; 4022224774;
   264347078; 604807628; 770255983; 1249150122; 1555081692; 1996064986;
   2554220882; 2821834349; 2952996808; 3210313671; 3336571891; 3584528711;
   113926993; 338241895; 666307205; 773529912; 1294757372; 1396182291;
   1695183700; 1986661051; 2177026350; 2456956037; 2730485921; 2820302411;
   3259730800; 3345764771; 3516065817; 3600352804; 4094571909; 275423344;
   430227734; 506948616; 659060556; 883997877; 958139571; 1322822218;
   1537002063; 1747873779; 1955562222; 2024104815; 2227730452; 2361852424;
   2428436474; 2756734187; 3204031479; 3329325298].

Definition sha_init : list Z :=
  [1779033703; 3144134277; 1013904242; 2773480762; 1359893119; 2600822924; 528734635; 1541459225].

(** Big-endian words. *)
Fixpoint be_words (l : list Z) : list Z :=
  match l with
  | a :: b :: c :: d :: l => (a * 16777216 + b * 65536 + c * 256 + d) :: be_words l
  | _ => []
  end.

Definition be_bytes (w : Z) : list Z :=
  [w / 16777216 mod 256; w / 65536 mod 256; w / 256 mod 256; w mod 256].

(** The message schedule, kept in reverse: sixteen words of the block, then 48 more. *)
Fixpoint schedule (n : nat) (rev_w : list Z) : list Z :=
  match n with
  | O => rev_w
  | S n =>
    let w15 := nth 14 rev_w 0 in
    let w2 := nth 1 rev_w 0 in
    let s0 := Z.lxor (Z.lxor (rotr w15 7) (rotr w15 18)) (Z.shiftr w15 3) in
    let s1 := Z.lxor (Z.lxor (rotr w2 17) (rotr w2 19)) (Z.shiftr w2 10) in
    schedule n (w32 (nth 15 rev_w 0 + s0 + nth 6 rev_w 0 + s1) :: rev_w)
  end.

Definition sha_round (st : list Z) (kw : Z * Z) : list Z :=
  match st with
  | [a; b; c; d; e; f; g; h] =>
    let s1 := Z.lxor (Z.lxor (rotr e 6) (rotr e 11)) (rotr e 25) in
    let ch := Z.lxor (Z.land e f) (Z.land (Z.lxor e 4294967295) g) in
    let t1 := h + s1 + ch + kw.1 + kw.2 in
    let s0 := Z.lxor (Z.lxor (rotr a 2) (rotr a 13)) (rotr a 22) in
    let maj := Z.lxor (Z.lxor (Z.land a b) (Z.land a c)) (Z.land b c) in
    [w32 (t1 + s0 + maj); a; b; c; w32 (d + t1); e; f; g]
  | _ => st
  end.

Definition sha_block (st : list Z) (block : list Z) : list Z :=
  let w := rev (schedule 48 (rev (be_words block))) in
  zip_with (fun x y => w32 (x + y)) st (fold_left sha_round (zip sha_k w) st).

Fixpoint sha_blocks (n : nat) (st : list Z) (l : list Z) : list Z :=
  match n with
  | O => st
  | S n => sha_blocks n (sha_block st (take 64 l)) (drop 64 l)
  end.

Definition sha_pad (l : list Z) : list Z :=
  let n := Z.of_nat (length l) in
  l ++ [128] ++ replicate (Z.to_nat ((55 - n) mod 64)) 0
    ++ be_bytes (8 * n / 4294967296) ++ be_bytes (w32 (8 * n)).

(** [sha256.Sum256]. *)
Definition sha256 (l : list Z) : list Z :=
  let p := sha_pad l in
  flat_map be_bytes (sha_blocks (Nat.div (length p) 64) sha_init p).

Lemma be_bytes_byte w : Forall is_byte (be_bytes w).
Proof. unfold be_bytes. rewrite !Forall_cons, Forall_nil. unfold is_byte. split_and!; lia || done. Qed.

Lemma sha256_byte l : Forall is_byte (sha256 l).
Proof.
  unfold sha256. cbv zeta. induction (sha_blocks _ _ _); cbn [flat_map]; [done|].
  apply Forall_app. auto using be_bytes_byte.
Qed.

(** The test vectors of the standard for the empty string and for "abc". *)
Example sha256_empty :
  string_of (hex_encode (sha256 [])) =
  "e3b0c44298fc1c149afbf4c8996fb92427ae41e4649b934ca495991b7852b855"%string.
Proof. by vm_compute. Qed.

Example sha256_abc :
  string_of (hex_encode (sha256 (bytes_of "abc"))) =
  "ba7816bf8f01cfea414140de5dae2223b00361a396177a9cb410ff61f20015ad"%string.
Proof. by vm_compute. Qed.
