(* ===== verification/Pdu.v ===== *)
(** * SMS PDUs (internal/at/pdu.go, second part)

    UCS-2 text, BCD addresses, the service-centre timestamp and the data coding
    scheme; [DecodePDU] for SMS-DELIVER and [EncodePDU] for SMS-SUBMIT.  The
    decoder runs in the [outcome] monad: a slice or index out of range would be
    [Panic].  Times are seconds since the Unix epoch. *)

From S2P Require Import Prelude GoString Gsm7 Sha256.

Local Open Scope go_scope.

(** ** UCS-2 *)

(** [binary.BigEndian] on pairs of bytes. *)
Fixpoint be_u16 (l : list Z) : list Z :=
  match l with
  | a :: b :: l => (256 * a + b)%Z :: be_u16 l
  | _ => []
  end.

Definition u16_bytes (u : Z) : list Z := [u / 256; u mod 256]%Z.

(** [utf16.Decode] and [utf16.Encode]. *)
Fixpoint utf16_decode (l : list Z) : list Z :=
  match l with
  | [] => []
  | u :: l0 =>
    if ((55296 <=? u) && (u <? 56320))%Z then
      match l0 with
      | v :: l1 =>
        if ((56320 <=? v) && (v <? 57344))%Z
        then ((u - 55296) * 1024 + (v - 56320) + 65536)%Z :: utf16_decode l1
        else rune_error :: utf16_decode l0
      | [] => rune_error :: utf16_decode l0
      end
    else if ((56320 <=? u) && (u <? 57344))%Z then rune_error :: utf16_decode l0
    else u :: utf16_decode l0
  end.

Definition utf16_encode_rune (r : Z) : list Z :=
  if ((0 <=? r) && (r <? 55296) || (57344 <=? r) && (r <? 65536))%Z then [r]
  else if ((65536 <=? r) && (r <=? 1114111))%Z
  then [55296 + (r - 65536) / 1024; 56320 + (r - 65536) mod 1024]%Z
  else [rune_error].

Definition utf16_encode (rs : list Z) : list Z := flat_map utf16_encode_rune rs.

(** The text of big-endian UTF-16 octets; an odd last octet is dropped. *)
Definition ucs2_text (data : list Z) : string :=
  let data := if length data mod 2 =? 0 then data else take (length data - 1) data in
  string_of_runes (utf16_decode (be_u16 data)).

(** [binary.BigEndian.Uint16]. *)
Definition Uint16 {E} (b : list Z) : outcome E Z :=
  lo ← b.[1]; hi ← b.[0]; Ok (256 * hi + lo)%Z.

(** The loop of [decodeUCS2] over the units from [i] on, [n] of them. *)
Fixpoint ucs2_units {E} (data : list Z) (i n : nat) : outcome E (list Z) :=
  match n with
  | O => Ok []
  | S n =>
    b ← data.[: Z.of_nat i * 2, zlen data];
    u ← Uint16 b;
    us ← ucs2_units data (S i) n;
    Ok (u :: us)
  end.

Definition decodeUCS2 {E} (data : list Z) : outcome E string :=
  data ← (if (zlen data mod 2 =? 0)%Z then Ok data else data.[: 0, zlen data - 1]);
  u16 ← ucs2_units data 0 (length data / 2);
  Ok (string_of_runes (utf16_decode u16)).

Definition encodeUCS2 (s : string) : list Z := flat_map u16_bytes (utf16_encode (runes_of s)).

(** ** Addresses *)

Definition swapNibbles (b : Z) : Z := Z.lor (Z.land (Z.shiftr b 4) 15) (byte_shl (Z.land b 15) 4).

(** The digit loop of [decodeBCDAddress], from digit [i] with [n] rounds left;
    both its [break]s end it. *)
Fixpoint bcd_loop {E} (data : list Z) (i n : nat) : outcome E (list Z) :=
  match n with
  | O => Ok []
  | S n =>
    let byteIdx := (Z.of_nat i / 2)%Z in
    if (zlen data <=? byteIdx)%Z then Ok [] else
    b ← data.[byteIdx];
    let nibble := if (Z.of_nat i mod 2 =? 0)%Z then Z.land b 15 else Z.land (Z.shiftr b 4) 15 in
    if (nibble =? 15)%Z then Ok [] else
    ds ← bcd_loop data (S i) n;
    Ok (to_byte (48 + nibble) :: ds)
  end.

Definition decodeBCDAddress {E} (data : list Z) (numDigits addrType : Z) : outcome E string :=
  if (addrType =? 208)%Z then codes ← unpackGSM7 data numDigits; decodeGSM7Text codes
  else
    ds ← bcd_loop data 0 (Z.to_nat numDigits);
    Ok (string_of ((if (addrType =? 145)%Z then [43%Z] else []) ++ ds)).

(** Its result as a function of the octets. *)
Fixpoint bcd_digits (data : list Z) (i n : nat) : list Z :=
  match n with
  | O => []
  | S n =>
    match data !! (i / 2) with
    | None => []
    | Some b =>
      let nibble := if i mod 2 =? 0 then Z.land b 15 else Z.land (Z.shiftr b 4) 15 in
      if (nibble =? 15)%Z then [] else to_byte (48 + nibble) :: bcd_digits data (S i) n
    end
  end.

Definition address_text (data : list Z) (numDigits : nat) (addrType : Z) : string :=
  if (addrType =? 208)%Z then gsm7_text (unpack_septets data numDigits)
  else string_of ((if (addrType =? 145)%Z then [43%Z] else []) ++ bcd_digits data 0 numDigits).

(** The pairs of digits of [encodeBCDAddress]; byte subtraction wraps. *)
Definition bcd_pair (lo hi : Z) : Z :=
  Z.lor (to_byte (lo - 48)) (byte_shl (if (hi =? 70)%Z then 15%Z else to_byte (hi - 48)) 4).

Definition encodeBCDAddress (msisdn : string) : nat * Z * list Z :=
  let '(addrType, digits) :=
    if HasPrefix msisdn "+" then (145%Z, bytes_of (TrimPrefix msisdn "+"))
    else (129%Z, bytes_of msisdn) in
  let numDigits := length digits in
  let digits := if numDigits mod 2 =? 0 then digits else digits ++ [70%Z] in
  (numDigits, addrType,
   map (fun i => bcd_pair (nth (i * 2) digits 0%Z) (nth (i * 2 + 1) digits 0%Z))
       (seq 0 (length digits / 2))).

(** [decodeSMSC]: the address and the number of bytes consumed. *)
Definition decodeSMSC {E} (raw : list Z) : outcome E (string * Z) :=
  if (zlen raw =? 0)%Z then Ok (""%string, 0%Z) else
  smscLen ← raw.[0];
  if (smscLen =? 0)%Z then Ok (""%string, 1%Z) else
  if (zlen raw <? 1 + smscLen)%Z then Ok (""%string, (1 + smscLen)%Z) else
  addrType ← raw.[1];
  addr ← raw.[: 2, 1 + smscLen];
  smsc ← decodeBCDAddress addr ((smscLen - 1) * 2) addrType;
  Ok (smsc, (1 + smscLen)%Z).

(** ** Timestamps *)

(** Days from 1970-01-01 to the first of a month (proleptic Gregorian calendar). *)
Definition days_to_month (year month : Z) : Z :=
  let y := if (month <=? 2)%Z then (year - 1)%Z else year in
  let era := (y / 400)%Z in
  let yoe := (y - era * 400)%Z in
  let mp := if (2 <? month)%Z then (month - 3)%Z else (month + 9)%Z in
  (era * 146097 + (yoe * 365 + yoe / 4 - yoe / 100 + (153 * mp + 2) / 5) - 719468)%Z.

(** [time.Date] with its normalisation of out-of-range fields, as Unix seconds. *)
Definition time_Date (year month day hour min sec off : Z) : Z :=
  let m0 := (month - 1)%Z in
  let days := (days_to_month (year + m0 / 12) (m0 mod 12 + 1) + (day - 1))%Z in
  (days * 86400 + hour * 3600 + min * 60 + sec - off)%Z.

(** [time.Time{}]: 1 January of year 1. *)
Definition time_zero : Z := time_Date 1 1 1 0 0 0 0.

Definition decodeSCTS {E} (data : list Z) : outcome E Z :=
  if (zlen data <? 7)%Z then Ok time_zero else
  yy ← data.[0]; mm ← data.[1]; dd ← data.[2];
  hh ← data.[3]; min ← data.[4]; ss ← data.[5]; tz ← data.[6];
  let tzRaw := swapNibbles tz in
  let tzQuarters := Z.land tzRaw 127 in
  let tzSign := if (Z.land tzRaw 128 =? 0)%Z then 1%Z else (-1)%Z in
  let tzOffset := (tzSign * tzQuarters * 15 * 60)%Z in
  Ok (time_Date (2000 + swapNibbles yy) (swapNibbles mm) (swapNibbles dd)
                (swapNibbles hh) (swapNibbles min) (swapNibbles ss) tzOffset).

(** The time of seven octets. *)
Definition scts_time (data : list Z) : Z :=
  let b i := swapNibbles (nth i data 0%Z) in
  let tz := b 6 in
  let offset := ((if Z.testbit tz 7 then -1 else 1) * (tz mod 128) * 900)%Z in
  time_Date (2000 + b 0%nat) (b 1) (b 2) (b 3) (b 4) (b 5) offset.

(** ** Data coding scheme *)

Definition dcsEncoding (dcs : Z) : string :=
  let class := Z.land (Z.shiftr dcs 4) 15 in
  if ((class =? 0) || (class =? 15))%Z then
    let enc := Z.land (Z.shiftr dcs 2) 3 in
    if (enc =? 0)%Z then "GSM7" else
    if (enc =? 1)%Z then "8BIT" else
    if (enc =? 2)%Z then "UCS2" else "GSM7"
  else if ((4 <=? class) && (class <=? 7))%Z then "GSM7"
  else if ((8 <=? class) && (class <=? 11))%Z then "UCS2"
  else if ((class =? 12) || (class =? 13))%Z then "GSM7"
  else if (class =? 14)%Z then (if (Z.land dcs 4 =? 0)%Z then "GSM7" else "UCS2")
  else "GSM7".

(** ** DecodePDU *)

Record DecodedSMS := {
  SMSC : string;
  Sender : string;
  Body : string;
  Timestamp : Z;
  PDUHash : string;
}.

Inductive pdu_error :=
| InvalidHex
| TruncatedAfterSMSC
| NotDeliver (mti : Z)
| TruncatedAtOA
| TruncatedAtOADigits
| TruncatedAtPID
| TruncatedAtDCS
| TruncatedAtSCTS
| TruncatedAtUDL
| UDHIEmptyUD
| InvalidUDH (udhLen udLen : Z)
| UnsupportedEncoding (enc : string).

#[global] Instance DecodedSMS_eq_dec : EqDecision DecodedSMS.
Proof. solve_decision. Defined.
#[global] Instance pdu_error_eq_dec : EqDecision pdu_error.
Proof. solve_decision. Defined.

(** The user data header: the user data after it and the length left for it. *)
Definition skip_udh (pduType : Z) (enc : string) (ud : list Z) (udl : Z)
  : outcome pdu_error (list Z * Z) :=
  let udhi := Z.land (Z.shiftr pduType 6) 1 in
  if (udhi =? 1)%Z then
    guard_err (zlen ud =? 0)%Z UDHIEmptyUD;;
    b ← ud.[0];
    let udhLen := (b + 1)%Z in
    guard_err (zlen ud <? udhLen)%Z (InvalidUDH udhLen (zlen ud));;
    if String.eqb enc "GSM7" then
      let udhSeptets := ((udhLen * 8 + 6) / 7)%Z in
      ud ← ud.[: udhLen, zlen ud];
      Ok (ud, if (udl <=? udhSeptets)%Z then 0%Z else (udl - udhSeptets)%Z)
    else
      ud ← ud.[: udhLen, zlen ud];
      let udl := (udl - udhLen)%Z in
      Ok (ud, if (udl <? 0)%Z then 0%Z else udl)
  else Ok (ud, udl).

(** The user data in the encoding of the data coding scheme. *)
Definition decode_body (enc : string) (ud : list Z) (udl : Z) : outcome pdu_error string :=
  if String.eqb enc "GSM7" then codes ← unpackGSM7 ud udl; decodeGSM7Text codes
  else if String.eqb enc "UCS2" then
    let ucs2Bytes := (udl * 2)%Z in
    let ucs2Bytes := if (zlen ud <? ucs2Bytes)%Z then zlen ud else ucs2Bytes in
    l ← ud.[: 0, ucs2Bytes]; decodeUCS2 l
  else if String.eqb enc "8BIT" then
    let udl := if (zlen ud <? udl)%Z then zlen ud else udl in
    l ← ud.[: 0, udl]; Ok (string_of l)
  else Ok ""%string.

(** [DecodePDU] after the hex decoding: the fields of the octets. *)
Definition decode_octets (raw : list Z) (pduHash : string) : outcome pdu_error DecodedSMS :=
  '(smsc, pos) ← decodeSMSC raw;
  guard_err (zlen raw <=? pos)%Z TruncatedAfterSMSC;;
  pduType ← raw.[pos];
  let pos := (pos + 1)%Z in
  let mti := Z.land pduType 3 in
  guard_err (negb (mti =? 0)%Z) (NotDeliver mti);;
  guard_err (zlen raw <? pos + 2)%Z TruncatedAtOA;;
  oaNumDigits ← raw.[pos];
  let pos := (pos + 1)%Z in
  oaType ← raw.[pos];
  let pos := (pos + 1)%Z in
  let oaBytes := ((oaNumDigits + 1) / 2)%Z in
  guard_err (zlen raw <? pos + oaBytes)%Z TruncatedAtOADigits;;
  oa ← raw.[: pos, pos + oaBytes];
  sender ← decodeBCDAddress oa oaNumDigits oaType;
  let pos := (pos + oaBytes)%Z in
  guard_err (zlen raw <=? pos)%Z TruncatedAtPID;;
  let pos := (pos + 1)%Z in
  guard_err (zlen raw <=? pos)%Z TruncatedAtDCS;;
  dcs ← raw.[pos];
  let pos := (pos + 1)%Z in
  guard_err (zlen raw <? pos + 7)%Z TruncatedAtSCTS;;
  scts ← raw.[: pos, pos + 7];
  ts ← decodeSCTS scts;
  let pos := (pos + 7)%Z in
  guard_err (zlen raw <=? pos)%Z TruncatedAtUDL;;
  udl ← raw.[pos];
  let pos := (pos + 1)%Z in
  let enc := dcsEncoding dcs in
  ud ← raw.[: pos, zlen raw];
  '(ud, udl) ← skip_udh pduType enc ud udl;
  body ← decode_body enc ud udl;
  Ok {| SMSC := smsc; Sender := sender; Body := body; Timestamp := ts; PDUHash := pduHash |}.

Definition pdu_hash (hexStr : string) : string :=
  ("sha256:" +:+ string_of (hex_encode (sha256 (bytes_of hexStr))))%string.

Definition DecodePDU (hexStr : string) : outcome pdu_error DecodedSMS :=
  let hexStr := TrimSpace (ToUpper hexStr) in
  match hex_decode (bytes_of hexStr) with
  | None => Err InvalidHex
  | Some raw => decode_octets raw (pdu_hash hexStr)
  end.

(** ** EncodePDU *)

Record EncodedPDU := {
  HexStr : string;
  Length : nat;
  NumParts : Z;
}.

Definition maxGSM7Chars : nat := 160.
Definition maxUCS2Chars : nat := 70.
Definition maxGSM7ConcatChars : nat := 153.
Definition maxUCS2ConcatChars : nat := 67.

(** Upper-case hex of the octets; the length for AT+CMGS excludes the SMSC octet. *)
Definition encoded (pdu : list Z) (total : Z) : EncodedPDU :=
  {| HexStr := string_of (map upper_byte (hex_encode pdu)); Length := length pdu - 1; NumParts := total |}.

(** The octets before the user data: SMSC, type, reference, destination, PID, DCS, validity. *)
Definition submit_header (to : string) (multiPart : bool) (dcs : Z) : list Z :=
  let pduType := if multiPart then Z.lor 17 64 else 17%Z in
  let '(numDigits, daType, daData) := encodeBCDAddress to in
  [0%Z; pduType; 0%Z; to_byte (Z.of_nat numDigits); daType] ++ daData ++ [0%Z; dcs; 170%Z].

Definition concat_udh (ref total partNum : Z) : list Z := [5; 0; 3; ref; total; partNum]%Z.

Definition gsm7_octets (to : string) (chars : list Z) (ref total partNum : Z) : list Z :=
  let multiPart := (0 <? total)%Z in
  let udl := length chars + (if multiPart then 7 else 0) in
  submit_header to multiPart 0 ++ [to_byte (Z.of_nat udl)] ++
  (if multiPart then concat_udh ref total partNum ++ repackWithFill chars 1 else packGSM7 chars).

Definition buildGSM7PDU (to : string) (chars : list Z) (ref total partNum : Z) : EncodedPDU :=
  encoded (gsm7_octets to chars ref total partNum) total.

Definition ucs2_octets (to : string) (runes : list Z) (ref total partNum : Z) : list Z :=
  let multiPart := (0 <? total)%Z in
  let body := encodeUCS2 (string_of_runes runes) in
  let udh := if multiPart then concat_udh ref total partNum else [] in
  submit_header to multiPart 8 ++ [to_byte (Z.of_nat (length body + length udh))] ++ udh ++ body.

Definition buildUCS2PDU (to : string) (runes : list Z) (ref total partNum : Z) : EncodedPDU :=
  encoded (ucs2_octets to runes ref total partNum) total.

(** The slices of the part loops: [n] parts of at most [size] elements. *)
Definition part_slice {A} (l : list A) (size i : nat) : list A :=
  let start := i * size in
  let stop := if length l <? start + size then length l else start + size in
  take (stop - start) (drop start l).

Definition num_parts (n size : nat) : nat := (n + size - 1) / size.

Definition encodeGSM7PDUs (to body : string) : list EncodedPDU :=
  let chars := encodeGSM7Text body in
  let nChars := length chars in
  if nChars <=? maxGSM7Chars then [buildGSM7PDU to chars 0 0 0] else
  let nParts := num_parts nChars maxGSM7ConcatChars in
  map (fun i => buildGSM7PDU to (part_slice chars maxGSM7ConcatChars i) 66
                             (to_byte (Z.of_nat nParts)) (to_byte (Z.of_nat (i + 1))))
      (seq 0 nParts).

Definition encodeUCS2PDUs (to body : string) : list EncodedPDU :=
  let runes := runes_of body in
  let nChars := length runes in
  if nChars <=? maxUCS2Chars then [buildUCS2PDU to runes 0 0 0] else
  let nParts := num_parts nChars maxUCS2ConcatChars in
  map (fun i => buildUCS2PDU to (part_slice runes maxUCS2ConcatChars i) 66
                             (to_byte (Z.of_nat nParts)) (to_byte (Z.of_nat (i + 1))))
      (seq 0 nParts).

Definition EncodePDU (to body encoding : string) : outcome pdu_error (list EncodedPDU) :=
  let encoding :=
    if String.eqb encoding "" then (if IsGSM7 body then "GSM7" else "UCS2")%string else encoding in
  if String.eqb encoding "GSM7" then Ok (encodeGSM7PDUs to body)
  else if String.eqb encoding "UCS2" then Ok (encodeUCS2PDUs to body)
  else Err (UnsupportedEncoding encoding).

(** ** Safety of the decoder

    The helpers compute the functions of the octets, on every input. *)

Lemma be_u16_drop2 (l : list Z) a b : l !! 0 = Some a -> l !! 1 = Some b ->
  be_u16 l = (256 * a + b)%Z :: be_u16 (drop 2 l).
Proof. destruct l as [|x [|y l]]; try done. by intros [= ->] [= ->]. Qed.

Lemma ucs2_units_spec {E} (data : list Z) n : forall i,
  length data = 2 * (i + n) -> @ucs2_units E data i n = Ok (be_u16 (drop (i * 2) data)).
Proof.
  induction n as [|n IH]; intros i Hl; cbn [ucs2_units].
  { by rewrite drop_ge by lia. }
  replace (Z.of_nat i * 2)%Z with (Z.of_nat (i * 2)) by lia. unfold zlen at 1.
  rewrite go_slice_Ok by lia. rewrite take_ge by (rewrite length_drop; lia). cbn [mbind outcome_bind].
  destruct (lookup_lt_is_Some_2 data (i * 2) ltac:(lia)) as [a Ha].
  destruct (lookup_lt_is_Some_2 data (i * 2 + 1) ltac:(lia)) as [b Hb].
  assert (H0 : drop (i * 2) data !! 0 = Some a) by (by rewrite lookup_drop, Nat.add_0_r).
  assert (H1 : drop (i * 2) data !! 1 = Some b) by (by rewrite lookup_drop).
  unfold Uint16. rewrite (go_index_Ok _ 1 _ H1). cbn [mbind outcome_bind].
  rewrite (go_index_Ok _ 0 _ H0). cbn [mbind outcome_bind].
  rewrite IH by lia. cbn [mbind outcome_bind].
  rewrite (be_u16_drop2 _ _ _ H0 H1), drop_drop. by replace (i * 2 + 2) with (S i * 2) by lia.
Qed.

Lemma decodeUCS2_spec {E} data : @decodeUCS2 E data = Ok (ucs2_text data).
Proof.
  unfold decodeUCS2, ucs2_text, zlen.
  set (d := if length data mod 2 =? 0 then data else take (length data - 1) data).
  match goal with |- (?m ≫= _) = _ => assert (Hd : m = Ok d) end.
  { subst d. replace (Z.of_nat (length data) mod 2 =? 0)%Z with (length data mod 2 =? 0) by lia.
    destruct (Nat.eqb_spec (length data mod 2) 0); [done|].
    change 0%Z with (Z.of_nat 0). replace (Z.of_nat (length data) - 1)%Z with (Z.of_nat (length data - 1)) by lia.
    rewrite go_slice_Ok by lia. by rewrite drop_0, Nat.sub_0_r. }
  rewrite Hd. cbn [mbind outcome_bind]. rewrite ucs2_units_spec; [done|].
  subst d. destruct (Nat.eqb_spec (length data mod 2) 0); [lia|]. rewrite length_take. lia.
Qed.

Lemma bcd_loop_spec {E} data n : forall i, @bcd_loop E data i n = Ok (bcd_digits data i n).
Proof.
  induction n as [|n IH]; intros i; cbn [bcd_loop bcd_digits]; [done|].
  replace (Z.of_nat i / 2)%Z with (Z.of_nat (i / 2)) by lia.
  replace (Z.of_nat i mod 2 =? 0)%Z with (i mod 2 =? 0) by lia. unfold zlen.
  destruct (Z.leb_spec (Z.of_nat (length data)) (Z.of_nat (i / 2))).
  { by rewrite lookup_ge_None_2 by lia. }
  destruct (lookup_lt_is_Some_2 data (i / 2) ltac:(lia)) as [b Hb].
  rewrite Hb, (go_index_Ok _ _ _ Hb). cbn [mbind outcome_bind]. cbv zeta.
  destruct (_ =? 15)%Z; [done|]. by rewrite IH.
Qed.

Lemma decodeBCDAddress_spec {E} data n ty :
  Forall is_byte data -> (0 <= n)%Z ->
  @decodeBCDAddress E data n ty = Ok (address_text data (Z.to_nat n) ty).
Proof.
  intros Hd Hn. unfold decodeBCDAddress, address_text.
  destruct (ty =? 208)%Z; [by apply unpack_text_spec|]. by rewrite bcd_loop_spec.
Qed.

Lemma swapNibbles_byte b : is_byte b -> is_byte (swapNibbles b).
Proof.
  intros Hb. unfold swapNibbles. apply is_byte_lor; [|apply is_byte_to_byte].
  change 15%Z with (Z.ones 4). rewrite Z.land_ones by lia. unfold is_byte. lia.
Qed.

Lemma decodeSCTS_spec {E} data : Forall is_byte data -> length data = 7 -> @decodeSCTS E data = Ok (scts_time data).
Proof.
  intros Hb Hl. destruct data as [|b0 [|b1 [|b2 [|b3 [|b4 [|b5 [|b6 [|]]]]]]]]; try done.
  rewrite !Forall_cons in Hb. destruct Hb as (_ & _ & _ & _ & _ & _ & H6 & _).
  transitivity (@Ok E Z (time_Date (2000 + swapNibbles b0) (swapNibbles b1) (swapNibbles b2) (swapNibbles b3)
    (swapNibbles b4) (swapNibbles b5) ((if (Z.land (swapNibbles b6) 128 =? 0)%Z then 1 else -1) *
       Z.land (swapNibbles b6) 127 * 15 * 60)))%Z; [reflexivity|].
  unfold scts_time. cbn [nth]. cbv zeta. do 2 f_equal. set (t := swapNibbles b6). assert (Ht : is_byte t) by (by apply swapNibbles_byte). clearbody t.
  assert (Hs : (Z.land t 128 =? 0)%Z = negb (Z.testbit t 7)).
  { change 128%Z with (Z.ones 1 * 2 ^ 7)%Z. unfold is_byte in Ht.
    rewrite <- Z.shiftl_mul_pow2 by lia.
    destruct (Z.testbit t 7) eqn:E1; cbn [negb].
    - apply Z.eqb_neq. intros H0. apply (f_equal (fun z => Z.testbit z 7)) in H0.
      rewrite Z.land_spec, E1 in H0. discriminate.
    - apply Z.eqb_eq. apply Z.bits_inj'. intros k Hk. rewrite Z.land_spec, Z.shiftl_spec, Z.testbit_0_l by lia.
      destruct (decide (k = 7)%Z) as [->|]; [by rewrite E1|].
      rewrite Z.testbit_ones by lia. replace (0 <=? k - 7)%Z with (7 <=? k)%Z by lia.
      destruct (Z.leb_spec 7 k); [replace (k - 7 <? 1)%Z with false by lia|]; by rewrite ?andb_false_r. }
  rewrite Hs. change 127%Z with (Z.ones 7). rewrite Z.land_ones by lia. destruct (Z.testbit t 7); cbn [negb]; lia.
Qed.

(** Values that come from octets are octets, and lengths are not negative. *)
Ltac octets :=
  repeat match goal with
  | H : go_index ?l _ = Ok ?x, Hl : Forall is_byte ?l |- _ =>
    lazymatch goal with _ : is_byte x |- _ => fail | _ => pose proof (go_index_Forall _ _ _ _ Hl H) end
  | H : go_slice ?l _ _ = Ok ?x, Hl : Forall is_byte ?l |- _ =>
    lazymatch goal with _ : Forall is_byte x |- _ => fail | _ =>
      pose proof (go_slice_Forall _ _ _ _ _ Hl H); pose proof (go_slice_length _ _ _ _ H) end
  end.

Ltac in_range := octets; unfold is_byte, zlen in *; lia.

Lemma no_panic_decodeBCDAddress {E} data n ty :
  Forall is_byte data -> (0 <= n)%Z -> no_panic (@decodeBCDAddress E data n ty).
Proof. intros. by rewrite decodeBCDAddress_spec. Qed.

(** [decodeSMSC] consumes a non-negative number of octets and does not panic. *)
Lemma decodeSMSC_safe {E} raw :
  Forall is_byte raw -> exists s n, @decodeSMSC E raw = Ok (s, n) /\ (0 <= n)%Z.
Proof.
  intros Hr. unfold decodeSMSC. destruct (Z.eqb_spec (zlen raw) 0) as [|Hne]; [exists ""%string, 0%Z; split; [done|lia]|].
  unfold zlen in *. destruct (lookup_lt_is_Some_2 raw 0 ltac:(lia)) as [b0 H0].
  rewrite (go_index_at _ 0 _ 0%Z eq_refl H0). cbn [mbind outcome_bind].
  assert (Hb : is_byte b0) by (by eapply Forall_lookup in Hr). unfold is_byte in Hb.
  destruct (Z.eqb_spec b0 0); [exists ""%string, 1%Z; split; [done|lia]|].
  destruct (Z.ltb_spec (Z.of_nat (length raw)) (1 + b0)); [exists ""%string; eexists; split; [done|lia]|].
  destruct (lookup_lt_is_Some_2 raw 1 ltac:(lia)) as [ty H1].
  rewrite (go_index_at _ 1 _ 1%Z eq_refl H1). cbn [mbind outcome_bind].
  replace (go_slice raw 2 (1 + b0)) with (@go_slice E Z raw (Z.of_nat 2) (Z.of_nat (Z.to_nat (1 + b0))))
    by (f_equal; lia).
  rewrite go_slice_Ok by lia. cbn [mbind outcome_bind].
  rewrite decodeBCDAddress_spec by (try lia; by apply Forall_take, Forall_drop). cbn [mbind outcome_bind].
  do 2 eexists. split; [done|lia].
Qed.

Lemma skip_udh_safe pduType enc ud udl :
  Forall is_byte ud -> (0 <= udl)%Z ->
  no_panic (skip_udh pduType enc ud udl) /\ forall ud' udl', skip_udh pduType enc ud udl = Ok (ud', udl') -> Forall is_byte ud' /\ (0 <= udl')%Z.
Proof.
  intros Hud Hudl. unfold skip_udh. destruct (_ =? 1)%Z; [|by split; [|intros ?? [= <- <-]]].
  destruct (Z.eqb_spec (zlen ud) 0) as [|Hne]; [by split|]. cbn [guard_err mbind outcome_bind].
  unfold zlen in *. destruct (lookup_lt_is_Some_2 ud 0 ltac:(lia)) as [b H0].
  rewrite (go_index_at _ 0 _ 0%Z eq_refl H0). cbn [mbind outcome_bind].
  assert (Hb : is_byte b) by (by eapply Forall_lookup in Hud). unfold is_byte in Hb.
  destruct (Z.ltb_spec (Z.of_nat (length ud)) (b + 1)); [by split|]. cbn [guard_err mbind outcome_bind].
  replace (b + 1)%Z with (Z.of_nat (Z.to_nat (b + 1))) by lia. rewrite go_slice_Ok by lia.
  destruct (String.eqb enc "GSM7"); cbn [mbind outcome_bind]; (split; [done|]);
    intros ?? [= <- <-]; (split; [by apply Forall_take, Forall_drop|]); case_match; lia.
Qed.

Lemma no_panic_decode_body enc ud udl : Forall is_byte ud -> (0 <= udl)%Z -> no_panic (decode_body enc ud udl).
Proof.
  intros Hud Hudl. unfold decode_body. destruct (String.eqb enc "GSM7"); [by rewrite unpack_text_spec|].
  destruct (String.eqb enc "UCS2").
  { apply no_panic_bind; [apply no_panic_slice; case_match; in_range|]. intros l _. by rewrite decodeUCS2_spec. }
  destruct (String.eqb enc "8BIT"); [|done].
  apply no_panic_bind; [apply no_panic_slice; case_match; in_range|]. done.
Qed.

Lemma no_panic_decodeSCTS {E} data : no_panic (@decodeSCTS E data).
Proof.
  unfold decodeSCTS. destruct (Z.ltb_spec (zlen data) 7); [done|].
  repeat (apply no_panic_bind; [apply no_panic_index; lia|intros ? _]). done.
Qed.

#[export] Hint Resolve no_panic_decodeSCTS : gosafe.

Lemma no_panic_decode_octets raw h : Forall is_byte raw -> no_panic (decode_octets raw h).
Proof.
  intros Hr. unfold decode_octets.
  destruct (decodeSMSC_safe (E := pdu_error) raw Hr) as (ss & pos & -> & Hpos). cbn [mbind outcome_bind].
  go_safe; try in_range.
  - apply no_panic_decodeBCDAddress; [by octets|in_range].
  - apply skip_udh_safe; [by octets|in_range].
  - match goal with H : skip_udh _ _ _ _ = Ok _ |- _ => apply skip_udh_safe in H as [? ?]; [|by octets|in_range] end.
    by apply no_panic_decode_body.
Qed.

(** ** Framing *)

(** The octets of an SMS-DELIVER: service centre, first octet, originating
    address, protocol identifier, coding scheme, timestamp, user data. *)
Definition deliver_octets (smsc : list Z) (pduType oaLen oaType : Z) (oa : list Z)
    (pid dcs : Z) (scts : list Z) (udl : Z) (ud : list Z) : list Z :=
  smsc ++ [pduType; oaLen; oaType] ++ oa ++ [pid; dcs] ++ scts ++ [udl] ++ ud.

Lemma go_index_app {E} (l1 l2 : list Z) x n :
  n = zlen l1 -> @go_index E Z (l1 ++ x :: l2) n = Ok x.
Proof. intros ->. apply go_index_Ok. by apply list_lookup_middle. Qed.

Lemma go_slice_mid {E} (l1 l l2 : list Z) a b :
  a = zlen l1 -> b = (zlen l1 + zlen l)%Z -> @go_slice E Z (l1 ++ l ++ l2) a b = Ok l.
Proof.
  unfold zlen. intros -> ->. rewrite <- Nat2Z.inj_add. rewrite go_slice_Ok; [|lia|rewrite !length_app; lia].
  rewrite drop_app_length. by replace (_ - _) with (length l) by lia; rewrite take_app_length.
Qed.

Lemma go_slice_tail {E} (l1 l : list Z) a n :
  a = zlen l1 -> n = zlen (l1 ++ l) -> @go_slice E Z (l1 ++ l) a n = Ok l.
Proof.
  unfold zlen. intros -> ->. rewrite go_slice_Ok; [|rewrite length_app; lia|lia].
  rewrite drop_app_length, length_app. f_equal. apply take_ge. lia.
Qed.

Lemma bind_guard_false {E A} (b : bool) (e : E) (k : outcome E A) :
  b = false -> (guard_err b e;; k) = k.
Proof. by intros ->. Qed.

Section framing.
Variables (smsc : list Z) (pduType oaLen oaType : Z) (oa : list Z) (pid dcs : Z)
  (scts : list Z) (udl : Z) (ud : list Z).

Let raw := deliver_octets smsc pduType oaLen oaType oa pid dcs scts udl ud.

Hypothesis Hraw : Forall is_byte raw.
Hypothesis Hoa : zlen oa = ((oaLen + 1) / 2)%Z.
Hypothesis Hscts : length scts = 7.

Lemma frame_length : zlen raw = (zlen smsc + zlen oa + zlen ud + 13)%Z.
Proof. unfold raw, deliver_octets, zlen. rewrite !length_app, Hscts. cbn [length]. lia. Qed.

Lemma frame_type E : @go_index E Z raw (zlen smsc) = Ok pduType.
Proof. by apply go_index_app. Qed.

Lemma frame_oaLen E : @go_index E Z raw (zlen smsc + 1) = Ok oaLen.
Proof.
  unfold raw, deliver_octets. rewrite (app_assoc smsc [pduType; oaLen; oaType]).
  change [pduType; oaLen; oaType] with ([pduType] ++ [oaLen; oaType]). rewrite (app_assoc smsc), <- app_assoc.
  apply go_index_app. unfold zlen. rewrite length_app. cbn [length]. lia.
Qed.

Lemma frame_oaType E : @go_index E Z raw (zlen smsc + 1 + 1) = Ok oaType.
Proof.
  unfold raw, deliver_octets. change [pduType; oaLen; oaType] with ([pduType; oaLen] ++ [oaType]).
  rewrite <- (app_assoc [pduType; oaLen]), (app_assoc smsc).
  apply go_index_app. unfold zlen. rewrite length_app. cbn [length]. lia.
Qed.

Lemma frame_oa E n : n = zlen oa ->
  @go_slice E Z raw (zlen smsc + 1 + 1 + 1) (zlen smsc + 1 + 1 + 1 + n) = Ok oa.
Proof.
  intros ->. unfold raw, deliver_octets. rewrite (app_assoc smsc).
  apply go_slice_mid; unfold zlen; rewrite length_app; cbn [length]; lia.
Qed.

Lemma frame_dcs E n : n = zlen oa -> @go_index E Z raw (zlen smsc + 1 + 1 + 1 + n + 1) = Ok dcs.
Proof.
  intros ->. unfold raw, deliver_octets. change [pid; dcs] with ([pid] ++ [dcs]).
  rewrite <- (app_assoc [pid]), (app_assoc smsc), (app_assoc _ oa), (app_assoc _ [pid]).
  apply go_index_app. unfold zlen. rewrite !length_app. cbn [length]. lia.
Qed.

Lemma frame_scts E n : n = zlen oa ->
  @go_slice E Z raw (zlen smsc + 1 + 1 + 1 + n + 1 + 1) (zlen smsc + 1 + 1 + 1 + n + 1 + 1 + 7) = Ok scts.
Proof.
  intros ->. unfold raw, deliver_octets. rewrite (app_assoc smsc), (app_assoc _ oa), (app_assoc _ [pid; dcs]).
  apply go_slice_mid; unfold zlen; rewrite !length_app, ?Hscts; cbn [length]; lia.
Qed.

Lemma frame_udl E n : n = zlen oa -> @go_index E Z raw (zlen smsc + 1 + 1 + 1 + n + 1 + 1 + 7) = Ok udl.
Proof.
  intros ->. unfold raw, deliver_octets.
  rewrite (app_assoc smsc), (app_assoc _ oa), (app_assoc _ [pid; dcs]), (app_assoc _ scts).
  apply go_index_app. unfold zlen. rewrite !length_app, Hscts. cbn [length]. lia.
Qed.

Lemma frame_ud E n : n = zlen oa ->
  @go_slice E Z raw (zlen smsc + 1 + 1 + 1 + n + 1 + 1 + 7 + 1) (zlen raw) = Ok ud.
Proof.
  intros ->. unfold raw, deliver_octets.
  rewrite (app_assoc smsc), (app_assoc _ oa), (app_assoc _ [pid; dcs]), (app_assoc _ scts),
    (app_assoc _ [udl]).
  apply go_slice_tail; [|done]. unfold zlen. rewrite !length_app, Hscts. cbn [length]. lia.
Qed.

(** Every field of a framed message is found where the layout puts it. *)
Lemma decode_octets_frame ss h :
  decodeSMSC raw = @Ok pdu_error _ (ss, zlen smsc) -> Z.land pduType 3 = 0%Z ->
  decode_octets raw h =
    ('(ud', udl') ← skip_udh pduType (dcsEncoding dcs) ud udl;
     body ← decode_body (dcsEncoding dcs) ud' udl';
     Ok {| SMSC := ss; Sender := address_text oa (Z.to_nat oaLen) oaType;
           Body := body; Timestamp := scts_time scts; PDUHash := h |}).
Proof.
  intros Hs Hmti. unfold decode_octets. rewrite Hs. cbn [mbind outcome_bind].
  pose proof frame_length as Hlen. unfold raw, deliver_octets in Hraw.
  rewrite !Forall_app, !Forall_cons in Hraw.
  destruct Hraw as (_ & (_ & HoaL & _) & Hoab & _ & Hsb & _). unfold is_byte in HoaL.
  rewrite bind_guard_false by (unfold zlen in *; lia). rewrite frame_type. cbn [mbind outcome_bind].
  rewrite Hmti, bind_guard_false by done. rewrite bind_guard_false by (unfold zlen in *; lia).
  rewrite frame_oaLen. cbn [mbind outcome_bind]. rewrite frame_oaType. cbn [mbind outcome_bind].
  rewrite bind_guard_false by (unfold zlen in *; lia). rewrite frame_oa by done. cbn [mbind outcome_bind].
  rewrite decodeBCDAddress_spec by (done || lia). cbn [mbind outcome_bind].
  rewrite !bind_guard_false by (unfold zlen in *; lia). rewrite frame_dcs by done. cbn [mbind outcome_bind].
  rewrite bind_guard_false by (unfold zlen in *; lia). rewrite frame_scts by done. cbn [mbind outcome_bind].
  rewrite decodeSCTS_spec by done. cbn [mbind outcome_bind].
  rewrite bind_guard_false by (unfold zlen in *; lia). rewrite frame_udl by done. cbn [mbind outcome_bind].
  by rewrite frame_ud by done.
Qed.

End framing.

(** ** Addresses *)

Definition digit_string (ds : list Z) : Prop := Forall (fun d => is_digit d = true) ds.

Lemma is_digit_elem d : is_digit d = true -> d ∈ seqZ 48 10.
Proof. unfold is_digit. intros. apply elem_of_seqZ. lia. Qed.

Lemma bcd_pair_table :
  Forall (fun lo => Forall (fun hi =>
    is_byte (bcd_pair lo hi) /\
    Z.land (bcd_pair lo hi) 15 = (lo - 48)%Z /\
    (hi <> 70%Z -> Z.land (Z.shiftr (bcd_pair lo hi) 4) 15 = (hi - 48)%Z))
    (70%Z :: seqZ 48 10)) (seqZ 48 10).
Proof. by_eval. Qed.

Lemma bcd_pair_spec lo hi :
  is_digit lo = true -> is_digit hi = true \/ hi = 70%Z ->
  is_byte (bcd_pair lo hi) /\ Z.land (bcd_pair lo hi) 15 = (lo - 48)%Z /\
  (hi <> 70%Z -> Z.land (Z.shiftr (bcd_pair lo hi) 4) 15 = (hi - 48)%Z).
Proof.
  intros Hlo Hhi. pose proof bcd_pair_table as H. rewrite Forall_forall in H.
  specialize (H lo (is_digit_elem _ Hlo)). rewrite Forall_forall in H. apply H.
  apply elem_of_cons. destruct Hhi as [Hhi| ->]; [right; by apply is_digit_elem|by left].
Qed.

(** Nibble [i] of BCD data, low nibble first. *)
Definition nibble_at (data : list Z) (i : nat) : option Z :=
  (fun b => if i mod 2 =? 0 then Z.land b 15 else Z.land (Z.shiftr b 4) 15) <$> data !! (i / 2).

Lemma bcd_digits_spec data ds : forall i,
  digit_string ds ->
  (forall k d, ds !! k = Some d -> nibble_at data (i + k) = Some (d - 48)%Z) ->
  bcd_digits data i (length ds) = ds.
Proof.
  induction ds as [|d ds IH]; intros i Hd Hn; [done|]. inversion Hd as [|? ? Hdd Hds]; subst.
  pose proof (Hn 0 d eq_refl) as H0. rewrite Nat.add_0_r in H0.
  unfold nibble_at in H0. cbn [length bcd_digits].
  destruct (data !! (i / 2)) as [b|]; [|done]. cbn [fmap option_fmap option_map] in H0.
  apply (inj Some) in H0. cbv zeta. rewrite H0. unfold is_digit in Hdd.
  replace (d - 48 =? 15)%Z with false by lia. f_equal.
  - rewrite to_byte_id; unfold is_byte; lia.
  - apply IH; [done|]. intros k d' Hk. rewrite Nat.add_succ_comm. by apply (Hn (S k)).
Qed.

(** The octets of a digit string carry its digits as nibbles. *)
Definition bcd_octets (ds : list Z) : list Z :=
  let ds := if length ds mod 2 =? 0 then ds else ds ++ [70%Z] in
  map (fun i => bcd_pair (nth (i * 2) ds 0%Z) (nth (i * 2 + 1) ds 0%Z)) (seq 0 (length ds / 2)).

Lemma length_bcd_octets ds : length (bcd_octets ds) = (length ds + 1) / 2.
Proof.
  unfold bcd_octets. rewrite length_map, length_seq.
  destruct (Nat.eqb_spec (length ds mod 2) 0); rewrite ?length_app; cbn [length]; lia.
Qed.

Lemma nth_digit ds n : digit_string ds -> n < length ds -> is_digit (nth n ds 0%Z) = true.
Proof.
  intros Hd Hn. destruct (lookup_lt_is_Some_2 ds n Hn) as [d Hl].
  rewrite nth_lookup, Hl. by eapply Forall_lookup in Hd.
Qed.

Lemma bcd_octet_at ds k :
  digit_string ds -> k < (length ds + 1) / 2 ->
  exists lo hi, bcd_octets ds !! k = Some (bcd_pair lo hi) /\
    lo = nth (k * 2) ds 0%Z /\ is_digit lo = true /\
    (k * 2 + 1 < length ds -> hi = nth (k * 2 + 1) ds 0%Z /\ is_digit hi = true) /\
    (length ds <= k * 2 + 1 -> hi = 70%Z).
Proof.
  intros Hd Hk. unfold bcd_octets. set (ds' := if length ds mod 2 =? 0 then ds else ds ++ [70%Z]).
  assert (Hl : length ds' = 2 * ((length ds + 1) / 2)).
  { subst ds'. destruct (Nat.eqb_spec (length ds mod 2) 0); rewrite ?length_app; cbn [length]; lia. }
  assert (Hin : forall n, n < length ds -> nth n ds' 0%Z = nth n ds 0%Z).
  { intros n Hn. subst ds'. destruct (Nat.eqb_spec (length ds mod 2) 0); [done|]. by rewrite app_nth1. }
  exists (nth (k * 2) ds' 0%Z), (nth (k * 2 + 1) ds' 0%Z). split_and!.
  - rewrite list_lookup_fmap, lookup_seq_lt by lia. done.
  - apply Hin. lia.
  - rewrite Hin by lia. apply nth_digit; [done|lia].
  - intros Hlt. rewrite Hin by done. split; [done|]. by apply nth_digit.
  - intros Hge. subst ds'. destruct (Nat.eqb_spec (length ds mod 2) 0); [lia|].
    rewrite app_nth2 by lia. by replace (k * 2 + 1 - length ds) with 0 by lia.
Qed.

Lemma bcd_octets_byte ds : digit_string ds -> Forall is_byte (bcd_octets ds).
Proof.
  intros Hd. apply Forall_lookup. intros k b Hb. pose proof (lookup_lt_Some _ _ _ Hb) as Hk.
  rewrite length_bcd_octets in Hk.
  destruct (bcd_octet_at ds k Hd Hk) as (lo & hi & Hl & _ & Hlo & Hhi & Hpad).
  rewrite Hl in Hb. simplify_eq. apply bcd_pair_spec; [done|].
  destruct (decide (k * 2 + 1 < length ds)); [left; by apply Hhi|right; apply Hpad; lia].
Qed.

Lemma nibble_at_bcd ds k d :
  digit_string ds -> ds !! k = Some d -> nibble_at (bcd_octets ds) k = Some (d - 48)%Z.
Proof.
  intros Hd Hk. pose proof (lookup_lt_Some _ _ _ Hk) as Hlt.
  assert (Hnth : nth k ds 0%Z = d) by (by rewrite nth_lookup, Hk).
  destruct (bcd_octet_at ds (k / 2) Hd) as (lo & hi & Hl & Elo & Hlo & Hhi & Hpad); [lia|].
  unfold nibble_at. rewrite Hl. cbn [fmap option_fmap option_map]. f_equal.
  destruct (Nat.eqb_spec (k mod 2) 0).
  - replace (k / 2 * 2) with k in Elo by lia. rewrite Hnth in Elo. subst lo.
    apply bcd_pair_spec; [done|].
    destruct (decide (k / 2 * 2 + 1 < length ds)); [left; by apply Hhi|right; apply Hpad; lia].
  - destruct Hhi as [Ehi Hhi]; [lia|]. replace (k / 2 * 2 + 1) with k in Ehi by lia.
    rewrite Hnth in Ehi. subst hi. apply bcd_pair_spec; [done|by left|].
    intros ->. done.
Qed.

Lemma bcd_digits_octets ds : digit_string ds -> bcd_digits (bcd_octets ds) 0 (length ds) = ds.
Proof. intros Hd. apply bcd_digits_spec; [done|]. intros k d Hk. by apply nibble_at_bcd. Qed.

Lemma digit_string_byte ds : digit_string ds -> Forall is_byte ds.
Proof. intros H. eapply Forall_impl; [exact H|]. unfold is_digit, is_byte. lia. Qed.

Lemma HasPrefix_plus l : HasPrefix (string_of (43%Z :: l)) "+" = true.
Proof. done. Qed.

Lemma TrimPrefix_plus l : TrimPrefix (string_of (43%Z :: l)) "+" = string_of l.
Proof. done. Qed.

Lemma HasPrefix_digits ds : digit_string ds -> HasPrefix (string_of ds) "+" = false.
Proof.
  intros Hd. destruct ds as [|d ds]; [done|]. inversion Hd as [|? ? Hdd _]; subst.
  apply is_digit_elem in Hdd. unfold HasPrefix. cbn [string_of strip_prefix].
  replace (Ascii.eqb _ _) with false; [done|]. revert d Hd Hdd. cbn [seqZ seq fmap list_fmap].
  intros d _ Hdd. repeat (apply elem_of_cons in Hdd as [-> |Hdd]; [done|]). by apply elem_of_nil in Hdd.
Qed.

(** The number the encoder announces, its type of address, and its octets. *)
Lemma encodeBCDAddress_intl ds :
  digit_string ds ->
  encodeBCDAddress (string_of (43%Z :: ds)) = (length ds, 145%Z, bcd_octets ds).
Proof.
  intros Hd. unfold encodeBCDAddress. rewrite HasPrefix_plus, TrimPrefix_plus.
  by rewrite bytes_of_string_of by (by apply digit_string_byte).
Qed.

Lemma encodeBCDAddress_natl ds :
  digit_string ds -> encodeBCDAddress (string_of ds) = (length ds, 129%Z, bcd_octets ds).
Proof.
  intros Hd. unfold encodeBCDAddress. rewrite HasPrefix_digits by done.
  by rewrite bytes_of_string_of by (by apply digit_string_byte).
Qed.

(** ** Hex strings as the builders emit them *)

Definition upper_hex (l : list Z) : string := string_of (map upper_byte (hex_encode l)).

Definition hex_chars : list Z :=
  [48; 49; 50; 51; 52; 53; 54; 55; 56; 57; 65; 66; 67; 68; 69; 70]%Z.

Lemma upper_hex_digit n : (0 <= n < 16)%Z -> upper_byte (hex_digit n) ∈ hex_chars.
Proof.
  intros Hn. unfold hex_chars. rewrite !elem_of_cons.
  unfold hex_digit, upper_byte. repeat case_match; lia.
Qed.

Lemma upper_hex_chars l :
  Forall is_byte l -> Forall (fun c => c ∈ hex_chars) (map upper_byte (hex_encode l)).
Proof.
  induction 1 as [|b l Hb _ IH]; [done|]. unfold is_byte in Hb.
  cbn [hex_encode flat_map app map]. rewrite !Forall_cons.
  split_and!; [apply upper_hex_digit; lia..|done].
Qed.

Lemma hex_char_no_space c l :
  c ∈ hex_chars ->
  strip_first space_seqs (c :: l) = None /\ strip_first (map (@rev Z) space_seqs) (c :: l) = None.
Proof.
  intros Hc. unfold hex_chars in Hc.
  repeat (apply elem_of_cons in Hc as [-> |Hc]; [split; reflexivity|]). by apply elem_of_nil in Hc.
Qed.

Lemma trim_left_hex n ps l :
  Forall (fun c => c ∈ hex_chars) l ->
  (ps = space_seqs \/ ps = map (@rev Z) space_seqs) -> trim_left n ps l = l.
Proof.
  intros Hl Hps. destruct n; [done|]. cbn [trim_left]. destruct l as [|c l].
  - by destruct Hps as [-> | ->].
  - inversion Hl as [|? ? Hc _]; subst. pose proof (hex_char_no_space c l Hc) as [H1 H2].
    destruct Hps as [-> | ->]; by rewrite ?H1, ?H2.
Qed.

Lemma TrimSpace_hex l : Forall (fun c => c ∈ hex_chars) l -> TrimSpace (string_of l) = string_of l.
Proof.
  intros Hl. unfold TrimSpace.
  assert (Hb : Forall is_byte l).
  { eapply Forall_impl; [exact Hl|]. intros c Hc. unfold hex_chars in Hc.
    rewrite !elem_of_cons, elem_of_nil in Hc. unfold is_byte. lia. }
  rewrite bytes_of_string_of by done. cbv zeta.
  rewrite (trim_left_hex _ space_seqs) by (done || by left).
  rewrite (trim_left_hex _ (map (@rev Z) space_seqs)); [by rewrite rev_involutive| |by right].
  apply Forall_rev. done.
Qed.

Lemma upper_byte_upper_hex l :
  Forall is_byte l -> map upper_byte (map upper_byte (hex_encode l)) = map upper_byte (hex_encode l).
Proof.
  intros Hl. rewrite map_map. apply map_ext. intros b. unfold upper_byte. repeat case_match; lia.
Qed.

(** Trimming and upper-casing leave the hex of a PDU as it is. *)
Lemma normalise_upper_hex l : Forall is_byte l -> TrimSpace (ToUpper (upper_hex l)) = upper_hex l.
Proof.
  intros Hl. unfold ToUpper, upper_hex.
  rewrite bytes_of_string_of by (by apply hex_encode_byte).
  rewrite upper_byte_upper_hex by done. apply TrimSpace_hex. by apply upper_hex_chars.
Qed.

Lemma DecodePDU_upper_hex l :
  Forall is_byte l -> DecodePDU (upper_hex l) = decode_octets l (pdu_hash (upper_hex l)).
Proof.
  intros Hl. unfold DecodePDU. cbv zeta. rewrite normalise_upper_hex by done.
  unfold upper_hex at 1. rewrite bytes_of_string_of by (by apply hex_encode_byte).
  by rewrite hex_decode_encode.
Qed.

(** The default service centre: one zero octet. *)
Lemma decodeSMSC_none {E} l : @decodeSMSC E (0%Z :: l) = Ok (""%string, 1%Z).
Proof. done. Qed.

Lemma deliver_octets_byte smsc pduType oaLen oaType oa pid dcs scts udl ud :
  Forall is_byte (smsc ++ [pduType; oaLen; oaType] ++ oa ++ [pid; dcs] ++ scts ++ [udl] ++ ud) ->
  Forall is_byte (deliver_octets smsc pduType oaLen oaType oa pid dcs scts udl ud).
Proof. done. Qed.

(** ** Properties: decoding *)

(** C16: [DecodePDU] never panics: on every input string the decoder returns a
    message or an error, however the length fields of the PDU lie (the slice
    and index expressions are always in range). *)
Theorem DecodePDU_never_panics (hexStr : string) : no_panic (DecodePDU hexStr).
Proof.
  unfold DecodePDU. cbv zeta. destruct (hex_decode _) eqn:Hx; [|discriminate].
  by eapply no_panic_decode_octets, hex_decode_byte.
Qed.

(** C17: a well-formed SMS-DELIVER is decoded to exactly its fields: for an
    international sender of up to 255 digits, any 7-byte timestamp and any text
    of at most 255 septets in the default alphabet, decoding the upper-case hex
    of the framed octets gives the sender with its "+", the text of the codes
    and the hash of the hex string. *)
Theorem DecodePDU_deliver (ds scts codes : list Z) (pid : Z) :
  digit_string ds -> length ds <= 255 -> Forall is_byte scts -> length scts = 7 -> is_byte pid ->
  Forall is_septet codes -> length codes <= 255 ->
  let raw := deliver_octets [0%Z] 4 (Z.of_nat (length ds)) 145 (bcd_octets ds) pid 0 scts
                            (Z.of_nat (length codes)) (packGSM7 codes) in
  DecodePDU (upper_hex raw) =
    Ok {| SMSC := ""; Sender := string_of (43%Z :: ds); Body := gsm7_text codes;
          Timestamp := scts_time scts; PDUHash := pdu_hash (upper_hex raw) |}.
Proof.
  intros Hds Hn Hscts H7 Hpid Hcodes Hc raw.
  assert (Hraw : Forall is_byte raw).
  { subst raw. unfold deliver_octets. rewrite !Forall_app, !Forall_cons, !Forall_nil.
    pose proof (bcd_octets_byte ds Hds). pose proof (packGSM7_byte codes Hcodes).
    unfold is_byte in *. split_and!; done || lia. }
  rewrite DecodePDU_upper_hex by done. generalize (pdu_hash (upper_hex raw)) as h. intros h.
  subst raw. rewrite decode_octets_frame with (ss := ""%string);
    [|done|unfold zlen; rewrite length_bcd_octets; lia|done|apply decodeSMSC_none|done].
  change (dcsEncoding 0) with "GSM7"%string. unfold skip_udh, decode_body.
  change (Z.land (Z.shiftr 4 6) 1 =? 1)%Z with false. cbv iota zeta. cbn [mbind outcome_bind].
  change (String.eqb "GSM7" "GSM7") with true. cbv iota.
  rewrite unpack_text_spec by (lia || by apply packGSM7_byte). cbn [mbind outcome_bind].
  rewrite !Nat2Z.id, unpack_pack by done. unfold address_text.
  change (145 =? 208)%Z with false. change (145 =? 145)%Z with true. cbv iota.
  by rewrite bcd_digits_octets.
Qed.

Lemma DecodePDU_deliver_witness :
  DecodePDU "0004059121436 5"%string = Err InvalidHex /\
  DecodePDU "000405912143F500002010101020304003CDB719"%string =
    Ok {| SMSC := ""; Sender := "+12345"; Body := "Mof";
          Timestamp := scts_time [32; 16; 16; 16; 32; 48; 64]%Z;
          PDUHash := pdu_hash "000405912143F500002010101020304003CDB719" |}.
Proof.
  split; [by vm_compute|].
  apply (DecodePDU_deliver [49; 50; 51; 52; 53] [32; 16; 16; 16; 32; 48; 64] [77; 111; 102] 0)%Z;
    by_eval || (cbn; lia).
Defined.
