(* ===== verification/PduSpec.v ===== *)
(** * What a receiver makes of the PDUs the gateway builds

    The specification side of [EncodePDU]: a parser for SMS-SUBMIT octets after
    3GPP TS 23.040 (destination, user data header, user data) and the theorems
    that a receiver recovers the destination and the text from the parts. *)

From S2P Require Import Prelude GoString Gsm7 Sha256 Pdu.

(** ** The receiver *)

Record submit := {
  s_udhi : bool;
  s_to : string;
  s_dcs : Z;
  s_udl : nat;
  s_ud : list Z;
}.

(** SMSC octet, first octet (MTI 01, UDHI bit 6), reference, destination, PID,
    DCS, relative validity period, user data length, user data. *)
Definition parse_submit (raw : list Z) : option submit :=
  match raw with
  | 0%Z :: t :: _ :: n :: ty :: rest =>
    if negb (Z.land t 3 =? 1)%Z then None else
    let k := (Z.to_nat n + 1) / 2 in
    match drop k rest with
    | _ :: dcs :: _ :: udl :: ud =>
      Some {| s_udhi := Z.testbit t 6;
              s_to := address_text (take k rest) (Z.to_nat n) ty;
              s_dcs := dcs; s_udl := Z.to_nat udl; s_ud := ud |}
    | _ => None
    end
  | _ => None
  end.

(** Octets of the user data header, length octet included. *)
Definition udh_octets (s : submit) : nat :=
  if s_udhi s then 1 + Z.to_nat (nth 0 (s_ud s) 0%Z) else 0.

(** Septets of a default-alphabet message: the user data is one septet stream,
    of which the header and its fill bits take the first whole septets. *)
Definition submit_codes (s : submit) : list Z :=
  drop ((udh_octets s * 8 + 6) / 7) (unpack_septets (s_ud s) (s_udl s)).

(** UCS-2 text: the length counts octets, header included. *)
Definition submit_ucs2 (s : submit) : string := ucs2_text (drop (udh_octets s) (take (s_udl s) (s_ud s))).

Definition receive (p : EncodedPDU) : option submit := hex_decode (bytes_of (HexStr p)) ≫= parse_submit.

Definition receive_codes (p : EncodedPDU) : option (string * list Z) :=
  s ← receive p; if (s_dcs s =? 0)%Z then Some (s_to s, submit_codes s) else None.

(** The text of one part, decoded on its own as a receiver shows it. *)
Definition receive_gsm7 (p : EncodedPDU) : option (string * string) :=
  r ← receive_codes p; Some (r.1, gsm7_text r.2).

Definition receive_ucs2 (p : EncodedPDU) : option (string * string) :=
  s ← receive p; if (s_dcs s =? 8)%Z then Some (s_to s, submit_ucs2 s) else None.

(** ** Slicing into parts *)

Lemma part_slice_take {A} (l : list A) size i : part_slice l size i = take size (drop (i * size) l).
Proof.
  unfold part_slice. destruct (Nat.ltb_spec (length l) (i * size + size)).
  - rewrite !take_ge; [done| |]; rewrite length_drop; lia.
  - f_equal. lia.
Qed.

Lemma concat_slices {A} size : forall n (l : list A),
  length l <= n * size ->
  concat (map (fun i => take size (drop (i * size) l)) (seq 0 n)) = l.
Proof.
  induction n as [|n IH]; intros l Hl.
  - destruct l; [done|cbn in Hl; lia].
  - cbn [seq map concat]. rewrite Nat.mul_0_l, drop_0, <- seq_shift, map_map.
    etrans; [|apply (take_drop size l)]. f_equal. etrans; [|apply (IH (drop size l))].
    + f_equal. apply map_ext. intros i. rewrite drop_drop. by do 2 f_equal.
    + rewrite length_drop. lia.
Qed.

Lemma num_parts_enough n size : 0 < size -> n <= num_parts n size * size.
Proof. intros. unfold num_parts. nia. Qed.

Lemma concat_parts {A} (l : list A) size :
  0 < size -> concat (map (part_slice l size) (seq 0 (num_parts (length l) size))) = l.
Proof.
  intros Hs. erewrite map_ext by apply part_slice_take.
  apply concat_slices. by apply num_parts_enough.
Qed.

Lemma part_slice_length {A} (l : list A) size i : length (part_slice l size i) <= size.
Proof. rewrite part_slice_take, length_take. lia. Qed.

Lemma part_slice_Forall {A} (P : A -> Prop) (l : list A) size i :
  Forall P l -> Forall P (part_slice l size i).
Proof. intros. rewrite part_slice_take. by apply Forall_take, Forall_drop. Qed.

(** A list of calls on the parts and their numbers, as an indexed map over the parts. *)
Lemma map_seq_imap {A B} (g : nat -> A) (f : A -> nat -> B) n :
  map (fun i => f (g i) i) (seq 0 n) = imap (fun i c => f c i) (map g (seq 0 n)).
Proof.
  apply list_eq. intros i. rewrite list_lookup_imap, !list_lookup_fmap.
  destruct (seq 0 n !! i) as [j|] eqn:E; [|done]. apply lookup_seq in E as [-> _]. done.
Qed.

(** ** Parsing what the builders print *)

Section submit.
Variables (ds : list Z).
Hypothesis Hds : digit_string ds.
Hypothesis Hlen : length ds <= 255.

Let to := string_of (43%Z :: ds).

Lemma submit_header_eq mp dcs :
  submit_header to mp dcs =
    [0%Z; if mp then 81%Z else 17%Z; 0%Z; Z.of_nat (length ds); 145%Z] ++ bcd_octets ds ++ [0%Z; dcs; 170%Z].
Proof.
  unfold submit_header, to. rewrite encodeBCDAddress_intl by done.
  rewrite to_byte_id by (unfold is_byte; lia). by destruct mp.
Qed.

Lemma submit_header_byte mp dcs : is_byte dcs -> Forall is_byte (submit_header to mp dcs).
Proof.
  intros Hd. rewrite submit_header_eq, !Forall_app, !Forall_cons, !Forall_nil.
  pose proof (bcd_octets_byte ds Hds). unfold is_byte in *. destruct mp; split_and!; done || lia.
Qed.

Lemma parse_submit_header mp dcs udl ud :
  parse_submit (submit_header to mp dcs ++ [udl] ++ ud) =
    Some {| s_udhi := mp; s_to := to; s_dcs := dcs; s_udl := Z.to_nat udl; s_ud := ud |}.
Proof.
  rewrite submit_header_eq, <- !app_assoc. unfold parse_submit. cbn [app].
  replace (negb (Z.land (if mp then 81 else 17) 3 =? 1)%Z) with false by (by destruct mp).
  rewrite Nat2Z.id. pose proof (length_bcd_octets ds) as Hb.
  rewrite <- Hb, drop_app_length, take_app_length. do 2 f_equal; [by destruct mp|].
  unfold address_text. change (145 =? 208)%Z with false. change (145 =? 145)%Z with true. cbv iota.
  by rewrite bcd_digits_octets.
Qed.

Lemma receive_encoded mp dcs udl ud total :
  is_byte dcs -> is_byte udl -> Forall is_byte ud ->
  receive (encoded (submit_header to mp dcs ++ [udl] ++ ud) total) =
    Some {| s_udhi := mp; s_to := to; s_dcs := dcs; s_udl := Z.to_nat udl; s_ud := ud |}.
Proof.
  intros Hd Hu Hud. unfold receive, encoded. cbn [HexStr].
  assert (Hb : Forall is_byte (submit_header to mp dcs ++ [udl] ++ ud)).
  { rewrite !Forall_app, Forall_singleton. auto using submit_header_byte. }
  rewrite bytes_of_string_of by (by apply hex_encode_byte).
  rewrite hex_decode_encode by done. apply parse_submit_header.
Qed.

End submit.

(** ** Default-alphabet parts *)

Lemma bit_at_app l1 l2 n k : k = 8 * length l1 + n -> bit_at (l1 ++ l2) k = bit_at l2 n.
Proof.
  intros ->. unfold bit_at. replace ((8 * length l1 + n) / 8) with (length l1 + n / 8) by lia.
  replace ((8 * length l1 + n) mod 8) with (n mod 8) by lia.
  by rewrite app_nth2_plus.
Qed.

Lemma concat_udh_byte ref total part :
  is_byte ref -> is_byte total -> is_byte part -> Forall is_byte (concat_udh ref total part).
Proof. intros. unfold concat_udh. rewrite !Forall_cons, Forall_nil. unfold is_byte in *. split_and!; done || lia. Qed.

(** With the header counted as seven septets (48 header bits and one fill bit),
    the septets after it are the characters of the part. *)
Lemma concat_septets ref total part chars :
  is_byte ref -> is_byte total -> is_byte part -> Forall is_septet chars ->
  drop 7 (unpack_septets (concat_udh ref total part ++ repackWithFill chars 1) (length chars + 7)) = chars.
Proof.
  intros Hr Ht Hp Hc. set (ud := _ ++ _).
  assert (Hud : Forall is_byte ud).
  { apply Forall_app. split; [by apply concat_udh_byte|apply repack_byte]. }
  assert (Hlen : length ud = 6 + (7 * length chars + 8) / 8).
  { subst ud. rewrite length_app, length_repackWithFill. cbn [concat_udh length]. f_equal. f_equal. lia. }
  unfold unpack_septets. rewrite (Nat.add_comm _ 7).
  replace (if _ <? _ then _ else _) with (7 + length chars) by (case_match; lia).
  rewrite seq_app, map_app, drop_app_length' by (by rewrite length_map, length_seq).
  apply list_eq. intros i. rewrite list_lookup_fmap.
  destruct (decide (i < length chars)) as [Hi|Hi].
  - rewrite lookup_seq_lt by done. cbn [fmap option_fmap option_map].
    destruct (lookup_lt_is_Some_2 chars i Hi) as [c Hl]. rewrite Hl. f_equal.
    apply septet_eq_bits; [by apply unpack_septet_septet|by eapply Forall_lookup in Hc|].
    intros j Hj. rewrite unpack_septet_bit by done. subst ud.
    rewrite (bit_at_app _ _ (1 + (7 * i + j))) by (cbn [concat_udh length]; lia).
    rewrite bit_at_repack, decide_False by lia.
    replace (1 + (7 * i + j) - 1) with (7 * i + j) by lia.
    rewrite septet_bit_at by done. by rewrite nth_lookup, Hl.
  - rewrite lookup_seq_ge by lia. symmetry. apply lookup_ge_None. lia.
Qed.

Lemma receive_single ds chars :
  digit_string ds -> length ds <= 255 -> Forall is_septet chars -> length chars <= 160 ->
  receive_codes (buildGSM7PDU (string_of (43%Z :: ds)) chars 0 0 0) = Some (string_of (43%Z :: ds), chars).
Proof.
  intros Hds Hn Hc Hl. unfold receive_codes, buildGSM7PDU, gsm7_octets.
  change (0 <? 0)%Z with false. cbv iota zeta.
  rewrite receive_encoded by (done || apply is_byte_to_byte || by apply packGSM7_byte).
  cbn [mbind option_bind s_dcs s_to]. change (0 =? 0)%Z with true. cbv iota. do 2 f_equal.
  unfold submit_codes, udh_octets. cbn [s_udhi s_ud s_udl].
  change ((0 * 8 + 6) / 7) with 0. rewrite drop_0.
  rewrite to_byte_id, Nat2Z.id, Nat.add_0_r by (unfold is_byte; lia). by apply unpack_pack.
Qed.

Lemma receive_multi ds chars ref total part :
  digit_string ds -> length ds <= 255 -> Forall is_septet chars -> length chars <= 153 ->
  is_byte ref -> is_byte total -> (0 < total)%Z -> is_byte part ->
  receive_codes (buildGSM7PDU (string_of (43%Z :: ds)) chars ref total part) =
    Some (string_of (43%Z :: ds), chars).
Proof.
  intros Hds Hn Hc Hl Hr Ht Hpos Hp. unfold receive_codes, buildGSM7PDU, gsm7_octets.
  replace (0 <? total)%Z with true by lia. cbv iota zeta.
  rewrite receive_encoded;
    [|done..|apply is_byte_to_byte|apply Forall_app; auto using concat_udh_byte, repack_byte].
  cbn [mbind option_bind s_dcs s_to]. change (0 =? 0)%Z with true. cbv iota. do 2 f_equal.
  unfold submit_codes, udh_octets. cbn [s_udhi s_ud s_udl concat_udh app nth].
  change (((1 + Z.to_nat 5) * 8 + 6) / 7) with 7.
  rewrite to_byte_id, Nat2Z.id by (unfold is_byte; lia). by apply concat_septets.
Qed.

(** The parts of a long message, as an indexed map over the slices; within the
    10000-byte bound the part counters do not wrap around. *)
Definition gsm7_chunks (body : string) : list (list Z) :=
  let chars := encodeGSM7Text body in
  map (part_slice chars maxGSM7ConcatChars) (seq 0 (num_parts (length chars) maxGSM7ConcatChars)).

Lemma length_gsm7_chunks body :
  (Z.of_nat (String.length body) <= 10000)%Z -> length (gsm7_chunks body) <= 131.
Proof.
  intros Hb. unfold gsm7_chunks. rewrite length_map, length_seq.
  pose proof (length_encodeGSM7Text body). unfold num_parts, maxGSM7ConcatChars. lia.
Qed.

Lemma encodeGSM7PDUs_long to body :
  (Z.of_nat (String.length body) <= 10000)%Z -> 160 < length (encodeGSM7Text body) ->
  encodeGSM7PDUs to body =
    imap (fun i c => buildGSM7PDU to c 66 (Z.of_nat (length (gsm7_chunks body))) (Z.of_nat (i + 1)))
         (gsm7_chunks body).
Proof.
  intros Hb Hl. unfold encodeGSM7PDUs, maxGSM7Chars.
  destruct (Nat.leb_spec (length (encodeGSM7Text body)) 160); [lia|]. cbv zeta.
  rewrite (map_seq_imap (part_slice (encodeGSM7Text body) maxGSM7ConcatChars)
    (fun c i => buildGSM7PDU to c 66 _ (to_byte (Z.of_nat (i + 1))))).
  pose proof (length_gsm7_chunks body Hb) as Hn. fold (gsm7_chunks body).
  replace (num_parts _ _) with (length (gsm7_chunks body))
    by (unfold gsm7_chunks; by rewrite length_map, length_seq).
  apply imap_ext. intros i c Hi. apply lookup_lt_Some in Hi.
  rewrite !to_byte_id by (unfold is_byte; lia). done.
Qed.

Lemma gsm7_chunk body i c :
  gsm7_chunks body !! i = Some c -> Forall is_septet c /\ length c <= 153.
Proof.
  unfold gsm7_chunks. rewrite list_lookup_fmap. destruct (seq _ _ !! i); [|done]. cbn.
  intros [= <-]. split; [apply part_slice_Forall, encodeGSM7Text_septet|].
  apply part_slice_length.
Qed.

Lemma concat_gsm7_chunks body : concat (gsm7_chunks body) = encodeGSM7Text body.
Proof. apply concat_parts. unfold maxGSM7ConcatChars. lia. Qed.

Lemma receive_long ds body :
  digit_string ds -> length ds <= 255 -> (Z.of_nat (String.length body) <= 10000)%Z ->
  160 < length (encodeGSM7Text body) ->
  mapM receive_codes (encodeGSM7PDUs (string_of (43%Z :: ds)) body) =
    Some (map (pair (string_of (43%Z :: ds))) (gsm7_chunks body)).
Proof.
  intros Hds Hn Hb Hl. rewrite encodeGSM7PDUs_long by done. pose proof (length_gsm7_chunks body Hb) as Hc.
  apply mapM_Some, Forall2_same_length_lookup_2; [by rewrite length_imap, length_map|].
  intros i p r. rewrite list_lookup_imap, list_lookup_fmap.
  destruct (gsm7_chunks body !! i) as [c|] eqn:Ec; [|done].
  cbn [fmap option_fmap option_map]. intros ?%(inj Some) ?%(inj Some). subst.
  pose proof (lookup_lt_Some _ _ _ Ec). apply gsm7_chunk in Ec as [Hs Hlen].
  apply receive_multi; unfold is_byte; auto; lia.
Qed.

Lemma string_of_runes_concat rss : string_of_runes (concat rss) = foldr String.append ""%string (map string_of_runes rss).
Proof.
  induction rss as [|rs rss IH]; [done|]. cbn [concat map foldr]. by rewrite string_of_runes_app, IH.
Qed.

Lemma mapM_receive_gsm7 parts to cs :
  mapM receive_codes parts = Some (map (pair to) cs) ->
  mapM receive_gsm7 parts = Some (map (fun c => (to, gsm7_text c)) cs).
Proof.
  intros H%mapM_Some. apply mapM_Some. revert H. generalize parts. clear parts.
  induction cs as [|c cs IH]; intros parts H; cbn [map] in *.
  - apply Forall2_nil_inv_r in H as ->. constructor.
  - apply Forall2_cons_inv_r in H as (p & ps & Hp & Hps & ->). constructor; [|by apply IH].
    unfold receive_gsm7. by rewrite Hp.
Qed.

(** No cut after 153 septets falls between an escape and its code. *)
Definition cuts_whole (body : string) : bool :=
  let codes := encodeGSM7Text body in
  (length codes <=? maxGSM7Chars) ||
  forallb (fun i => negb (nth (i * maxGSM7ConcatChars + (maxGSM7ConcatChars - 1)) codes 0 =? 27)%Z)
          (seq 0 (num_parts (length codes) maxGSM7ConcatChars)).

Lemma decode_gsm7_runes_app n : forall l1 l2,
  length l1 <= n -> last l1 <> Some 27%Z ->
  decode_gsm7_runes (l1 ++ l2) = decode_gsm7_runes l1 ++ decode_gsm7_runes l2.
Proof.
  induction n as [|n IH]; intros l1 l2 Hl Hlast; [by destruct l1; [|cbn in Hl; lia]|].
  destruct l1 as [|c l1]; [done|]. cbn [length] in Hl. cbn [app decode_gsm7_runes].
  destruct (Z.eqb_spec c 27) as [->|Hc].
  - destruct l1 as [|e l1]; [done|]. cbn [length] in Hl. cbn [app]. f_equal. apply IH; [lia|].
    by destruct l1.
  - assert (Hl1 : decode_gsm7_runes (l1 ++ l2) = decode_gsm7_runes l1 ++ decode_gsm7_runes l2).
    { apply IH; [lia|]. by destruct l1. }
    destruct (gsm7Charset !! Z.to_nat c); by rewrite Hl1.
Qed.

(** Decoding the parts one by one, when no part but the last ends in an escape. *)
Lemma decode_gsm7_runes_concat cs :
  (forall i c, cs !! i = Some c -> S i < length cs -> last c <> Some 27%Z) ->
  decode_gsm7_runes (concat cs) = concat (map decode_gsm7_runes cs).
Proof.
  induction cs as [|c cs IH]; intros H; [done|]. cbn [concat map].
  destruct cs as [|c2 cs]; [by cbn; rewrite !app_nil_r|].
  rewrite (decode_gsm7_runes_app (length c)); [|done|apply (H 0); [done|cbn; lia]].
  f_equal. apply IH. intros i x Hi Hlt. apply (H (S i)); [done|]. cbn in *. lia.
Qed.

Lemma last_part_slice (l : list Z) size i :
  0 < size -> (i + 1) * size <= length l -> last (part_slice l size i) = l !! (i * size + (size - 1)).
Proof.
  intros Hs Hl. rewrite part_slice_take, last_lookup, length_take, length_drop.
  replace (pred (size `min` (length l - i * size))) with (size - 1) by lia.
  rewrite lookup_take_lt, lookup_drop by lia. done.
Qed.

(** A text whose cuts are whole decodes part by part. *)
Lemma chunks_decode body :
  160 < length (encodeGSM7Text body) -> cuts_whole body = true ->
  gsm7_text (encodeGSM7Text body) = foldr String.append ""%string (map gsm7_text (gsm7_chunks body)).
Proof.
  intros Hl Hcut. unfold gsm7_text. rewrite <- concat_gsm7_chunks, decode_gsm7_runes_concat.
  { by rewrite string_of_runes_concat, map_map. }
  intros i c Hc Hi. unfold gsm7_chunks in Hc, Hi. rewrite length_map, length_seq in Hi.
  rewrite list_lookup_fmap, lookup_seq_lt in Hc by lia. cbn [fmap option_fmap option_map Nat.add] in Hc. apply (inj Some) in Hc as <-.
  unfold num_parts, maxGSM7ConcatChars in *. rewrite last_part_slice by lia.
  unfold cuts_whole, maxGSM7Chars, maxGSM7ConcatChars in Hcut. apply orb_true_iff in Hcut as [Hcut|Hcut]; [lia|].
  rewrite forallb_forall in Hcut. specialize (Hcut i ltac:(apply in_seq; unfold num_parts; lia)).
  rewrite nth_lookup in Hcut. destruct (_ !! _) as [x|]; [|done]. cbn in Hcut. intros [= ->]. discriminate.
Qed.

(** C10: what a receiver reassembles from the parts [EncodePDU] builds is what
    was sent.  For an international number and a body of at most 10000 bytes
    that [IsGSM7] accepts, without the escape character itself, and in which no
    cut after a multiple of 153 septets separates an escape from the code it
    introduces (a text of one part has no cut): every part is addressed to that
    number, and the texts of the parts, each decoded on its own, joined in
    order, are the body. *)
Theorem gsm7_submit_roundtrip (ds : list Z) (body : string) :
  digit_string ds -> length ds <= 15 -> IsGSM7 body = true -> 27%Z ∉ runes_of body ->
  (Z.of_nat (String.length body) <= 10000)%Z -> cuts_whole body = true ->
  let to := string_of (43%Z :: ds) in
  exists parts rs, EncodePDU to body "" = Ok parts /\ mapM receive_gsm7 parts = Some rs /\
    Forall (fun r => r.1 = to) rs /\ foldr String.append ""%string (map snd rs) = body.
Proof.
  intros Hds Hn Hg Hesc Hb Hcut to.
  assert (Hbody : gsm7_text (encodeGSM7Text body) = body).
  { unfold gsm7_text, encodeGSM7Text. rewrite decode_encode_gsm7_runes by done.
    by apply string_of_runes_runes_of, IsGSM7_no_error. }
  exists (encodeGSM7PDUs to body). unfold EncodePDU. rewrite Hg. cbv zeta.
  destruct (Nat.le_gt_cases (length (encodeGSM7Text body)) 160) as [Hle|Hgt].
  - exists [(to, body)]. split_and!; [done| |by apply Forall_singleton|].
    + unfold encodeGSM7PDUs, maxGSM7Chars. rewrite (proj2 (Nat.leb_le _ _) Hle). cbn [mapM]. unfold receive_gsm7.
      subst to. rewrite receive_single by (done || lia || apply encodeGSM7Text_septet).
      cbn [mbind option_bind fst snd]. by rewrite Hbody.
    + cbn. apply bytes_of_inj. by rewrite bytes_of_app, app_nil_r.
  - exists (map (fun c => (to, gsm7_text c)) (gsm7_chunks body)). split_and!; [done| | |].
    + apply mapM_receive_gsm7. by apply receive_long; (done || lia).
    + apply Forall_fmap. by apply Forall_true.
    + rewrite map_map. cbn [snd]. by rewrite <- chunks_decode.
Qed.

Lemma gsm7_submit_roundtrip_witness :
  let to := "+4915112345678"%string in
  let body := string_of (replicate 151 97%Z ++ [123; 98; 98; 125] ++ replicate 40 99)%Z in
  length (encodeGSM7Text body) = 197 /\
  exists parts rs, EncodePDU to body "" = Ok parts /\
    mapM receive_gsm7 parts = Some rs /\ Forall (fun r => r.1 = to) rs /\
    foldr String.append ""%string (map snd rs) = body.
Proof.
  split; [by vm_compute|].
  apply (gsm7_submit_roundtrip [52; 57; 49; 53; 49; 49; 50; 51; 52; 53; 54; 55; 56]%Z
           (string_of (replicate 151 97%Z ++ [123; 98; 98; 125] ++ replicate 40 99)%Z));
    [by_eval | cbn; lia | by vm_compute | by_eval | by vm_compute | by vm_compute].
Defined.

(** When a cut does fall inside an escape sequence, the extension character is
    lost: of 152 letters, a brace and 40 letters, the first part ends in a bare
    escape and the second begins with "(" in place of the brace. *)
Lemma escape_split_between_parts :
  let body := string_of (replicate 152 97%Z ++ [123%Z] ++ replicate 40 99%Z) in
  cuts_whole body = false /\ IsGSM7 body = true /\
  match EncodePDU "+12345" body "" with
  | Ok parts => mapM receive_gsm7 parts =
      Some [("+12345", string_of (replicate 152 97%Z)); ("+12345", string_of (40%Z :: replicate 40 99%Z))]
  | _ => False
  end%string.
Proof. vm_compute. done. Qed.

(** C19: the parts of a long message are numbered and sized as the concatenation
    header requires: at most 255 of them, part [i] carries the header
    05 00 03 42 <total> <i> with the true total and its own number (no byte
    wraps), and its user data fits the 140 octets of a short message. *)
Theorem gsm7_parts_numbered (ds : list Z) (body : string) :
  digit_string ds -> length ds <= 15 -> (Z.of_nat (String.length body) <= 10000)%Z ->
  160 < length (encodeGSM7Text body) ->
  let parts := encodeGSM7PDUs (string_of (43%Z :: ds)) body in
  2 <= length parts <= 255 /\
  forall i p, parts !! i = Some p ->
    exists s, receive p = Some s /\ s_udhi s = true /\ length (s_ud s) <= 140 /\
      take 6 (s_ud s) = [5; 0; 3; 66; Z.of_nat (length parts); Z.of_nat (i + 1)]%Z.
Proof.
  intros Hds Hn Hb Hl parts. pose proof (length_gsm7_chunks body Hb) as Hc.
  assert (Hlen : length parts = length (gsm7_chunks body))
    by (subst parts; by rewrite encodeGSM7PDUs_long, length_imap).
  split.
  { rewrite Hlen. unfold gsm7_chunks in *. rewrite length_map, length_seq in *.
    unfold num_parts, maxGSM7ConcatChars in *. lia. }
  intros i p Hp. rewrite Hlen. subst parts. rewrite encodeGSM7PDUs_long in Hp by done.
  rewrite list_lookup_imap in Hp. destruct (gsm7_chunks body !! i) as [c|] eqn:Ec; [|done].
  cbn [fmap option_fmap option_map] in Hp. apply (inj Some) in Hp as <-. pose proof (lookup_lt_Some _ _ _ Ec).
  apply gsm7_chunk in Ec as [Hs Hle]. eexists. split.
  - unfold buildGSM7PDU, gsm7_octets.
    replace (0 <? Z.of_nat (length (gsm7_chunks body)))%Z with true by lia. cbv iota zeta.
    apply receive_encoded; [done|lia|by vm_compute|apply is_byte_to_byte|].
    apply Forall_app; split; [|apply repack_byte]. apply concat_udh_byte; unfold is_byte; lia.
  - cbn [s_udhi s_ud]. split_and!; [done| |done].
    rewrite length_app, length_repackWithFill. cbn [concat_udh length]. lia.
Qed.

Lemma gsm7_parts_numbered_witness :
  let parts := encodeGSM7PDUs "+12345" (string_of (replicate 200 97%Z)) in
  length parts = 2 /\
  forall i p, parts !! i = Some p ->
    exists s, receive p = Some s /\ s_udhi s = true /\ length (s_ud s) <= 140 /\
      take 6 (s_ud s) = [5; 0; 3; 66; Z.of_nat (length parts); Z.of_nat (i + 1)]%Z.
Proof.
  split; [by vm_compute|].
  apply (gsm7_parts_numbered [49; 50; 51; 52; 53]%Z (string_of (replicate 200 97%Z)));
    [by_eval | cbn; lia | by vm_compute | apply Nat.ltb_lt; by vm_compute].
Defined.

(** ** UCS-2 *)

Definition is_u16 (u : Z) : Prop := (0 <= u < 65536)%Z.

Lemma utf16_encode_rune_u16 r : Forall is_u16 (utf16_encode_rune r).
Proof.
  unfold utf16_encode_rune. repeat case_match; rewrite ?Forall_cons, ?Forall_nil; unfold is_u16, rune_error;
    split_and!; done || lia.
Qed.

Lemma utf16_encode_u16 rs : Forall is_u16 (utf16_encode rs).
Proof. induction rs; cbn; [done|]. apply Forall_app. auto using utf16_encode_rune_u16. Qed.

Lemma utf16_decode_encode rs :
  Forall (fun r => valid_rune r = true) rs -> utf16_decode (utf16_encode rs) = rs.
Proof.
  induction 1 as [|r rs Hr _ IH]; [done|]. unfold utf16_encode in *. cbn [flat_map].
  unfold valid_rune in Hr. unfold utf16_encode_rune at 1.
  destruct (_ || _) eqn:E; [|destruct ((65536 <=? r) && (r <=? 1114111))%Z eqn:E2];
    cbn [app utf16_decode].
  - replace ((55296 <=? r) && (r <? 56320))%Z with false by lia.
    replace ((56320 <=? r) && (r <? 57344))%Z with false by lia. by rewrite IH.
  - set (hi := (55296 + (r - 65536) / 1024)%Z). set (lo := (56320 + (r - 65536) mod 1024)%Z).
    replace ((55296 <=? hi) && (hi <? 56320))%Z with true by lia.
    replace ((56320 <=? lo) && (lo <? 57344))%Z with true by lia.
    rewrite IH. f_equal. lia.
  - lia.
Qed.

Lemma be_u16_bytes us : Forall is_u16 us -> be_u16 (flat_map u16_bytes us) = us.
Proof. induction 1 as [|u us Hu _ IH]; [done|]. cbn. rewrite IH. f_equal. lia. Qed.

Lemma length_flat_u16 us : length (flat_map u16_bytes us) = 2 * length us.
Proof. induction us; cbn; lia. Qed.

Lemma flat_u16_byte us : Forall is_u16 us -> Forall is_byte (flat_map u16_bytes us).
Proof.
  induction 1 as [|u us Hu _ IH]; cbn; [done|]. rewrite !Forall_cons. unfold is_u16, is_byte in *.
  split_and!; done || lia.
Qed.

(** Any text comes back as the text of its runes. *)
Lemma decode_encode_UCS2 s : ucs2_text (encodeUCS2 s) = string_of_runes (runes_of s).
Proof.
  unfold ucs2_text, encodeUCS2. rewrite length_flat_u16.
  replace ((2 * _) mod 2 =? 0) with true by lia.
  by rewrite be_u16_bytes, utf16_decode_encode by (apply utf16_encode_u16 || apply runes_of_valid).
Qed.

Lemma encodeUCS2_byte s : Forall is_byte (encodeUCS2 s).
Proof. apply flat_u16_byte, utf16_encode_u16. Qed.

Definition is_bmp (r : Z) : Prop := (r < 65536)%Z.

Lemma length_utf16_bmp rs : Forall is_bmp rs -> length (utf16_encode rs) = length rs.
Proof.
  induction 1 as [|r rs Hr _ IH]; [done|]. unfold utf16_encode in *. cbn [flat_map length].
  rewrite length_app, IH. unfold utf16_encode_rune, is_bmp in *. repeat case_match; cbn; lia.
Qed.

Lemma length_encodeUCS2_runes rs :
  Forall (fun r => valid_rune r = true) rs -> Forall is_bmp rs ->
  length (encodeUCS2 (string_of_runes rs)) = 2 * length rs.
Proof.
  intros Hv Hb. unfold encodeUCS2. rewrite length_flat_u16, runes_of_string_of_runes by done.
  by rewrite length_utf16_bmp.
Qed.

(** One part: the octets fit the length byte, so the receiver reads all of them. *)
Lemma receive_ucs2_part ds rs ref total part :
  digit_string ds -> length ds <= 255 ->
  Forall (fun r => valid_rune r = true) rs -> Forall is_bmp rs ->
  is_byte ref -> is_byte total -> is_byte part ->
  length rs <= (if (0 <? total)%Z then 67 else 70) ->
  receive_ucs2 (buildUCS2PDU (string_of (43%Z :: ds)) rs ref total part) =
    Some (string_of (43%Z :: ds), string_of_runes rs).
Proof.
  intros Hds Hn Hv Hbmp Hr Ht Hp Hlen. unfold receive_ucs2, buildUCS2PDU, ucs2_octets. cbv zeta.
  set (body := encodeUCS2 (string_of_runes rs)).
  assert (Hbody : ucs2_text body = string_of_runes rs).
  { subst body. by rewrite decode_encode_UCS2, runes_of_string_of_runes. }
  assert (Hl : length body = 2 * length rs) by (by apply length_encodeUCS2_runes).
  assert (Hbyte : Forall is_byte body) by apply encodeUCS2_byte.
  clearbody body.
  set (udh := if (0 <? total)%Z then concat_udh ref total part else []).
  assert (Hud : Forall is_byte (udh ++ body)).
  { apply Forall_app. split; [|done]. subst udh. case_match; [by apply concat_udh_byte|done]. }
  rewrite receive_encoded by (done || apply is_byte_to_byte).
  cbn [mbind option_bind s_dcs s_to]. change (8 =? 8)%Z with true. cbv iota. do 2 f_equal.
  rewrite <- Hbody. unfold submit_ucs2, udh_octets. cbn [s_udhi s_ud s_udl]. f_equal.
  subst udh. destruct (0 <? total)%Z; cbn [concat_udh length app nth].
  - rewrite to_byte_id, Nat2Z.id by (unfold is_byte; lia).
    rewrite take_ge by (cbn [length]; lia). done.
  - rewrite drop_0, to_byte_id, Nat2Z.id by (unfold is_byte; lia). apply take_ge. lia.
Qed.

(** The parts of a long UCS-2 message. *)
Definition ucs2_chunks (body : string) : list (list Z) :=
  let runes := runes_of body in
  map (part_slice runes maxUCS2ConcatChars) (seq 0 (num_parts (length runes) maxUCS2ConcatChars)).

Lemma length_runes_of s : length (runes_of s) <= String.length s.
Proof. rewrite <- length_bytes_of. apply length_utf8_decode. Qed.

Lemma length_ucs2_chunks body :
  (Z.of_nat (String.length body) <= 10000)%Z -> length (ucs2_chunks body) <= 150.
Proof.
  intros Hb. unfold ucs2_chunks. rewrite length_map, length_seq.
  pose proof (length_runes_of body). unfold num_parts, maxUCS2ConcatChars. lia.
Qed.

Lemma encodeUCS2PDUs_long to body :
  (Z.of_nat (String.length body) <= 10000)%Z -> 70 < length (runes_of body) ->
  encodeUCS2PDUs to body =
    imap (fun i c => buildUCS2PDU to c 66 (Z.of_nat (length (ucs2_chunks body))) (Z.of_nat (i + 1)))
         (ucs2_chunks body).
Proof.
  intros Hb Hl. unfold encodeUCS2PDUs, maxUCS2Chars.
  destruct (Nat.leb_spec (length (runes_of body)) 70); [lia|]. cbv zeta.
  rewrite (map_seq_imap (part_slice (runes_of body) maxUCS2ConcatChars)
    (fun c i => buildUCS2PDU to c 66 _ (to_byte (Z.of_nat (i + 1))))).
  pose proof (length_ucs2_chunks body Hb) as Hn. fold (ucs2_chunks body).
  replace (num_parts _ _) with (length (ucs2_chunks body))
    by (unfold ucs2_chunks; by rewrite length_map, length_seq).
  apply imap_ext. intros i c Hi. apply lookup_lt_Some in Hi.
  rewrite !to_byte_id by (unfold is_byte; lia). done.
Qed.

Lemma ucs2_chunk body i c :
  Forall is_bmp (runes_of body) -> ucs2_chunks body !! i = Some c ->
  Forall (fun r => valid_rune r = true) c /\ Forall is_bmp c /\ length c <= 67.
Proof.
  intros Hbmp. unfold ucs2_chunks. rewrite list_lookup_fmap. destruct (seq _ _ !! i); [|done]. cbn.
  intros [= <-]. split_and!; [apply part_slice_Forall, runes_of_valid|by apply part_slice_Forall|].
  apply part_slice_length.
Qed.

Lemma receive_ucs2_long ds body :
  digit_string ds -> length ds <= 255 -> (Z.of_nat (String.length body) <= 10000)%Z ->
  Forall is_bmp (runes_of body) -> 70 < length (runes_of body) ->
  mapM receive_ucs2 (encodeUCS2PDUs (string_of (43%Z :: ds)) body) =
    Some (map (fun c => (string_of (43%Z :: ds), string_of_runes c)) (ucs2_chunks body)).
Proof.
  intros Hds Hn Hb Hbmp Hl. rewrite encodeUCS2PDUs_long by done. pose proof (length_ucs2_chunks body Hb) as Hc.
  apply mapM_Some, Forall2_same_length_lookup_2; [by rewrite length_imap, length_map|].
  intros i p r. rewrite list_lookup_imap, list_lookup_fmap.
  destruct (ucs2_chunks body !! i) as [c|] eqn:Ec; [|done].
  cbn [fmap option_fmap option_map]. intros ?%(inj Some) ?%(inj Some). subst.
  pose proof (lookup_lt_Some _ _ _ Ec). apply ucs2_chunk in Ec as (Hv & Hcb & Hlen); [|done].
  apply receive_ucs2_part; unfold is_byte; auto; try lia.
  replace (0 <? _)%Z with true by lia. done.
Qed.

(** C18: UCS-2 text whose characters are all in the basic multilingual plane
    survives the trip: for valid UTF-8 of at most 10000 bytes sent as "UCS2",
    every part is addressed to the destination and the parts' texts, joined in
    order, are the body; no user-data length wraps. *)
Theorem ucs2_submit_roundtrip (ds : list Z) (body : string) :
  digit_string ds -> length ds <= 15 -> rune_error ∉ runes_of body ->
  Forall is_bmp (runes_of body) -> (Z.of_nat (String.length body) <= 10000)%Z ->
  let to := string_of (43%Z :: ds) in
  exists parts rs, EncodePDU to body "UCS2" = Ok parts /\ mapM receive_ucs2 parts = Some rs /\
    Forall (fun r => r.1 = to) rs /\ foldr String.append ""%string (map snd rs) = body.
Proof.
  intros Hds Hn Herr Hbmp Hb to.
  assert (Hbody : string_of_runes (runes_of body) = body) by (by apply string_of_runes_runes_of).
  exists (encodeUCS2PDUs to body).
  destruct (Nat.le_gt_cases (length (runes_of body)) 70) as [Hle|Hgt].
  - exists [(to, body)]. split_and!; [done| |by apply Forall_singleton|].
    + unfold encodeUCS2PDUs, maxUCS2Chars. rewrite (proj2 (Nat.leb_le _ _) Hle). cbn [mapM].
      subst to. rewrite receive_ucs2_part by (done || lia || apply runes_of_valid). by rewrite Hbody.
    + cbn. apply bytes_of_inj. by rewrite bytes_of_app, app_nil_r.
  - eexists. split_and!; [done|by apply receive_ucs2_long; (done || lia)| |].
    + apply Forall_fmap. by apply Forall_true.
    + rewrite map_map. cbn [snd]. rewrite <- string_of_runes_concat. unfold ucs2_chunks.
      rewrite concat_parts by (unfold maxUCS2ConcatChars; lia). done.
Qed.

Lemma ucs2_submit_roundtrip_witness :
  let to := "+4915112345678"%string in
  exists parts rs, EncodePDU to "Привет, мир 你好" "UCS2" = Ok parts /\ mapM receive_ucs2 parts = Some rs /\
    Forall (fun r => r.1 = to) rs /\ foldr String.append ""%string (map snd rs) = "Привет, мир 你好"%string.
Proof.
  apply (ucs2_submit_roundtrip [52; 57; 49; 53; 49; 49; 50; 51; 52; 53; 54; 55; 56]%Z);
    [by_eval | cbn; lia | by_eval | by_eval | by vm_compute].
Defined.

(** ** Where the codec departs from the standard *)

(** Seventy characters outside the basic plane go into one PDU of 280 octets of
    user data, whose length byte wraps to 24. *)
Lemma ucs2_astral_length_wraps :
  let p := buildUCS2PDU "+12345" (replicate 70 128512%Z) 0 0 0 in
  EncodePDU "+12345" (string_of_runes (replicate 70 128512%Z)) "UCS2" = Ok [p] /\
  (fun s => (length (s_ud s), s_udl s)) <$> receive p = Some (280, 24).
Proof. split; by vm_compute. Qed.

(** A concatenated message decoded by [DecodePDU]: the septets after the header
    are read one bit too early, because the fill bit is not skipped. *)
Lemma decode_ignores_fill_bit :
  let codes := [72; 101; 108; 108; 111]%Z in
  let ud := concat_udh 66 2 1 ++ repackWithFill codes 1 in
  let raw := deliver_octets [0%Z] 68 5 145 (bcd_octets [49; 50; 51; 52; 53]%Z) 0 0 (replicate 7 0%Z) 12 ud in
  gsm7_text codes = "Hello"%string /\
  match DecodePDU (upper_hex raw) with Ok d => Body d <> "Hello"%string | _ => False end.
Proof. vm_compute. split; [done|discriminate]. Qed.

(** A seven-character alphanumeric sender (13 nibbles in seven octets) gains an
    eighth character from the padding. *)
Lemma alphanumeric_sender_padded :
  address_text (packGSM7 (encodeGSM7Text "Telekom")) 13 208 = "Telekom@"%string.
Proof. by vm_compute. Qed.

(** A service-centre timestamp of 26 August 2002, 19:37:41 is read with its BCD
    digits taken as hexadecimal: the 26th becomes the 38th. *)
Lemma scts_bcd_read_as_hex :
  scts_time [32; 128; 98; 145; 115; 20; 0]%Z = time_Date 2002 8 38 25 55 65 0 /\
  scts_time [32; 128; 98; 145; 115; 20; 0]%Z <> time_Date 2002 8 26 19 37 41 0.
Proof. vm_compute. done. Qed.

(** A single-part message reports zero parts. *)
Lemma single_part_NumParts to chars : NumParts (buildGSM7PDU to chars 0 0 0) = 0%Z.
Proof. done. Qed.
