(* ===== verification/RateLimit.v ===== *)
(** * The per-SIM send limiter (internal/modem/ratelimit.go)

    Three sliding windows per SIM (minute, hour, day) and the registry of
    limiters by ICCID.  Times are nanoseconds; [time.Now()] is an argument.
    The specification keeps the history of permitted sends and counts. *)

From S2P Require Import Prelude.

(** ** The limiter *)

Record RateLimitConfig := { PerMin : Z; PerHour : Z; PerDay : Z }.

Record window := { limit : Z; duration : Z; events : list Z }.

(** The events are allocated with capacity [limit + 1]: for a limit below -1
    [make] panics, and there is no window. *)
Definition newWindow (limit dur : Z) : window := {| limit := limit; duration := dur; events := [] |}.

(** The events after the cut-off ([t.After(cutoff)]). *)
Definition live (w : window) (now : Z) : list Z :=
  filter (fun t => (now - duration w < t)%Z) (events w).

(** [(w *window) Allow]. *)
Definition window_Allow (w : window) (now : Z) : bool * window :=
  let valid := live w now in
  if (limit w <=? Z.of_nat (length valid))%Z
  then (false, {| limit := limit w; duration := duration w; events := valid |})
  else (true, {| limit := limit w; duration := duration w; events := valid ++ [now] |}).

Definition minute : Z := 60000000000.
Definition hour : Z := 60 * minute.
Definition day : Z := 24 * hour.

Record SIMRateLimiter := { perMin : window; perHour : window; perDay : window }.

Definition newSIMRateLimiter (cfg : RateLimitConfig) : SIMRateLimiter :=
  {| perMin := newWindow (PerMin cfg) minute;
     perHour := newWindow (PerHour cfg) hour;
     perDay := newWindow (PerDay cfg) day |}.

Definition wouldAllow (w : window) (now : Z) : bool := (Z.of_nat (length (live w now)) <? limit w)%Z.

(** [tryAll]: the short-circuit conjunction of three checks and three advances. *)
Definition tryAll (r : SIMRateLimiter) (now : Z) : bool * SIMRateLimiter :=
  if negb (wouldAllow (perMin r) now) then (false, r) else
  if negb (wouldAllow (perHour r) now) then (false, r) else
  if negb (wouldAllow (perDay r) now) then (false, r) else
  let '(ok1, w1) := window_Allow (perMin r) now in
  let r := {| perMin := w1; perHour := perHour r; perDay := perDay r |} in
  if negb ok1 then (false, r) else
  let '(ok2, w2) := window_Allow (perHour r) now in
  let r := {| perMin := perMin r; perHour := w2; perDay := perDay r |} in
  if negb ok2 then (false, r) else
  let '(ok3, w3) := window_Allow (perDay r) now in
  (ok3, {| perMin := perMin r; perHour := perHour r; perDay := w3 |}).

(** [(r *SIMRateLimiter) Allow]. *)
Definition SIM_Allow (r : SIMRateLimiter) (now : Z) : bool * SIMRateLimiter :=
  let '(ok, r) := tryAll r now in
  if negb ok then (false, r) else (true, r).

(** [RateLimiterRegistry]. *)
Definition NewRateLimiterRegistry : gmap string SIMRateLimiter := ∅.

Definition Registry_Register (reg : gmap string SIMRateLimiter) (iccid : string) (cfg : RateLimitConfig)
  : gmap string SIMRateLimiter := <[iccid := newSIMRateLimiter cfg]> reg.

Definition Registry_Allow (reg : gmap string SIMRateLimiter) (iccid : string) (now : Z)
  : bool * gmap string SIMRateLimiter :=
  match reg !! iccid with
  | None => (true, reg)
  | Some lim => let '(ok, lim) := SIM_Allow lim now in (ok, <[iccid := lim]> reg)
  end.

(** ** The specification: the history of permitted sends *)

(** Sends of [hist] in the window [(now - d, now]]. *)
Definition sent_within (hist : list Z) (d now : Z) : nat :=
  length (filter (fun t => (now - d < t <= now)%Z) hist).

Definition spec_allow (cfg : RateLimitConfig) (hist : list Z) (now : Z) : bool :=
  ((Z.of_nat (sent_within hist minute now) <? PerMin cfg) &&
   (Z.of_nat (sent_within hist hour now) <? PerHour cfg) &&
   (Z.of_nat (sent_within hist day now) <? PerDay cfg))%Z.

(** A run of requests at the given times: the answers, and the history of sends. *)
Fixpoint spec_run (cfg : RateLimitConfig) (hist ts : list Z) : list bool * list Z :=
  match ts with
  | [] => ([], hist)
  | now :: ts =>
    let ok := spec_allow cfg hist now in
    let '(oks, hist) := spec_run cfg (if ok then hist ++ [now] else hist) ts in
    (ok :: oks, hist)
  end.

Fixpoint SIM_run (r : SIMRateLimiter) (ts : list Z) : list bool * SIMRateLimiter :=
  match ts with
  | [] => ([], r)
  | now :: ts =>
    let '(ok, r) := SIM_Allow r now in
    let '(oks, r) := SIM_run r ts in
    (ok :: oks, r)
  end.

(** The times at which a run was told yes. *)
Fixpoint permitted (oks : list bool) (ts : list Z) : list Z :=
  match oks, ts with
  | true :: oks, t :: ts => t :: permitted oks ts
  | false :: oks, _ :: ts => permitted oks ts
  | _, _ => []
  end.

(** Requests in the order of a clock that does not run backwards, from [t0] on. *)
Fixpoint clocked (t0 : Z) (ts : list Z) : Prop :=
  match ts with
  | [] => True
  | t :: ts => (t0 <= t)%Z /\ clocked t ts
  end.

#[global] Instance clocked_dec t0 ts : Decision (clocked t0 ts).
Proof. revert t0. induction ts; intros; cbn; apply _. Defined.

(** ** Windows against histories *)

(** A window holds the events of the history after some cut-off in the past. *)
Definition tracks (w : window) (hist : list Z) (last : Z) : Prop :=
  exists c, (c <= last - duration w)%Z /\ events w = filter (fun t => (c < t)%Z) hist.

Lemma live_tracks w hist last now :
  tracks w hist last -> (last <= now)%Z -> live w now = filter (fun t => (now - duration w < t)%Z) hist.
Proof.
  intros (c & Hc & He) Hle. unfold live. rewrite He, list_filter_filter.
  apply list_filter_iff. intros t. lia.
Qed.

Lemma filter_upto d now hist :
  Forall (fun t => (t <= now)%Z) hist ->
  filter (fun t => (now - d < t)%Z) hist = filter (fun t => (now - d < t <= now)%Z) hist.
Proof.
  induction 1 as [|t hist Ht _ IH]; [done|]. rewrite !filter_cons, IH.
  repeat case_decide; done || lia.
Qed.

Lemma live_count w hist last now :
  tracks w hist last -> (last <= now)%Z -> Forall (fun t => (t <= now)%Z) hist ->
  length (live w now) = sent_within hist (duration w) now.
Proof.
  intros Ht Hle Hall. rewrite (live_tracks w hist last now) by done.
  by rewrite filter_upto.
Qed.

Lemma tracks_later w hist last now : tracks w hist last -> (last <= now)%Z -> tracks w hist now.
Proof. intros (c & Hc & He) Hle. exists c. split; [lia|done]. Qed.

(** Where the check passes, the advance passes and records the send. *)
Lemma window_Allow_ok w hist last now :
  tracks w hist last -> (last <= now)%Z -> (0 < duration w)%Z -> wouldAllow w now = true ->
  exists w', window_Allow w now = (true, w') /\ limit w' = limit w /\ duration w' = duration w /\
             tracks w' (hist ++ [now]) now.
Proof.
  intros Ht Hle Hd Hw. unfold window_Allow, wouldAllow in *.
  replace (limit w <=? Z.of_nat (length (live w now)))%Z with false by lia.
  eexists. split_and!; [done..|]. exists (now - duration w)%Z. split; [cbn; lia|]. cbn [events].
  rewrite (live_tracks w hist last now) by done. rewrite filter_app. f_equal.
  rewrite filter_cons, decide_True by lia. done.
Qed.

(** ** The limiter refines its specification *)

Definition refines (cfg : RateLimitConfig) (hist : list Z) (last : Z) (r : SIMRateLimiter) : Prop :=
  Forall (fun t => (t <= last)%Z) hist /\
  (limit (perMin r) = PerMin cfg /\ duration (perMin r) = minute /\ tracks (perMin r) hist last) /\
  (limit (perHour r) = PerHour cfg /\ duration (perHour r) = hour /\ tracks (perHour r) hist last) /\
  (limit (perDay r) = PerDay cfg /\ duration (perDay r) = day /\ tracks (perDay r) hist last).

Lemma refines_init cfg t0 : refines cfg [] t0 (newSIMRateLimiter cfg).
Proof.
  assert (Hw : forall l d, tracks (newWindow l d) [] t0) by (intros l d; by exists (t0 - d)%Z).
  unfold refines. split_and!; done || apply Hw.
Qed.

Lemma refines_later cfg hist last now r :
  refines cfg hist last r -> (last <= now)%Z -> refines cfg hist now r.
Proof.
  intros (Hall & (? & ? & ?) & (? & ? & ?) & (? & ? & ?)) Hle. unfold refines.
  split_and!; try done; try (by eapply tracks_later).
  eapply Forall_impl; [exact Hall|]. intros; cbn in *; lia.
Qed.

Lemma wouldAllow_spec w hist last now :
  tracks w hist last -> (last <= now)%Z -> Forall (fun t => (t <= last)%Z) hist ->
  wouldAllow w now = (Z.of_nat (sent_within hist (duration w) now) <? limit w)%Z.
Proof.
  intros Ht Hle Hall. unfold wouldAllow. rewrite (live_count w hist last now); [done..|].
  eapply Forall_impl; [exact Hall|]. intros; cbn in *; lia.
Qed.

Lemma SIM_Allow_refines cfg hist last now r :
  refines cfg hist last r -> (last <= now)%Z ->
  let '(ok, r') := SIM_Allow r now in
  ok = spec_allow cfg hist now /\ refines cfg (if ok then hist ++ [now] else hist) now r'.
Proof.
  intros Hr Hle. pose proof (refines_later _ _ _ _ _ Hr Hle) as Hlater.
  destruct Hr as (Hall & (L1 & D1 & T1) & (L2 & D2 & T2) & (L3 & D3 & T3)).
  unfold SIM_Allow, tryAll, spec_allow.
  pose proof (wouldAllow_spec _ _ _ _ T1 Hle Hall) as W1. rewrite L1, D1 in W1.
  pose proof (wouldAllow_spec _ _ _ _ T2 Hle Hall) as W2. rewrite L2, D2 in W2.
  pose proof (wouldAllow_spec _ _ _ _ T3 Hle Hall) as W3. rewrite L3, D3 in W3.
  rewrite <- W1, <- W2, <- W3.
  destruct (wouldAllow (perMin r) now) eqn:E1; [|done].
  destruct (wouldAllow (perHour r) now) eqn:E2; [|done].
  destruct (wouldAllow (perDay r) now) eqn:E3; [|done]. cbn [negb].
  destruct (window_Allow_ok _ _ _ _ T1 Hle) as (w1 & A1 & L1' & D1' & T1'); [by rewrite D1|done|].
  destruct (window_Allow_ok _ _ _ _ T2 Hle) as (w2 & A2 & L2' & D2' & T2'); [by rewrite D2|done|].
  destruct (window_Allow_ok _ _ _ _ T3 Hle) as (w3 & A3 & L3' & D3' & T3'); [by rewrite D3|done|].
  rewrite A1. cbn. rewrite A2. cbn. rewrite A3. cbn. split; [done|].
  unfold refines. cbn. split_and!; try congruence; try done.
  apply Forall_app. split; [|by apply Forall_singleton].
  eapply Forall_impl; [exact Hall|]. intros; cbn in *; lia.
Qed.

Lemma SIM_run_refines cfg ts : forall hist last r,
  refines cfg hist last r -> clocked last ts -> (SIM_run r ts).1 = (spec_run cfg hist ts).1.
Proof.
  induction ts as [|now ts IH]; intros hist last r Hr Hc; [done|]. destruct Hc as [Hle Hc]. cbn.
  pose proof (SIM_Allow_refines cfg hist last now r Hr Hle) as H.
  destruct (SIM_Allow r now) as [ok r']. destruct H as [-> Hr'].
  pose proof (IH _ _ _ Hr' Hc) as IH'.
  destruct (SIM_run r' ts), (spec_run _ _ ts). cbn in *. congruence.
Qed.

(** ** The specification keeps its limits *)

Lemma sent_within_app hist t d now :
  sent_within (hist ++ [t]) d now = sent_within hist d now + (if decide (now - d < t <= now)%Z then 1 else 0).
Proof.
  unfold sent_within. rewrite filter_app, length_app, filter_cons.
  case_decide; done.
Qed.

(** Sends up to [last] that fall into a later window fall into the window ending at [now]. *)
Lemma sent_within_later hist d last now t :
  Forall (fun x => (x <= last)%Z) hist -> (last <= now <= t)%Z ->
  sent_within hist d t <= sent_within hist d now.
Proof.
  intros Hall Hle. unfold sent_within. induction Hall as [|x hist Hx _ IH]; [done|].
  rewrite !filter_cons. repeat case_decide; cbn; lia.
Qed.

Definition within_limit (hist : list Z) (d lim : Z) : Prop :=
  forall t, (Z.of_nat (sent_within hist d t) <= Z.max 0 lim)%Z.

Lemma within_limit_step hist d lim last now :
  within_limit hist d lim -> Forall (fun x => (x <= last)%Z) hist -> (last <= now)%Z ->
  (Z.of_nat (sent_within hist d now) < lim)%Z -> within_limit (hist ++ [now]) d lim.
Proof.
  intros Hw Hall Hle Hlt t. rewrite sent_within_app. case_decide.
  - pose proof (sent_within_later hist d last now t Hall). lia.
  - specialize (Hw t). lia.
Qed.

Definition within_limits (cfg : RateLimitConfig) (hist : list Z) : Prop :=
  within_limit hist minute (PerMin cfg) /\ within_limit hist hour (PerHour cfg) /\
  within_limit hist day (PerDay cfg).

Lemma spec_run_within cfg ts : forall hist last,
  within_limits cfg hist -> Forall (fun x => (x <= last)%Z) hist -> clocked last ts ->
  within_limits cfg (spec_run cfg hist ts).2 /\
  (spec_run cfg hist ts).2 = hist ++ permitted (spec_run cfg hist ts).1 ts.
Proof.
  induction ts as [|now ts IH]; intros hist last Hw Hall Hc; cbn.
  { by rewrite app_nil_r. }
  destruct Hc as [Hle Hc].
  set (ok := spec_allow cfg hist now). set (hist' := if ok then hist ++ [now] else hist).
  assert (Hall' : Forall (fun x => (x <= now)%Z) hist).
  { eapply Forall_impl; [exact Hall|]. intros; cbn in *; lia. }
  assert (Hw' : within_limits cfg hist').
  { subst hist'. destruct ok eqn:Eok; [|done]. subst ok. unfold spec_allow in Eok.
    destruct Hw as (H1 & H2 & H3).
    split_and!; eapply within_limit_step; try done; lia. }
  assert (Hall'' : Forall (fun x => (x <= now)%Z) hist').
  { subst hist'. destruct ok; [|done]. apply Forall_app. split; [done|by apply Forall_singleton]. }
  destruct (IH hist' now Hw' Hall'' Hc) as [IH1 IH2].
  destruct (spec_run cfg hist' ts) as [oks hist'']. cbn in *. split; [done|].
  rewrite IH2. subst hist'. destruct ok; [by rewrite <- app_assoc|done].
Qed.

(** ** Properties *)

(** C11: on requests in clock order, the limiter answers exactly as its
    specification does: a send is permitted if and only if, counting the sends
    permitted before, each of the last minute, hour and day has room. *)
Theorem SIM_limiter_refines_spec (cfg : RateLimitConfig) (t0 : Z) (ts : list Z) :
  clocked t0 ts -> (SIM_run (newSIMRateLimiter cfg) ts).1 = (spec_run cfg [] ts).1.
Proof. intros Hc. by apply SIM_run_refines with (last := t0), Hc; apply refines_init. Qed.

Lemma SIM_limiter_refines_spec_witness :
  (SIM_run (newSIMRateLimiter {| PerMin := 2; PerHour := 3; PerDay := 200 |})
           [0; 1; 2; 60000000001; 60000000002; 120000000003]%Z).1 =
  [true; true; false; true; false; false].
Proof.
  etrans; [apply (SIM_limiter_refines_spec _ 0%Z); by_eval | by vm_compute].
Defined.

Lemma SIM_run_within cfg t0 ts :
  clocked t0 ts -> within_limits cfg (permitted (SIM_run (newSIMRateLimiter cfg) ts).1 ts).
Proof.
  intros Hc. rewrite (SIM_run_refines cfg ts [] t0) by (apply refines_init || done).
  destruct (spec_run_within cfg ts [] t0) as [H1 H2]; [|done..|by rewrite H2 in H1].
  unfold within_limits, within_limit. split_and!; intros t; cbn; lia.
Qed.

(** ** The limiters of all SIMs *)

(** What workers ask of the registry, in the order of its lock. *)
Inductive reg_op := OpRegister (iccid : string) (cfg : RateLimitConfig) | OpAllow (iccid : string) (now : Z).

Definition reg_step (reg : gmap string SIMRateLimiter) (op : reg_op) : bool * gmap string SIMRateLimiter :=
  match op with
  | OpRegister ic cfg => (false, Registry_Register reg ic cfg)
  | OpAllow ic now => Registry_Allow reg ic now
  end.

Definition request_of (ic : string) (op : reg_op) : option Z :=
  match op with OpAllow ic' now => if String.eqb ic' ic then Some now else None | OpRegister _ _ => None end.

(** The times of the requests for a SIM, and of those that were permitted. *)
Definition requests (ic : string) (ops : list reg_op) : list Z := omap (request_of ic) ops.

Fixpoint sends (ic : string) (reg : gmap string SIMRateLimiter) (ops : list reg_op) : list Z :=
  match ops with
  | [] => []
  | op :: ops =>
    let '(ok, reg') := reg_step reg op in
    match request_of ic op with
    | Some now => if ok then now :: sends ic reg' ops else sends ic reg' ops
    | None => sends ic reg' ops
    end
  end.

Definition registers_other (ic : string) (op : reg_op) : Prop :=
  match op with OpRegister ic' _ => ic' <> ic | OpAllow _ _ => True end.

(** The limiter of a SIM sees the requests for that SIM and nothing else. *)
Lemma sends_run ic ops : forall reg r,
  reg !! ic = Some r -> Forall (registers_other ic) ops ->
  sends ic reg ops = permitted (SIM_run r (requests ic ops)).1 (requests ic ops).
Proof.
  induction ops as [|op ops IH]; intros reg r Hr Ho; [done|]. apply Forall_cons in Ho as [Ho Hops].
  unfold requests. cbn [sends omap list_omap]. fold (requests ic ops). destruct op as [ic' cfg|ic' now]; cbn [reg_step request_of].
  - apply IH; [|done]. unfold Registry_Register. by rewrite lookup_insert_ne.
  - unfold Registry_Allow. destruct (String.eqb_spec ic' ic) as [->|Hne].
    + rewrite Hr. cbn [SIM_run]. destruct (SIM_Allow r now) as [ok r'].
      specialize (IH (<[ic := r']> reg) r' (lookup_insert_eq _ _ _) Hops). destruct (SIM_run r' (requests ic ops)) as [oks r2].
      cbn [fst] in *. destruct ok; cbn [permitted]; by rewrite IH.
    + destruct (reg !! ic') as [lim|]; [|by apply IH]. destruct (SIM_Allow lim now) as [ok lim'].
      apply IH; [|done]. by rewrite lookup_insert_ne.
Qed.

(** C7: the limits of a SIM hold from one registration of it to the next: however the requests of the
    other SIMs come in between and whatever was registered before, as long as the SIM is not registered again and
    the clock of its requests does not run backwards, in any window of a minute, an hour or a day, ending at any
    instant, the number of sends permitted since the registration is at most the configured limit (none, for a limit of
    zero or less).  A new registration starts with an empty history ([reregister_forgets_sends]). *)
Theorem send_limits_never_exceeded (reg : gmap string SIMRateLimiter) (ic : string) (cfg : RateLimitConfig) (t0 : Z)
    (ops : list reg_op) :
  Forall (registers_other ic) ops -> clocked t0 (requests ic ops) ->
  within_limits cfg (sends ic (Registry_Register reg ic cfg) ops).
Proof.
  intros Ho Hc. rewrite (sends_run ic ops (Registry_Register reg ic cfg) (newSIMRateLimiter cfg) (lookup_insert_eq _ _ _) Ho). by apply (SIM_run_within cfg t0).
Qed.

Lemma send_limits_never_exceeded_witness :
  let ops := [OpAllow "A" 0; OpAllow "B" 7; OpAllow "A" 1; OpRegister "B" {| PerMin := 1; PerHour := 1; PerDay := 1 |};
              OpAllow "A" 2; OpAllow "B" 3; OpAllow "A" 60000000001]%Z in
  within_limits {| PerMin := 2; PerHour := 3; PerDay := 200 |}
    (sends "A" (Registry_Register NewRateLimiterRegistry "A" {| PerMin := 2; PerHour := 3; PerDay := 200 |}) ops) /\
  sends "A" (Registry_Register NewRateLimiterRegistry "A" {| PerMin := 2; PerHour := 3; PerDay := 200 |}) ops =
    [0; 1; 60000000001]%Z.
Proof.
  cbv zeta. split; [|by vm_compute]. apply (send_limits_never_exceeded _ _ _ 0%Z); [by repeat constructor|by_eval].
Defined.

(** A request advances all three windows or none: it is permitted exactly
    when every window has room; if permitted each window drops its expired
    events and records the send, and if not the limiter is left unchanged. *)
Theorem SIM_Allow_all_or_nothing (r : SIMRateLimiter) (now : Z) :
  SIM_Allow r now =
    if wouldAllow (perMin r) now && wouldAllow (perHour r) now && wouldAllow (perDay r) now
    then (true, {| perMin := {| limit := limit (perMin r); duration := duration (perMin r);
                                events := live (perMin r) now ++ [now] |};
                   perHour := {| limit := limit (perHour r); duration := duration (perHour r);
                                 events := live (perHour r) now ++ [now] |};
                   perDay := {| limit := limit (perDay r); duration := duration (perDay r);
                                events := live (perDay r) now ++ [now] |} |})
    else (false, r).
Proof.
  unfold SIM_Allow, tryAll.
  assert (HA : forall w, wouldAllow w now = true ->
    window_Allow w now = (true, {| limit := limit w; duration := duration w; events := live w now ++ [now] |})).
  { intros w. unfold wouldAllow, window_Allow. intros.
    by replace (limit w <=? _)%Z with false by lia. }
  destruct (wouldAllow (perMin r) now) eqn:E1; [|done].
  destruct (wouldAllow (perHour r) now) eqn:E2; [|done].
  destruct (wouldAllow (perDay r) now) eqn:E3; [|done]. cbn [negb andb].
  rewrite (HA _ E1). cbn. rewrite (HA _ E2). cbn. rewrite (HA _ E3). done.
Qed.

(** SIMs are limited independently: a request on one ICCID does not change
    the answer to any request on another, and an ICCID without a limiter is
    always permitted. *)
Theorem registry_isolates_sims (reg : gmap string SIMRateLimiter) (iccid iccid' : string) (now now' : Z) :
  (iccid <> iccid' ->
   (Registry_Allow (Registry_Allow reg iccid now).2 iccid' now').1 = (Registry_Allow reg iccid' now').1) /\
  (reg !! iccid = None -> Registry_Allow reg iccid now = (true, reg)).
Proof.
  split.
  - intros Hne.
    assert (Hl : (Registry_Allow reg iccid now).2 !! iccid' = reg !! iccid').
    { unfold Registry_Allow. destruct (reg !! iccid); [|done].
      destruct (SIM_Allow _ now). by apply lookup_insert_ne. }
    set (reg1 := (Registry_Allow reg iccid now).2) in *. unfold Registry_Allow. rewrite Hl.
    destruct (reg !! iccid') as [lim|]; [|done]. by destruct (SIM_Allow lim now').
  - intros Hn. unfold Registry_Allow. by rewrite Hn.
Qed.

(** Registering an ICCID again (as every restart of its worker does) forgets
    the sends of the last day: the limiter starts empty. *)
Lemma reregister_forgets_sends :
  let cfg := {| PerMin := 1; PerHour := 1; PerDay := 1 |} in
  let reg := Registry_Register NewRateLimiterRegistry "A" cfg in
  let '(ok1, reg) := Registry_Allow reg "A" 0 in
  let '(ok2, reg) := Registry_Allow reg "A" 1 in
  let '(ok3, reg) := Registry_Allow (Registry_Register reg "A" cfg) "A" 2 in
  (ok1, ok2, ok3) = (true, false, true).
Proof. by vm_compute. Qed.
