(* ===== verification/Buffer.v ===== *)
(** * The offline SMS buffer (internal/buffer/buffer.go)

    [Buffer] is a thin layer over one SQLite table.  The engine is third-party
    code: it is the class [SqlEngine], one operation per kind of statement the
    source issues, and [SqlLaws] states what SQLite documents about them.  The
    buffer's operations are the source's, statement by statement.  The
    specification is an inbox: a queue of undelivered messages and an archive
    of delivered ones. *)

From stdpp Require Import sorting.
From S2P Require Import Prelude GoString.

(** ** Rows and records *)

(** A row of [sms_buffer] (the [CREATE TABLE] statement). *)
Record row := {
  r_id : Z; r_iccid : string; r_sender : string; r_body : string; r_received_at : Z;
  r_pdu_hash : string; r_smsc : option string; r_status : string;
  r_created_at : Z; r_delivered_at : option Z }.

(** The columns an [INSERT] names; the others take their defaults. *)
Record row_values := {
  v_iccid : string; v_sender : string; v_body : string; v_received_at : Z;
  v_pdu_hash : string; v_smsc : string }.

Record SMSRecord := {
  ID : Z; ICCID : string; Sender : string; Body : string; ReceivedAt : Z;
  PDUHash : string; SMSC : string; Status : string }.

#[global] Instance SMSRecord_eq_dec : EqDecision SMSRecord.
Proof. solve_decision. Defined.

(** The row an [INSERT] creates: status 'PENDING', created now, not delivered. *)
Definition new_row (i now : Z) (v : row_values) : row :=
  {| r_id := i; r_iccid := v_iccid v; r_sender := v_sender v; r_body := v_body v;
     r_received_at := v_received_at v; r_pdu_hash := v_pdu_hash v; r_smsc := Some (v_smsc v);
     r_status := "PENDING"; r_created_at := now; r_delivered_at := None |}.

Definition has_hash (h : string) (r : row) : bool := String.eqb (r_pdu_hash r) h.

(** ** The engine *)

(** [sql.Result]: both methods may report an error. *)
Record sql_result := { LastInsertId : res Z; RowsAffected : res Z }.

(** Statements of the SQL engine on the table.  A statement may fail; the
    time is [unixepoch('now') * 1000] where a default needs it. *)
Class SqlEngine (DB : Type) := {
  db_rows : DB -> list row;
  db_seq : DB -> Z;
  user_version : DB -> Z;
  exec_schema : DB -> DB * res ();
  query_version : DB -> DB * res Z;
  set_version : DB -> Z -> DB * res ();
  exec_insert_or_ignore : DB -> Z -> row_values -> DB * res sql_result;
  exec_update : DB -> (row -> bool) -> (row -> row) -> DB * res sql_result;
  exec_delete : DB -> (row -> bool) -> DB * res sql_result;
  select_count : DB -> (row -> bool) -> DB * res Z;
  select_order_by_id : DB -> (row -> bool) -> DB * res (list row)
}.

(** [same_table db db']: the statement left the table as it was. *)
Definition same_table {DB} `{SqlEngine DB} (db db' : DB) : Prop :=
  db_rows db' = db_rows db /\ db_seq db' = db_seq db.

(** What SQLite documents: statements are atomic; [INSERT OR IGNORE] skips a
    row that violates the UNIQUE constraint on [pdu_hash]; AUTOINCREMENT gives
    a rowid larger than any the table ever held; [db_rows] lists the table by
    rowid. *)
Class SqlLaws (DB : Type) `{SqlEngine DB} := {
  insert_new : forall db now v db' r,
    exec_insert_or_ignore db now v = (db', inr r) ->
    existsb (has_hash (v_pdu_hash v)) (db_rows db) = false ->
    exists lid, r = {| LastInsertId := inr lid; RowsAffected := inr 1%Z |} /\
      (db_seq db < lid)%Z /\ db_seq db' = lid /\ db_rows db' = db_rows db ++ [new_row lid now v];
  insert_ignored : forall db now v db' r,
    exec_insert_or_ignore db now v = (db', inr r) ->
    existsb (has_hash (v_pdu_hash v)) (db_rows db) = true ->
    (exists lid, LastInsertId r = inr lid) /\ RowsAffected r = inr 0%Z /\ same_table db db';
  insert_failed : forall db now v db' e,
    exec_insert_or_ignore db now v = (db', inl e) -> same_table db db';
  update_ok : forall db p f db' r,
    exec_update db p f = (db', inr r) ->
    db_rows db' = map (fun r => if p r then f r else r) (db_rows db) /\ db_seq db' = db_seq db;
  update_failed : forall db p f db' e, exec_update db p f = (db', inl e) -> same_table db db';
  delete_ok : forall db p db' r,
    exec_delete db p = (db', inr r) ->
    db_rows db' = filter (fun r => ~ p r) (db_rows db) /\ db_seq db' = db_seq db /\
    RowsAffected r = inr (Z.of_nat (length (filter (fun r => p r) (db_rows db))));
  delete_failed : forall db p db' e, exec_delete db p = (db', inl e) -> same_table db db';
  count_ok : forall db p db' n,
    select_count db p = (db', inr n) -> n = Z.of_nat (length (filter (fun r => p r) (db_rows db)));
  count_same : forall db p db' r, select_count db p = (db', r) -> same_table db db';
  select_ok : forall db p db' rs,
    select_order_by_id db p = (db', inr rs) -> rs = filter (fun r => p r) (db_rows db);
  select_same : forall db p db' r, select_order_by_id db p = (db', r) -> same_table db db';
  schema_same : forall db db' r, exec_schema db = (db', r) ->
    same_table db db' /\ user_version db' = user_version db;
  version_ok : forall db db' v, query_version db = (db', inr v) -> v = user_version db;
  version_same : forall db db' r, query_version db = (db', r) ->
    same_table db db' /\ user_version db' = user_version db;
  set_version_ok : forall db v db' u, set_version db v = (db', inr u) -> user_version db' = v;
  set_version_same : forall db v db' r, set_version db v = (db', r) -> same_table db db'
}.

(** ** The buffer's operations *)

(** [validICCID], the regular expression [^\d{19,20}$]. *)
Definition validICCID (s : string) : bool :=
  let l := bytes_of s in
  forallb is_digit l && ((length l =? 19) || (length l =? 20)).

Definition schemaVersion : Z := 1.

Section Buffer.
Context {DB : Type} `{SqlEngine DB}.

(** [Open]: applies the schema, then stamps a fresh database and refuses a
    newer one; [opened] is the error of [sql.Open], if any. *)
Definition Open (opened : option go_error) (db : DB) : DB * res () :=
  match opened with Some e => (db, inl (Wrapf "open sqlite: %w" [] e)) | None =>
  let '(db, r) := exec_schema db in
  match r with
  | inl e => (db, inl (Wrapf "apply schema: %w" [] e))
  | inr _ =>
    let '(db, r) := query_version db in
    match r with
    | inl e => (db, inl (Wrapf "query schema version: %w" [] e))
    | inr ver =>
      if (ver =? 0)%Z then
        let '(db, r) := set_version db schemaVersion in
        match r with
        | inl e => (db, inl (Wrapf "set schema version: %w" [] e))
        | inr _ => (db, inr tt)
        end
      else if (schemaVersion <? ver)%Z then
        (db, inl (Errorf "buffer schema version %d is newer than supported %d — upgrade sms-gate"
                         [itoa ver; itoa schemaVersion]))
      else (db, inr tt)
    end
  end
  end.

(** [Insert]: the row id and whether the message was a duplicate. *)
Definition Insert (db : DB) (now : Z) (iccid sender body pduHash smsc : string) (receivedAt : Z)
  : DB * res (Z * bool) :=
  if negb (validICCID iccid) then (db, inl (Errorf "invalid ICCID format: %q" [iccid])) else
  let '(db, r) := exec_insert_or_ignore db now
    {| v_iccid := iccid; v_sender := sender; v_body := body; v_received_at := receivedAt;
       v_pdu_hash := pduHash; v_smsc := smsc |} in
  match r with
  | inl e => (db, inl (Wrapf "insert sms: %w" [] e))
  | inr r =>
    match LastInsertId r, RowsAffected r with
    | inl e, _ => (db, inl (Wrapf "insert sms: last insert id: %w" [] e))
    | _, inl e => (db, inl (Wrapf "insert sms: rows affected: %w" [] e))
    | inr lid, inr nrows => if (nrows =? 0)%Z then (db, inr (0%Z, true)) else (db, inr (lid, false))
    end
  end.

Definition set_delivered (now : Z) (r : row) : row :=
  {| r_id := r_id r; r_iccid := r_iccid r; r_sender := r_sender r; r_body := r_body r;
     r_received_at := r_received_at r; r_pdu_hash := r_pdu_hash r; r_smsc := r_smsc r;
     r_status := "DELIVERED"; r_created_at := r_created_at r; r_delivered_at := Some now |}.

(** [MarkDelivered]. *)
Definition MarkDelivered (db : DB) (now i : Z) : DB * res () :=
  let '(db, r) := exec_update db (fun r => (r_id r =? i)%Z) (set_delivered now) in
  match r with
  | inl e => (db, inl e)
  | inr _ => (db, inr tt)
  end.

Definition is_pending (r : row) : bool := String.eqb (r_status r) "PENDING".

(** [PendingCount]. *)
Definition PendingCount (db : DB) : DB * res Z := select_count db is_pending.

(** The scan of a selected row, [COALESCE(smsc,'')] included. *)
Definition record_of (r : row) : SMSRecord :=
  {| ID := r_id r; ICCID := r_iccid r; Sender := r_sender r; Body := r_body r;
     ReceivedAt := r_received_at r; PDUHash := r_pdu_hash r; SMSC := default "" (r_smsc r);
     Status := "PENDING" |}.

(** [PendingRows]. *)
Definition PendingRows (db : DB) : DB * res (list SMSRecord) :=
  let '(db, r) := select_order_by_id db is_pending in
  match r with
  | inl e => (db, inl (Wrapf "query pending: %w" [] e))
  | inr rs => (db, inr (map record_of rs))
  end.

(** The rows [Purge] deletes. *)
Definition purgeable (cutoff : Z) (r : row) : bool :=
  String.eqb (r_status r) "DELIVERED" && (r_created_at r <? cutoff)%Z.

(** [Purge]; [AddDays t n] is [t.AddDate(0, 0, n)] in milliseconds, which
    depends on the local time zone. *)
Definition Purge (AddDays : Z -> Z -> Z) (db : DB) (now retentionDays : Z) : DB * res Z :=
  let '(db, r) := exec_delete db (purgeable (AddDays now (- retentionDays)%Z)) in
  match r with
  | inl e => (db, inl (Wrapf "purge: %w" [] e))
  | inr r =>
    match RowsAffected r with
    | inl e => (db, inl (Wrapf "purge: rows affected: %w" [] e))
    | inr n => (db, inr n)
    end
  end.

(** ** The operations as one interface *)

Inductive op :=
| OpInsert (now : Z) (iccid sender body pduHash smsc : string) (receivedAt : Z)
| OpMarkDelivered (now i : Z)
| OpPendingCount
| OpPendingRows
| OpPurge (now retentionDays : Z).

Inductive answer :=
| AInsert (r : res (Z * bool))
| AMark (r : res ())
| ACount (r : res Z)
| ARows (r : res (list SMSRecord))
| APurge (r : res Z).

Variable AddDays : Z -> Z -> Z.

Definition run_op (db : DB) (o : op) : DB * answer :=
  match o with
  | OpInsert now ic se bo h sm at_ => let '(db, r) := Insert db now ic se bo h sm at_ in (db, AInsert r)
  | OpMarkDelivered now i => let '(db, r) := MarkDelivered db now i in (db, AMark r)
  | OpPendingCount => let '(db, r) := PendingCount db in (db, ACount r)
  | OpPendingRows => let '(db, r) := PendingRows db in (db, ARows r)
  | OpPurge now days => let '(db, r) := Purge AddDays db now days in (db, APurge r)
  end.

Fixpoint run_ops (db : DB) (os : list op) : DB * list answer :=
  match os with
  | [] => (db, [])
  | o :: os => let '(db, a) := run_op db o in
               let '(db, al) := run_ops db os in (db, a :: al)
  end.

(** ** The specification: an inbox

    [queue] holds the undelivered messages in order of arrival, each with its
    creation time; [archive] the hash and creation time of delivered ones;
    [last_id] is the largest id ever given, to messages since purged too. *)

Record inbox := { queue : list (SMSRecord * Z); archive : list (string * Z); last_id : Z }.

Definition known (s : inbox) (h : string) : bool :=
  existsb (fun m => String.eqb (PDUHash m.1) h) (queue s) ||
  existsb (fun a => String.eqb a.1 h) (archive s).

(** The effect of an operation on the inbox given its answer, [None] when the
    inbox does not allow that answer.  A failed operation changes nothing. *)
Definition inbox_step (s : inbox) (o : op) (a : answer) : option inbox :=
  match o, a with
  | OpInsert now ic se bo h sm at_, AInsert (inr (i, dup)) =>
      if negb (validICCID ic) then None else
      if known s h then if dup && (i =? 0)%Z then Some s else None
      else if dup || (i <=? last_id s)%Z then None
      else Some {| queue := queue s ++
                     [({| ID := i; ICCID := ic; Sender := se; Body := bo; ReceivedAt := at_;
                          PDUHash := h; SMSC := sm; Status := "PENDING" |}, now)];
                   archive := archive s; last_id := i |}
  | OpMarkDelivered _ i, AMark (inr _) =>
      Some {| queue := filter (fun m => ID m.1 <> i) (queue s);
              archive := map (fun m => (PDUHash m.1, m.2)) (filter (fun m => ID m.1 = i) (queue s))
                         ++ archive s;
              last_id := last_id s |}
  | OpPendingCount, ACount (inr n) => if (n =? Z.of_nat (length (queue s)))%Z then Some s else None
  | OpPendingRows, ARows (inr rs) => if decide (rs = (queue s).*1) then Some s else None
  | OpPurge now days, APurge (inr n) =>
      let cutoff := AddDays now (- days) in
      if (n =? Z.of_nat (length (filter (fun a : string * Z => (a.2 < cutoff)%Z) (archive s))))%Z
      then Some {| queue := queue s; archive := filter (fun a => ~ (a.2 < cutoff)%Z) (archive s);
                   last_id := last_id s |}
      else None
  | OpInsert _ _ _ _ _ _ _, AInsert (inl _) | OpMarkDelivered _ _, AMark (inl _)
  | OpPendingCount, ACount (inl _) | OpPendingRows, ARows (inl _) | OpPurge _ _, APurge (inl _) => Some s
  | _, _ => None
  end.

Fixpoint inbox_run (s : inbox) (os : list op) (al : list answer) : option inbox :=
  match os, al with
  | [], [] => Some s
  | o :: os, a :: al => s ← inbox_step s o a; inbox_run s os al
  | _, _ => None
  end.

(** ** The table invariant and the refinement relation *)

Definition known_status (r : row) : Prop := r_status r = "PENDING" \/ r_status r = "DELIVERED".

Record buffer_wf (db : DB) : Prop := {
  wf_sorted : StronglySorted Z.lt (map r_id (db_rows db));
  wf_seq : Forall (fun r => (r_id r <= db_seq db)%Z) (db_rows db);
  wf_hashes : NoDup (map r_pdu_hash (db_rows db));
  wf_status : Forall known_status (db_rows db);
  wf_iccid : Forall (fun r => validICCID (r_iccid r) = true) (db_rows db) }.

Definition queued (rs : list row) : list (SMSRecord * Z) :=
  map (fun r => (record_of r, r_created_at r)) (filter (fun r => is_pending r) rs).

Definition archived (rs : list row) : list (string * Z) :=
  map (fun r => (r_pdu_hash r, r_created_at r)) (filter (fun r => ~ is_pending r) rs).

Definition inbox_of (db : DB) : inbox :=
  {| queue := queued (db_rows db); archive := archived (db_rows db); last_id := db_seq db |}.

(** The inbox [s] describes the table; the archive is unordered. *)
Definition refines (db : DB) (s : inbox) : Prop :=
  queue s = queued (db_rows db) /\ archive s ≡ₚ archived (db_rows db) /\ last_id s = db_seq db.

(** ** Simulation of each operation *)

Context `{!SqlLaws DB}.

Lemma queued_app l1 l2 : queued (l1 ++ l2) = queued l1 ++ queued l2.
Proof. unfold queued. by rewrite filter_app, map_app. Qed.

Lemma archived_app l1 l2 : archived (l1 ++ l2) = archived l1 ++ archived l2.
Proof. unfold archived. by rewrite filter_app, map_app. Qed.

Lemma queued_cons r l :
  queued (r :: l) = (if is_pending r then [(record_of r, r_created_at r)] else []) ++ queued l.
Proof.
  change (r :: l) with ([r] ++ l). rewrite queued_app. unfold queued at 1.
  rewrite filter_cons, filter_nil. by destruct (is_pending r); case_decide.
Qed.

Lemma archived_cons r l :
  archived (r :: l) = (if is_pending r then [] else [(r_pdu_hash r, r_created_at r)]) ++ archived l.
Proof.
  change (r :: l) with ([r] ++ l). rewrite archived_app. unfold archived at 1.
  rewrite filter_cons, filter_nil. destruct (is_pending r); case_decide; naive_solver.
Qed.

(** A hash is known to the inbox exactly when a row carries it. *)
Lemma known_rows db s h :
  refines db s -> known s h = existsb (has_hash h) (db_rows db).
Proof.
  intros (Hq & Ha & _). unfold known. rewrite Hq.
  assert (Hp : existsb (fun a => String.eqb a.1 h) (archive s) =
               existsb (fun a => String.eqb a.1 h) (archived (db_rows db))).
  { apply eq_true_iff_eq. rewrite !existsb_exists. setoid_rewrite <- list_elem_of_In.
    by setoid_rewrite Ha. }
  rewrite Hp. clear. induction (db_rows db) as [|r l IH]; [done|].
  rewrite queued_cons, archived_cons, !existsb_app. cbn [existsb]. rewrite <- IH.
  unfold has_hash. destruct (is_pending r); cbn; destruct (String.eqb _ _); cbn;
    rewrite ?orb_true_r; done.
Qed.

Lemma refines_same db db' s : same_table db db' -> refines db s -> refines db' s.
Proof. intros [Hr Hs] HR. unfold refines in *. by rewrite Hr, Hs. Qed.

Lemma wf_same db db' : same_table db db' -> buffer_wf db -> buffer_wf db'.
Proof. intros [Hr Hs] [????]. split; by rewrite ?Hr, ?Hs. Qed.

Lemma wf_insert db db' lid now v :
  buffer_wf db -> validICCID (v_iccid v) = true ->
  existsb (has_hash (v_pdu_hash v)) (db_rows db) = false ->
  (db_seq db < lid)%Z -> db_seq db' = lid -> db_rows db' = db_rows db ++ [new_row lid now v] ->
  buffer_wf db'.
Proof.
  intros [H1 H2 H3 H4 H5] Hv Hh Hlt Hs Hr.
  assert (Hids : Forall (fun r => (r_id r < lid)%Z) (db_rows db)).
  { eapply Forall_impl; [exact H2|]. cbn. lia. }
  split; rewrite Hr, ?map_app.
  - apply StronglySorted_app_2; [|done|repeat constructor].
    intros x y Hx Hy. apply list_elem_of_singleton in Hy as ->.
    apply list_elem_of_fmap in Hx as (r & -> & Hin). cbn.
    by apply (Forall_forall (fun r => (r_id r < lid)%Z) (db_rows db)).
  - apply Forall_app. split; [eapply Forall_impl; [exact Hids|]; cbn; lia|].
    repeat constructor. cbn. lia.
  - change (map r_pdu_hash [new_row lid now v]) with [v_pdu_hash v].
    apply NoDup_app. split; [done|]. split; [|apply NoDup_singleton].
    intros h Hin. rewrite list_elem_of_singleton. intros ->.
    apply list_elem_of_fmap in Hin as (r & Heq & Hin). apply not_true_iff_false in Hh. apply Hh.
    apply existsb_exists. exists r. split; [by apply list_elem_of_In|].
    unfold has_hash. by rewrite Heq, String.eqb_refl.
  - apply Forall_app. split; [done|]. repeat constructor.
  - apply Forall_app. split; [done|]. by repeat constructor.
Qed.
Definition mark (now i : Z) (r : row) : row := if (r_id r =? i)%Z then set_delivered now r else r.

Lemma is_pending_mark now i r : is_pending (mark now i r) = is_pending r && negb (r_id r =? i)%Z.
Proof. unfold mark. destruct (r_id r =? i)%Z; cbn; by rewrite ?andb_true_r, ?andb_false_r. Qed.

Lemma queued_mark now i rs :
  queued (map (mark now i) rs) = filter (fun m => ID m.1 <> i) (queued rs).
Proof.
  induction rs as [|r l IH]; [done|]. rewrite map_cons, !queued_cons, IH, filter_app. f_equal.
  rewrite is_pending_mark. unfold mark. destruct (is_pending r), (Z.eqb_spec (r_id r) i); cbn [andb negb];
    rewrite ?filter_cons, ?filter_nil; cbn; try case_decide; done.
Qed.

Lemma archived_mark now i rs :
  archived (map (mark now i) rs) ≡ₚ
  map (fun m => (PDUHash m.1, m.2)) (filter (fun m => ID m.1 = i) (queued rs)) ++ archived rs.
Proof.
  induction rs as [|r l IH]; [done|].
  rewrite map_cons, !archived_cons, queued_cons, IH, filter_app, map_app, is_pending_mark.
  unfold mark. destruct (is_pending r), (Z.eqb_spec (r_id r) i); cbn [andb negb];
    rewrite ?filter_cons, ?filter_nil; cbn; try case_decide; try done; cbn; by rewrite Permutation_middle.
Qed.

Lemma wf_mark db db' now i :
  buffer_wf db -> db_rows db' = map (mark now i) (db_rows db) -> db_seq db' = db_seq db -> buffer_wf db'.
Proof.
  assert (Hi : forall r, r_id (mark now i r) = r_id r /\ r_pdu_hash (mark now i r) = r_pdu_hash r /\
                         r_iccid (mark now i r) = r_iccid r).
  { intros r. unfold mark. by destruct (_ =? _)%Z. }
  intros [H1 H2 H3 H4 H5] Hr Hs. split; rewrite Hr, ?Hs, ?map_map.
  - by rewrite (map_ext _ r_id) by apply Hi.
  - apply Forall_fmap. eapply Forall_impl; [exact H2|]. cbn. intros r. by destruct (Hi r) as [-> _].
  - by rewrite (map_ext _ r_pdu_hash) by apply Hi.
  - apply Forall_fmap. eapply Forall_impl; [exact H4|]. cbn. intros r. unfold known_status, mark.
    destruct (_ =? _)%Z; cbn; auto.
  - apply Forall_fmap. eapply Forall_impl; [exact H5|]. cbn. intros r. by destruct (Hi r) as (_ & _ & ->).
Qed.

Lemma status_cases r : known_status r ->
  is_pending r = negb (String.eqb (r_status r) "DELIVERED").
Proof. unfold is_pending. by intros [-> | ->]. Qed.

Lemma queued_purge cutoff rs :
  Forall known_status rs -> queued (filter (fun r => ~ purgeable cutoff r) rs) = queued rs.
Proof.
  intros HF. induction HF as [|r l Hs _ IH]; [done|]. rewrite filter_cons, (queued_cons r l).
  rewrite (status_cases r Hs). unfold purgeable at 1. case_decide as Hd.
  - by rewrite queued_cons, (status_cases r Hs), IH.
  - destruct (String.eqb (r_status r) "DELIVERED"); [done|]. by destruct Hd.
Qed.

Lemma archived_purge cutoff rs :
  Forall known_status rs ->
  archived (filter (fun r => ~ purgeable cutoff r) rs) = filter (fun a => ~ (a.2 < cutoff)%Z) (archived rs) /\
  length (filter (fun r => purgeable cutoff r) rs) =
  length (filter (fun a => (a.2 < cutoff)%Z) (archived rs)).
Proof.
  intros HF. induction HF as [|r l Hs _ [IH1 IH2]]; [done|].
  assert (Hp : purgeable cutoff r = negb (is_pending r) && (r_created_at r <? cutoff)%Z).
  { rewrite (status_cases r Hs). unfold purgeable. by rewrite negb_involutive. }
  rewrite (filter_cons _ r l), (filter_cons (fun r => purgeable cutoff r) r l), (archived_cons r l),
    !filter_app, length_app, <- IH1, <- IH2.
  destruct (decide (~ purgeable cutoff r)) as [H1|H1], (decide (purgeable cutoff r)) as [H2|H2];
    try naive_solver; rewrite Hp in *; clear Hp; rewrite ?archived_cons;
    destruct (is_pending r), (Z.ltb_spec (r_created_at r) cutoff); cbn [negb andb] in *;
    try naive_solver; rewrite ?filter_cons, ?filter_nil; cbn [snd];
    repeat case_decide; cbn; done || lia.
Qed.

Lemma wf_delete db db' p :
  buffer_wf db -> db_rows db' = filter (fun r => ~ Is_true (p r)) (db_rows db) -> db_seq db' = db_seq db ->
  buffer_wf db'.
Proof.
  intros [H1 H2 H3 H4 H5] Hr Hs. split; rewrite Hr, ?Hs.
  - clear -H1. induction (db_rows db) as [|r l IH]; [constructor|].
    rewrite map_cons, StronglySorted_cons in H1. destruct H1 as [Ha Hb]. rewrite filter_cons. case_decide; [|by apply IH].
    rewrite map_cons, StronglySorted_cons, List.Forall_map in *. auto using Forall_filter.
  - by apply Forall_filter.
  - clear -H3. induction (db_rows db) as [|r l IH]; [constructor|].
    rewrite map_cons, NoDup_cons in H3. destruct H3 as [Ha Hb]. rewrite filter_cons.
    case_decide; [|by apply IH].
    rewrite map_cons, NoDup_cons. split; [|by apply IH]. intros Hin. apply Ha.
    apply list_elem_of_fmap in Hin as (r' & Heq & Hin). rewrite Heq.
    apply list_elem_of_fmap. exists r'. split; [done|]. by apply list_elem_of_filter in Hin as [_ Hin].
  - by apply Forall_filter.
  - by apply Forall_filter.
Qed.
(** A failed statement: the table and the inbox stay as they are. *)
Ltac unchanged H :=
  split; [eapply wf_same; [exact H | assumption] |
          eexists; split; [reflexivity | eapply refines_same; [exact H | assumption]]].

Lemma Insert_sim db s now ic se bo h sm ra db' r :
  buffer_wf db -> refines db s -> Insert db now ic se bo h sm ra = (db', r) ->
  buffer_wf db' /\ exists s', inbox_step s (OpInsert now ic se bo h sm ra) (AInsert r) = Some s' /\ refines db' s'.
Proof.
  intros Hwf HR HI. unfold Insert in HI.
  destruct (validICCID ic) eqn:Hv; cbn [negb] in HI; [|simplify_eq; eauto].
  destruct (exec_insert_or_ignore _ _ _) as [db1 [e|q]] eqn:HE.
  { simplify_eq. apply insert_failed in HE. unchanged HE. }
  destruct (existsb (has_hash h) (db_rows db)) eqn:Hh.
  - destruct (insert_ignored _ _ _ _ _ HE Hh) as ((lid & Hl) & Hn & Hsame).
    rewrite Hl, Hn in HI. cbn in HI. simplify_eq. split; [eauto using wf_same|].
    exists s. cbn [inbox_step]. rewrite Hv, (known_rows db s h HR), Hh. cbn. eauto using refines_same.
  - destruct (insert_new _ _ _ _ _ HE Hh) as (lid & -> & Hlt & Hs & Hr).
    cbn in HI. simplify_eq. split; [by refine (wf_insert _ _ _ now _ Hwf _ _ Hlt _ Hr)|].
    pose proof (known_rows db s h HR) as Hk. destruct HR as (Hq & Ha & Hl). eexists. cbn [inbox_step].
    rewrite Hv, Hk, Hh, Hq, Hl. replace (_ <=? db_seq db)%Z with false by lia.
    cbn. split; [done|]. split_and!; cbn; rewrite ?Hr; [by rewrite queued_app| |done].
    rewrite archived_app, Ha. by rewrite app_nil_r.
Qed.

(** [Insert] keeps every row.  When it does not fail, either a row with the
    hash was there before and nothing changes, or exactly the row of its
    arguments is added. *)
Lemma Insert_rows db now ic se bo h sm ra db' r :
  Insert db now ic se bo h sm ra = (db', r) ->
  (forall x, x ∈ db_rows db -> x ∈ db_rows db') /\
  (forall v, r = inr v ->
     (exists x, x ∈ db_rows db /\ r_pdu_hash x = h) \/
     exists i, db_rows db' = db_rows db ++ [new_row i now
       {| v_iccid := ic; v_sender := se; v_body := bo; v_received_at := ra; v_pdu_hash := h; v_smsc := sm |}]).
Proof.
  unfold Insert. destruct (negb (validICCID ic)); [intros; by simplify_eq|].
  destruct (exec_insert_or_ignore _ _ _) as [db1 [e|q]] eqn:HE.
  { intros. simplify_eq. apply insert_failed in HE as [Hr _]. rewrite Hr. by split. }
  destruct (existsb (has_hash h) (db_rows db)) eqn:Hh.
  - destruct (insert_ignored _ _ _ _ _ HE Hh) as ((lid & Hl) & Hn & Hr & _).
    rewrite Hl, Hn. cbn. intros. simplify_eq. rewrite Hr. split; [done|]. intros _ _. left.
    apply existsb_exists in Hh as (x & Hx & Heq). exists x. split; [by apply list_elem_of_In|].
    by apply String.eqb_eq.
  - destruct (insert_new _ _ _ _ _ HE Hh) as (lid & -> & _ & _ & Hr). cbn. intros. simplify_eq.
    rewrite Hr. split; [intros x Hx; apply elem_of_app; by left|]. intros _ _. right. by eexists.
Qed.

Lemma MarkDelivered_sim db s now i db' r :
  buffer_wf db -> refines db s -> MarkDelivered db now i = (db', r) ->
  buffer_wf db' /\ exists s', inbox_step s (OpMarkDelivered now i) (AMark r) = Some s' /\ refines db' s'.
Proof.
  intros Hwf HR HM. unfold MarkDelivered in HM.
  destruct (exec_update _ _ _) as [db1 [e|q]] eqn:HE; simplify_eq.
  { apply update_failed in HE. unchanged HE. }
  apply update_ok in HE as [Hr Hs]. change (fun r => if (r_id r =? i)%Z then _ else _) with (mark now i) in Hr.
  split; [by eapply wf_mark|]. destruct HR as (Hq & Ha & Hl). eexists. split; [done|].
  split_and!; cbn; rewrite ?Hr, ?Hq; [by rewrite queued_mark|by rewrite archived_mark, Ha|congruence].
Qed.

Lemma Purge_sim db s now days db' r :
  buffer_wf db -> refines db s -> Purge AddDays db now days = (db', r) ->
  buffer_wf db' /\ exists s', inbox_step s (OpPurge now days) (APurge r) = Some s' /\ refines db' s'.
Proof.
  intros Hwf HR HM. unfold Purge in HM.
  destruct (exec_delete _ _) as [db1 [e|q]] eqn:HE.
  { simplify_eq. apply delete_failed in HE. unchanged HE. }
  apply delete_ok in HE as (Hr & Hs & Hn). rewrite Hn in HM. simplify_eq.
  split; [by eapply wf_delete|]. destruct HR as (Hq & Ha & Hl).
  destruct (archived_purge (AddDays now (- days)) (db_rows db)) as [H1 H2]; [apply Hwf|].
  eexists. cbn [inbox_step]. rewrite Ha, <- H2, Z.eqb_refl. split; [done|].
  split_and!; cbn; rewrite ?Hr; [by rewrite queued_purge by apply Hwf|by rewrite H1, Ha|congruence].
Qed.

Lemma run_op_sim db s o db' a :
  buffer_wf db -> refines db s -> run_op db o = (db', a) ->
  buffer_wf db' /\ exists s', inbox_step s o a = Some s' /\ refines db' s'.
Proof.
  intros Hwf HR. destruct o; cbn [run_op].
  - destruct (Insert _ _ _ _ _ _ _ _) as [db1 r] eqn:E. intros. simplify_eq. by eapply Insert_sim.
  - destruct (MarkDelivered _ _ _) as [db1 r] eqn:E. intros. simplify_eq. by eapply MarkDelivered_sim.
  - unfold PendingCount. destruct (select_count _ _) as [db1 r] eqn:E. intros. simplify_eq.
    pose proof (count_same _ _ _ _ E) as Hsame. split; [by eapply wf_same|].
    exists s. split; [|by eapply refines_same]. destruct r as [e|n]; [done|]. cbn [inbox_step].
    apply count_ok in E as ->. destruct HR as (-> & _ & _). unfold queued. by rewrite length_map, Z.eqb_refl.
  - unfold PendingRows. destruct (select_order_by_id _ _) as [db1 r] eqn:E.
    pose proof (select_same _ _ _ _ E) as Hsame. intros.
    assert (db' = db1) as -> by (destruct r; by simplify_eq). split; [by eapply wf_same|].
    exists s. split; [|by eapply refines_same]. destruct r as [e|rs]; simplify_eq; [done|]. cbn [inbox_step].
    apply select_ok in E as ->. destruct HR as (-> & _ & _). unfold queued. case_decide as Hd; [done|].
    destruct Hd. rewrite <- list_fmap_compose. by apply list_fmap_ext.
  - destruct (Purge _ _ _ _) as [db1 r] eqn:E. intros. simplify_eq. by eapply Purge_sim.
Qed.

Lemma run_ops_sim os : forall db s db' al,
  buffer_wf db -> refines db s -> run_ops db os = (db', al) ->
  buffer_wf db' /\ exists s', inbox_run s os al = Some s' /\ refines db' s'.
Proof.
  induction os as [|o os IH]; intros db s db' al Hwf HR; cbn [run_ops].
  - intros. simplify_eq. eauto.
  - destruct (run_op db o) as [db1 a] eqn:E1, (run_ops db1 os) as [db2 al'] eqn:E2. intros. simplify_eq.
    destruct (run_op_sim _ _ _ _ _ Hwf HR E1) as (Hwf1 & s1 & Hs1 & HR1).
    destruct (IH _ _ _ _ Hwf1 HR1 E2) as (Hwf2 & s2 & Hs2 & HR2).
    split; [done|]. exists s2. cbn [inbox_run]. by rewrite Hs1.
Qed.
Definition marks (o : op) (i : Z) : bool :=
  match o with OpMarkDelivered _ j => (j =? i)%Z | _ => false end.

(** The inbox drops a queued message only when it is marked delivered. *)
Lemma inbox_step_keeps s o a s' m :
  inbox_step s o a = Some s' -> marks o (ID m.1) = false -> m ∈ queue s -> m ∈ queue s'.
Proof.
  intros Hs Hm Hin. destruct o, a as [r|r|r|r|r]; cbn in Hs, Hm; try discriminate; destruct r as [e|x];
    try (by simplify_eq).
  - destruct x as [i dup]. repeat case_match; simplify_eq; try done. cbn. apply elem_of_app. by left.
  - simplify_eq. cbn. apply list_elem_of_filter. split; [|done]. lia.
  - case_match; by simplify_eq.
  - case_decide; by simplify_eq.
  - case_match; by simplify_eq.
Qed.

Lemma inbox_run_keeps os : forall s al s' m,
  inbox_run s os al = Some s' -> forallb (fun o => negb (marks o (ID m.1))) os = true ->
  m ∈ queue s -> m ∈ queue s'.
Proof.
  induction os as [|o os IH]; intros s [|a al] s' m; cbn [inbox_run]; try discriminate.
  - intros. by simplify_eq.
  - destruct (inbox_step s o a) as [s1|] eqn:E; [|discriminate]. cbn [mbind option_bind forallb].
    intros Hr [Ho Hos]%andb_true_iff Hin. eapply IH; [exact Hr|exact Hos|].
    eapply inbox_step_keeps; [exact E| |exact Hin]. by destruct (marks _ _).
Qed.

Lemma refines_inbox_of db : refines db (inbox_of db).
Proof. done. Qed.

(** [delivers mk]: a queued message stays unless [mk] names its id. *)
Definition delivers (mk : Z -> bool) (db db' : DB) : Prop :=
  buffer_wf db -> buffer_wf db' /\
    forall m, m ∈ queue (inbox_of db) -> mk (ID m.1) = false -> m ∈ queue (inbox_of db').

#[global] Instance delivers_preorder mk : PreOrder (delivers mk).
Proof.
  split; [by intros db Hwf; auto|]. intros d1 d2 d3 H1 H2 Hwf1. destruct (H1 Hwf1) as (Hwf2 & K1).
  destruct (H2 Hwf2) as (Hwf3 & K2). split; [done|auto].
Qed.

Lemma delivers_mono (mk mk' : Z -> bool) db db' :
  (forall i, mk i = true -> mk' i = true) -> delivers mk db db' -> delivers mk' db db'.
Proof.
  intros Hm HD Hwf. destruct (HD Hwf) as (Hwf' & K). split; [done|].
  intros m Hin Hmk. apply K; [done|]. destruct (mk (ID m.1)) eqn:E; [|done]. by rewrite (Hm _ E) in Hmk.
Qed.

Lemma run_op_delivers mk db o :
  (forall i, marks o i = true -> mk i = true) -> delivers mk db (run_op db o).1.
Proof.
  intros Hm Hwf. destruct (run_op db o) as [db' a] eqn:E.
  destruct (run_op_sim _ _ _ _ _ Hwf (refines_inbox_of db) E) as (Hwf' & s & Hs & Hq & _).
  split; [done|]. intros m Hin Hmk. cbn in Hq |- *. rewrite <- Hq. eapply inbox_step_keeps; [exact Hs| |exact Hin].
  destruct (marks o (ID m.1)) eqn:Hmm; [|done]. by rewrite (Hm _ Hmm) in Hmk.
Qed.

(** C9: the buffer is an inbox.  Whatever operations are run, in whatever
    order and with any of them failing, the answers are ones the abstract
    inbox allows (a message with a known hash is a duplicate, a new id exceeds
    every id ever given, also those of messages since purged, pending rows are returned in order of arrival, only
    delivered rows older than the cut-off are purged, a failed operation
    changes nothing), the table still describes the resulting inbox, and the
    table invariant is kept. *)
Theorem buffer_refines_inbox (db : DB) (os : list op) :
  buffer_wf db ->
  exists s, inbox_run (inbox_of db) os (run_ops db os).2 = Some s /\
            refines (run_ops db os).1 s /\ buffer_wf (run_ops db os).1.
Proof.
  intros Hwf. destruct (run_ops db os) as [db' al] eqn:E.
  destruct (run_ops_sim _ _ _ _ _ Hwf (refines_inbox_of db) E) as (Hwf' & s & Hs & HR). eauto.
Qed.

(** C5: no message is lost.  Once [Insert] has accepted a message as new, every
    later successful [PendingRows] returns it, with the contents it was given,
    after any operations that do not mark it delivered: [Purge], other
    inserts, failures and marks of other rows included. *)
Theorem pending_until_acked (db : DB) (now : Z) (ic se bo h sm : string) (ra i : Z) (db1 : DB)
    (os : list op) (rs : list SMSRecord) :
  buffer_wf db ->
  Insert db now ic se bo h sm ra = (db1, inr (i, false)) ->
  forallb (fun o => negb (marks o i)) os = true ->
  (PendingRows (run_ops db1 os).1).2 = inr rs ->
  {| ID := i; ICCID := ic; Sender := se; Body := bo; ReceivedAt := ra;
     PDUHash := h; SMSC := sm; Status := "PENDING" |} ∈ rs.
Proof.
  intros Hwf HI Hos HP.
  destruct (Insert_sim _ _ _ _ _ _ _ _ _ _ _ Hwf (refines_inbox_of db) HI) as (Hwf1 & s1 & Hs1 & HR1).
  destruct (run_ops db1 os) as [db2 al] eqn:E.
  destruct (run_ops_sim _ _ _ _ _ Hwf1 HR1 E) as (Hwf2 & s2 & Hs2 & HR2).
  cbn [fst] in HP. destruct (PendingRows db2) as [db3 r] eqn:EP. cbn in HP. subst r.
  destruct (run_op_sim db2 s2 OpPendingRows db3 (ARows (inr rs)) Hwf2 HR2) as (_ & s3 & Hs3 & _).
  { cbn. by rewrite EP. }
  cbn in Hs3. case_decide as Hrs; [|discriminate]. subst rs.
  set (m := {| ID := i |}). apply list_elem_of_fmap. exists (m, now). split; [done|].
  eapply inbox_run_keeps; [exact Hs2|exact Hos|].
  cbn in Hs1. repeat case_match; simplify_eq; try done. cbn. apply elem_of_app. right. by apply list_elem_of_singleton.
Qed.

(** [Open] accepts a database exactly when its statements succeed and its
    schema version is at most the supported one; a fresh database is stamped,
    a newer one is refused, and the stored messages are untouched in every
    case. *)
Theorem Open_version_gate (db db' : DB) (opened : option go_error) (r : res ()) :
  Open opened db = (db', r) ->
  same_table db db' /\
  (r = inr tt -> (user_version db <= schemaVersion)%Z /\
                 user_version db' = if (user_version db =? 0)%Z then schemaVersion else user_version db) /\
  ((schemaVersion < user_version db)%Z -> exists e, r = inl e).
Proof.
  unfold Open, same_table. intros HO. destruct opened as [e|]; [simplify_eq; naive_solver|].
  destruct (exec_schema db) as [db1 r1] eqn:E1. destruct (schema_same _ _ _ E1) as [[Hr1 Hs1] Hv1].
  destruct r1 as [e|[]]; [simplify_eq; naive_solver|].
  destruct (query_version db1) as [db2 r2] eqn:E2. destruct (version_same _ _ _ E2) as [[Hr2 Hs2] Hv2].
  destruct r2 as [e|ver]; [simplify_eq; rewrite Hr2, Hs2; naive_solver|].
  apply version_ok in E2 as ->. rewrite Hv1 in HO.
  destruct (Z.eqb_spec (user_version db) 0) as [H0|H0].
  - destruct (set_version db2 schemaVersion) as [db3 r3] eqn:E3.
    destruct (set_version_same _ _ _ _ E3) as [Hr3 Hs3].
    rewrite H0. unfold schemaVersion in *.
    destruct r3 as [e|[]]; simplify_eq; rewrite Hr3, Hr2, Hr1, Hs3, Hs2, Hs1;
      (split; [done|split; [|lia]]); intros; try done.
    apply set_version_ok in E3. split; [lia|done].
  - destruct (Z.ltb_spec schemaVersion (user_version db)); simplify_eq; rewrite Hr2, Hr1, Hs2, Hs1;
      (split; [done|split]); intros; try done; try lia; try by eexists.
Qed.
End Buffer.

(** ** A reference engine

    The table as a list, with a script of faults: the next statement fails
    when the head of [m_faults] is [true]. *)

Record memdb := { m_rows : list row; m_seq : Z; m_version : Z; m_faults : list bool }.

Definition mem_empty : memdb := {| m_rows := []; m_seq := 0; m_version := 0; m_faults := [] |}.

Definition mem_stmt {A} (db : memdb) (f : memdb -> memdb * A) : memdb * res A :=
  let db' := {| m_rows := m_rows db; m_seq := m_seq db; m_version := m_version db;
                m_faults := tail (m_faults db) |} in
  if default false (head (m_faults db)) then (db', inl (errors_New "disk I/O error"))
  else let '(db'', a) := f db' in (db'', inr a).

#[global] Instance mem_engine : SqlEngine memdb := {
  db_rows := m_rows;
  db_seq := m_seq;
  user_version := m_version;
  exec_schema db := mem_stmt db (fun db => (db, tt));
  query_version db := mem_stmt db (fun db => (db, m_version db));
  set_version db v := mem_stmt db (fun db =>
    ({| m_rows := m_rows db; m_seq := m_seq db; m_version := v; m_faults := m_faults db |}, tt));
  exec_insert_or_ignore db now v := mem_stmt db (fun db =>
    if existsb (has_hash (v_pdu_hash v)) (m_rows db)
    then (db, {| LastInsertId := inr (m_seq db); RowsAffected := inr 0%Z |})
    else ({| m_rows := m_rows db ++ [new_row (m_seq db + 1) now v]; m_seq := m_seq db + 1;
             m_version := m_version db; m_faults := m_faults db |},
          {| LastInsertId := inr (m_seq db + 1)%Z; RowsAffected := inr 1%Z |}));
  exec_update db p f := mem_stmt db (fun db =>
    ({| m_rows := map (fun r => if p r then f r else r) (m_rows db); m_seq := m_seq db;
        m_version := m_version db; m_faults := m_faults db |},
     {| LastInsertId := inr (m_seq db);
        RowsAffected := inr (Z.of_nat (length (filter (fun r => p r) (m_rows db)))) |}));
  exec_delete db p := mem_stmt db (fun db =>
    ({| m_rows := filter (fun r => ~ p r) (m_rows db); m_seq := m_seq db;
        m_version := m_version db; m_faults := m_faults db |},
     {| LastInsertId := inr (m_seq db);
        RowsAffected := inr (Z.of_nat (length (filter (fun r => p r) (m_rows db)))) |}));
  select_count db p := mem_stmt db (fun db => (db, Z.of_nat (length (filter (fun r => p r) (m_rows db)))));
  select_order_by_id db p := mem_stmt db (fun db => (db, filter (fun r => p r) (m_rows db)))
}.

#[global] Instance mem_laws : SqlLaws memdb.
Proof.
  split; unfold same_table; cbn; unfold mem_stmt; intros;
    destruct (default false (head (m_faults db))); cbn in *; simplify_eq; cbn; try done.
  - rewrite H0 in H. cbn in H. simplify_eq. cbn. eexists. split; [done|]. split; [lia|]. done.
  - rewrite H0 in H. cbn in H. simplify_eq. cbn. eauto.
  - case_match; simplify_eq.
Qed.

Lemma mem_empty_wf : buffer_wf mem_empty.
Proof. split; cbn; constructor. Defined.

Definition sample_ops : list op :=
  [OpInsert 1000 "8949000000000000001" "+49170" "hello" "h1" "+49171" 900;
   OpInsert 1001 "8949000000000000001" "+49170" "hello" "h1" "+49171" 900;
   OpInsert 1002 "8949000000000000001" "+49172" "world" "h2" "" 901;
   OpPendingRows; OpMarkDelivered 1003 1; OpPurge 5000 0; OpPendingRows; OpPendingCount].

Lemma buffer_refines_inbox_witness :
  exists s, inbox_run (fun t d => (t + d * 86400000)%Z) (inbox_of mem_empty) sample_ops
              (run_ops (fun t d => (t + d * 86400000)%Z) mem_empty sample_ops).2 = Some s /\
            refines (run_ops (fun t d => (t + d * 86400000)%Z) mem_empty sample_ops).1 s /\
            buffer_wf (run_ops (fun t d => (t + d * 86400000)%Z) mem_empty sample_ops).1.
Proof. exact (buffer_refines_inbox _ mem_empty sample_ops mem_empty_wf). Defined.

Definition sample_later : list op :=
  [OpInsert 1002 "8949000000000000001" "+49172" "world" "h2" "" 901;
   OpMarkDelivered 1003 2; OpPurge 5000 0; OpPendingCount].

Lemma pending_until_acked_witness :
  {| ID := 1; ICCID := "8949000000000000001"; Sender := "+49170"; Body := "hello"; ReceivedAt := 900;
     PDUHash := "h1"; SMSC := "+49171"; Status := "PENDING" |} ∈
  [{| ID := 1; ICCID := "8949000000000000001"; Sender := "+49170"; Body := "hello"; ReceivedAt := 900;
      PDUHash := "h1"; SMSC := "+49171"; Status := "PENDING" |}].
Proof.
  apply (pending_until_acked (fun t d => (t + d * 86400000)%Z) mem_empty 1000 "8949000000000000001" "+49170"
           "hello" "h1" "+49171" 900 1
           (Insert mem_empty 1000 "8949000000000000001" "+49170" "hello" "h1" "+49171" 900).1 sample_later);
    [exact mem_empty_wf | by vm_compute ..].
Defined.

Lemma Open_version_gate_witness :
  same_table mem_empty (Open None mem_empty).1 /\
  ((Open None mem_empty).2 = inr tt -> (user_version mem_empty <= schemaVersion)%Z /\
     user_version (Open None mem_empty).1 =
       if (user_version mem_empty =? 0)%Z then schemaVersion else user_version mem_empty) /\
  ((schemaVersion < user_version mem_empty)%Z -> exists e, (Open None mem_empty).2 = inl e).
Proof. apply (Open_version_gate mem_empty (Open None mem_empty).1 None (Open None mem_empty).2). reflexivity. Defined.

(** The hash is that of the PDU, which does not name the receiving SIM: a
    message sent to two SIMs of the gateway is taken for one, and the second
    SIM's is never queued. *)
Lemma same_pdu_second_sim_dropped :
  let '(db, al) := run_ops (fun t _ => t) mem_empty
    [OpInsert 1000 "8949000000000000001" "+49170" "hello" "h1" "+49171" 900;
     OpInsert 1001 "8949000000000000002" "+49170" "hello" "h1" "+49171" 900] in
  al = [AInsert (inr (1%Z, false)); AInsert (inr (0%Z, true))] /\ map r_iccid (db_rows db) = ["8949000000000000001"].
Proof. by vm_compute. Qed.
