(* ===== verification/Serializer.v ===== *)
(** * The AT serializer (internal/at/serializer.go, internal/at/csq.go)

    One reader goroutine classifies the lines of the serial port; a command
    waits for its response lines.  The interleaving of reader, timer and
    waiting command is explicit: a list of [event]s is the schedule the
    environment chooses.  The modem itself is the class [Modem]: a write to
    the port gives the events that follow it. *)

From S2P Require Import Prelude GoString.

(** ** Sentinel errors *)

Definition ErrTimeout := errors_New "AT command timed out".
Definition ErrATError := errors_New "AT ERROR".
Definition ErrClosed := errors_New "serializer closed".
Definition ErrSendPrompt := errors_New "did not receive send prompt '>'".
Definition ErrMalformedResponse := errors_New "AT malformed response".

(** ** Classification of lines *)

Definition urcPrefixes : list string :=
  ["+CMTI:"; "+RING"; "+CLIP:"; "+CUSD:"; "+CMT:"; "+CDSI:"; "+CRING:"].

Definition isURC (line : string) : bool := existsb (HasPrefix line) urcPrefixes.

(** ** State

    [URCCH] and the response channel [linesCh] of the in-flight command are
    queues of capacity 64.  [portClosed] records that [Close] ran (the
    [sync.Once]); [closed] is the channel the reader closes when it ends. *)
Record Serializer := {
  URCCH : list string;
  pending : option (list string);
  portClosed : bool;
  closed : bool }.

Definition NewSerializer : Serializer :=
  {| URCCH := []; pending := None; portClosed := false; closed := false |}.

Definition chan_cap : nat := 64.

Definition set_URCCH (s : Serializer) (q : list string) : Serializer :=
  {| URCCH := q; pending := pending s; portClosed := portClosed s; closed := closed s |}.
Definition set_pending (s : Serializer) (p : option (list string)) : Serializer :=
  {| URCCH := URCCH s; pending := p; portClosed := portClosed s; closed := closed s |}.

(** Sending an unsolicited line: when the queue is full the oldest is dropped. *)
Definition push_urc (q : list string) (line : string) : list string :=
  if length q <? chan_cap then q ++ [line] else tail q ++ [line].

(** One round of the [reader] loop on a scanned line. *)
Definition reader_line (s : Serializer) (text : string) : Serializer :=
  let line := TrimRightCR text in
  if String.eqb line "" then s else
  if isURC line then set_URCCH s (push_urc (URCCH s) line) else
  match pending s with
  | Some q => if length q <? chan_cap then set_pending s (Some (q ++ [line])) else s
  | None => s
  end.

(** The end of the [reader]: [close(s.closed)]. *)
Definition reader_end (s : Serializer) : Serializer :=
  {| URCCH := URCCH s; pending := pending s; portClosed := portClosed s; closed := true |}.

(** [Close]. *)
Definition Close (s : Serializer) : Serializer :=
  {| URCCH := URCCH s; pending := pending s; portClosed := true; closed := closed s |}.

(** ** Schedules *)

Inductive event :=
| Scan (text : string)
| ScanEnd
| Recv
| TimerC
| PromptTimerC
| ClosedC.

(** The reader's part of an event; after its end it reads nothing more. *)
Definition reader (s : Serializer) (e : event) : Serializer :=
  if closed s then s else
  match e with
  | Scan text => reader_line s text
  | ScanEnd => reader_end s
  | _ => s
  end.

(** The deferred [s.pending = nil], then what the reader sees after the call. *)
Definition finish (s : Serializer) (evs : list event) : Serializer :=
  foldl reader (set_pending s None) evs.

(** The final lines of a response. *)
Definition final_error (line : string) : bool :=
  String.eqb line "ERROR" || HasPrefix line "+CME ERROR:" || HasPrefix line "+CMS ERROR:".

(** The collecting loop of [Execute].  An exhausted schedule is the timer: the
    timeout is the one event that always comes. *)
Fixpoint collect (cmd : string) (s : Serializer) (lines : list string) (evs : list event)
  : Serializer * (list string * option go_error) :=
  match evs with
  | [] => (finish (Close s) [], ([], Some (ATError cmd ErrTimeout "")))
  | TimerC :: evs => (finish (Close s) evs, ([], Some (ATError cmd ErrTimeout "")))
  | ClosedC :: evs =>
      if closed s then (finish s evs, ([], Some ErrClosed)) else collect cmd s lines evs
  | Recv :: evs =>
      match pending s with
      | Some (line :: q) =>
          let s := set_pending s (Some q) in
          if String.eqb line "OK" then (finish s evs, (lines, None)) else
          if final_error line then (finish s evs, (lines, Some (ATError cmd ErrATError line))) else
          collect cmd s (lines ++ [line]) evs
      | _ => collect cmd s lines evs
      end
  | e :: evs => collect cmd (reader s e) lines evs
  end.

(** The prompt loop of [ExecuteSend]; [inl] leaves the call. *)
Fixpoint await_prompt (s : Serializer) (evs : list event)
  : Serializer * list event * option go_error :=
  match evs with
  | [] => (Close s, [], Some ErrSendPrompt)
  | PromptTimerC :: evs => (Close s, evs, Some ErrSendPrompt)
  | ClosedC :: evs => if closed s then (s, evs, Some ErrClosed) else await_prompt s evs
  | Recv :: evs =>
      match pending s with
      | Some (line :: q) =>
          let s := set_pending s (Some q) in
          if HasPrefix line ">" then (s, evs, None) else
          if String.eqb line "ERROR" || HasPrefix line "+CME"
          then (s, evs, Some (Errorf "CMGS rejected before prompt: %s" [line]))
          else await_prompt s evs
      | _ => await_prompt s evs
      end
  | e :: evs => await_prompt (reader s e) evs
  end.

(** The result loop of [ExecuteSend]; [mr] is the message reference read so far. *)
Fixpoint await_result (s : Serializer) (mr : Z) (evs : list event) : Serializer * res Z :=
  match evs with
  | [] => (finish (Close s) [], inl (ATError "AT+CMGS" ErrTimeout ""))
  | TimerC :: evs => (finish (Close s) evs, inl (ATError "AT+CMGS" ErrTimeout ""))
  | ClosedC :: evs => if closed s then (finish s evs, inl ErrClosed) else await_result s mr evs
  | Recv :: evs =>
      match pending s with
      | Some (line :: q) =>
          let s := set_pending s (Some q) in
          if HasPrefix line "+CMGS:" then
            match scan_d (bytes_of (TrimPrefix line "+CMGS:")) with
            | Some (mr, _) => await_result s mr evs
            | None => (finish s evs, inl (Errorf "parse CMGS response %q: %w" [line]))
            end
          else if String.eqb line "OK" then (finish s evs, inr mr) else
          if final_error line then (finish s evs, inl (ATError "AT+CMGS" ErrATError line)) else
          await_result s mr evs
      | _ => await_result s mr evs
      end
  | e :: evs => await_result (reader s e) mr evs
  end.

(** ** The modem *)

(** [write m bytes timeout]: the modem receives [bytes]; either the write
    fails, or the given events follow while the caller waits. *)
Class Modem (M : Type) := {
  write : M -> string -> Z -> M * res (list event)
}.

Definition ms : Z := 1000000.
Definition TimeoutPing : Z := 2000 * ms.
Definition TimeoutStd : Z := 5000 * ms.
Definition TimeoutSend : Z := 60000 * ms.
Definition TimeoutReset : Z := 30000 * ms.
Definition TimeoutRadio : Z := 15000 * ms.

Definition CRLF : string := String (ascii_of_byte 13) (String (ascii_of_byte 10) EmptyString).
Definition CtrlZ : string := String (ascii_of_byte 26) EmptyString.

Section Serializer.
Context {M : Type} `{Modem M}.

(** A serializer and the modem at its port. *)
Definition port : Type := Serializer * M.

(** A write: it fails on a closed port. *)
Definition port_write (s : Serializer) (m : M) (bytes : string) (timeout : Z) : M * res (list event) :=
  if portClosed s then (m, inl (errors_New "port has been closed")) else write m bytes timeout.

(** [Execute]. *)
Definition Execute (p : port) (cmd : string) (timeout : Z) : port * (list string * option go_error) :=
  let '(s, m) := p in
  if closed s then (p, ([], Some ErrClosed)) else
  let s := set_pending s (Some []) in
  let '(m, r) := port_write s m (cmd +:+ CRLF) timeout in
  match r with
  | inl e => ((set_pending s None, m), ([], Some (Wrapf "write AT command: %w" [] e)))
  | inr evs => let '(s, r) := collect cmd s [] evs in ((s, m), r)
  end.

(** [ExecuteSend]: the prompt of [AT+CMGS], then the PDU and Ctrl-Z. *)
Definition ExecuteSend (p : port) (pduHex : string) (pduLen : Z) (timeout : Z) : port * res Z :=
  let '(s, m) := p in
  if closed s then (p, inl ErrClosed) else
  let s := set_pending s (Some []) in
  let '(m, r) := port_write s m ("AT+CMGS=" +:+ itoa pduLen +:+ CRLF) timeout in
  match r with
  | inl e => ((set_pending s None, m), inl (Wrapf "write CMGS command: %w" [] e))
  | inr evs =>
    let '(s, evs, err) := await_prompt s evs in
    match err with
    | Some e => ((finish s evs, m), inl e)
    | None =>
      let '(m, r) := port_write s m (pduHex +:+ CtrlZ) timeout in
      match r with
      | inl e => ((finish s evs, m), inl (Wrapf "write PDU: %w" [] e))
      | inr evs2 => let '(s, r) := await_result s 0 (evs ++ evs2) in ((s, m), r)
      end
    end
  end.

(** ** Convenience wrappers *)

Definition simple (p : port) (cmd : string) (timeout : Z) : port * option go_error :=
  let '(p, (_, err)) := Execute p cmd timeout in (p, err).

Definition Ping (p : port) := simple p "AT" TimeoutPing.
Definition DisableEcho (p : port) := simple p "ATE0" TimeoutPing.
Definition SetPDUMode (p : port) := simple p "AT+CMGF=0" TimeoutPing.
Definition EnableCMTIURCs (p : port) := simple p "AT+CNMI=2,1,0,0,0" TimeoutPing.
Definition DeleteSMS (p : port) (index : Z) := simple p ("AT+CMGD=" +:+ itoa index) TimeoutStd.
Definition DeleteAllSMS (p : port) := simple p "AT+CMGD=1,4" TimeoutStd.
Definition RadioOff (p : port) := simple p "AT+CFUN=0" (TimeoutStd * 2).
Definition RadioOn (p : port) := simple p "AT+CFUN=1" TimeoutRadio.
Definition HardReset (p : port) := simple p "AT+CFUN=1,1" TimeoutReset.

(** A query: the command, then the parse of its response lines. *)
Definition query {A} (p : port) (cmd : string) (timeout : Z) (parse : list string -> res A) : port * res A :=
  let '(p, (lines, err)) := Execute p cmd timeout in
  match err with
  | Some e => (p, inl e)
  | None => (p, parse lines)
  end.
End Serializer.

Definition malformed (fmt : string) (args : list string) : go_error := Wrapf fmt args ErrMalformedResponse.

(** The loop of [ReadCapabilities] over the response. *)
Fixpoint parse_gcap (lines : list string) : res string :=
  match lines with
  | [] => inl (malformed "no +GCAP in response: %w" [])
  | l :: ls => if HasPrefix l "+GCAP:" then inr (TrimSpace (TrimPrefix l "+GCAP:")) else parse_gcap ls
  end.

(** The clean-up of an ICCID line: the prefixes and blanks around them. *)
Definition iccid_text (l : string) : string :=
  TrimSpace (TrimPrefix (TrimPrefix (TrimSpace l) "+CCID:") "+ICCID:").

(** The inner loop of [ReadICCID]. *)
Fixpoint parse_iccid (lines : list string) : option string :=
  match lines with
  | [] => None
  | l :: ls =>
      let l := iccid_text l in
      if 19 <=? String.length l then Some (ToUpper (remove_byte (ascii_of_byte 32) l)) else parse_iccid ls
  end.

Fixpoint parse_imsi (lines : list string) : res string :=
  match lines with
  | [] => inl (malformed "could not read IMSI: %w" [])
  | l :: ls => let l := TrimSpace l in if String.length l =? 15 then inr l else parse_imsi ls
  end.

Definition quote_char := ascii_of_byte 34.
Definition comma := ascii_of_byte 44.

Fixpoint parse_cops (lines : list string) : res string :=
  match lines with
  | [] => inr "unknown"
  | l :: ls =>
      if HasPrefix l "+COPS:" then
        match Split quote_char l with
        | _ :: op :: _ => inr op
        | _ => parse_cops ls
        end
      else parse_cops ls
  end.

(** [ParseCSQ]: RSSI in dBm. *)
Definition ParseCSQ (line : string) : res Z :=
  let line := TrimSpace line in
  if negb (HasPrefix line "+CSQ:") then
    inl (Errorf "at: ParseCSQ: expected line starting with +CSQ:, got %q" [line]) else
  let value := TrimSpace (TrimPrefix line "+CSQ:") in
  let bad := inl (Errorf "at: ParseCSQ: cannot parse CSQ value from %q: %w" [line]) in
  match scan_d (bytes_of value) with
  | Some (csq, 44%Z :: rest) =>
    match scan_d rest with
    | Some (_, _) =>
      if (csq <? 0)%Z || ((31 <? csq)%Z && negb (csq =? 99)%Z)
      then inl (Errorf "at: ParseCSQ: CSQ value %d out of range [0,31] or 99" [itoa csq])
      else if (csq =? 99)%Z then inr (-113)%Z else inr (-113 + csq * 2)%Z
    | None => bad
    end
  | _ => bad
  end.

Fixpoint parse_csq (lines : list string) : res Z :=
  match lines with
  | [] => inl (malformed "no +CSQ in response: %w" [])
  | l :: ls => if HasPrefix l "+CSQ:" then ParseCSQ l else parse_csq ls
  end.

(** [strconv.Atoi] with the caller's error. *)
Definition atoi_or (s : string) (e : go_error) : res Z :=
  match Atoi s with Some z => inr z | None => inl e end.

Fixpoint parse_creg (lines : list string) : res Z :=
  match lines with
  | [] => inl (malformed "no +CREG in response: %w" [])
  | l :: ls =>
      if HasPrefix l "+CREG:" then
        let e := Errorf "parse +CREG response %q: %w" [l] in
        match Split comma (TrimPrefix l "+CREG:") with
        | _ :: stat :: _ => atoi_or (TrimSpace stat) e
        | _ => atoi_or (TrimSpace (TrimPrefix l "+CREG:")) e
        end
      else parse_creg ls
  end.

Fixpoint parse_cpms (lines : list string) : res (Z * Z) :=
  match lines with
  | [] => inl (malformed "could not parse +CPMS response: %w" [])
  | l :: ls =>
      if HasPrefix l "+CPMS:" then
        let l := TrimPrefix l "+CPMS:" in
        match Split comma l with
        | _ :: used :: total :: _ =>
            match atoi_or (TrimSpace used) (Errorf "parse +CPMS used count %q: %w" [l]) with
            | inl e => inl e
            | inr used =>
              match atoi_or (TrimSpace total) (Errorf "parse +CPMS total count %q: %w" [l]) with
              | inl e => inl e
              | inr total => inr (used, total)
              end
            end
        | _ => parse_cpms ls
        end
      else parse_cpms ls
  end.

(** The loop of [ReadSMS]: every line after the header, blanks trimmed. *)
Fixpoint parse_cmgr (lines : list string) : res string :=
  match lines with
  | [] => inl (malformed "no +CMGR header in response: %w" [])
  | l :: ls =>
      if HasPrefix l "+CMGR:" then
        match ls with
        | [] => inl (malformed "no PDU after +CMGR header: %w" [])
        | _ =>
          let hex := foldr (fun part acc => TrimSpace part +:+ acc) "" ls in
          if String.eqb hex "" then inl (malformed "empty PDU in CMGR response: %w" []) else inr hex
        end
      else parse_cmgr ls
  end.

Section Queries.
Context {M : Type} `{Modem M}.

Definition ReadCapabilities (p : @port M) := query p "AT+GCAP" TimeoutStd parse_gcap.

(** [ReadICCID]: the commands are tried in turn. *)
Fixpoint read_iccid_with (p : @port M) (cmds : list string) : @port M * res string :=
  match cmds with
  | [] => (p, inl (malformed "could not read ICCID: %w" []))
  | cmd :: cmds =>
      let '(p, (lines, err)) := Execute p cmd TimeoutStd in
      match err with
      | Some _ => read_iccid_with p cmds
      | None => match parse_iccid lines with
                | Some iccid => (p, inr iccid)
                | None => read_iccid_with p cmds
                end
      end
  end.

Definition ReadICCID (p : @port M) := read_iccid_with p ["AT+CCID?"; "AT+ICCID?"; "AT+QCCID"].
Definition ReadIMSI (p : @port M) := query p "AT+CIMI" TimeoutStd parse_imsi.
Definition ReadOperator (p : @port M) := query p "AT+COPS?" TimeoutStd parse_cops.
Definition SignalQuality (p : @port M) := query p "AT+CSQ" TimeoutStd parse_csq.
Definition RegistrationStatus (p : @port M) := query p "AT+CREG?" TimeoutStd parse_creg.
Definition StorageStatus (p : @port M) := query p "AT+CPMS?" TimeoutStd parse_cpms.

Definition ReadSMS (p : @port M) (index : Z) : @port M * res string :=
  query p ("AT+CMGR=" +:+ itoa index) TimeoutStd (fun lines =>
    match lines with
    | [] => inl (malformed "empty storage slot %d: %w" [itoa index])
    | _ => parse_cmgr lines
    end).
End Queries.

(** ** Unsolicited lines *)

(** [ParseCMTI]. *)
Definition ParseCMTI (urc : string) : res Z :=
  match Split comma urc with
  | _ :: idx :: _ =>
      match scan_d (bytes_of (TrimSpace idx)) with
      | None => inl (Errorf "parse CMTI index: %w" [])
      | Some (idx, _) =>
          if (idx <? 0)%Z || (999 <? idx)%Z
          then inl (malformed "CMTI index %d out of range [0,999]: %w" [itoa idx])
          else inr idx
      end
  | _ => inl (malformed "malformed CMTI: %q: %w" [urc])
  end.

(** [ParseCREG]. *)
Definition ParseCREG (urc : string) : Z :=
  let parts := Split comma (TrimSpace (TrimPrefix urc "+CREG:")) in
  let statStr := match parts with
                 | _ :: stat :: _ => TrimSpace stat
                 | [stat] => TrimSpace stat
                 | [] => ""
                 end in
  default 0%Z (Atoi statStr).

(** ** What the reader makes of a schedule *)

(** The line of a scan, when it is not blank. *)
Definition line_of (e : event) : option string :=
  match e with
  | Scan text => let l := TrimRightCR text in if String.eqb l "" then None else Some l
  | _ => None
  end.

Definition is_scan_end (e : event) : bool := match e with ScanEnd => true | _ => false end.

(** The lines scanned before the reader ends. *)
Fixpoint scanned (evs : list event) : list string :=
  match evs with
  | [] => []
  | e :: evs => if is_scan_end e then [] else option_list (line_of e) ++ scanned evs
  end.

Definition urcs (evs : list event) : list string := filter (fun l => isURC l) (scanned evs).
Definition responses (evs : list event) : list string := filter (fun l => ~ isURC l) (scanned evs).

(** ** Lemmas *)

Lemma push_urc_all q us :
  length q <= chan_cap ->
  foldl push_urc q us = drop (length (q ++ us) - chan_cap) (q ++ us).
Proof.
  revert q. induction us as [|u us IH]; intros q Hq; cbn [foldl].
  - rewrite app_nil_r. by replace (length q - chan_cap) with 0 by lia.
  - unfold push_urc at 2. destruct (Nat.ltb_spec (length q) chan_cap).
    + rewrite IH by (rewrite length_app; cbn; lia). by rewrite <- app_assoc.
    + destruct q as [|x q]; [cbn in *; unfold chan_cap in *; lia|]. cbn [tail].
      rewrite IH by (rewrite length_app; cbn in *; lia). rewrite <- app_assoc.
      cbn [app length]. rewrite !length_app in *. cbn [length] in *.
      by replace (S (length q + S (length us)) - chan_cap) with (S (length q + S (length us) - chan_cap)) by lia.
Qed.

Lemma reader_urcch s e :
  closed s = false ->
  URCCH (reader s e) = foldl push_urc (URCCH s) (filter (fun l => isURC l) (option_list (line_of e))).
Proof.
  intros Hc. unfold reader. rewrite Hc. destruct e; try done. cbn [line_of]. unfold reader_line.
  destruct (String.eqb _ _); [done|]. change (option_list (Some ?x)) with [x]. rewrite filter_cons, filter_nil.
  case_decide as Hd; destruct (isURC (TrimRightCR text)); try done; try (by destruct Hd).
  by destruct (pending s); [case_match|].
Qed.

Lemma reader_closed s e : closed s = true -> reader s e = s.
Proof. intros Hc. unfold reader. by rewrite Hc. Qed.

Lemma reader_keeps_open s e : closed s = false -> closed (reader s e) = is_scan_end e.
Proof.
  intros Hc. unfold reader. rewrite Hc. destruct e; try done. unfold reader_line.
  destruct (String.eqb (TrimRightCR text) EmptyString), (isURC (TrimRightCR text)); try done.
  by destruct (pending s); [case_match|].
Qed.

Lemma urcs_cons e evs :
  urcs (e :: evs) = if is_scan_end e then []
                    else filter (fun l => isURC l) (option_list (line_of e)) ++ urcs evs.
Proof. unfold urcs. cbn [scanned]. destruct (is_scan_end e); [done|]. by rewrite filter_app. Qed.

Lemma responses_cons e evs :
  responses (e :: evs) = if is_scan_end e then []
                         else filter (fun l => ~ isURC l) (option_list (line_of e)) ++ responses evs.
Proof. unfold responses. cbn [scanned]. destruct (is_scan_end e); [done|]. by rewrite filter_app. Qed.

(** What the reader does to [URCCH] does not depend on the pending command. *)
Definition urc_run (s : Serializer) (evs : list event) : list string :=
  if closed s then URCCH s else foldl push_urc (URCCH s) (urcs evs).

Lemma urc_run_reader s e evs : urc_run (reader s e) evs = urc_run s (e :: evs).
Proof.
  unfold urc_run. destruct (closed s) eqn:Hc.
  - rewrite reader_closed by done. by rewrite Hc.
  - rewrite reader_keeps_open, reader_urcch, urcs_cons by done. destruct (is_scan_end e) eqn:He.
    + by destruct e.
    + by rewrite foldl_app.
Qed.

Lemma urc_run_finish s evs : URCCH (foldl reader s evs) = urc_run s evs.
Proof.
  revert s. induction evs as [|e evs IH]; intros s; cbn [foldl].
  - unfold urc_run. by destruct (closed s).
  - by rewrite IH, urc_run_reader.
Qed.

Lemma urc_run_ext s s' evs : URCCH s = URCCH s' -> closed s = closed s' -> urc_run s evs = urc_run s' evs.
Proof. intros Hu Hc. unfold urc_run. by rewrite Hu, Hc. Qed.

(** An event the command loop takes is invisible to the reader. *)
Definition silent (e : event) : bool := match e with Scan _ | ScanEnd => false | _ => true end.

Lemma urc_run_silent s e evs : silent e = true -> urc_run s (e :: evs) = urc_run s evs.
Proof. intros He. unfold urc_run. rewrite urcs_cons. by destruct e. Qed.

Lemma URCCH_finish s s0 evs :
  URCCH s = URCCH s0 -> closed s = closed s0 -> URCCH (finish s evs) = urc_run s0 evs.
Proof. intros. unfold finish. rewrite urc_run_finish. by apply urc_run_ext. Qed.

Lemma collect_urcch cmd evs : forall s lines, URCCH (collect cmd s lines evs).1 = urc_run s evs.
Proof.
  induction evs as [|e evs IH]; intros s lines; cbn [collect].
  - by apply URCCH_finish.
  - destruct e; try (by rewrite IH, urc_run_reader); rewrite urc_run_silent by done.
    + destruct (pending s) as [[|l q]|]; [apply IH| |apply IH].
      destruct (String.eqb l "OK"); [by apply URCCH_finish|].
      destruct (final_error l); [by apply URCCH_finish|].
      rewrite IH. by apply urc_run_ext.
    + by apply URCCH_finish.
    + destruct (closed s) eqn:E; [by apply URCCH_finish|apply IH].
Qed.

Lemma await_prompt_urcch evs : forall s,
  urc_run (await_prompt s evs).1.1 (await_prompt s evs).1.2 = urc_run s evs.
Proof.
  induction evs as [|e evs IH]; intros s; cbn [await_prompt]; [by apply urc_run_ext|].
  destruct e; try (by rewrite IH, urc_run_reader); rewrite urc_run_silent by done.
  - destruct (pending s) as [[|l q]|]; [apply IH| |apply IH].
    destruct (HasPrefix l ">"); [by apply urc_run_ext|].
    destruct (_ || _); [by apply urc_run_ext|]. rewrite IH. by apply urc_run_ext.
  - by apply urc_run_ext.
  - destruct (closed s) eqn:E; [done|apply IH].
Qed.

Lemma await_result_urcch evs : forall s mr, URCCH (await_result s mr evs).1 = urc_run s evs.
Proof.
  induction evs as [|e evs IH]; intros s mr; cbn [await_result].
  - by apply URCCH_finish.
  - destruct e; try (by rewrite IH, urc_run_reader); rewrite urc_run_silent by done.
    + destruct (pending s) as [[|l q]|]; [apply IH| |apply IH].
      destruct (HasPrefix l "+CMGS:").
      { destruct (scan_d _) as [[mr' ?]|]; [rewrite IH; by apply urc_run_ext|by apply URCCH_finish]. }
      destruct (String.eqb l "OK"); [by apply URCCH_finish|].
      destruct (final_error l); [by apply URCCH_finish|]. rewrite IH. by apply urc_run_ext.
    + by apply URCCH_finish.
    + destruct (closed s) eqn:E; [by apply URCCH_finish|apply IH].
Qed.

(** The reader and the response queue of the command in flight. *)
Lemma reader_pending s e q :
  pending s = Some q -> closed s = false ->
  length q + length (filter (fun l => ~ isURC l) (option_list (line_of e))) <= chan_cap ->
  pending (reader s e) = Some (q ++ filter (fun l => ~ isURC l) (option_list (line_of e))).
Proof.
  intros Hp Hc. unfold reader. rewrite Hc. destruct e; try (by rewrite app_nil_r). cbn [line_of].
  unfold reader_line. destruct (String.eqb _ _); [by rewrite app_nil_r|].
  change (option_list (Some ?x)) with [x]. rewrite filter_cons, filter_nil.
  case_decide as Hd; destruct (isURC (TrimRightCR text)); try (by destruct Hd); try (by rewrite app_nil_r).
  rewrite Hp. cbn [length]. intros. by destruct (Nat.ltb_spec (length q) chan_cap); [|lia].
Qed.

(** The response lines the reader will still deliver. *)
Definition upcoming (s : Serializer) (evs : list event) : list string :=
  if closed s then [] else responses evs.

Lemma upcoming_reader s e evs q :
  pending s = Some q -> length q + length (upcoming s (e :: evs)) <= chan_cap ->
  exists new, pending (reader s e) = Some (q ++ new) /\
              upcoming s (e :: evs) = new ++ upcoming (reader s e) evs.
Proof.
  unfold upcoming. intros Hp. destruct (closed s) eqn:Hc.
  - intros _. exists []. by rewrite reader_closed, Hc, app_nil_r.
  - rewrite responses_cons, reader_keeps_open by done. destruct (is_scan_end e) eqn:He.
    + destruct e; try discriminate. intros _. exists []. unfold reader. rewrite Hc. cbn. by rewrite app_nil_r.
    + rewrite length_app. intros Hlen. eexists. split; [|done]. apply reader_pending; [done|done|lia].
Qed.

Lemma upcoming_silent s e evs : silent e = true -> upcoming s (e :: evs) = upcoming s evs.
Proof. intros He. unfold upcoming. rewrite responses_cons. by destruct e. Qed.

(** [collect] takes response lines in order: [lines] taken, [q] queued. *)
Lemma collect_prefix cmd evs : forall s lines q s' out,
  pending s = Some q -> length q + length (upcoming s evs) <= chan_cap ->
  collect cmd s lines evs = (s', (out, None)) ->
  exists k, lines ++ q ++ upcoming s evs = out ++ ["OK"] ++ k.
Proof.
  induction evs as [|e evs IH]; intros s lines q s' out Hp Hlen; cbn [collect]; [by intros [=]|].
  assert (Hrd : collect cmd (reader s e) lines evs = (s', (out, None)) ->
                exists k, lines ++ q ++ upcoming s (e :: evs) = out ++ ["OK"] ++ k).
  { destruct (upcoming_reader s e evs q Hp Hlen) as (new & Hp' & Hu). rewrite Hu in Hlen |- *.
    intros Hc. destruct (IH _ _ _ _ _ Hp' ltac:(rewrite length_app in *; lia) Hc) as [k Hk].
    exists k. by rewrite <- Hk, <- !app_assoc. }
  destruct e; try exact Hrd; rewrite upcoming_silent in * by done; clear Hrd.
  - rewrite Hp. destruct q as [|l q]; [by apply IH|].
    destruct (String.eqb_spec l "OK") as [->|Hok].
    { intros [= _ <-]. by eexists. }
    destruct (final_error l) eqn:Hf; [by intros [=]|]. intros Hc.
    destruct (IH (set_pending s (Some q)) (lines ++ [l]) q s' out eq_refl
                ltac:(cbn in *; unfold upcoming in *; cbn; lia) Hc) as [k Hk].
    exists k. rewrite <- Hk, <- app_assoc. done.
  - by intros [=].
  - destruct (closed s) eqn:Hcl; [by intros [=]|]. by apply IH.
Qed.

Definition data_line (l : string) : bool := negb (String.eqb l "OK") && negb (final_error l).

Lemma collect_data cmd evs : forall s lines s' out,
  Forall (fun l => data_line l = true) lines ->
  collect cmd s lines evs = (s', (out, None)) -> Forall (fun l => data_line l = true) out.
Proof.
  induction evs as [|e evs IH]; intros s lines s' out HF; cbn [collect]; [by intros [=]|].
  destruct e; try (by apply IH); [|by intros [=]|destruct (closed s); [by intros [=]|by apply IH]].
  destruct (pending s) as [[|l q]|]; [by apply IH| |by apply IH].
  destruct (String.eqb l "OK") eqn:E1; [intros; by simplify_eq|].
  destruct (final_error l) eqn:E2; [by intros [=]|]. apply IH. apply Forall_app. split; [done|].
  repeat constructor. unfold data_line. by rewrite E1, E2.
Qed.

(** A schedule that brings a whole response: the reader keeps reading, the
    timer does not fire, and the command then takes every line. *)
Definition calm (e : event) : bool :=
  match e with Scan _ | Recv | PromptTimerC => true | _ => false end.

Lemma collect_drain cmd n : forall s lines q evs resp k,
  pending s = Some q -> q = resp ++ ["OK"] ++ k -> Forall (fun l => data_line l = true) resp ->
  length resp < n -> exists s', collect cmd s lines (replicate n Recv ++ evs) = (s', (lines ++ resp, None)).
Proof.
  induction n as [|n IH]; intros s lines q evs resp k Hp Hq HF Hn; [lia|].
  cbn [replicate app collect]. rewrite Hp, Hq. destruct resp as [|l resp]; cbn [app].
  - eexists. by rewrite app_nil_r.
  - apply Forall_cons in HF as [Hl HF]. unfold data_line in Hl. apply andb_true_iff in Hl as [H1 H2].
    destruct (String.eqb l "OK"); [done|]. destruct (final_error l); [done|].
    destruct (IH (set_pending s (Some (resp ++ ["OK"] ++ k))) (lines ++ [l]) _ evs resp k eq_refl eq_refl HF
                ltac:(cbn in Hn; lia)) as [s' Hs']. exists s'. rewrite <- app_assoc in Hs'. exact Hs'.
Qed.

Lemma collect_complete cmd evs : forall s lines q resp n,
  forallb calm evs = true -> closed s = false -> pending s = Some q ->
  q ++ responses evs = resp ++ ["OK"] -> Forall (fun l => data_line l = true) resp ->
  length resp < chan_cap -> length resp < n ->
  exists s', collect cmd s lines (evs ++ replicate n Recv) = (s', (lines ++ resp, None)).
Proof.
  induction evs as [|e evs IH]; intros s lines q resp n Hcalm Hc Hp Hr HF Hlen Hn.
  - cbn [app]. rewrite <- (app_nil_r (replicate n Recv)).
    eapply (collect_drain cmd n s lines q [] resp []); try done. by rewrite app_nil_r in Hr.
  - cbn [forallb] in Hcalm. apply andb_true_iff in Hcalm as [He Hcalm]. cbn [app collect].
    assert (Hq : length q + length (responses (e :: evs)) <= chan_cap).
    { rewrite <- length_app, Hr, length_app. cbn. lia. }
    destruct e; try discriminate.
    + destruct (upcoming_reader s (Scan text) evs q Hp ltac:(unfold upcoming; by rewrite Hc)) as (new & Hp' & Hu).
      assert (Hc' : closed (reader s (Scan text)) = false) by (by rewrite reader_keeps_open).
      unfold upcoming in Hu. rewrite Hc, Hc' in Hu.
      eapply IH; try done. by rewrite <- app_assoc, <- Hu.
    + rewrite Hp. destruct q as [|l q]; [by eapply IH|].
      destruct resp as [|l' resp].
      * cbn in Hr. injection Hr as -> Hnil. apply app_eq_nil in Hnil as [-> _]. cbn.
        eexists. by rewrite app_nil_r.
      * cbn in Hr. injection Hr as -> Hr. apply Forall_cons in HF as [Hl HF]. unfold data_line in Hl.
        apply andb_true_iff in Hl as [H1 H2]. destruct (String.eqb l' "OK"); [done|].
        destruct (final_error l'); [done|]. cbn in Hlen, Hn.
        destruct (IH (set_pending s (Some q)) (lines ++ [l']) q resp n Hcalm Hc eq_refl Hr HF
                    ltac:(lia) ltac:(lia)) as [s' Hs']. exists s'. by rewrite <- app_assoc in Hs'.
    + change (reader s PromptTimerC) with (if closed s then s else s). rewrite Hc. by eapply IH.
Qed.

(** ** A scripted modem

    Each write takes the next reaction of the script; an exhausted script
    fails the write. *)
Definition script : Type := list (list event).

#[global] Instance script_modem : Modem script := {
  write m _ _ := match m with
                 | [] => ([], inl (errors_New "input/output error"))
                 | evs :: m => (m, inr evs)
                 end
}.

Section Properties.
Context {M : Type} `{Modem M}.

(** What a successful write and its events make of [Execute]. *)
Lemma Execute_unfold (s : Serializer) (m m' : M) cmd timeout evs :
  closed s = false -> portClosed s = false -> write m (cmd +:+ CRLF) timeout = (m', inr evs) ->
  Execute (s, m) cmd timeout =
    let '(s', r) := collect cmd (set_pending s (Some [])) [] evs in ((s', m'), r).
Proof.
  intros Hc Hp Hw. unfold Execute, port_write. rewrite Hc. cbn [set_pending portClosed]. by rewrite Hp, Hw.
Qed.

Lemma foldl_urc_run s q evs :
  URCCH s = q -> length q <= chan_cap -> closed s = false ->
  urc_run s evs = drop (length (q ++ urcs evs) - chan_cap) (q ++ urcs evs).
Proof. intros <- Hq Hc. unfold urc_run. rewrite Hc. by apply push_urc_all. Qed.

(** C20: a response holds the modem's lines and nothing else.  When [Execute]
    succeeds, and the modem has sent at most 64 lines that are no URCs while the
    command was under way (the channel that carries them holds 64 and drops
    what does not fit), what it returns followed by the terminating "OK" is exactly the
    beginning of the non-URC lines the modem sent since the command was
    written, in order; no URC, "OK" or error line is among them. *)
Theorem Execute_isolates_response (s : Serializer) (m m' : M) (cmd : string) (timeout : Z)
    (evs : list event) (p' : Serializer * M) (out : list string) :
  closed s = false -> portClosed s = false ->
  write m (cmd +:+ CRLF) timeout = (m', inr evs) ->
  length (responses evs) <= chan_cap ->
  Execute (s, m) cmd timeout = (p', (out, None)) ->
  (out ++ ["OK"]) `prefix_of` responses evs /\
  Forall (fun l => isURC l = false /\ l <> "OK" /\ final_error l = false) out.
Proof.
  intros Hc Hp Hw Hlen. rewrite (Execute_unfold _ _ _ _ _ _ Hc Hp Hw).
  destruct (collect _ _ _ _) as [s' r] eqn:HC. intros [= <- ->].
  destruct (collect_prefix cmd evs (set_pending s (Some [])) [] [] _ _ eq_refl
              ltac:(unfold upcoming; cbn [closed set_pending length]; rewrite Hc; lia) HC) as [k Hk]. unfold upcoming in Hk. cbn in Hk. rewrite Hc in Hk.
  split; [exists k; rewrite <- app_assoc; exact Hk|].
  pose proof (collect_data cmd evs _ [] _ _ ltac:(constructor) HC) as HD.
  rewrite Forall_forall in HD |- *. intros l Hl. specialize (HD l Hl). unfold data_line in HD.
  apply andb_true_iff in HD as [H1 H2]. repeat split.
  - assert (Hin : l ∈ responses evs) by (rewrite Hk; apply elem_of_app; by left).
    unfold responses in Hin. apply list_elem_of_filter in Hin as [Hin _]. by destruct (isURC l); [destruct Hin|].
  - intros ->. discriminate.
  - by destruct (final_error l).
Qed.

(** C21: a complete response is returned.  If the modem sends the lines [resp]
    and then "OK", in any interleaving with URCs, blank lines and the waiting
    command, and neither times out nor closes the port, then [Execute] returns
    exactly [resp] (at most 63 lines, the capacity of the channel less one). *)
Theorem Execute_returns_response (s : Serializer) (m m' : M) (cmd : string) (timeout : Z)
    (evs : list event) (resp : list string) (n : nat) :
  closed s = false -> portClosed s = false ->
  write m (cmd +:+ CRLF) timeout = (m', inr (evs ++ replicate n Recv)) ->
  forallb calm evs = true -> responses evs = resp ++ ["OK"] ->
  Forall (fun l => data_line l = true) resp -> length resp < chan_cap -> length resp < n ->
  (Execute (s, m) cmd timeout).2 = (resp, None) /\ (Execute (s, m) cmd timeout).1.2 = m'.
Proof.
  intros Hc Hp Hw Hcalm Hr HF Hlen Hn. rewrite (Execute_unfold _ _ _ _ _ _ Hc Hp Hw).
  destruct (collect_complete cmd evs (set_pending s (Some [])) [] [] resp n) as [s' ->]; done.
Qed.

(** C22: unsolicited lines reach the worker whatever the command in flight
    does.  After [Execute], whether it succeeded, failed or timed out, the URC
    queue holds the last 64 of the earlier ones followed by every URC scanned,
    in order: a response never swallows one, and only the oldest are dropped. *)
Theorem Execute_keeps_URCs (s : Serializer) (m m' : M) (cmd : string) (timeout : Z) (evs : list event) :
  closed s = false -> portClosed s = false -> length (URCCH s) <= chan_cap ->
  write m (cmd +:+ CRLF) timeout = (m', inr evs) ->
  URCCH (Execute (s, m) cmd timeout).1.1 =
    drop (length (URCCH s ++ urcs evs) - chan_cap) (URCCH s ++ urcs evs).
Proof.
  intros Hc Hp Hq Hw. rewrite (Execute_unfold _ _ _ _ _ _ Hc Hp Hw).
  pose proof (collect_urcch cmd evs (set_pending s (Some [])) []) as HU.
  destruct (collect _ _ _ _) as [s' r]. cbn [fst] in *. rewrite HU. by apply foldl_urc_run.
Qed.

(** A port whose serializer was closed never reaches the modem again. *)
Lemma Execute_dead (s : Serializer) (m : M) cmd timeout :
  portClosed s = true -> exists s' e, Execute (s, m) cmd timeout = ((s', m), ([], Some e)) /\ portClosed s' = true.
Proof.
  intros Hp. unfold Execute, port_write. destruct (closed s); [by eauto|]. cbn [set_pending portClosed].
  rewrite Hp. eexists _, _. by split.
Qed.

Lemma ExecuteSend_dead (s : Serializer) (m : M) pdu len timeout :
  portClosed s = true -> exists s' e, ExecuteSend (s, m) pdu len timeout = ((s', m), inl e) /\ portClosed s' = true.
Proof.
  intros Hp. unfold ExecuteSend, port_write. destruct (closed s); [by eauto|]. cbn [set_pending portClosed].
  rewrite Hp. eexists _, _. by split.
Qed.

Lemma reader_portClosed s e : portClosed (reader s e) = portClosed s.
Proof.
  unfold reader. destruct (closed s); [done|]. destruct e; try done. unfold reader_line.
  destruct (String.eqb (TrimRightCR text) EmptyString), (isURC (TrimRightCR text)); try done.
  by destruct (pending s); [case_match|].
Qed.

Lemma finish_portClosed s evs : portClosed (finish s evs) = portClosed s.
Proof.
  unfold finish. change (portClosed s) with (portClosed (set_pending s None)).
  generalize (set_pending s None). clear s. induction evs as [|e evs IH]; intros s; [done|].
  cbn [foldl]. by rewrite IH, reader_portClosed.
Qed.

(** The timeout of a command is also the end of the port. *)
Lemma collect_timeout cmd evs : forall s lines s' out raw,
  collect cmd s lines evs = (s', (out, Some (ATError cmd ErrTimeout raw))) -> portClosed s' = true.
Proof.
  assert (Hne : ErrATError <> ErrTimeout) by discriminate.
  induction evs as [|e evs IH]; intros s lines s' out raw; cbn [collect].
  - intros [= <- _ _]. apply finish_portClosed.
  - destruct e; try (by apply IH).
    + destruct (pending s) as [[|l q]|]; [by apply IH| |by apply IH].
      destruct (String.eqb l "OK"); [by intros [=]|]. destruct (final_error l); [by intros [=]|by apply IH].
    + intros [= <- _ _]. by rewrite finish_portClosed.
    + destruct (closed s); [by intros [=]|by apply IH].
Qed.

(** C39: a modem that stops answering is cut off.  After a command timed out,
    no later command or send reaches the modem: each returns an error and
    leaves the port closed. *)
Theorem timeout_closes_port (p p' : Serializer * M) (cmd : string) (timeout : Z) (out : list string) (raw : string) :
  Execute p cmd timeout = (p', (out, Some (ATError cmd ErrTimeout raw))) ->
  (forall cmd2 t2, exists s' e, Execute p' cmd2 t2 = ((s', p'.2), ([], Some e)) /\ portClosed s' = true) /\
  (forall pdu len t2, exists s' e, ExecuteSend p' pdu len t2 = ((s', p'.2), inl e) /\ portClosed s' = true).
Proof.
  destruct p as [s m], p' as [s' m']. intros HE.
  assert (Hp : portClosed s' = true).
  { unfold Execute in HE. destruct (closed s); [by simplify_eq|].
    destruct (port_write _ _ _ _) as [m1 [e|evs]]; [by simplify_eq|].
    destruct (collect _ _ _ _) as [s1 r] eqn:HC. simplify_eq. by eapply collect_timeout. }
  split; intros; [by apply Execute_dead|by apply ExecuteSend_dead].
Qed.
Lemma reader_pending_cases s e q :
  pending s = Some q ->
  pending (reader s e) = Some q \/ exists l, line_of e = Some l /\ pending (reader s e) = Some (q ++ [l]).
Proof.
  intros Hp. unfold reader. destruct (closed s); [by left|]. destruct e; try (by left).
  cbn [line_of]. unfold reader_line. destruct (String.eqb _ _); [by left|].
  destruct (isURC (TrimRightCR text)); [by left|]. rewrite Hp.
  destruct (_ <? _); [right; eauto|by left].
Qed.

Definition prompts (e : event) : bool :=
  match line_of e with Some l => HasPrefix l ">" | None => false end.

Lemma await_prompt_none evs : forall s q,
  pending s = Some q -> Forall (fun l => HasPrefix l ">" = false) q ->
  existsb prompts evs = false -> (await_prompt s evs).2 <> None.
Proof.
  induction evs as [|e evs IH]; intros s q Hp HF Hev; cbn [await_prompt]; [done|].
  cbn [existsb] in Hev. apply orb_false_iff in Hev as [He Hev].
  assert (Hrd : (await_prompt (reader s e) evs).2 <> None).
  { destruct (reader_pending_cases s e q Hp) as [Hp'|(l & Hl & Hp')]; (eapply IH; [exact Hp'| |exact Hev]); [done|].
    apply Forall_app. split; [done|]. unfold prompts in He. rewrite Hl in He. by repeat constructor. }
  destruct e; try exact Hrd; [|done|destruct (closed s); [done|by eapply IH]].
  rewrite Hp. destruct q as [|l q]; [by eapply IH|]. apply Forall_cons in HF as [Hl HF]. rewrite Hl.
  destruct (_ || _); [done|]. by eapply (IH (set_pending s (Some q))).
Qed.

(** The two phases of a send.  The PDU is written only after the modem has
    sent a prompt: if no line starting with ">" follows [AT+CMGS], the call
    fails and the modem has received nothing but the command. *)
Theorem send_needs_prompt (s : Serializer) (m m1 : M) (pdu : string) (len timeout : Z) (evs : list event) :
  closed s = false -> portClosed s = false ->
  write m ("AT+CMGS=" +:+ itoa len +:+ CRLF) timeout = (m1, inr evs) ->
  existsb prompts evs = false ->
  exists s' e, ExecuteSend (s, m) pdu len timeout = ((s', m1), inl e).
Proof.
  intros Hc Hp Hw Hev. unfold ExecuteSend, port_write. rewrite Hc. cbn [set_pending portClosed].
  rewrite Hp, Hw.
  pose proof (await_prompt_none evs (set_pending s (Some [])) [] eq_refl ltac:(constructor) Hev) as HN.
  destruct (await_prompt _ _) as [[s' evs'] [e|]]; [|done].
  by eexists _, _.
Qed.
End Properties.

(** ** Parsed lines *)

(** Signal quality.  Every RSSI [ParseCSQ] returns is an odd number between
    -113 and -51 dBm, and a well-formed line with a CSQ value of 0 to 31 gives
    -113 + 2*CSQ, 99 the minimum. *)
Theorem ParseCSQ_range :
  (forall line rssi, ParseCSQ line = inr rssi -> (-113 <= rssi <= -51)%Z /\ Z.odd rssi = true) /\
  (forall csq, (0 <= csq <= 31)%Z -> ParseCSQ ("+CSQ: " +:+ itoa csq +:+ ",99") = inr (-113 + 2 * csq)%Z) /\
  ParseCSQ "+CSQ: 99,99" = inr (-113)%Z.
Proof.
  split; [|split; [|done]].
  - intros line rssi. unfold ParseCSQ. destruct (negb _); [discriminate|].
    destruct (scan_d _) as [[csq [|c rest]]|]; try discriminate.
    destruct (decide (c = 44%Z)) as [->|Hc]; [|by repeat case_match; simplify_eq].
    destruct (scan_d rest) as [[ber r]|]; [|discriminate].
    destruct (_ || _) eqn:Hr; [discriminate|]. destruct (Z.eqb_spec csq 99) as [->|H99].
    + intros ?%(inj inr). subst. done.
    + intros ?%(inj inr). subst. apply orb_false_iff in Hr as [H1 H2].
      split; [lia|]. rewrite Z.mul_comm. by rewrite Z.odd_add_mul_2.
  - intros csq Hcsq.
    assert (HA : Forall (fun n => ParseCSQ ("+CSQ: " +:+ itoa (Z.of_nat n) +:+ ",99") = inr (-113 + 2 * Z.of_nat n)%Z)
                   (seq 0 32)) by (repeat (constructor; [by vm_compute|]); constructor).
    rewrite Forall_forall in HA. specialize (HA (Z.to_nat csq)). rewrite Z2Nat.id in HA by lia.
    apply HA. apply elem_of_seq. lia.
Qed.

Definition cmti (i : Z) : string :=
  "+CMTI: " +:+ String quote_char ("SM" +:+ String quote_char ("," +:+ itoa i)).

Lemma cmti_table : forallb (fun n =>
  match ParseCMTI (cmti (Z.of_nat n)) with inr i => (i =? Z.of_nat n)%Z | inl _ => false end) (seq 0 1000) = true.
Proof. vm_compute. reflexivity. Qed.

(** SMS indices.  An index taken from a +CMTI notification is a storage
    index in [0,999], and for every such index the notification the modem
    sends is parsed back to it. *)
Theorem ParseCMTI_index :
  (forall urc i, ParseCMTI urc = inr i -> (0 <= i <= 999)%Z) /\
  (forall i, (0 <= i <= 999)%Z -> ParseCMTI (cmti i) = inr i).
Proof.
  split.
  - intros urc i. unfold ParseCMTI. destruct (Split comma urc) as [|a [|b l]]; try discriminate.
    destruct (scan_d _) as [[idx r]|]; [|discriminate]. destruct (_ || _) eqn:Hr; [discriminate|].
    intros ?%(inj inr). lia.
  - intros i Hi. pose proof cmti_table as HT. rewrite forallb_forall in HT.
    specialize (HT (Z.to_nat i)). rewrite Z2Nat.id in HT by lia.
    specialize (HT ltac:(apply in_seq; lia)). destruct (ParseCMTI (cmti i)) as [|j]; [discriminate|].
    f_equal. lia.
Qed.

(** ** Witnesses *)

Definition demo_reply : list event :=
  [Scan ("+CSQ: 18,99" +:+ String (ascii_of_byte 13) EmptyString); Scan (cmti 7); Recv; Scan "OK"].

Definition demo_port : Serializer * script := (NewSerializer, [demo_reply ++ replicate 3 Recv; []]).

Lemma Execute_isolates_response_witness :
  (["+CSQ: 18,99"] ++ ["OK"]) `prefix_of` responses (demo_reply ++ replicate 3 Recv) /\
  Forall (fun l => isURC l = false /\ l <> "OK" /\ final_error l = false) ["+CSQ: 18,99"].
Proof.
  apply (Execute_isolates_response NewSerializer demo_port.2 [[]] "AT+CSQ" TimeoutStd
           (demo_reply ++ replicate 3 Recv) (Execute demo_port "AT+CSQ" TimeoutStd).1);
    first [by vm_compute | by_eval].
Defined.

Lemma Execute_returns_response_witness :
  (Execute demo_port "AT+CSQ" TimeoutStd).2 = (["+CSQ: 18,99"], None) /\
  (Execute demo_port "AT+CSQ" TimeoutStd).1.2 = [[]].
Proof.
  apply (Execute_returns_response NewSerializer demo_port.2 [[]] "AT+CSQ" TimeoutStd demo_reply ["+CSQ: 18,99"] 3);
    first [by vm_compute | by_eval].
Defined.

Lemma Execute_keeps_URCs_witness :
  URCCH (Execute demo_port "AT+CSQ" TimeoutStd).1.1 = [cmti 7].
Proof.
  rewrite (Execute_keeps_URCs NewSerializer demo_port.2 [[]] "AT+CSQ" TimeoutStd (demo_reply ++ replicate 3 Recv));
    first [by vm_compute | by_eval].
Defined.

Lemma timeout_closes_port_witness :
  (exists s' e, Execute (Execute (NewSerializer, [[TimerC]; []]) "AT" TimeoutPing).1 "AT+CREG?" TimeoutStd =
     ((s', [[]]), ([], Some e)) /\ portClosed s' = true) /\
  (exists s' e, ExecuteSend (Execute (NewSerializer, [[TimerC]; []]) "AT" TimeoutPing).1 "00" 1 TimeoutSend =
     ((s', [[]]), inl e) /\ portClosed s' = true).
Proof.
  split.
  - exact (proj1 (timeout_closes_port (NewSerializer, [[TimerC]; []])
      (Execute (NewSerializer, [[TimerC]; []]) "AT" TimeoutPing).1 "AT" TimeoutPing [] EmptyString eq_refl) _ _).
  - exact (proj2 (timeout_closes_port (NewSerializer, [[TimerC]; []])
      (Execute (NewSerializer, [[TimerC]; []]) "AT" TimeoutPing).1 "AT" TimeoutPing [] EmptyString eq_refl) _ _ _).
Defined.

Lemma send_needs_prompt_witness :
  exists s' e, ExecuteSend (NewSerializer, [[Scan "+CMS ERROR: 500"; Recv; PromptTimerC]; []]) "00" 1 TimeoutSend =
    ((s', [[]]), inl e).
Proof.
  apply (send_needs_prompt NewSerializer _ [[]] "00" 1 TimeoutSend [Scan "+CMS ERROR: 500"; Recv; PromptTimerC]);
    by vm_compute.
Defined.

(** A "+CMS ERROR" in answer to [AT+CMGS] is not recognised before the prompt:
    the call waits for the prompt timer and then closes the port. *)
Lemma cms_error_before_prompt_closes_port :
  let p := ExecuteSend (NewSerializer, [[Scan "+CMS ERROR: 500"; Recv; PromptTimerC]]) "00" 1 TimeoutSend in
  p.2 = inl ErrSendPrompt /\ portClosed p.1.1 = true.
Proof. by vm_compute. Qed.
