(* ===== verification/Protocol.v ===== *)
(** * The tunnel protocol (internal/tunnel/protocol.go)

    Messages, their codes, and the decoding of inbound JSON.  JSON documents
    are syntax trees: the lexical level of [encoding/json] is not modelled,
    its decoding rules for structs are (case-insensitive keys, the last
    duplicate wins, [null] leaves a field alone, a type mismatch is an error). *)

From S2P Require Import Prelude GoString.

Definition ProtocolVersion : Z := 2.

Definition TypeHello := "HELLO".
Definition TypeTask := "TASK".
Definition TypeSMSReceived := "SMS_RECEIVED".
Definition TypeSMSDeliveredAck := "SMS_DELIVERED_ACK".
Definition TypeTaskAck := "TASK_ACK".
Definition TypeModemAlert := "MODEM_ALERT".
Definition TypeHeartbeat := "HEARTBEAT".

Definition ActionSendSMS := "SEND_SMS".
Definition ActionRebootModem := "REBOOT_MODEM".
Definition ActionCheckSignal := "CHECK_SIGNAL".
Definition ActionDeleteAllSMS := "DELETE_ALL_SMS".

Definition AlertSIMBanned := "SIM_BANNED".
Definition AlertSIMFull := "SIM_FULL".
Definition AlertModemHang := "MODEM_HANG".

Definition StatusSuccess := "SUCCESS".
Definition StatusFailed := "FAILED".

Definition ErrCodeModemNotFound := "MODEM_NOT_FOUND".
Definition ErrCodeModemBusy := "MODEM_BUSY".
Definition ErrCodeModemUnresponsive := "MODEM_UNRESPONSIVE".
Definition ErrCodeSendFailed := "SEND_FAILED".
Definition ErrCodeRateLimited := "RATE_LIMITED".
Definition ErrCodeInvalidPayload := "INVALID_PAYLOAD".
Definition ErrCodeUnsupportedAction := "UNSUPPORTED_ACTION".

(** [RegStatusString]. *)
Definition RegStatusString (stat : Z) : string :=
  match stat with
  | 0%Z => "NOT_REGISTERED"
  | 1%Z => "REGISTERED_HOME"
  | 2%Z => "SEARCHING"
  | 3%Z => "REGISTRATION_DENIED"
  | 5%Z => "REGISTERED_ROAMING"
  | _ => "UNKNOWN"
  end.

(** ** JSON *)

(** A number keeps its literal text. *)
Inductive json :=
| JNull
| JBool (b : bool)
| JNum (lit : string)
| JStr (s : string)
| JArr (l : list json)
| JObj (fields : list (string * json)).

(** Key folding: ASCII case, and the two runes beyond ASCII that fold to ASCII
    letters (U+017F long s, U+212A Kelvin sign). *)
Definition fold_rune (r : Z) : Z :=
  if (r =? 383)%Z then 115%Z else if (r =? 8490)%Z then 107%Z else lower_byte r.

Definition key_matches (name key : string) : bool :=
  bool_decide (map fold_rune (runes_of key) = map fold_rune (runes_of name)).

(** The values stored in a field, in document order. *)
Definition stores (fields : list (string * json)) (name : string) : list json :=
  (filter (fun kv => key_matches name kv.1) fields).*2.

Definition json_type_error : go_error := errors_New "json: cannot unmarshal".

(** Storing values into a field of Go type [A] that starts at its zero value. *)
Definition field_of {A} (dec : json -> option A) (zero : A) (fields : list (string * json)) (name : string) : res A :=
  foldl (fun acc v =>
    match acc, v with
    | inl e, _ => inl e
    | inr cur, JNull => inr cur
    | inr _, v => match dec v with Some a => inr a | None => inl json_type_error end
    end) (inr zero) (stores fields name).

Definition dec_string (v : json) : option string := match v with JStr s => Some s | _ => None end.
Definition dec_bool (v : json) : option bool := match v with JBool b => Some b | _ => None end.
Definition dec_int64 (v : json) : option Z := match v with JNum lit => Atoi lit | _ => None end.

Definition get_string := field_of dec_string "".
Definition get_bool := field_of dec_bool false.
Definition get_int64 := field_of dec_int64 0%Z.

(** A [json.RawMessage] keeps the last value, [null] included. *)
Definition get_raw (fields : list (string * json)) (name : string) : option json := last (stores fields name).

(** The fields of the document a struct is decoded from; [null] decodes as an
    empty object, and [None] is an empty input. *)
Definition object_fields (doc : option json) : res (list (string * json)) :=
  match doc with
  | Some (JObj fields) => inr fields
  | Some JNull => inr []
  | Some _ => inl json_type_error
  | None => inl (errors_New "unexpected end of JSON input")
  end.

(** ** Inbound messages *)

Record Envelope := { Type_ : string; MessageID : string; TS : Z }.

Record Task := { Task_Envelope : Envelope; Action : string; Payload : option json }.

Record SMSDeliveredAck := { Ack_Envelope : Envelope; Ack_BufferID : Z }.

Record SendSMSPayload := { Send_ICCID : string; Send_To : string; Send_Body : string; Send_Encoding : string }.
Record RebootModemPayload := { Reboot_ICCID : string; Reboot_Hard : bool }.
Record ICCIDPayload := { Payload_ICCID : string }.

Notation "'let?' x ':=' e 'in' k" := (match e with inl err => inl err | inr x => k end)
  (at level 10, x name, e at level 100, k at level 200).

Definition envelope_of (fields : list (string * json)) : res Envelope :=
  let? ty := get_string fields "type" in
  let? mid := get_string fields "message_id" in
  let? ts := get_int64 fields "ts" in
  inr {| Type_ := ty; MessageID := mid; TS := ts |}.

Definition Unmarshal_Envelope (doc : option json) : res Envelope :=
  let? fields := object_fields doc in envelope_of fields.

Definition Unmarshal_Task (doc : option json) : res Task :=
  let? fields := object_fields doc in
  let? env := envelope_of fields in
  let? action := get_string fields "action" in
  inr {| Task_Envelope := env; Action := action; Payload := get_raw fields "payload" |}.

Definition Unmarshal_SMSDeliveredAck (doc : option json) : res SMSDeliveredAck :=
  let? fields := object_fields doc in
  let? env := envelope_of fields in
  let? bid := get_int64 fields "buffer_id" in
  inr {| Ack_Envelope := env; Ack_BufferID := bid |}.

Definition Unmarshal_SendSMSPayload (doc : option json) : res SendSMSPayload :=
  let? fields := object_fields doc in
  let? iccid := get_string fields "iccid" in
  let? to := get_string fields "to" in
  let? body := get_string fields "body" in
  let? enc := get_string fields "encoding" in
  inr {| Send_ICCID := iccid; Send_To := to; Send_Body := body; Send_Encoding := enc |}.

Definition Unmarshal_RebootModemPayload (doc : option json) : res RebootModemPayload :=
  let? fields := object_fields doc in
  let? iccid := get_string fields "iccid" in
  let? hard := get_bool fields "hard" in
  inr {| Reboot_ICCID := iccid; Reboot_Hard := hard |}.

(** [CheckSignalPayload] and [DeleteAllSMSPayload]. *)
Definition Unmarshal_ICCIDPayload (doc : option json) : res ICCIDPayload :=
  let? fields := object_fields doc in
  let? iccid := get_string fields "iccid" in
  inr {| Payload_ICCID := iccid |}.

(** ** Outbound events *)

(** The text of an error is kept as the error it prints. *)
Record TaskError := { Code : string; Message : go_error }.

Record TaskAckEvent := {
  TaskAck_Envelope : Envelope; Ack_Status : string; Result : option json; Error : option TaskError }.

Record ModemAlertEvent := {
  Alert_Envelope : Envelope; Alert_ICCID : string; AlertCode : string; Detail : go_error }.

Record SMSReceivedEvent := {
  SMS_Envelope : Envelope; SMS_GatewayID : string; SMS_ICCID : string; SMS_Sender : string;
  SMS_Body : string; SMS_ReceivedAt : Z; SMS_SMSC : string; SMS_PDUHash : string; SMS_BufferID : Z }.

Record ModemStatus := {
  MS_ICCID : string; MS_Port : string; MS_State : string; MS_IMSI : string; MS_Operator : string;
  MS_SignalRSSI : Z; MS_RegStatus : string; MS_Sent1H : Z; MS_Recv1H : Z }.

Record HelloEvent := {
  Hello_Envelope : Envelope; Hello_GatewayID : string; Hello_ProtocolVersion : Z;
  Hello_AgentVersion : string; Hello_Modems : list ModemStatus }.

Record HeartbeatEvent := {
  HB_Envelope : Envelope; HB_GatewayID : string; HB_UptimeS : Z; HB_PendingMsgs : Z;
  HB_Modems : list ModemStatus }.

(** What [Push] and [writeJSON] are given. *)
Inductive outbound :=
| OutTaskAck (e : TaskAckEvent)
| OutModemAlert (e : ModemAlertEvent)
| OutSMSReceived (e : SMSReceivedEvent)
| OutHello (e : HelloEvent)
| OutHeartbeat (e : HeartbeatEvent).

(** [NewEnvelopeFrom], and [NewEnvelope] with the UUID it draws. *)
Definition NewEnvelopeFrom (msgType originalID : string) (now : Z) : Envelope :=
  {| Type_ := msgType; MessageID := originalID; TS := now |}.
Definition NewEnvelope (msgType uuid : string) (now : Z) : Envelope :=
  {| Type_ := msgType; MessageID := uuid; TS := now |}.

(** [json.Marshal] of [SendSMSResult] and [CheckSignalResult]. *)
Definition SendSMSResult (parts signalCSQ : Z) (regStatus : string) : json :=
  JObj [("parts", JNum (itoa parts)); ("signal_csq", JNum (itoa signalCSQ)); ("reg_status", JStr regStatus)].
Definition CheckSignalResult (rssi : Z) (regStatus : string) : json :=
  JObj [("rssi", JNum (itoa rssi)); ("reg_status", JStr regStatus)].
