(* ===== verification/Registry.v ===== *)
(** * Workers, their registry, and the task router
    (internal/modem/worker.go: the types; internal/modem/registry.go;
    internal/router/router.go)

    Workers are shared objects: a store maps addresses to workers and the
    registry maps ICCIDs to addresses.  The router finds the worker a task
    names and puts the task on its channel. *)

From S2P Require Import Prelude GoString Protocol RateLimit.

(** ** Worker state *)

Inductive State :=
| StateInitializing
| StateActive
| StateExecuting
| StateRecovering
| StateResetting
| StateBanned
| StateFailed.

#[global] Instance State_eq_dec : EqDecision State.
Proof. solve_decision. Defined.

Definition State_String (s : State) : string :=
  match s with
  | StateInitializing => "INITIALIZING"
  | StateActive => "ACTIVE"
  | StateExecuting => "EXECUTING"
  | StateRecovering => "RECOVERING"
  | StateResetting => "RESETTING"
  | StateBanned => "BANNED"
  | StateFailed => "FAILED"
  end.

(** [InboundTask]: the router's callbacks push the event they are given;
    [AckFn] records whether the acknowledgement callback is set. *)
Record InboundTask := { IT_Task : Task; AckFn : bool }.

(** The constructor parameters that handlers read, durations in nanoseconds;
    the baud rate and the keep-alive interval only configure the port and a
    ticker. *)
Record WorkerConfig := {
  Port : string;
  GatewayID : string;
  ExpectedICCID : string;
  RateConfig : RateLimitConfig;
  SIMCapacityWarnPct : Z;
  SIMCapacityPurgePct : Z;
  InboundQueueSize : Z;
  StallDuration : Z;
  SignalPollInterval : Z;
  PortOpenRetries : Z }.

(** A worker: its settings and the fields it updates. *)
Record Worker := mkWorker {
  cfg : WorkerConfig;
  iccid : string;
  imsi : string;
  operator : string;
  state : State;
  signalRSSI : Z;
  regStat : Z;
  sent1H : Z;
  recv1H : Z;
  lastLoopNs : Z;
  lastActivityNs : Z;
  inboundCh : list InboundTask;
  resetCh : bool }.

Definition set_iccid (r : Worker) (v : string) : Worker :=
  mkWorker (cfg r) v (imsi r) (operator r) (state r) (signalRSSI r) (regStat r) (sent1H r) (recv1H r)
    (lastLoopNs r) (lastActivityNs r) (inboundCh r) (resetCh r).
Definition set_imsi (r : Worker) (v : string) : Worker :=
  mkWorker (cfg r) (iccid r) v (operator r) (state r) (signalRSSI r) (regStat r) (sent1H r) (recv1H r)
    (lastLoopNs r) (lastActivityNs r) (inboundCh r) (resetCh r).
Definition set_operator (r : Worker) (v : string) : Worker :=
  mkWorker (cfg r) (iccid r) (imsi r) v (state r) (signalRSSI r) (regStat r) (sent1H r) (recv1H r)
    (lastLoopNs r) (lastActivityNs r) (inboundCh r) (resetCh r).
Definition set_state (r : Worker) (v : State) : Worker :=
  mkWorker (cfg r) (iccid r) (imsi r) (operator r) v (signalRSSI r) (regStat r) (sent1H r) (recv1H r)
    (lastLoopNs r) (lastActivityNs r) (inboundCh r) (resetCh r).
Definition set_signalRSSI (r : Worker) (v : Z) : Worker :=
  mkWorker (cfg r) (iccid r) (imsi r) (operator r) (state r) v (regStat r) (sent1H r) (recv1H r)
    (lastLoopNs r) (lastActivityNs r) (inboundCh r) (resetCh r).
Definition set_regStat (r : Worker) (v : Z) : Worker :=
  mkWorker (cfg r) (iccid r) (imsi r) (operator r) (state r) (signalRSSI r) v (sent1H r) (recv1H r)
    (lastLoopNs r) (lastActivityNs r) (inboundCh r) (resetCh r).
Definition set_sent1H (r : Worker) (v : Z) : Worker :=
  mkWorker (cfg r) (iccid r) (imsi r) (operator r) (state r) (signalRSSI r) (regStat r) v (recv1H r)
    (lastLoopNs r) (lastActivityNs r) (inboundCh r) (resetCh r).
Definition set_recv1H (r : Worker) (v : Z) : Worker :=
  mkWorker (cfg r) (iccid r) (imsi r) (operator r) (state r) (signalRSSI r) (regStat r) (sent1H r) v
    (lastLoopNs r) (lastActivityNs r) (inboundCh r) (resetCh r).
Definition set_lastLoopNs (r : Worker) (v : Z) : Worker :=
  mkWorker (cfg r) (iccid r) (imsi r) (operator r) (state r) (signalRSSI r) (regStat r) (sent1H r)
    (recv1H r) v (lastActivityNs r) (inboundCh r) (resetCh r).
Definition set_lastActivityNs (r : Worker) (v : Z) : Worker :=
  mkWorker (cfg r) (iccid r) (imsi r) (operator r) (state r) (signalRSSI r) (regStat r) (sent1H r) (recv1H r)
    (lastLoopNs r) v (inboundCh r) (resetCh r).
Definition set_inboundCh (r : Worker) (v : list InboundTask) : Worker :=
  mkWorker (cfg r) (iccid r) (imsi r) (operator r) (state r) (signalRSSI r) (regStat r) (sent1H r) (recv1H r)
    (lastLoopNs r) (lastActivityNs r) v (resetCh r).
Definition set_resetCh (r : Worker) (v : bool) : Worker :=
  mkWorker (cfg r) (iccid r) (imsi r) (operator r) (state r) (signalRSSI r) (regStat r) (sent1H r) (recv1H r)
    (lastLoopNs r) (lastActivityNs r) (inboundCh r) v.

Definition second : Z := 1000000000.

(** [NewWorker]: non-positive settings take their defaults. *)
Definition or_default (v d : Z) : Z := if (v <=? 0)%Z then d else v.

Definition NewWorker (c : WorkerConfig) : Worker :=
  mkWorker
    {| Port := Port c; GatewayID := GatewayID c; ExpectedICCID := ExpectedICCID c;
       RateConfig := RateConfig c; SIMCapacityWarnPct := SIMCapacityWarnPct c;
       SIMCapacityPurgePct := SIMCapacityPurgePct c;
       InboundQueueSize := or_default (InboundQueueSize c) 64;
       StallDuration := or_default (StallDuration c) (5 * minute);
       SignalPollInterval := or_default (SignalPollInterval c) (30 * second);
       PortOpenRetries := or_default (PortOpenRetries c) 3 |}
    "" "" "" StateInitializing 0 0 0 0 0 0 [] false.

Definition QueueLen (x : Worker) : Z := Z.of_nat (length (inboundCh x)).

(** [Status]. *)
Record WorkerStatus := {
  WS_ICCID : string; WS_Port : string; WS_State : string; WS_IMSI : string; WS_Operator : string;
  WS_SignalRSSI : Z; WS_RegStatus : string; WS_Sent1H : Z; WS_Recv1H : Z; WS_LastActivity : Z }.

Definition Status (x : Worker) : WorkerStatus :=
  {| WS_ICCID := iccid x; WS_Port := Port (cfg x); WS_State := State_String (state x);
     WS_IMSI := imsi x; WS_Operator := operator x; WS_SignalRSSI := signalRSSI x;
     WS_RegStatus := RegStatusString (regStat x); WS_Sent1H := sent1H x; WS_Recv1H := recv1H x;
     WS_LastActivity := Z.quot (lastActivityNs x) 1000000 |}.

(** [RequestReset]: the channel holds one request. *)
Definition RequestReset (x : Worker) : Worker := set_resetCh x true.

(** Sending on [inboundCh], which blocks ([None]) at its capacity. *)
Definition send_task (x : Worker) (it : InboundTask) : option Worker :=
  if (QueueLen x <? InboundQueueSize (cfg x))%Z then Some (set_inboundCh x (inboundCh x ++ [it])) else None.

(** ** Registry *)

Definition ErrModemNotFoundMsg : string := "modem not found: ICCID not in registry".
Definition ErrModemNotFound : go_error := errors_New ErrModemNotFoundMsg.
Definition ErrModemBusyMsg : string := "modem busy: task queue full".
Definition ErrModemBusy : go_error := errors_New ErrModemBusyMsg.

Record Registry := { workers : gmap string nat; heap : gmap nat Worker }.

Definition NewRegistry : Registry := {| workers := ∅; heap := ∅ |}.

Definition Register (r : Registry) (ic : string) (addr : nat) : Registry :=
  {| workers := <[ic := addr]> (workers r); heap := heap r |}.

Definition Deregister (r : Registry) (ic : string) : Registry :=
  {| workers := delete ic (workers r); heap := heap r |}.

(** [Lookup], and [Get], which drops the flag. *)
Definition Lookup (r : Registry) (ic : string) : option Worker :=
  addr ← workers r !! ic; heap r !! addr.

(** The send of [(r *Registry) Dispatch] on the worker at [addr]: the [select]
    outside the lock. *)
Definition Registry_send (r : Registry) (addr : nat) (it : InboundTask) : Registry * option go_error :=
  match x ← heap r !! addr; send_task x it with
  | Some x => ({| workers := workers r; heap := <[addr := x]> (heap r) |}, None)
  | None => (r, Some ErrModemBusy)
  end.

(** [(r *Registry) Dispatch]: the lookup under the read lock, then the send.
    Between the two the registry may change: [Concurrent] takes them apart. *)
Definition Registry_Dispatch (r : Registry) (ic : string) (it : InboundTask) : Registry * option go_error :=
  match workers r !! ic with
  | None => (r, Some ErrModemNotFound)
  | Some addr => Registry_send r addr it
  end.

(** The registered workers, by ICCID. *)
Definition registered (r : Registry) : gmap string Worker := omap (fun addr => heap r !! addr) (workers r).

Definition TotalQueueDepth (r : Registry) : Z :=
  map_fold (fun _ x total => (total + QueueLen x)%Z) 0%Z (registered r).

Definition Snapshot (r : Registry) : gmap string WorkerStatus := Status <$> registered r.

Definition is_active_state (s : State) : bool :=
  match s with StateActive | StateExecuting => true | _ => false end.
Definition is_banned_state (s : State) : bool := match s with StateBanned => true | _ => false end.

(** [PoolCounts]: total, active, banned. *)
Definition PoolCounts (r : Registry) : Z * Z * Z :=
  map_fold (fun _ x '(total, active, banned) =>
    (total, if is_active_state (state x) then (active + 1)%Z else active,
     if is_banned_state (state x) then (banned + 1)%Z else banned))
    (Z.of_nat (size (registered r)), 0%Z, 0%Z) (registered r).

(** ** Router *)

Definition iccid_required : go_error := errors_New "payload.iccid is required".

Definition nonempty_iccid (ic : string) : res string :=
  if String.eqb ic "" then inl iccid_required else inr ic.

(** [extractICCID]. *)
Definition extractICCID (task : Task) : res string :=
  if String.eqb (Action task) ActionSendSMS then
    match Unmarshal_SendSMSPayload (Payload task) with
    | inl e => inl (Wrapf "parse SEND_SMS payload: %w" [] e)
    | inr p => nonempty_iccid (Send_ICCID p)
    end
  else if String.eqb (Action task) ActionRebootModem then
    match Unmarshal_RebootModemPayload (Payload task) with
    | inl e => inl (Wrapf "parse REBOOT_MODEM payload: %w" [] e)
    | inr p => nonempty_iccid (Reboot_ICCID p)
    end
  else if String.eqb (Action task) ActionCheckSignal then
    match Unmarshal_ICCIDPayload (Payload task) with
    | inl e => inl (Wrapf "parse CHECK_SIGNAL payload: %w" [] e)
    | inr p => nonempty_iccid (Payload_ICCID p)
    end
  else if String.eqb (Action task) ActionDeleteAllSMS then
    match Unmarshal_ICCIDPayload (Payload task) with
    | inl e => inl (Wrapf "parse DELETE_ALL_SMS payload: %w" [] e)
    | inr p => nonempty_iccid (Payload_ICCID p)
    end
  else inl (Errorf "unsupported action: %q" [Action task]).

(** The router's task, with its acknowledgement function. *)
Definition queued_task (task : Task) : InboundTask := {| IT_Task := task; AckFn := true |}.

(** What the router makes of the registry's error. *)
Definition route_error (e : go_error) : go_error :=
  if errors_Is e ErrModemNotFoundMsg then Wrapf "%s: %w" [ErrCodeModemNotFound] e
  else if errors_Is e ErrModemBusyMsg then Wrapf "%s: %w" [ErrCodeModemBusy] e
  else e.

(** [(r *Router) Dispatch]; the new registry and the error, if any. *)
Definition Dispatch (r : Registry) (task : Task) : Registry * option go_error :=
  match extractICCID task with
  | inl e => (r, Some (WrapV ErrModemNotFound e))
  | inr ic =>
    let '(r, err) := Registry_Dispatch r ic (queued_task task) in
    (r, route_error <$> err)
  end.

(** ** Invariant and lemmas *)

(** Registered addresses are allocated, and no queue exceeds its channel. *)
Record registry_wf (r : Registry) : Prop := {
  wf_alloc : forall ic addr, workers r !! ic = Some addr -> is_Some (heap r !! addr);
  wf_queues : map_Forall (fun _ x => (QueueLen x <= InboundQueueSize (cfg x))%Z) (heap r) }.

Lemma NewRegistry_wf : registry_wf NewRegistry.
Proof.
  split; [|apply map_Forall_empty]. intros ic addr Hw.
  change (workers NewRegistry) with (∅ : gmap string nat) in Hw. by rewrite lookup_empty in Hw.
Defined.

Lemma send_task_Some x it x' :
  send_task x it = Some x' ->
  (QueueLen x < InboundQueueSize (cfg x))%Z /\ x' = set_inboundCh x (inboundCh x ++ [it]).
Proof. unfold send_task. destruct (Z.ltb_spec (QueueLen x) (InboundQueueSize (cfg x))); intros; by simplify_eq. Qed.

Lemma send_task_None x it : send_task x it = None -> (InboundQueueSize (cfg x) <= QueueLen x)%Z.
Proof. unfold send_task. by destruct (Z.ltb_spec (QueueLen x) (InboundQueueSize (cfg x))). Qed.

Lemma QueueLen_append x it : QueueLen (set_inboundCh x (inboundCh x ++ [it])) = (QueueLen x + 1)%Z.
Proof. unfold QueueLen. cbn. rewrite length_app. cbn. lia. Qed.

Lemma Registry_send_wf r addr it : registry_wf r -> registry_wf (Registry_send r addr it).1.
Proof.
  intros [Ha Hq]. unfold Registry_send. destruct (heap r !! addr) as [x|] eqn:Hx; [|by split].
  cbn [mbind option_bind]. destruct (send_task x it) as [x'|] eqn:Hs; [|by split]. apply send_task_Some in Hs as [Hlt ->].
  split; cbn [fst workers heap].
  - intros ic' addr' Hw. destruct (decide (addr = addr')) as [->|Hne].
    + rewrite lookup_insert_eq. eauto.
    + rewrite lookup_insert_ne by done. eauto.
  - apply map_Forall_insert_2; [|done]. rewrite QueueLen_append. cbn [set_inboundCh cfg]. lia.
Qed.

Lemma Registry_Dispatch_wf r ic it : registry_wf r -> registry_wf (Registry_Dispatch r ic it).1.
Proof. intros Hr. unfold Registry_Dispatch. destruct (workers r !! ic); [by apply Registry_send_wf|done]. Qed.

(** The outcomes of [Dispatch]. *)
Lemma Dispatch_cases (r : Registry) (task : Task) :
  registry_wf r ->
  let '(r', err) := Dispatch r task in
  registry_wf r' /\
  match err with
  | None => exists ic addr x,
      extractICCID task = inr ic /\ workers r !! ic = Some addr /\ heap r !! addr = Some x /\
      (QueueLen x < InboundQueueSize (cfg x))%Z /\
      r' = {| workers := workers r;
              heap := <[addr := set_inboundCh x (inboundCh x ++ [queued_task task])]> (heap r) |}
  | Some e => r' = r /\
      ((errors_Is e ErrModemNotFoundMsg = true /\
        forall ic, extractICCID task = inr ic -> workers r !! ic = None) \/
       (errors_Is e ErrModemBusyMsg = true /\
        exists ic x, extractICCID task = inr ic /\ Lookup r ic = Some x /\
                     QueueLen x = InboundQueueSize (cfg x)))
  end.
Proof.
  intros Hwf. pose proof (Registry_Dispatch_wf r) as HD.
  unfold Dispatch. destruct (extractICCID task) as [e|ic] eqn:Hic.
  { split; [done|]. split; [done|]. left. split; [done|]. by intros. }
  specialize (HD ic (queued_task task) Hwf). unfold Registry_Dispatch, Registry_send in *.
  destruct (workers r !! ic) as [addr|] eqn:Hw.
  2:{ split; [done|]. split; [done|]. left. split; [done|]. intros ic' [= <-]. done. }
  destruct (wf_alloc _ Hwf _ _ Hw) as [x Hx]. rewrite Hx in *. cbn [mbind option_bind] in *.
  destruct (send_task x _) as [x'|] eqn:Hs.
  - apply send_task_Some in Hs as [Hlt ->]. split; [done|]. by exists ic, addr, x.
  - split; [done|]. split; [done|]. right. split; [done|]. exists ic, x. split; [done|].
    unfold Lookup. rewrite Hw. split; [done|].
    apply send_task_None in Hs. pose proof (wf_queues _ Hwf _ _ Hx) as Hq. cbn in Hq. lia.
Qed.

(** Routing.  The router accepts a task exactly when its payload names the
    ICCID of a registered worker whose queue has room; the task is then the
    last of that worker's queue and nothing else changes.  Otherwise nothing
    changes at all and the error is "modem not found" (also for a malformed
    payload or an unknown action) or, for a full queue, "modem busy". *)
Theorem Dispatch_routes (r : Registry) (task : Task) :
  registry_wf r ->
  let '(r', err) := Dispatch r task in
  registry_wf r' /\
  match err with
  | None => exists ic addr x,
      extractICCID task = inr ic /\ workers r !! ic = Some addr /\ heap r !! addr = Some x /\
      (QueueLen x < InboundQueueSize (cfg x))%Z /\
      r' = {| workers := workers r;
              heap := <[addr := set_inboundCh x (inboundCh x ++ [queued_task task])]> (heap r) |}
  | Some e => r' = r /\
      ((errors_Is e ErrModemNotFoundMsg = true /\
        forall ic, extractICCID task = inr ic -> workers r !! ic = None) \/
       (errors_Is e ErrModemBusyMsg = true /\
        exists ic x, extractICCID task = inr ic /\ Lookup r ic = Some x /\
                     QueueLen x = InboundQueueSize (cfg x)))
  end.
Proof. exact (Dispatch_cases r task). Qed.

(** The pool metrics count every registered worker once: active and banned
    workers are disjoint subsets of the total. *)
Theorem PoolCounts_bounded (r : Registry) :
  let '(total, active, banned) := PoolCounts r in
  total = Z.of_nat (size (registered r)) /\ (0 <= active)%Z /\ (0 <= banned)%Z /\
  (active + banned <= total)%Z.
Proof.
  unfold PoolCounts. generalize (registered r) as ws. intros ws.
  assert (HP : let '(t, a, b) := map_fold (fun _ x '(total, active, banned) =>
      (total, if is_active_state (state x) then (active + 1)%Z else active,
       if is_banned_state (state x) then (banned + 1)%Z else banned))
      (Z.of_nat (size ws), 0%Z, 0%Z) ws in
    t = Z.of_nat (size ws) /\ (0 <= a)%Z /\ (0 <= b)%Z /\ (a + b <= Z.of_nat (size ws))%Z).
  { apply (map_fold_weak_ind (fun acc m => let '(t, a, b) := acc in
      t = Z.of_nat (size ws) /\ (0 <= a)%Z /\ (0 <= b)%Z /\ (a + b <= Z.of_nat (size m))%Z)).
    - split; [done|]. by rewrite map_size_empty.
    - intros i x m [[t a] b] Hi (-> & Ha & Hb & Hab). rewrite map_size_insert_None by done.
      destruct (state x); cbn; repeat split; lia. }
  destruct (map_fold _ _ _) as [[t a] b]. by destruct HP as (-> & ? & ? & ?).
Qed.

(** ** Witnesses *)

Definition demo_config : WorkerConfig :=
  {| Port := "/dev/ttyUSB0"; GatewayID := "gw1"; ExpectedICCID := "";
     RateConfig := {| PerMin := 5; PerHour := 50; PerDay := 500 |};
     SIMCapacityWarnPct := 80; SIMCapacityPurgePct := 95; InboundQueueSize := 0; StallDuration := 0;
     SignalPollInterval := 0; PortOpenRetries := 0 |}.

Definition demo_iccid : string := "8949000000000000001".

Definition demo_registry : Registry :=
  Register {| workers := ∅; heap := {[0%nat := NewWorker demo_config]} |} demo_iccid 0.

Definition demo_task : Task :=
  {| Task_Envelope := {| Type_ := TypeTask; MessageID := "m1"; TS := 0 |};
     Action := ActionCheckSignal; Payload := Some (JObj [("iccid", JStr demo_iccid)]) |}.

Lemma demo_registry_wf : registry_wf demo_registry.
Proof.
  split.
  - intros ic addr Hw. change (workers demo_registry) with (<[demo_iccid := 0%nat]> (∅ : gmap string nat)) in Hw.
    apply lookup_insert_Some in Hw as [[_ <-]|[_ Hw]]; [|by rewrite lookup_empty in Hw].
    exists (NewWorker demo_config). by vm_compute.
  - apply map_Forall_singleton. vm_compute. discriminate.
Defined.

Lemma Dispatch_routes_witness :
  let '(r', err) := Dispatch demo_registry demo_task in
  registry_wf r' /\
  match err with
  | None => exists ic addr x,
      extractICCID demo_task = inr ic /\ workers demo_registry !! ic = Some addr /\
      heap demo_registry !! addr = Some x /\ (QueueLen x < InboundQueueSize (cfg x))%Z /\
      r' = {| workers := workers demo_registry;
              heap := <[addr := set_inboundCh x (inboundCh x ++ [queued_task demo_task])]> (heap demo_registry) |}
  | Some e => r' = demo_registry /\
      ((errors_Is e ErrModemNotFoundMsg = true /\
        forall ic, extractICCID demo_task = inr ic -> workers demo_registry !! ic = None) \/
       (errors_Is e ErrModemBusyMsg = true /\
        exists ic x, extractICCID demo_task = inr ic /\ Lookup demo_registry ic = Some x /\
                     QueueLen x = InboundQueueSize (cfg x)))
  end.
Proof. exact (Dispatch_routes demo_registry demo_task demo_registry_wf). Defined.

Example demo_dispatch_accepted : (Dispatch demo_registry demo_task).2 = None.
Proof. by vm_compute. Qed.
