(* ===== verification/Worker.v ===== *)
(** * The modem worker (internal/modem/worker.go)

    One worker owns one modem: its serializer, its SIM's messages and tasks.
    Handlers are functions on a [world]: the worker's fields, the port, the
    buffer, the limiter, the registry, and what was pushed upstream.  The clock
    is in nanoseconds and moves when the code sleeps; metrics and logs are left
    out. *)

From S2P Require Import Prelude GoString Pdu RateLimit Buffer Serializer Protocol Registry.

(** [validE164], the regular expression [^\+[1-9]\d{6,14}$]. *)
Definition validE164 (s : string) : bool :=
  match bytes_of s with
  | 43%Z :: d :: l => is_digit d && negb (d =? 48)%Z && forallb is_digit l &&
                      (6 <=? length l) && (length l <=? 14)
  | _ => false
  end.

Definition maxSMSBody : Z := 10000.

(** The errors of the PDU codec as error values. *)
Definition pdu_go_error (e : pdu_error) : go_error :=
  match e with
  | InvalidHex => Errorf "invalid PDU hex: %w" []
  | TruncatedAfterSMSC => errors_New "PDU truncated after SMSC"
  | NotDeliver mti => Errorf "not SMS-DELIVER (MTI=%d)" [itoa mti]
  | TruncatedAtOA => errors_New "PDU truncated at OA"
  | TruncatedAtOADigits => errors_New "PDU truncated at OA digits"
  | TruncatedAtPID => errors_New "PDU truncated at PID"
  | TruncatedAtDCS => errors_New "PDU truncated at DCS"
  | TruncatedAtSCTS => errors_New "PDU truncated at SCTS"
  | TruncatedAtUDL => errors_New "PDU truncated at UDL"
  | UDHIEmptyUD => errors_New "PDU truncated: UDHI set but UD is empty"
  | InvalidUDH a b => Errorf "invalid UDH: length %d exceeds UD length %d" [itoa a; itoa b]
  | UnsupportedEncoding enc => Errorf "unsupported encoding %q" [enc]
  end.

Section Worker.
Context {M DB : Type} `{Modem M} `{SqlEngine DB}.

(** The UUIDs drawn, and the worker's own address in the registry. *)
Variable uuid : nat -> string.
Variable self : nat.

Record world := mkWorld {
  w : Worker;
  prt : Serializer * M;
  buf : DB;
  limiter : gmap string SIMRateLimiter;
  registry : gmap string nat;
  pushed : list outbound;
  uuids : nat;
  clock : Z }.

Definition set_w (r : world) (v : Worker) : world :=
  mkWorld v (prt r) (buf r) (limiter r) (registry r) (pushed r) (uuids r) (clock r).
Definition set_prt (r : world) (v : Serializer * M) : world :=
  mkWorld (w r) v (buf r) (limiter r) (registry r) (pushed r) (uuids r) (clock r).
Definition set_buf (r : world) (v : DB) : world :=
  mkWorld (w r) (prt r) v (limiter r) (registry r) (pushed r) (uuids r) (clock r).
Definition set_limiter (r : world) (v : gmap string SIMRateLimiter) : world :=
  mkWorld (w r) (prt r) (buf r) v (registry r) (pushed r) (uuids r) (clock r).
Definition set_registry (r : world) (v : gmap string nat) : world :=
  mkWorld (w r) (prt r) (buf r) (limiter r) v (pushed r) (uuids r) (clock r).
Definition set_pushed (r : world) (v : list outbound) : world :=
  mkWorld (w r) (prt r) (buf r) (limiter r) (registry r) v (uuids r) (clock r).
Definition set_uuids (r : world) (v : nat) : world :=
  mkWorld (w r) (prt r) (buf r) (limiter r) (registry r) (pushed r) v (clock r).
Definition set_clock (r : world) (v : Z) : world :=
  mkWorld (w r) (prt r) (buf r) (limiter r) (registry r) (pushed r) (uuids r) v.

Abbreviation act := (st world).

(** ** Primitive actions *)

Definition upd (f : Worker -> Worker) : act () := st_modify (fun wd => set_w wd (f (w wd))).
Definition set_st (s : State) : act () := upd (fun x => set_state x s).
Definition sleep (d : Z) : act () := st_modify (fun wd => set_clock wd (clock wd + d)%Z).

Definition touch : act () := st_modify (fun wd => set_w wd (set_lastActivityNs (w wd) (clock wd))).

(** A command on the port. *)
Definition on_port {A} (f : Serializer * M -> (Serializer * M) * A) : act A :=
  fun wd => let '(p, a) := f (prt wd) in (set_prt wd p, a).

(** [w.eventFn(evt)] and the [AckFn] of a task: both push upstream. *)
Definition push (e : outbound) : act () := st_modify (fun wd => set_pushed wd (pushed wd ++ [e])).

Definition now_ms (wd : world) : Z := Z.quot (clock wd) 1000000.

Definition new_envelope (ty : string) : act Envelope := fun wd =>
  (set_uuids wd (S (uuids wd)), NewEnvelope ty (uuid (uuids wd)) (now_ms wd)).
Definition new_envelope_from (ty mid : string) : act Envelope := st_get (fun wd => NewEnvelopeFrom ty mid (now_ms wd)).

(** [ModemAlertEvent] pushed with the worker's ICCID. *)
Definition alert (code : string) (detail : go_error) : act () :=
  env ← new_envelope TypeModemAlert;
  ic ← st_get (fun wd => iccid (w wd));
  push (OutModemAlert {| Alert_Envelope := env; Alert_ICCID := ic; AlertCode := code; Detail := detail |}).

(** ** Retries *)

Definition half_second : Z := 500000000.

Fixpoint retryN (n : nat) (fn : act (option go_error)) (err : option go_error) : act (option go_error) :=
  match n with
  | O => mret err
  | S n => err ← fn;
           match err with
           | None => mret None
           | Some _ => _ ← sleep half_second; retryN n fn err
           end
  end.

Fixpoint retryNVal (n : nat) (fn : act (res string)) (err : go_error) : act (res string) :=
  match n with
  | O => mret (inl err)
  | S n => r ← fn;
           match r with
           | inr v => mret (inr v)
           | inl e => _ ← sleep half_second; retryNVal n fn e
           end
  end.

(** ** State transitions *)

Definition enterBanned (detail : go_error) : act () :=
  _ ← set_st StateBanned;
  alert AlertSIMBanned detail.

Definition enterReset : act () :=
  _ ← set_st StateResetting;
  err ← on_port HardReset;
  match err with
  | Some _ =>
      _ ← set_st StateFailed;
      alert AlertModemHang (errors_New "hard reset failed")
  | None =>
      _ ← sleep (5 * second);
      set_st StateInitializing
  end.

Definition enterRecovery : act () :=
  _ ← set_st StateRecovering;
  err ← on_port RadioOff;
  match err with
  | Some _ => enterReset
  | None =>
    _ ← sleep (2 * second);
    err ← on_port RadioOn;
    match err with
    | Some _ => enterReset
    | None =>
      _ ← sleep (5 * second);
      err ← on_port Ping;
      match err with
      | Some _ => enterReset
      | None =>
        _ ← on_port SetPDUMode;
        set_st StateActive
      end
    end
  end.

(** ** Receiving *)

(** The insertion of a decoded message. *)
Definition persist (ic : string) (d : DecodedSMS) : act (res (Z * bool)) := fun wd =>
  let '(db, r) := Insert (buf wd) (Z.quot (clock wd) second * 1000) ic (Pdu.Sender d)
                    (Pdu.Body d) (Pdu.PDUHash d) (Pdu.SMSC d) (Timestamp d * 1000) in
  (set_buf wd db, r).

(** [receiveSMS]: read, decode, persist, only then delete, then push.  The
    decoder does not panic ([DecodePDU_never_panics]). *)
Definition receiveSMS (index : Z) : act () :=
  r ← on_port (fun p => ReadSMS p index);
  match r with
  | inl _ => mret tt
  | inr pduHex =>
    match DecodePDU pduHex with
    | Panic => mret tt
    | Err _ => _ ← on_port (fun p => DeleteSMS p index); mret tt
    | Ok decoded =>
      ic ← st_get (fun wd => iccid (w wd));
      r ← persist ic decoded;
      match r with
      | inl _ => mret tt
      | inr (i, isDuplicate) =>
        _ ← on_port (fun p => DeleteSMS p index);
        if (isDuplicate : bool) then mret tt else
        _ ← upd (fun x => set_recv1H x (recv1H x + 1)%Z);
        _ ← touch;
        env ← new_envelope TypeSMSReceived;
        gw ← st_get (fun wd => GatewayID (cfg (w wd)));
        push (OutSMSReceived
          {| SMS_Envelope := env; SMS_GatewayID := gw; SMS_ICCID := ic; SMS_Sender := Pdu.Sender decoded;
             SMS_Body := Pdu.Body decoded; SMS_ReceivedAt := Timestamp decoded * 1000;
             SMS_SMSC := Pdu.SMSC decoded; SMS_PDUHash := Pdu.PDUHash decoded; SMS_BufferID := i |})
      end
    end
  end.

(** [handleURC]. *)
Definition handleURC (urc : string) : act () :=
  if (5 <? String.length urc) && HasPrefix urc "+CMTI:" then
    match ParseCMTI urc with
    | inl _ => mret tt
    | inr idx => receiveSMS idx
    end
  else if (6 <? String.length urc) && HasPrefix urc "+CREG:" then
    let stat := ParseCREG urc in
    _ ← upd (fun x => set_regStat x (to_int32 stat));
    if (stat =? 3)%Z then enterBanned (errors_New urc) else mret tt
  else mret tt.
(** ** Tasks *)

Definition task_error (code : string) (msg : go_error) : TaskError := {| Code := code; Message := msg |}.

(** The send loop over the parts; [i] counts from one. *)
Fixpoint send_parts (parts : list EncodedPDU) (i n : nat) : act (option TaskError) :=
  match parts with
  | [] => mret None
  | part :: parts =>
      r ← on_port (fun p => ExecuteSend p (HexStr part) (Z.of_nat (Length part)) TimeoutSend);
      match r with
      | inl e => mret (Some (task_error ErrCodeSendFailed
                   (Wrapf "part %d/%d: %v" [itoa (Z.of_nat i); itoa (Z.of_nat n)] e)))
      | inr _ => send_parts parts (S i) n
      end
  end.

Definition limiter_Allow : act bool := fun wd =>
  let '(ok, lim) := Registry_Allow (limiter wd) (iccid (w wd)) (clock wd) in (set_limiter wd lim, ok).

(** [doSendSMS]; the encoder does not panic. *)
Definition doSendSMS (task : Task) : act (option json * option TaskError) :=
  match Unmarshal_SendSMSPayload (Payload task) with
  | inl e => mret (None, Some (task_error ErrCodeInvalidPayload e))
  | inr p =>
    if String.eqb (Send_ICCID p) "" || String.eqb (Send_To p) "" || String.eqb (Send_Body p) "" then
      mret (None, Some (task_error ErrCodeInvalidPayload (errors_New "iccid, to, and body are required")))
    else if negb (validE164 (Send_To p)) then
      mret (None, Some (task_error ErrCodeInvalidPayload (Errorf "invalid E.164 phone number: %q" [Send_To p])))
    else if (maxSMSBody <? Z.of_nat (String.length (Send_Body p)))%Z then
      mret (None, Some (task_error ErrCodeInvalidPayload
        (Errorf "body too long: %d chars (max %d)" [itoa (Z.of_nat (String.length (Send_Body p))); itoa maxSMSBody])))
    else
    ok ← limiter_Allow;
    if negb ok then
      mret (None, Some (task_error ErrCodeRateLimited (errors_New "per-SIM rate limit exceeded")))
    else
    match EncodePDU (Send_To p) (Send_Body p) (Send_Encoding p) with
    | Panic => mret (None, None)
    | Err e => mret (None, Some (task_error ErrCodeSendFailed (pdu_go_error e)))
    | Ok parts =>
      err ← send_parts parts 1 (length parts);
      match err with
      | Some e => mret (None, Some e)
      | None =>
        _ ← upd (fun x => set_sent1H x (sent1H x + 1)%Z);
        x ← st_get w;
        mret (Some (SendSMSResult (Z.of_nat (length parts)) (signalRSSI x) (RegStatusString (regStat x))), None)
      end
    end
  end.

Definition unresponsive (err : option go_error) : option TaskError :=
  task_error ErrCodeModemUnresponsive <$> err.

(** [doRebootModem]. *)
Definition doRebootModem (task : Task) : act (option TaskError) :=
  match Unmarshal_RebootModemPayload (Payload task) with
  | inl e => mret (Some (task_error ErrCodeInvalidPayload e))
  | inr p =>
    if Reboot_Hard p then
      err ← on_port HardReset; mret (unresponsive err)
    else
      err ← on_port RadioOff;
      match err with
      | Some _ => mret (unresponsive err)
      | None =>
        _ ← sleep (2 * second);
        err ← on_port RadioOn; mret (unresponsive err)
      end
  end.

(** [doCheckSignal]. *)
Definition doCheckSignal : act (option json * option TaskError) :=
  r ← on_port SignalQuality;
  match r with
  | inl e => mret (None, Some (task_error ErrCodeModemUnresponsive e))
  | inr rssi =>
    r ← on_port RegistrationStatus;
    match r with
    | inl e => mret (None, Some (task_error ErrCodeModemUnresponsive e))
    | inr stat =>
      _ ← upd (fun x => set_regStat (set_signalRSSI x (to_int32 rssi)) (to_int32 stat));
      mret (Some (CheckSignalResult rssi (RegStatusString stat)), None)
    end
  end.

(** [doDeleteAllSMS]. *)
Definition doDeleteAllSMS : act (option TaskError) :=
  err ← on_port DeleteAllSMS;
  mret (task_error ErrCodeSendFailed <$> err).

(** The [switch] on the action of a task. *)
Definition do_action (task : Task) : act (option json * option TaskError) :=
  if String.eqb (Action task) ActionSendSMS then doSendSMS task
  else if String.eqb (Action task) ActionRebootModem then e ← doRebootModem task; mret (None, e)
  else if String.eqb (Action task) ActionCheckSignal then doCheckSignal
  else if String.eqb (Action task) ActionDeleteAllSMS then e ← doDeleteAllSMS; mret (None, e)
  else mret (None, Some (task_error ErrCodeUnsupportedAction (Errorf "unknown action: %q" [Action task]))).

(** [executeTask]; the state is restored on return.  The router always sets
    [AckFn]. *)
Definition executeTask (it : InboundTask) : act () :=
  let task := IT_Task it in
  _ ← touch;
  prev ← st_get (fun wd => state (w wd));
  _ ← set_st StateExecuting;
  r ← do_action task;
  let '(resultJSON, taskErr) := (r : option json * option TaskError) in
  let status := match taskErr with Some _ => StatusFailed | None => StatusSuccess end in
  env ← new_envelope_from TypeTaskAck (MessageID (Task_Envelope task));
  _ ← (if AckFn it
       then push (OutTaskAck {| TaskAck_Envelope := env; Ack_Status := status;
                                Result := resultJSON; Error := taskErr |})
       else mret tt);
  set_st prev.

(** [drainInboundCh]: a negative acknowledgement for each queued task. *)
Definition nack (it : InboundTask) (env : Envelope) : outbound :=
  OutTaskAck {| TaskAck_Envelope := env; Ack_Status := StatusFailed; Result := None;
                Error := Some (task_error ErrCodeModemUnresponsive
                  (errors_New "gateway shutting down — task was not executed")) |}.

Fixpoint nack_all (its : list InboundTask) : act () :=
  match its with
  | [] => mret tt
  | it :: its =>
      env ← new_envelope_from TypeTaskAck (MessageID (Task_Envelope (IT_Task it)));
      _ ← (if AckFn it then push (nack it env) else mret tt);
      nack_all its
  end.

Definition drainInboundCh : act () := fun wd =>
  nack_all (inboundCh (w wd)) (set_w wd (set_inboundCh (w wd) [])).

(** ** Keep-alive, capacity, signal *)

Definition runKeepalive : act () :=
  r ← on_port RegistrationStatus;
  match r with
  | inl _ => enterRecovery
  | inr stat =>
    _ ← upd (fun x => set_regStat x (to_int32 stat));
    r ← on_port SignalQuality;
    _ ← match r with
        | inl _ => mret tt
        | inr rssi => upd (fun x => set_signalRSSI x (to_int32 rssi))
        end;
    if (stat =? 3)%Z then enterBanned (Errorf "+CREG: %d (Registration denied)" [itoa stat]) else mret tt
  end.

Definition capacity_detail (fmt : string) (pct used total : Z) : go_error :=
  Errorf fmt [itoa pct; itoa used; itoa total].

Definition checkCapacity : act () :=
  r ← on_port StorageStatus;
  match r with
  | inl _ => mret tt
  | inr (used, total) =>
    if (total =? 0)%Z then mret tt else
    let pct := to_int64 (Z.quot (to_int64 (used * 100)) total) in
    x ← st_get w;
    if (SIMCapacityPurgePct (cfg x) <=? pct)%Z then
      _ ← alert AlertSIMFull (capacity_detail "SIM at %d%% capacity (%d/%d), purging" pct used total);
      _ ← on_port DeleteAllSMS; mret tt
    else if (SIMCapacityWarnPct (cfg x) <=? pct)%Z then
      alert AlertSIMFull (capacity_detail "SIM at %d%% capacity (%d/%d)" pct used total)
    else mret tt
  end.

Definition pollSignalStrength : act () :=
  r ← on_port SignalQuality;
  match r with
  | inl _ => mret tt
  | inr rssi => upd (fun x => set_signalRSSI x (to_int32 rssi))
  end.

(** ** Initialisation *)

(** The steps of [runInitSequence], in order, with their names. *)
Definition init_steps : list (string * act (option go_error)) :=
  [("ping", retryN 3 (on_port Ping) None);
   ("disable echo", on_port DisableEcho);
   ("PDU mode", on_port SetPDUMode);
   ("enable CMTI URCs", on_port EnableCMTIURCs);
   ("read capabilities",
     r ← on_port ReadCapabilities;
     mret (match r with inl e => Some e | inr _ => None end));
   ("read ICCID",
     r ← retryNVal 3 (on_port ReadICCID) (errors_New "");
     match r with
     | inl e => mret (Some e)
     | inr ic =>
       x ← st_get w;
       if negb (String.eqb (ExpectedICCID (cfg x)) "") && negb (String.eqb ic (ExpectedICCID (cfg x)))
       then mret (Some (Errorf "ICCID mismatch: expected %s, got %s" [ExpectedICCID (cfg x); ic]))
       else _ ← upd (fun x => set_iccid x ic); mret None
     end);
   ("read IMSI",
     r ← on_port ReadIMSI;
     match r with inl e => mret (Some e) | inr v => _ ← upd (fun x => set_imsi x v); mret None end);
   ("read operator",
     r ← on_port ReadOperator;
     match r with inl e => mret (Some e) | inr v => _ ← upd (fun x => set_operator x v); mret None end)].

Definition non_fatal (name : string) : bool :=
  String.eqb name "read IMSI" || String.eqb name "read operator" || String.eqb name "read capabilities".

Fixpoint run_steps (steps : list (string * act (option go_error))) : act (option go_error) :=
  match steps with
  | [] => mret None
  | (name, fn) :: steps =>
      err ← fn;
      match err with
      | None => run_steps steps
      | Some e => if non_fatal name then run_steps steps
                  else mret (Some (Wrapf "init step %q: %w" [name] e))
      end
  end.

Definition runInitSequence : act (option go_error) := run_steps init_steps.

(** ** The main loop *)

(** The cases of the [select], and what happens around it: lines read while
    idle, tasks and reset requests arriving, time passing, the watchdog tick. *)
Inductive loop_event :=
| EvCtxDone | EvURC | EvTask | EvKeepalive | EvCapacity | EvSignal | EvReset
| EvReader (e : event) | EvDispatch (it : InboundTask) | EvRequestReset | EvElapse (d : Z) | EvWatchdog.

Definition deregister : act () := fun wd => (set_registry wd (delete (iccid (w wd)) (registry wd)), tt).

(** After a handled case: the stamp and the exit on a terminal state. *)
Definition after_case : act (option State) := fun wd =>
  let wd := set_w wd (set_lastLoopNs (w wd) (clock wd)) in
  match state (w wd) with
  | StateFailed | StateBanned => let '(wd, _) := deregister wd in (wd, Some (state (w wd)))
  | _ => (wd, None)
  end.

Definition handled (h : act ()) : act (option State) := _ ← h; after_case.

(** The watchdog goroutine on a tick; in the code it ends once it has fired. *)
Definition watchdog : act () := fun wd =>
  if (StallDuration (cfg (w wd)) <? clock wd - lastLoopNs (w wd))%Z
  then set_st StateFailed wd else (wd, tt).

(** One event; a case that is not ready is not taken. *)
Definition loop_step (e : loop_event) : act (option State) :=
  match e with
  | EvCtxDone => _ ← deregister; _ ← drainInboundCh; mret (Some StateActive)
  | EvURC => fun wd =>
      match URCCH (prt wd).1 with
      | [] => (wd, None)
      | urc :: q => handled (handleURC urc) (set_prt wd (set_URCCH (prt wd).1 q, (prt wd).2))
      end
  | EvTask => fun wd =>
      match inboundCh (w wd) with
      | [] => (wd, None)
      | it :: q => handled (executeTask it) (set_w wd (set_inboundCh (w wd) q))
      end
  | EvKeepalive => handled runKeepalive
  | EvCapacity => handled checkCapacity
  | EvSignal => handled pollSignalStrength
  | EvReset => fun wd =>
      if resetCh (w wd) then handled enterReset (set_w wd (set_resetCh (w wd) false)) else (wd, None)
  | EvReader e => fun wd => (set_prt wd (reader (prt wd).1 e, (prt wd).2), None)
  | EvDispatch it => fun wd => (set_w wd (default (w wd) (send_task (w wd) it)), None)
  | EvRequestReset => fun wd => (set_w wd (RequestReset (w wd)), None)
  | EvElapse d => _ ← sleep d; mret None
  | EvWatchdog => _ ← watchdog; mret None
  end.

Fixpoint run_loop (evs : list loop_event) : act (option State) :=
  match evs with
  | [] => mret None
  | e :: evs => r ← loop_step e;
                match r with
                | Some s => mret (Some s)
                | None => run_loop evs
                end
  end.

(** [openPort]: a TCP address is dialled once, a device is tried up to
    [PortOpenRetries] times; [dial] and [open] are the outcomes. *)
Fixpoint open_device (open : nat -> res M) (attempt n : nat) : act (res M) :=
  match n with
  | O => x ← st_get w;
         mret (inl (Errorf "could not open %s after %d attempts" [Port (cfg x); itoa (PortOpenRetries (cfg x))]))
  | S n => match open attempt with
           | inr m => mret (inr m)
           | inl _ => _ ← sleep (Z.of_nat attempt * second); open_device open (S attempt) n
           end
  end.

Definition openPort (dial : res M) (open : nat -> res M) : act (res M) :=
  x ← st_get w;
  if ContainsByte (Port (cfg x)) (ascii_of_byte 58) && negb (HasPrefix (Port (cfg x)) "/") then
    mret (match dial with inl e => inl (Wrapf "tcp dial %s: %w" [Port (cfg x)] e) | inr m => inr m end)
  else open_device open 1 (Z.to_nat (PortOpenRetries (cfg x))).

(** [Run] up to the main loop: open, initialise, register. *)
Definition start (dial : res M) (open : nat -> res M) : act (option State) :=
  r ← openPort dial open;
  match r with
  | inl _ => _ ← set_st StateFailed; mret (Some StateFailed)
  | inr m =>
    _ ← st_modify (fun wd => set_prt wd (NewSerializer, m));
    err ← runInitSequence;
    match err with
    | Some _ => _ ← set_st StateFailed; mret (Some StateFailed)
    | None =>
      _ ← st_modify (fun wd => set_registry wd (<[iccid (w wd) := self]> (registry wd)));
      _ ← st_modify (fun wd => set_limiter wd
             (Registry_Register (limiter wd) (iccid (w wd)) (RateConfig (cfg (w wd)))));
      _ ← set_st StateActive;
      _ ← st_modify (fun wd => set_w wd (set_lastLoopNs (w wd) (clock wd)));
      mret None
    end
  end.

(** The deferred [Close] of the serializer and its port. *)
Definition close_port : act () := st_modify (fun wd => set_prt wd (Close (prt wd).1, (prt wd).2)).

(** [Run]: the final state, once the loop has been left. *)
Definition Run (dial : res M) (open : nat -> res M) (evs : list loop_event) : act (option State) :=
  r ← start dial open;
  r ← match r with
      | Some s => mret (Some s)
      | None => run_loop evs
      end;
  match r with
  | Some s => _ ← close_port; mret (Some s)
  | None => mret None
  end.
End Worker.
