(* ===== verification/WorkerFrame.v ===== *)
(** * How the worker's handlers are composed

    Every handler is a composition of a few primitive actions and port
    commands.  A relation between worlds that those respect is respected by
    every handler: the invariants of the worker are proved this way. *)

From stdpp Require Import relations.
From S2P Require Import Prelude GoString Pdu RateLimit Buffer Serializer Protocol Registry Worker.

Section Frame.
Context {M DB : Type} `{HM : Modem M} `{HDB : SqlEngine DB}.
Variable uuid : nat -> string.

Abbreviation world := (@world M DB).

(** ** Port commands

    One exchange with the modem other than a deletion, and several of them. *)

Inductive port_step : Serializer * M -> Serializer * M -> Prop :=
| ps_execute p cmd t :
    HasPrefix (cmd +:+ CRLF) "AT+CMGD=" = false -> port_step p (Execute p cmd t).1
| ps_send p pdu len t : port_step p (ExecuteSend p pdu len t).1.

Definition port_steps : Serializer * M -> Serializer * M -> Prop := rtc port_step.

Lemma simple_steps p cmd t :
  HasPrefix (cmd +:+ CRLF) "AT+CMGD=" = false -> port_steps p (simple p cmd t).1.
Proof.
  intros Hp. pose proof (ps_execute p cmd t Hp) as HK. unfold simple.
  destruct (Execute p cmd t) as [p' [l e]]. by apply rtc_once.
Qed.

Lemma query_steps {A} p cmd t (parse : list string -> res A) :
  HasPrefix (cmd +:+ CRLF) "AT+CMGD=" = false -> port_steps p (query p cmd t parse).1.
Proof.
  intros Hp. pose proof (ps_execute p cmd t Hp) as HK. unfold query.
  destruct (Execute p cmd t) as [p' [l [e|]]]; by apply rtc_once.
Qed.

Lemma read_iccid_steps cmds : forall p,
  forallb (fun cmd => negb (HasPrefix (cmd +:+ CRLF) "AT+CMGD=")) cmds = true ->
  port_steps p (read_iccid_with p cmds).1.
Proof.
  induction cmds as [|cmd cmds IH]; intros p Hc; [apply rtc_refl|]. cbn [forallb] in Hc.
  apply andb_true_iff in Hc as [Hp Hc]. apply negb_true_iff in Hp.
  pose proof (ps_execute p cmd TimeoutStd Hp) as HK. cbn [read_iccid_with].
  destruct (Execute p cmd TimeoutStd) as [p' [l [e|]]]; cbn [fst] in HK; [eapply rtc_l; [exact HK|by apply IH]|].
  destruct (parse_iccid l); [by apply rtc_once|]. eapply rtc_l; [exact HK|by apply IH].
Qed.

Lemma send_steps p pdu len t : port_steps p (ExecuteSend p pdu len t).1.
Proof. apply rtc_once, ps_send. Qed.

(** ** What the handlers are made of

    A relation that every primitive action respects is respected by every
    handler.  [fixed f]: the update leaves the identity, the settings and the
    task queue alone. *)

Definition fixed (f : Worker -> Worker) : Prop :=
  forall x, inboundCh (f x) = inboundCh x /\ cfg (f x) = cfg x /\ iccid (f x) = iccid x.

Definition is_task_ack (e : outbound) : bool := match e with OutTaskAck _ => true | _ => false end.

Record core_rel (R : world -> world -> Prop) : Prop := {
  cr_upd : forall f, fixed f -> preserves R (upd f);
  cr_touch : preserves R touch;
  cr_sleep : forall d, preserves R (sleep d);
  cr_envelope : forall ty, preserves R (new_envelope uuid ty);
  cr_limiter : preserves R limiter_Allow;
  cr_port : forall A (f : Serializer * M -> (Serializer * M) * A),
    (forall p, port_steps p (f p).1) -> preserves R (on_port f) }.

(** Handlers outside tasks also push events, and [handleURC] receives messages. *)
Record push_rel (R : world -> world -> Prop) : Prop := {
  cr_core : core_rel R;
  cr_push : forall e, is_task_ack e = false -> preserves R (push e) }.

Record closed_rel (R : world -> world -> Prop) : Prop := {
  cr_pushing :> push_rel R;
  cr_receive : forall i, (0 <= i <= 999)%Z -> preserves R (receiveSMS uuid i) }.

(** Decomposes an action on a worker; [HC] is the core of the relation. *)
Ltac port_cmd HC :=
  apply (cr_port _ HC); intros;
  first [ by apply simple_steps | by apply query_steps
        | by apply read_iccid_steps | apply send_steps ].

Ltac step HC :=
  repeat first
    [ apply preserves_bind; [exact _| |intros]
    | apply preserves_ret; exact _
    | apply preserves_get; exact _
    | apply (cr_sleep _ HC)
    | apply (cr_touch _ HC)
    | apply (cr_envelope _ HC)
    | apply (cr_limiter _ HC)
    | port_cmd HC
    | apply (cr_upd _ HC); done
    | match goal with |- preserves _ (match ?x with _ => _ end) => destruct x end ].

Section Tasks.
Context (R : world -> world -> Prop) `{HR : !PreOrder R} (HC : core_rel R).

Lemma h_send_parts parts : forall i n, preserves R (send_parts parts i n).
Proof. induction parts as [|part parts IH]; intros i n; cbn [send_parts]; step HC. apply IH. Qed.

Lemma h_do_action task :
  (Action task = ActionDeleteAllSMS -> preserves R (on_port DeleteAllSMS)) -> preserves R (do_action task).
Proof.
  intros HDel. unfold do_action. destruct (String.eqb_spec (Action task) ActionSendSMS).
  { unfold doSendSMS. step HC. apply h_send_parts. }
  destruct (String.eqb_spec (Action task) ActionRebootModem); [unfold doRebootModem; step HC|].
  destruct (String.eqb_spec (Action task) ActionCheckSignal); [unfold doCheckSignal; step HC|].
  destruct (String.eqb_spec (Action task) ActionDeleteAllSMS); [|step HC].
  unfold doDeleteAllSMS. step HC. auto.
Qed.

Lemma h_retryN n (fn : st world (option go_error)) :
  preserves R fn -> forall err, preserves R (retryN n fn err).
Proof.
  intros Hf. induction n as [|n IH]; intros err; cbn [retryN]; step HC. exact Hf. apply IH.
Qed.

Lemma h_retryNVal n (fn : st world (res string)) :
  preserves R fn -> forall err, preserves R (retryNVal n fn err).
Proof.
  intros Hf. induction n as [|n IH]; intros err; cbn [retryNVal]; step HC. exact Hf. apply IH.
Qed.

(** The init sequence, for a relation that ignores the worker's fields other
    than its queue. *)
Lemma h_runInitSequence :
  (forall f, (forall x, inboundCh (f x) = inboundCh x) -> preserves R (upd f)) -> preserves R runInitSequence.
Proof.
  intros Hu. assert (HF : Forall (fun step => preserves R step.2) init_steps).
  { unfold init_steps. repeat apply Forall_cons_2; try apply Forall_nil_2; cbn [snd]; step HC; try (by apply Hu).
    all: try apply h_retryNVal; try apply h_retryN; step HC. }
  unfold runInitSequence. induction HF as [|[name fn] steps Hs _ IH]; cbn [run_steps]; step HC; try exact IH.
  exact Hs.
Qed.

Lemma h_openPort dial open : preserves R (openPort dial open).
Proof.
  assert (HO : forall n a, preserves R (open_device open a n))
    by (induction n as [|n IH]; intros a; cbn [open_device]; step HC; apply IH).
  unfold openPort. step HC. apply HO.
Qed.
End Tasks.

(** The index a +CMTI line announces. *)
Definition announced (urc : string) : option Z :=
  if (5 <? String.length urc) && HasPrefix urc "+CMTI:" then
    match ParseCMTI urc with inl _ => None | inr idx => Some idx end
  else None.

Lemma announced_range urc i : announced urc = Some i -> (0 <= i <= 999)%Z.
Proof.
  unfold announced. destruct (_ && _); [|done]. unfold ParseCMTI.
  destruct (Split comma urc) as [|a [|b l]]; try done.
  destruct (scan_d _) as [[idx k]|]; [|done]. destruct (_ || _) eqn:Hr; [done|]. intros [= <-]. lia.
Qed.

Lemma handleURC_receives urc i : announced urc = Some i -> handleURC (M := M) (DB := DB) uuid urc = receiveSMS uuid i.
Proof.
  unfold announced, handleURC. destruct (_ && _); [|done]. by destruct (ParseCMTI urc) as [e|idx]; [|intros [= <-]].
Qed.

Section Handlers.
Context (R : world -> world -> Prop) `{HR : !PreOrder R} (HC : push_rel R).

Ltac hstep := repeat first [ progress step (cr_core R HC) | apply (cr_push R HC); reflexivity ].

Lemma h_enterReset : preserves R (enterReset uuid).
Proof. unfold enterReset. hstep. Qed.

Lemma h_runKeepalive : preserves R (runKeepalive uuid).
Proof. unfold runKeepalive. hstep. Qed.

Lemma h_pollSignalStrength : preserves R pollSignalStrength.
Proof. unfold pollSignalStrength. hstep. Qed.

Lemma h_checkCapacity : preserves R (on_port DeleteAllSMS) -> preserves R (checkCapacity uuid).
Proof. intros HDel. unfold checkCapacity. hstep. exact HDel. Qed.

(** A line that announces no message. *)
Lemma h_handleURC_other urc : announced urc = None -> preserves R (handleURC uuid urc).
Proof.
  unfold announced, handleURC. destruct (_ && _).
  - destruct (ParseCMTI urc); [|done]. intros _. hstep.
  - intros _. hstep.
Qed.

End Handlers.

Lemma h_handleURC (R : world -> world -> Prop) `{HR : !PreOrder R} (HC : closed_rel R) urc :
  preserves R (handleURC uuid urc).
Proof.
  destruct (announced urc) as [i|] eqn:Ha.
  - rewrite (handleURC_receives urc i Ha). apply (cr_receive R HC). by apply (announced_range urc).
  - apply h_handleURC_other; [exact _|apply HC|done].
Qed.

(** ** What no handler touches *)

Definition task_id (it : InboundTask) : string := MessageID (Task_Envelope (IT_Task it)).

(** The message ids acknowledged, in order. *)
Definition ack_ids (l : list outbound) : list string :=
  omap (fun e => match e with OutTaskAck a => Some (MessageID (TaskAck_Envelope a)) | _ => None end) l.

(** The task queue, the identity, the registry and the acknowledgements. *)
Record frame (s s' : world) : Prop := {
  fr_queue : inboundCh (w s') = inboundCh (w s);
  fr_cfg : cfg (w s') = cfg (w s);
  fr_iccid : iccid (w s') = iccid (w s);
  fr_registry : registry s' = registry s;
  fr_acks : ack_ids (pushed s') = ack_ids (pushed s) }.

#[global] Instance frame_preorder : PreOrder frame.
Proof. split; [by intros s | intros s1 s2 s3 [] []; split; congruence]. Qed.

Lemma ack_ids_app l1 l2 : ack_ids (l1 ++ l2) = ack_ids l1 ++ ack_ids l2.
Proof. unfold ack_ids. apply omap_app. Qed.

Lemma frame_on_port {A} (f : Serializer * M -> (Serializer * M) * A) : preserves frame (on_port f).
Proof. intros s. unfold on_port. by destruct (f (prt s)). Qed.

Lemma frame_core : core_rel frame.
Proof.
  split; intros; try (by intros s); try apply frame_on_port.
  - intros s. destruct (H (w s)) as (H1 & H2 & H3). by split.
  - intros s. unfold limiter_Allow. by destruct (Registry_Allow _ _ _).
Qed.

Lemma frame_push e : is_task_ack e = false -> preserves frame (push e).
Proof. intros He s. split; try done. cbn. rewrite ack_ids_app. destruct e; try done; by rewrite app_nil_r. Qed.

Lemma frame_persist ic d : preserves frame (persist ic d).
Proof. intros s. unfold persist. by destruct (Insert _ _ _ _ _ _ _ _). Qed.

Lemma frame_pushing : push_rel frame.
Proof. split; [exact frame_core|apply frame_push]. Qed.

Lemma frame_closed : closed_rel frame.
Proof.
  split; [exact frame_pushing|]. intros i _. unfold receiveSMS.
  repeat first [ progress step frame_core | apply frame_on_port | apply frame_persist
               | apply frame_push; reflexivity ].
Qed.

(** The task queue and the acknowledgements over one handled case. *)
Lemma after_case_spec (s : world) :
  let '(s', r) := after_case s in
  pushed s' = pushed s /\ inboundCh (w s') = inboundCh (w s) /\ cfg (w s') = cfg (w s) /\
  prt s' = prt s /\ buf s' = buf s /\ iccid (w s') = iccid (w s) /\ state (w s') = state (w s) /\
  match r with
  | Some x => x = state (w s) /\ (x = StateFailed \/ x = StateBanned) /\ registry s' = delete (iccid (w s)) (registry s)
  | None => state (w s) <> StateFailed /\ state (w s) <> StateBanned /\ registry s' = registry s
  end.
Proof. unfold after_case. cbn. destruct (state (w s)) eqn:E; cbn; rewrite ?E; naive_solver. Qed.

(** [executeTask] pushes one event, the acknowledgement of its task. *)
Record silent_rel (s s' : world) : Prop := {
  sl_pushed : pushed s' = pushed s;
  sl_frame : frame s s' }.

#[global] Instance silent_preorder : PreOrder silent_rel.
Proof.
  split; [by intros s | intros s1 s2 s3 [P1 F1] [P2 F2]; split; [congruence|by etransitivity]].
Qed.

Lemma silent_core : core_rel silent_rel.
Proof.
  pose proof frame_core as HF. split; intros; intros s; (split; [|by apply HF]); try done.
  - unfold limiter_Allow. by destruct (Registry_Allow _ _ _).
  - unfold on_port. by destruct (f (prt s)).
Qed.

Lemma do_action_silent task : preserves silent_rel (do_action task).
Proof.
  apply (h_do_action silent_rel silent_core). intros _ s. split; [|apply frame_on_port].
  unfold on_port. by destruct (DeleteAllSMS (prt s)).
Qed.

Lemma executeTask_pushes it (s : world) :
  AckFn it = true ->
  let s' := (executeTask it s).1 in
  exists ack, pushed s' = pushed s ++ [OutTaskAck ack] /\
    Type_ (TaskAck_Envelope ack) = TypeTaskAck /\ MessageID (TaskAck_Envelope ack) = task_id it /\
    (Ack_Status ack = StatusSuccess /\ Error ack = None \/
     Ack_Status ack = StatusFailed /\ exists e, Error ack = Some e) /\
    state (w s') = state (w s) /\ inboundCh (w s') = inboundCh (w s) /\ cfg (w s') = cfg (w s) /\
    iccid (w s') = iccid (w s) /\ registry s' = registry s.
Proof.
  intros Hack. unfold executeTask. cbv [mbind st_bind st_get].
  cbn [touch st_modify set_st upd fst snd].
  set (s1 := set_w _ (set_state _ StateExecuting)).
  pose proof (do_action_silent (IT_Task it) s1) as [HP HF].
  destruct (do_action (IT_Task it) s1) as [s2 [rj te]]. cbn [fst] in *. rewrite Hack.
  eexists. cbn. rewrite HP. split; [done|]. split; [done|]. split; [done|].
  destruct HF as [F1 F2 F3 F4 F5]. cbn in *. split; [|done]. destruct te; cbn; [right; eauto|by left].
Qed.

Lemma executeTask_queue it (s : world) :
  inboundCh (w (executeTask it s).1) = inboundCh (w s) /\ iccid (w (executeTask it s).1) = iccid (w s) /\
  registry (executeTask it s).1 = registry s.
Proof.
  unfold executeTask. cbv [mbind st_bind st_get]. cbn [touch st_modify set_st upd fst snd].
  set (s1 := set_w _ (set_state _ StateExecuting)).
  pose proof (do_action_silent (IT_Task it) s1) as [_ [F1 F2 F3 F4 _]].
  destruct (do_action (IT_Task it) s1) as [s2 [rj te]]. cbn [fst] in *. by destruct (AckFn it).
Qed.

Lemma nack_all_queue its : forall s : world,
  inboundCh (w (nack_all its s).1) = inboundCh (w s) /\
  registry (nack_all its s).1 = registry s /\ iccid (w (nack_all its s).1) = iccid (w s).
Proof.
  induction its as [|it its IH]; intros s; cbn [nack_all]; [done|].
  cbv [mbind st_bind new_envelope_from st_get]. destruct (AckFn it); [|apply IH].
  cbv [push st_modify]. match goal with |- context [nack_all its ?s1] => apply (IH s1) end.
Qed.

(** A handled case leaves the queue as its handler does. *)
Lemma handled_queue (h : st world ()) s :
  inboundCh (w (handled h s).1) = inboundCh (w (h s).1).
Proof.
  unfold handled. cbv [mbind st_bind]. destruct (h s) as [s1 u].
  pose proof (after_case_spec s1) as HA. destruct (after_case s1) as [s2 r]. by destruct HA as (_ & Hq & _).
Qed.
(** One event changes the registry only when it ends the loop, and then only
    by the worker's own entry. *)
Lemma loop_step_registry e (s : world) :
  let '(s', r) := loop_step uuid e s in
  iccid (w s') = iccid (w s) /\
  registry s' = match r with None => registry s | Some _ => delete (iccid (w s)) (registry s) end.
Proof.
  assert (Hcase : forall (h : st world ()) s0,
    iccid (w (h s0).1) = iccid (w s0) -> registry (h s0).1 = registry s0 ->
    iccid (w s0) = iccid (w s) -> registry s0 = registry s ->
    let '(s', r) := handled h s0 in
    iccid (w s') = iccid (w s) /\
    registry s' = match r with None => registry s | Some _ => delete (iccid (w s)) (registry s) end).
  { intros h s0 H1 H2 H3 H4. unfold handled. cbv [mbind st_bind]. destruct (h s0) as [s1 u]. cbn [fst] in *.
    pose proof (after_case_spec s1) as HA. destruct (after_case s1) as [s2 r].
    destruct HA as (_ & _ & _ & _ & _ & Hi & _ & HA). split; [congruence|].
    destruct r; [destruct HA as (_ & _ & HA)|destruct HA as (_ & _ & HA)]; congruence. }
  assert (Hfr : forall (h : st world ()) s0, preserves frame h ->
    iccid (w s0) = iccid (w s) -> registry s0 = registry s ->
    let '(s', r) := handled h s0 in
    iccid (w s') = iccid (w s) /\
    registry s' = match r with None => registry s | Some _ => delete (iccid (w s)) (registry s) end).
  { intros h s0 Hh. apply Hcase; [apply fr_iccid|apply fr_registry]; apply Hh. }
  destruct e; cbn [loop_step]; try (by split).
  - cbv [mbind st_bind deregister drainInboundCh]. cbn [set_registry w]. set (s1 := set_w _ _).
    destruct (nack_all_queue (inboundCh (w s)) s1) as (_ & Hr & Hi).
    destruct (nack_all _ _) as [s2 u]. cbn [fst] in *. split; [exact Hi|exact Hr].
  - destruct (URCCH (prt s).1) as [|urc q]; [by split|].
    apply Hfr; [apply h_handleURC; [exact _|apply frame_closed]|done|done].
  - destruct (inboundCh (w s)) as [|it q]; [by split|].
    apply Hcase; [apply executeTask_queue|apply executeTask_queue|done|done].
  - apply Hfr; [apply h_runKeepalive; [exact _|apply frame_pushing]|done|done].
  - apply Hfr; [apply h_checkCapacity; [exact _|apply frame_pushing|apply frame_on_port]|done|done].
  - apply Hfr; [by apply (h_pollSignalStrength frame frame_pushing)|done|done].
  - destruct (resetCh (w s)); [|by split].
    apply Hfr; [apply h_enterReset; [exact _|apply frame_pushing]|done|done].
  - cbn. destruct (send_task (w s) it) as [x|] eqn:Hs; [|by split]. apply send_task_Some in Hs as [_ ->]. by split.
  - cbv [mbind st_bind watchdog mret st_ret].
    match goal with |- context [if ?b then _ else _] => destruct b end; by split.
Qed.
End Frame.
