(* ===== verification/WorkerSafety.v ===== *)
(** * No message is lost between the SIM and the buffer

    The SIM's message storage as the worker's commands see it, and the proof
    that the worker takes a message out of it only after it has read it and
    what it read is in the buffer (or has turned out not to be decodable). *)

From stdpp Require Import relations.
From S2P Require Import Prelude GoString Pdu RateLimit Buffer Serializer Protocol Registry Worker WorkerFrame.

(** ** The SIM's message storage *)

(** The commands that remove the message at [j]. *)
Definition erases (bytes : string) (j : Z) : bool :=
  String.eqb bytes ("AT+CMGD=" +:+ itoa j +:+ CRLF) || String.eqb bytes ("AT+CMGD=1,4" +:+ CRLF).

(** What 3GPP TS 27.005 says of a modem's storage: a message leaves it only by
    AT+CMGD.  Nothing is assumed about replies: a command may fail, time out or
    answer anything, the reading of a message included. *)
Class SimStorage (M : Type) `{Modem M} := {
  stored : M -> Z -> option string;
  stored_kept : forall m bytes t m' r j h,
    write m bytes t = (m', r) -> erases bytes j = false -> stored m j = Some h -> stored m' j = Some h
}.

Section Safety.
Context {M DB : Type} `{HM : Modem M} `{!SimStorage M} `{HDB : SqlEngine DB} `{!SqlLaws DB}.
Variable uuid : nat -> string.

Abbreviation world := (@world M DB).

(** The columns of the message [d] received on the SIM [ic]. *)
Definition values_of (ic : string) (d : DecodedSMS) : row_values :=
  {| v_iccid := ic; v_sender := Pdu.Sender d; v_body := Pdu.Body d; v_received_at := Timestamp d * 1000;
     v_pdu_hash := Pdu.PDUHash d; v_smsc := Pdu.SMSC d |}.

(** What became of the PDU [hex] between [db] and [db']: it does not decode, or
    a row with its hash was there already, or exactly its row was added. *)
Definition secured (ic : string) (db db' : DB) (hex : string) : Prop :=
  match DecodePDU hex with
  | Ok d =>
      (exists r, r ∈ db_rows db /\ r_pdu_hash r = Pdu.PDUHash d) \/
      exists i now, db_rows db' = db_rows db ++ [new_row i now (values_of ic d)]
  | _ => True
  end.

(** The message that a step reads: the announced index and the PDU returned. *)
Definition sms_read (e : loop_event) (s : world) : option (Z * string) :=
  match e, URCCH (prt s).1 with
  | EvURC, urc :: q =>
      i ← announced urc;
      match (ReadSMS (set_URCCH (prt s).1 q, (prt s).2) i).2 with
      | inl _ => None
      | inr hex => Some (i, hex)
      end
  | _, _ => None
  end.

(** Rows and stored messages stay, and no message is taken from the buffer's
    queue. *)
Record keeps (s s' : world) : Prop := {
  keeps_inbox : delivers (fun _ => false) (buf s) (buf s');
  keeps_rows : forall r, r ∈ db_rows (buf s) -> r ∈ db_rows (buf s');
  keeps_sms : forall j h, stored (prt s).2 j = Some h -> stored (prt s').2 j = Some h }.

(** The same but for the message read, [rd]. *)
Record takes (rd : option (Z * string)) (s s' : world) : Prop := {
  takes_inbox : delivers (fun _ => false) (buf s) (buf s');
  takes_rows : forall r, r ∈ db_rows (buf s) -> r ∈ db_rows (buf s');
  takes_sms : forall j h, stored (prt s).2 j = Some h ->
    stored (prt s').2 j = Some h \/
    exists hex, rd = Some (j, hex) /\ secured (iccid (w s)) (buf s) (buf s') hex }.

#[export] Instance keeps_preorder : PreOrder keeps.
Proof.
  split.
  - intros s. split; [reflexivity|auto|auto].
  - intros s1 s2 s3 [B1 R1 K1] [B2 R2 K2]. split; [by etransitivity|auto|auto].
Qed.

Lemma keeps_takes rd (s s' : world) : keeps s s' -> takes rd s s'.
Proof. intros [B R K]. split; [done|done|auto]. Qed.

Lemma keeps_same (s s' : world) : (prt s').2 = (prt s).2 -> buf s' = buf s -> keeps s s'.
Proof. intros Hp Hb. split; rewrite ?Hp, ?Hb; [reflexivity|auto|auto]. Qed.

Lemma erases_cmgd bytes j : HasPrefix bytes "AT+CMGD=" = false -> erases bytes j = false.
Proof.
  intros Hp. unfold erases. apply orb_false_iff. split; apply String.eqb_neq; intros ->; discriminate.
Qed.

Lemma erases_pdu pdu j : erases (pdu +:+ CtrlZ) j = false.
Proof.
  assert (Hne : forall s, pdu +:+ CtrlZ <> s +:+ CRLF).
  { intros s Heq%(f_equal bytes_of). rewrite !bytes_of_app in Heq.
    apply (f_equal last) in Heq. change (bytes_of CRLF) with ([13%Z] ++ [10%Z]) in Heq.
    change (bytes_of CtrlZ) with [26%Z] in Heq. rewrite app_assoc, !last_snoc in Heq. discriminate. }
  unfold erases. apply orb_false_iff.
  split; apply String.eqb_neq; [|apply Hne]. intros Heq.
  apply (Hne ("AT+CMGD=" +:+ itoa j)). rewrite Heq. by rewrite string_app_assoc.
Qed.
(** ** Commands that keep the storage *)

Definition port_keeps (p p' : Serializer * M) : Prop :=
  forall j h, stored p.2 j = Some h -> stored p'.2 j = Some h.

#[local] Instance port_keeps_preorder : PreOrder port_keeps.
Proof. split; [intros p j h; auto | intros p1 p2 p3 H1 H2 j h; auto]. Qed.

Lemma port_write_kept s m bytes t m' r j h :
  port_write s m bytes t = (m', r) -> erases bytes j = false -> stored m j = Some h -> stored m' j = Some h.
Proof. unfold port_write. destruct (portClosed s); [by intros [= <- _]|apply stored_kept]. Qed.

Lemma Execute_port_write (s : Serializer) (m : M) cmd t :
  (Execute (s, m) cmd t).1.2 = m \/
  exists s' r, port_write s' m (cmd +:+ CRLF) t = ((Execute (s, m) cmd t).1.2, r).
Proof.
  unfold Execute. destruct (closed s); [by left|].
  destruct (port_write _ _ _ _) as [m' [e|evs]] eqn:HW; [right; eauto|].
  destruct (collect _ _ _ _). right; eauto.
Qed.

Lemma Execute_kept (p : Serializer * M) cmd t j h :
  erases (cmd +:+ CRLF) j = false -> stored p.2 j = Some h -> stored (Execute p cmd t).1.2 j = Some h.
Proof.
  destruct p as [s m]. intros He Hs. destruct (Execute_port_write s m cmd t) as [->|(s' & r & Hw)]; [done|].
  by eapply port_write_kept.
Qed.

Lemma Execute_port_keeps p cmd t :
  HasPrefix (cmd +:+ CRLF) "AT+CMGD=" = false -> port_keeps p (Execute p cmd t).1.
Proof. intros Hp j h. apply Execute_kept. by apply erases_cmgd. Qed.

Lemma ExecuteSend_port_keeps p pdu len t : port_keeps p (ExecuteSend p pdu len t).1.
Proof.
  destruct p as [s m]. intros j h Hs. unfold ExecuteSend. destruct (closed s); [done|].
  destruct (port_write _ _ _ _) as [m1 [e|evs]] eqn:HW1;
    pose proof (port_write_kept _ _ _ _ _ _ j h HW1 ltac:(by apply erases_cmgd) Hs) as Hs1; [done|].
  destruct (await_prompt _ _) as [[s' evs'] [e|]]; [done|].
  destruct (port_write s' m1 _ _) as [m2 [e|evs2]] eqn:HW2;
    pose proof (port_write_kept _ _ _ _ _ _ j h HW2 (erases_pdu _ _) Hs1) as Hs2; [done|].
  by destruct (await_result _ _ _).
Qed.

Lemma port_steps_keeps p p' : port_steps p p' -> port_keeps p p'.
Proof.
  intros Hst. induction Hst as [|p1 p2 p3 Hs _ IH]; [reflexivity|]. etransitivity; [|exact IH].
  destruct Hs; [by apply Execute_port_keeps|apply ExecuteSend_port_keeps].
Qed.

Lemma keeps_kept (s s' : world) : buf s' = buf s -> port_keeps (prt s) (prt s') -> keeps s s'.
Proof. intros Hb Hp. split; rewrite ?Hb; [reflexivity|auto|apply Hp]. Qed.

Lemma keeps_on_port {A} (f : Serializer * M -> (Serializer * M) * A) :
  (forall p, port_steps p (f p).1) -> preserves keeps (on_port (DB := DB) f).
Proof.
  intros Hf s. unfold on_port. specialize (Hf (prt s)). apply port_steps_keeps in Hf.
  destruct (f (prt s)) as [p a]. cbn in *. by apply keeps_kept.
Qed.

Lemma keeps_modify (f : world -> world) :
  (forall s, (prt (f s)).2 = (prt s).2 /\ buf (f s) = buf s) -> preserves keeps (st_modify f).
Proof. intros Hf s. apply keeps_same; apply Hf. Qed.
(** ** Receiving *)

Lemma itoa_not_range : forallb (fun n => negb (String.eqb (itoa (Z.of_nat n)) "1,4")) (seq 0 1000) = true.
Proof. by vm_compute. Qed.

Lemma DeleteSMS_kept (p : Serializer * M) i j h :
  (0 <= i <= 999)%Z -> j <> i -> stored p.2 j = Some h -> stored (DeleteSMS p i).1.2 j = Some h.
Proof.
  intros Hi Hj Hs. unfold DeleteSMS, simple.
  pose proof (Execute_kept p ("AT+CMGD=" +:+ itoa i) TimeoutStd j h) as HE.
  destruct (Execute p _ _) as [p' [l e]]. cbn [fst] in *. apply HE; [|done].
  unfold erases. rewrite string_app_assoc. apply orb_false_iff. split; apply String.eqb_neq; intros Heq.
  - apply (string_app_inv_l _ _ "AT+CMGD="), string_app_inv_r in Heq. by apply (inj pretty) in Heq.
  - change ("AT+CMGD=1,4" +:+ CRLF) with ("AT+CMGD=" +:+ ("1,4" +:+ CRLF)) in Heq.
    apply (string_app_inv_l _ _ "AT+CMGD="), string_app_inv_r in Heq.
    pose proof itoa_not_range as HT. rewrite forallb_forall in HT.
    specialize (HT (Z.to_nat i) ltac:(apply in_seq; lia)). rewrite Z2Nat.id, Heq in HT by lia. discriminate.
Qed.

Lemma persist_delivers ic d (s : world) :
  delivers (fun _ => false) (buf s) (buf (persist ic d s).1) /\
  (forall r, r ∈ db_rows (buf s) -> r ∈ db_rows (buf (persist ic d s).1)) /\
  forall v, (persist ic d s).2 = inr v ->
    (exists r, r ∈ db_rows (buf s) /\ r_pdu_hash r = Pdu.PDUHash d) \/
    exists i now, db_rows (buf (persist ic d s).1) = db_rows (buf s) ++ [new_row i now (values_of ic d)].
Proof.
  unfold persist. set (now := (Z.quot (clock s) second * 1000)%Z).
  pose proof (run_op_delivers (fun t _ => t) (fun _ => false) (buf s)
    (OpInsert now ic (Pdu.Sender d) (Pdu.Body d) (Pdu.PDUHash d) (Pdu.SMSC d) (Timestamp d * 1000)) ltac:(done)) as HD.
  cbn [run_op] in HD. destruct (Insert _ _ _ _ _ _ _ _) as [db r] eqn:HI. cbn [fst snd set_buf buf] in *.
  destruct (Insert_rows _ _ _ _ _ _ _ _ _ _ HI) as [Hr Hn]. split_and!; [done|done|].
  intros v Hv. destruct (Hn v Hv) as [|[i Hi]]; [by left|right; by exists i, now].
Qed.

(** [receiveSMS i] deletes only the message at [i], and only after what it read
    there is secured. *)
Lemma receiveSMS_takes i (s : world) :
  (0 <= i <= 999)%Z ->
  takes (match (ReadSMS (prt s) i).2 with inl _ => None | inr hex => Some (i, hex) end) s (receiveSMS uuid i s).1.
Proof.
  intros Hi. unfold receiveSMS. cbv [mbind st_bind mret st_ret].
  assert (HR : port_keeps (prt s) (ReadSMS (prt s) i).1) by (by apply port_steps_keeps, query_steps).
  unfold on_port at 1. destruct (ReadSMS (prt s) i) as [p1 [e|hex]]; cbn [fst snd] in *.
  { by apply keeps_takes, keeps_kept. }
  destruct (DecodePDU hex) as [d|e|] eqn:HD.
  - unfold st_get. cbn [set_prt w]. set (s1 := set_prt s p1).
    destruct (persist_delivers (iccid (w s)) d s1) as (HB & Hrows & Hsec).
    destruct (persist (iccid (w s)) d s1) as [s2 r] eqn:HP. cbn [fst snd] in *.
    assert (Hs2 : prt s2 = p1).
    { unfold persist in HP. destruct (Insert _ _ _ _ _ _ _ _). by injection HP as <- _. }
    destruct r as [e|[k dup]].
    { apply keeps_takes. split; [exact HB|exact Hrows|]. cbn [fst]. rewrite Hs2. exact HR. }
    pose proof (fun j h => DeleteSMS_kept p1 i j h Hi) as HDel.
    unfold on_port. rewrite Hs2. destruct (DeleteSMS p1 i) as [p2 e2]. cbn [fst] in HDel.
    destruct dup; (split; cbn; [exact HB|exact Hrows|]); intros j h Hs; (destruct (decide (j = i)) as [->|Hj];
      [right; exists hex; split; [done|]; unfold secured; rewrite HD; by apply (Hsec _ eq_refl)
      | left; apply HDel; [done|by apply HR]]).
  - pose proof (fun j h => DeleteSMS_kept p1 i j h Hi) as HDel.
    unfold on_port. cbn [set_prt prt]. destruct (DeleteSMS p1 i) as [p2 e2]. cbn [fst] in HDel.
    split; cbn; [reflexivity|auto|]. intros j h Hs. destruct (decide (j = i)) as [->|Hj].
    + right. exists hex. split; [done|]. unfold secured. by rewrite HD.
    + left. apply HDel; [done|by apply HR].
  - by apply keeps_takes, keeps_kept.
Qed.

(** ** The main loop *)

Lemma keeps_core : core_rel uuid keeps.
Proof.
  split; intros; try (by intros s; apply keeps_same); [|by apply keeps_on_port].
  intros s. unfold limiter_Allow. destruct (Registry_Allow _ _ _). by apply keeps_same.
Qed.

Lemma keeps_pushing : push_rel uuid keeps.
Proof. split; [exact keeps_core|]. intros e _ s. by apply keeps_same. Qed.

Definition deletes_all (it : InboundTask) : bool := String.eqb (Action (IT_Task it)) ActionDeleteAllSMS.

Lemma executeTask_keeps it : deletes_all it = false -> preserves keeps (executeTask it).
Proof.
  intros Hit. unfold executeTask.
  apply preserves_bind; [exact _|apply keeps_core|intros _].
  apply preserves_bind; [exact _|apply preserves_get; exact _|intros prev].
  apply preserves_bind; [exact _|by apply keeps_core|intros _].
  apply preserves_bind; [exact _| |intros [rj te]].
  - apply (h_do_action uuid keeps keeps_core). intros Heq. unfold deletes_all in Hit. by rewrite Heq in Hit.
  - apply preserves_bind; [exact _|apply preserves_get; exact _|intros env].
    apply preserves_bind; [exact _| |intros _; by apply keeps_core].
    destruct (AckFn it); [|apply preserves_ret; exact _]. intros s. by apply keeps_same.
Qed.

Lemma nack_all_keeps its : preserves (S := world) keeps (nack_all its).
Proof.
  induction its as [|it its IH]; cbn [nack_all]; [apply preserves_ret; exact _|].
  apply preserves_bind; [exact _|apply preserves_get; exact _|intros env].
  apply preserves_bind; [exact _| |intros _; exact IH].
  destruct (AckFn it); [|apply preserves_ret; exact _]. intros s. by apply keeps_same.
Qed.

Lemma after_case_same (h : st world ()) s :
  prt (handled h s).1 = prt (h s).1 /\ buf (handled h s).1 = buf (h s).1.
Proof.
  unfold handled. cbv [mbind st_bind]. destruct (h s) as [s1 u].
  pose proof (after_case_spec s1) as HA. destruct (after_case s1) as [s2 r]. by destruct HA as (_ & _ & _ & Hp & Hb & _).
Qed.

Lemma handled_keeps (h : st world ()) : preserves keeps h -> preserves keeps (handled h).
Proof.
  intros Hh s. destruct (after_case_same h s) as [Hp Hb]. etransitivity; [apply Hh|].
  apply keeps_same; [by rewrite Hp|done].
Qed.

Lemma takes_same rd (s s0 s1 s' : world) :
  (prt s0).2 = (prt s).2 -> buf s0 = buf s -> iccid (w s0) = iccid (w s) -> prt s' = prt s1 -> buf s' = buf s1 ->
  takes rd s0 s1 -> takes rd s s'.
Proof. intros H1 H2 H3 H4 H5 [B R K]. split; rewrite ?H5, <- ?H2, ?H4, <- ?H1, <- ?H3; done. Qed.

(** A step after which only [AT+CMGD] for a received message is sent: no
    capacity check and no DELETE_ALL_SMS task. *)
Definition spares_step (e : loop_event) (s : world) : bool :=
  match e with
  | EvCapacity => false
  | EvTask => match inboundCh (w s) with it :: _ => negb (deletes_all it) | [] => true end
  | _ => true
  end.

Lemma urc_takes urc q s :
  URCCH (prt s).1 = urc :: q ->
  takes (sms_read EvURC s) s (handled (handleURC uuid urc) (set_prt s (set_URCCH (prt s).1 q, (prt s).2))).1.
Proof.
  intros Hq. unfold sms_read. rewrite Hq. set (s0 := set_prt s _).
  destruct (after_case_same (handleURC uuid urc) s0) as [Hp Hb].
  apply (takes_same _ s s0 (handleURC uuid urc s0).1); try done.
  destruct (announced urc) as [i|] eqn:Ha; cbn [mbind option_bind].
  - rewrite (handleURC_receives uuid urc i Ha). apply (receiveSMS_takes i s0). by apply (announced_range urc).
  - apply keeps_takes. by apply (h_handleURC_other uuid _ keeps_pushing).
Qed.

(** One event of the main loop: a stored message stays, or it is the one the
    event reads, and that is secured. *)
Lemma loop_step_takes e s : spares_step e s = true -> takes (sms_read e s) s (loop_step uuid e s).1.
Proof.
  intros He. pose proof keeps_pushing as HK.
  assert (Hcase : forall (h : st world ()) (s0 : world), preserves keeps h ->
    (prt s0).2 = (prt s).2 -> buf s0 = buf s -> takes (sms_read e s) s (handled h s0).1).
  { intros h s0 Hk Hp Hb. apply keeps_takes. etransitivity; [by apply (keeps_same s s0)|by apply handled_keeps]. }
  destruct e; cbn [loop_step]; try discriminate; try (by apply keeps_takes, keeps_same).
  - apply keeps_takes. cbv [mbind st_bind deregister drainInboundCh]. cbn [set_registry w]. set (s1 := set_w _ _).
    pose proof (nack_all_keeps (inboundCh (w s)) s1) as Hn. destruct (nack_all _ _) as [s2 u]. cbn [fst] in *.
    etransitivity; [|exact Hn]. by apply keeps_same.
  - destruct (URCCH (prt s).1) as [|urc q] eqn:Hq; [by apply keeps_takes|by apply urc_takes].
  - cbn in He. destruct (inboundCh (w s)) as [|it q]; [by apply keeps_takes|]. apply negb_true_iff in He.
    by apply Hcase; [apply executeTask_keeps| |].
  - by apply Hcase; [exact (h_runKeepalive uuid _ HK)| |].
  - by apply Hcase; [exact (h_pollSignalStrength uuid _ HK)| |].
  - destruct (resetCh (w s)); [|by apply keeps_takes]. by apply Hcase; [exact (h_enterReset uuid _ HK)| |].
  - apply keeps_takes. cbv [mbind st_bind watchdog mret st_ret].
    match goal with |- context [if ?b then _ else _] => destruct b end; by apply keeps_same.
Qed.

(** Events that bring no such step about, when none is queued. *)
Definition spares_sim (e : loop_event) : bool :=
  match e with
  | EvCapacity => false
  | EvDispatch it => negb (deletes_all it)
  | _ => true
  end.

Definition queue_spares (s : world) : Prop := Forall (fun it => deletes_all it = false) (inboundCh (w s)).

Lemma spares_sim_step e s : spares_sim e = true -> queue_spares s -> spares_step e s = true.
Proof.
  intros He HQ. destruct e; try done. cbn. unfold queue_spares in HQ.
  destruct (inboundCh (w s)); [done|]. apply Forall_cons in HQ as [-> _]. done.
Qed.

Lemma loop_step_spares e s :
  spares_sim e = true -> queue_spares s -> queue_spares (loop_step uuid e s).1.
Proof.
  intros He HQ. pose proof (frame_closed uuid (M := M) (DB := DB)) as HFc. unfold queue_spares in *.
  assert (Hcase : forall (h : st world ()) (s0 : world), preserves frame h -> inboundCh (w s0) = inboundCh (w s) ->
    Forall (fun it => deletes_all it = false) (inboundCh (w (handled h s0).1))).
  { intros h s0 Hf Hs. rewrite handled_queue, (fr_queue _ _ (Hf s0)), Hs. exact HQ. }
  destruct e; cbn [loop_step]; try discriminate; try exact HQ.
  - cbv [mbind st_bind deregister drainInboundCh]. cbn [set_registry w]. set (s1 := set_w _ _).
    destruct (nack_all_queue (inboundCh (w s)) s1) as (Hq & _). destruct (nack_all _ _) as [s2 u]. cbn [fst] in *.
    cbn. rewrite Hq. constructor.
  - destruct (URCCH (prt s).1) as [|urc q]; [exact HQ|]. by apply Hcase; [exact (h_handleURC uuid _ HFc urc)|].
  - destruct (inboundCh (w s)) as [|it q] eqn:Hi; [by cbn; rewrite Hi|]. apply Forall_cons in HQ as [_ HQ].
    rewrite handled_queue. by rewrite (proj1 (executeTask_queue uuid it _)).
  - by apply Hcase; [exact (h_runKeepalive uuid _ HFc)|].
  - by apply Hcase; [exact (h_pollSignalStrength uuid _ HFc)|].
  - destruct (resetCh (w s)); [|exact HQ]. by apply Hcase; [exact (h_enterReset uuid _ HFc)|].
  - cbn in He |- *. destruct (send_task (w s) it) as [x|] eqn:Hs; [|exact HQ]. apply send_task_Some in Hs as [_ ->].
    cbn. apply Forall_app. split; [exact HQ|]. repeat constructor. by destruct (deletes_all it).
  - cbv [mbind st_bind watchdog mret st_ret].
    match goal with |- context [if ?b then _ else _] => destruct b end; exact HQ.
Qed.

Lemma loop_step_iccid e s : iccid (w (loop_step uuid e s).1) = iccid (w s).
Proof. pose proof (loop_step_registry uuid e s) as H. destruct (loop_step uuid e s). apply H. Qed.

Lemma run_loop_rows evs : forall s,
  forallb spares_sim evs = true -> queue_spares s ->
  forall r, r ∈ db_rows (buf s) -> r ∈ db_rows (buf (run_loop uuid evs s).1).
Proof.
  induction evs as [|e evs IH]; intros s Hevs HQ r Hr; cbn [run_loop]; [done|].
  cbn [forallb] in Hevs. apply andb_true_iff in Hevs as [He Hevs].
  destruct (loop_step_takes e s (spares_sim_step e s He HQ)) as [_ HR _].
  pose proof (loop_step_spares e s He HQ) as Hq. cbv [mbind st_bind].
  destruct (loop_step uuid e s) as [s1 [x|]]; [by apply HR|]. apply IH; auto.
Qed.

End Safety.

(** ** A reference SIM

    A modem that answers every command and keeps its messages in numbered
    slots. *)

Record sim := { slots : list (Z * string) }.

(** A PDU that the serial line carries as one response line. *)
Definition line_safe (pdu : string) : bool :=
  negb (String.eqb pdu "") && negb (String.eqb pdu "OK") && negb (isURC pdu) &&
  String.eqb (TrimRightCR pdu) pdu && String.eqb (TrimSpace pdu) pdu.

Definition reply (lines : list string) : list event := map Scan (lines ++ ["OK"]) ++ replicate (S (length lines)) Recv.

(** The slot a command reads. *)
Definition read_slot (m : sim) (bytes : string) : option string :=
  snd <$> List.find (fun kv => String.eqb bytes ("AT+CMGR=" +:+ itoa kv.1 +:+ CRLF)) (slots m).

Definition sim_reply (m : sim) (bytes : string) : list event :=
  if HasPrefix bytes "AT+CMGR=" then
    match read_slot m bytes with
    | Some pdu => if line_safe pdu then reply ["+CMGR: 0,,24"; pdu] else [Scan "+CMS ERROR: 500"; Recv]
    | None => [Scan "+CMS ERROR: 321"; Recv]
    end
  else if String.eqb bytes ("AT+CPMS?" +:+ CRLF) then reply ["+CPMS: SM,29,30,SM,29,30,SM,29,30"]
  else if String.eqb bytes ("AT+CREG?" +:+ CRLF) then reply ["+CREG: 0,1"]
  else if String.eqb bytes ("AT+CSQ" +:+ CRLF) then reply ["+CSQ: 18,99"]
  else if String.eqb bytes ("AT+CCID?" +:+ CRLF) then reply ["+CCID: 8949000000000000001"]
  else if HasPrefix bytes "AT+CMGS=" then [Scan "> "; Recv]
  else reply [].

#[global] Instance sim_modem : Modem sim := {
  write m bytes _ := ({| slots := filter (fun kv => ~ erases bytes kv.1) (slots m) |}, inr (sim_reply m bytes))
}.

(** The first message stored under an index. *)
Definition slot (m : sim) (j : Z) : option string := snd <$> List.find (fun kv => (kv.1 =? j)%Z) (slots m).

Lemma find_filter_kept (l : list (Z * string)) bytes j h :
  erases bytes j = false -> snd <$> List.find (fun kv => (kv.1 =? j)%Z) l = Some h ->
  snd <$> List.find (fun kv => (kv.1 =? j)%Z) (filter (fun kv => ~ erases bytes kv.1) l) = Some h.
Proof.
  intros He. induction l as [|[k v] l IH]; cbn [List.find]; [done|]. rewrite filter_cons. cbn [fst].
  destruct (Z.eqb_spec k j) as [->|Hk].
  - intros Hv. rewrite decide_True by (rewrite He; intros []). cbn [List.find fst]. by rewrite Z.eqb_refl.
  - intros Hv. case_decide; [|auto]. cbn [List.find fst]. replace (k =? j)%Z with false by lia. auto.
Qed.

#[global, program] Instance sim_storage : SimStorage sim := { stored := slot }.
Next Obligation. intros m bytes t m' r j h [= <- _] He Hs. by apply find_filter_kept. Qed.

(** ** Witnesses *)

Definition demo_pdu : string := "07911326040000F0040B911346610089F60000208062917314800CC8F71D14969741F977FD07".

Definition demo_uuid (n : nat) : string := "uuid-" +:+ itoa (Z.of_nat n).

(** An active worker whose SIM holds a message at index 3. *)
Definition demo_world : @world sim memdb :=
  {| w := set_state (set_iccid (NewWorker demo_config) demo_iccid) StateActive;
     prt := (NewSerializer, {| slots := [(3%Z, demo_pdu)] |});
     buf := mem_empty; limiter := Registry_Register NewRateLimiterRegistry demo_iccid (RateConfig demo_config);
     registry := {[demo_iccid := 0%nat]}; pushed := []; uuids := 0; clock := 1700000000000000000 |}.

Definition demo_events : list loop_event := [EvReader (Scan (cmti 3)); EvURC; EvKeepalive].


(** In that run the message is persisted, deleted from the SIM and announced. *)
Example demo_run_received :
  let s' := (run_loop demo_uuid demo_events demo_world).1 in
  slots (prt s').2 = [] /\ length (db_rows (buf s')) = 1 /\ recv1H (w s') = 1%Z /\ length (pushed s') = 1.
Proof. by vm_compute. Qed.

(** The autonomous purge does not wait for the buffer: a message whose
    notification has not been handled yet is deleted and appears nowhere. *)
Lemma capacity_purge_loses_sms :
  let s' := (run_loop demo_uuid [EvCapacity; EvReader (Scan (cmti 3)); EvURC] demo_world).1 in
  (exists d, DecodePDU demo_pdu = Ok d) /\ stored (prt s').2 3 = None /\ db_rows (buf s') = [].
Proof.
  split; [|by vm_compute].
  destruct (DecodePDU demo_pdu) as [d| |] eqn:E; [by exists d|by vm_compute in E|by vm_compute in E].
Qed.

(** A SIM whose ICCID line is not 19 or 20 digits is accepted by [ReadICCID]
    but refused by [Insert]: its messages are read and never persisted. *)
Lemma hex_iccid_never_persisted :
  let bad := "8949F0000000000000001F" in
  parse_iccid ["+CCID: " +:+ bad] = Some bad /\ validICCID bad = false.
Proof. by vm_compute. Qed.

(** ** An unsolicited line during the read

    A reference SIM that reports a change of registration while it answers
    AT+CMGR: +CREG is not among the prefixes the reader takes for URCs, so the
    line becomes part of the response. *)
Record noisy := { quiet_sim : sim }.

#[global] Instance noisy_modem : Modem noisy := {
  write m bytes _ :=
    ({| quiet_sim := {| slots := filter (fun kv => ~ erases bytes kv.1) (slots (quiet_sim m)) |} |},
     inr (match read_slot (quiet_sim m) bytes with
          | Some pdu => reply ["+CMGR: 0,,24"; pdu; "+CREG: 5"]
          | None => sim_reply (quiet_sim m) bytes
          end))
}.

(** The PDU read is the stored one with the line appended; it is not hex, so
    the message is deleted and appears nowhere. *)
Lemma unsolicited_line_loses_sms :
  let s : @world noisy memdb :=
    mkWorld (w demo_world) (NewSerializer, {| quiet_sim := {| slots := [(3%Z, demo_pdu)] |} |}) mem_empty
      (limiter demo_world) (registry demo_world) [] 0 (clock demo_world) in
  let s' := (run_loop demo_uuid [EvReader (Scan (cmti 3)); EvURC] s).1 in
  slots (quiet_sim (prt s').2) = [] /\ db_rows (buf s') = [] /\ pushed s' = [].
Proof. by vm_compute. Qed.
