(* ===== verification/WorkerTasks.v ===== *)
(** * Tasks and states of the worker

    Every task a worker accepts is acknowledged once, in order; shutdown
    acknowledges what is still queued; the exits of the main loop; the init
    guard; the branches of a send. *)

From S2P Require Import Prelude GoString Pdu RateLimit Buffer Serializer Protocol Registry Worker WorkerFrame WorkerSafety.

Section Tasks.
Context {M DB : Type} `{HM : Modem M} `{HDB : SqlEngine DB}.
Variable uuid : nat -> string.
Variable self : nat.

Abbreviation world := (@world M DB).

(** ** Accounting of tasks *)

Definition acked (s : world) : list string := ack_ids (pushed s).
Definition waiting (s : world) : list string := map task_id (inboundCh (w s)).

(** The tasks an event, then a run of the loop, adds to the queue. *)
Definition accepts (s : world) (e : loop_event) : list InboundTask :=
  match e with
  | EvDispatch it => match send_task (w s) it with Some _ => [it] | None => [] end
  | _ => []
  end.

Fixpoint accepted (s : world) (evs : list loop_event) : list InboundTask :=
  match evs with
  | [] => []
  | e :: evs =>
      accepts s e ++
      match loop_step uuid e s with
      | (_, Some _) => []
      | (s', None) => accepted s' evs
      end
  end.

Definition with_ack (it : InboundTask) : Prop := AckFn it = true.
Definition dispatch_with_ack (e : loop_event) : Prop :=
  match e with EvDispatch it => with_ack it | _ => True end.

Lemma nack_all_acks its : forall s : world,
  Forall with_ack its -> acked (nack_all its s).1 = acked s ++ map task_id its.
Proof.
  induction its as [|it its IH]; intros s HF; cbn [nack_all].
  - cbn. by rewrite app_nil_r.
  - apply Forall_cons in HF as [Hit HF]. unfold with_ack in Hit. rewrite Hit.
    cbv [mbind st_bind new_envelope_from st_get push st_modify]. rewrite IH by done.
    unfold acked. cbn. rewrite ack_ids_app, <- app_assoc. done.
Qed.

(** Any handled case that respects [frame] neither acknowledges nor dequeues. *)
Lemma handled_frame (h : st world ()) s :
  preserves frame h ->
  acked (handled h s).1 = acked s /\ inboundCh (w (handled h s).1) = inboundCh (w s).
Proof.
  intros Hh. unfold handled. cbv [mbind st_bind]. specialize (Hh s). destruct (h s) as [s1 u]. cbn in Hh.
  pose proof (after_case_spec s1) as HA. destruct (after_case s1) as [s2 r]. destruct HA as (Hp & Hq & _).
  destruct Hh as [F1 F2 F3 F4 F5]. cbn. unfold acked. by rewrite Hp, Hq, F5, F1.
Qed.

Lemma executeTask_frame it (s : world) :
  with_ack it ->
  acked (handled (executeTask it) s).1 = acked s ++ [task_id it] /\
  inboundCh (w (handled (executeTask it) s).1) = inboundCh (w s).
Proof.
  intros Hit. unfold handled. cbv [mbind st_bind].
  destruct (executeTask_pushes uuid it s Hit) as (ack & HP & _ & HM1 & _ & _ & HQ & _).
  destruct (executeTask it s) as [s1 u]. cbn [fst] in *.
  pose proof (after_case_spec s1) as HA. destruct (after_case s1) as [s2 r]. destruct HA as (Hp & Hq & _).
  cbn [fst]. unfold acked. rewrite Hp, Hq, HP, ack_ids_app. cbn. by rewrite HM1.
Qed.

Lemma loop_step_tasks e (s : world) :
  Forall with_ack (inboundCh (w s)) -> dispatch_with_ack e ->
  let s' := (loop_step uuid e s).1 in
  acked s' ++ waiting s' = acked s ++ waiting s ++ map task_id (accepts s e) /\
  Forall with_ack (inboundCh (w s')).
Proof.
  intros HF He.
  assert (Hfr : forall (h : st world ()), preserves frame h ->
    let s' := (handled h s).1 in
    acked s' ++ waiting s' = acked s ++ waiting s ++ [] /\ Forall with_ack (inboundCh (w s'))).
  { intros h Hh. destruct (handled_frame h s Hh) as [H1 H2]. unfold waiting. cbv zeta. rewrite H1, H2, app_nil_r. by split. }
  destruct e; cbn [loop_step accepts].
  - cbv [mbind st_bind deregister drainInboundCh]. cbn [set_registry w].
    match goal with |- context [nack_all ?l ?s1] => pose proof (nack_all_acks l s1 HF) as H1; destruct (nack_all_queue l s1) as (H2 & _) end.
    destruct (nack_all _ _) as [s2 u]. cbn in H1, H2 |- *. unfold waiting. rewrite H1, H2. cbn.
    rewrite !app_nil_r. split; [done|constructor].
  - destruct (URCCH (prt s).1) as [|urc q]; [cbn; rewrite app_nil_r; by split|].
    set (s0 := set_prt s _). destruct (handled_frame (handleURC uuid urc) s0) as [H1 H2].
    { apply h_handleURC; [exact _|apply (frame_closed uuid)]. }
    unfold waiting. cbv zeta. rewrite H1, H2, app_nil_r. by split.
  - destruct (inboundCh (w s)) as [|it q] eqn:HQ; [cbn; rewrite app_nil_r; split; [done|by rewrite HQ]|].
    apply Forall_cons in HF as [Hit HF]. set (s0 := set_w s _).
    destruct (executeTask_frame it s0 Hit) as [H1 H2]. unfold waiting. cbv zeta. rewrite H1, H2, HQ. cbn.
    rewrite app_nil_r, <- app_assoc. by split.
  - apply Hfr, h_runKeepalive; [exact _|apply (frame_pushing uuid)].
  - apply Hfr, h_checkCapacity; [exact _|apply (frame_pushing uuid)|apply frame_on_port].
  - apply Hfr. by apply (h_pollSignalStrength uuid frame (frame_pushing uuid)).
  - destruct (resetCh (w s)); [|cbn; rewrite app_nil_r; by split].
    set (s0 := set_w s _). destruct (handled_frame (enterReset uuid) s0) as [H1 H2].
    { apply h_enterReset; [exact _|apply (frame_pushing uuid)]. }
    unfold waiting. cbv zeta. rewrite H1, H2, app_nil_r. by split.
  - cbn. rewrite app_nil_r. by split.
  - destruct (send_task (w s) it) as [x|] eqn:Hs; cbn.
    + apply send_task_Some in Hs as [_ ->]. unfold acked, waiting. cbn. rewrite map_app. split; [done|].
      apply Forall_app. split; [done|]. by repeat constructor.
    + rewrite app_nil_r. by split.
  - cbn. rewrite app_nil_r. by split.
  - cbn. rewrite app_nil_r. by split.
  - cbv [mbind st_bind watchdog mret st_ret].
    match goal with |- context [if ?b then _ else _] => destruct b end; cbn; rewrite app_nil_r; by split.
Qed.

(** C8: tasks are acknowledged exactly once, in order.  Over any run of the
    worker's main loop, the message ids acknowledged so far followed by those
    of the tasks still queued are those it started with followed by those of
    the tasks it accepted: none is dropped, repeated or overtaken. *)
Theorem tasks_acked_once_in_order (evs : list loop_event) (s : world) :
  Forall with_ack (inboundCh (w s)) -> Forall dispatch_with_ack evs ->
  let s' := (run_loop uuid evs s).1 in
  acked s' ++ waiting s' = acked s ++ waiting s ++ map task_id (accepted s evs).
Proof.
  revert s. induction evs as [|e evs IH]; intros s HF HE; cbn [run_loop accepted].
  - cbn. by rewrite !app_nil_r.
  - apply Forall_cons in HE as [He HE]. pose proof (loop_step_tasks e s HF He) as [H1 H2].
    cbv [mbind st_bind]. destruct (loop_step uuid e s) as [s1 [x|]]; cbn [fst] in *.
    + cbn. rewrite app_nil_r. done.
    + specialize (IH s1 H2 HE). cbv zeta in IH |- *.
      by rewrite IH, map_app, (app_assoc (acked s1)), H1, <- !app_assoc.
Qed.

(** ** Exits of the main loop *)

Lemma loop_step_exit e (s : world) s' x :
  loop_step uuid e s = (s', Some x) ->
  registry s' !! iccid (w s') = None /\
  (x = StateActive /\ inboundCh (w s') = [] \/
   (x = StateFailed \/ x = StateBanned) /\ state (w s') = x).
Proof.
  assert (Hcase : forall (h : st world ()) s0, handled h s0 = (s', Some x) ->
    registry s' !! iccid (w s') = None /\ (x = StateActive /\ inboundCh (w s') = [] \/
      (x = StateFailed \/ x = StateBanned) /\ state (w s') = x)).
  { intros h s0. unfold handled. cbv [mbind st_bind]. destruct (h s0) as [s1 u].
    pose proof (after_case_spec s1) as HA. destruct (after_case s1) as [s2 r]. intros [= -> ->].
    destruct HA as (_ & _ & _ & _ & _ & Hi & Hst & Hx & Hor & Hreg).
    split; [rewrite Hreg, Hi; apply lookup_delete_eq|]. right. split; [done|]. by rewrite Hst. }
  destruct e; cbn [loop_step]; try (by apply Hcase); try (by intros [=]).
  - cbv [mbind st_bind deregister drainInboundCh]. cbn [set_registry w]. set (s1 := set_w _ _).
    destruct (nack_all_queue (inboundCh (w s)) s1) as (Hq & Hr & Hi).
    destruct (nack_all _ _) as [s2 u]. cbn [fst] in *. intros [= <- <-]. rewrite Hr, Hi, Hq.
    split; [apply lookup_delete_eq|by left].
  - destruct (URCCH (prt s).1); [by intros [=]|apply Hcase].
  - destruct (inboundCh (w s)); [by intros [=]|apply Hcase].
  - destruct (resetCh (w s)); [apply Hcase|by intros [=]].
  - cbv [mbind st_bind watchdog mret st_ret].
    match goal with |- context [if ?b then _ else _] => destruct b end; by intros [=].
Qed.

Lemma run_loop_exit (evs : list loop_event) (s s' : world) (x : State) :
  run_loop uuid evs s = (s', Some x) ->
  registry s' !! iccid (w s') = None /\
  (x = StateActive /\ inboundCh (w s') = [] \/
   (x = StateFailed \/ x = StateBanned) /\ state (w s') = x).
Proof.
  revert s. induction evs as [|e evs IH]; intros s; cbn [run_loop]; [by intros [=]|].
  cbv [mbind st_bind]. destruct (loop_step uuid e s) as [s1 [y|]] eqn:HE; [|apply IH].
  intros [= <- <-]. by eapply loop_step_exit.
Qed.

(** Leaving the main loop.  When [Run] returns, the worker is no longer in
    the registry, and either the context was cancelled and no task is left
    unanswered in its queue, or it returns the terminal state, FAILED or
    BANNED, that it is in. *)
Theorem loop_exit_deregisters (evs : list loop_event) (s s' : world) (x : State) :
  run_loop uuid evs s = (s', Some x) ->
  registry s' !! iccid (w s') = None /\
  (x = StateActive /\ inboundCh (w s') = [] \/
   (x = StateFailed \/ x = StateBanned) /\ state (w s') = x).
Proof. apply run_loop_exit. Qed.

(** ** A modem that stops answering *)

Lemma Execute_timeout_closed (p p' : Serializer * M) cmd t out raw :
  Execute p cmd t = (p', (out, Some (ATError cmd ErrTimeout raw))) -> portClosed p'.1 = true.
Proof.
  destruct p as [s m]. unfold Execute. destruct (closed s); [by intros [=]|].
  destruct (port_write _ _ _ _) as [m1 [e|evs]]; [by intros [=]|].
  destruct (collect _ _ _ _) as [s1 r] eqn:HC. intros [= <- ->]. by eapply collect_timeout.
Qed.

Lemma simple_dead (p : Serializer * M) cmd t :
  portClosed p.1 = true -> exists s' e, simple p cmd t = ((s', p.2), Some e) /\ portClosed s' = true.
Proof.
  destruct p as [s m]. intros Hp. destruct (Execute_dead s m cmd t Hp) as (s' & e & HE & Hp').
  unfold simple. rewrite HE. eauto.
Qed.

(** C26: a keep-alive that times out ends the worker.  The timeout has closed
    the port, so the radio cycle and the hard reset of the recovery ladder fail
    without reaching the modem: the worker is FAILED and exactly one MODEM_HANG
    alert is pushed. *)
Theorem keepalive_timeout_fails (s : world) (p : Serializer * M) (out : list string) (raw : string) :
  Execute (prt s) "AT+CREG?" TimeoutStd = (p, (out, Some (ATError "AT+CREG?" ErrTimeout raw))) ->
  let s' := (runKeepalive uuid s).1 in
  state (w s') = StateFailed /\ (prt s').2 = p.2 /\
  exists env, pushed s' = pushed s ++ [OutModemAlert
    {| Alert_Envelope := env; Alert_ICCID := iccid (w s); AlertCode := AlertModemHang;
       Detail := errors_New "hard reset failed" |}].
Proof.
  intros HE. pose proof (Execute_timeout_closed _ _ _ _ _ _ HE) as Hp.
  assert (HR : RegistrationStatus (prt s) = (p, inl (ATError "AT+CREG?" ErrTimeout raw))).
  { unfold RegistrationStatus, query. by rewrite HE. }
  destruct (simple_dead p "AT+CFUN=0" (TimeoutStd * 2) Hp) as (s1 & e1 & HE1 & Hp1).
  destruct (simple_dead (s1, p.2) "AT+CFUN=1,1" TimeoutReset Hp1) as (s2 & e2 & HE2 & Hp2).
  unfold runKeepalive, enterRecovery, enterReset, alert.
  cbv [mbind st_bind on_port set_st upd st_modify st_get new_envelope push].
  rewrite HR. cbn [set_prt set_w prt w]. change (RadioOff p) with (simple p "AT+CFUN=0" (TimeoutStd * 2)).
  rewrite HE1. cbn [set_prt set_w prt w]. change (HardReset (s1, p.2)) with (simple (s1, p.2) "AT+CFUN=1,1" TimeoutReset).
  rewrite HE2. cbn. split; [done|]. split; [done|]. by eexists.
Qed.
End Tasks.

(** ** Witnesses *)

Definition demo_check : InboundTask := queued_task demo_task.

Definition busy_world : @world sim memdb := set_w demo_world (set_inboundCh (w demo_world) [demo_check]).

Lemma tasks_acked_once_in_order_witness :
  let evs := [EvDispatch demo_check; EvTask; EvCtxDone] in
  let s' := (run_loop demo_uuid evs busy_world).1 in
  acked s' ++ waiting s' =
  acked busy_world ++ waiting busy_world ++ map task_id (accepted demo_uuid busy_world evs).
Proof.
  apply (tasks_acked_once_in_order demo_uuid [EvDispatch demo_check; EvTask; EvCtxDone] busy_world);
    repeat constructor.
Defined.

Example demo_tasks_acked :
  acked (run_loop demo_uuid [EvDispatch demo_check; EvTask; EvCtxDone] busy_world).1 = ["m1"; "m1"].
Proof. by vm_compute. Qed.

Lemma loop_exit_deregisters_witness :
  let s' := (run_loop demo_uuid [EvTask; EvCtxDone] busy_world).1 in
  registry s' !! iccid (w s') = None /\
  (StateActive = StateActive /\ inboundCh (w s') = [] \/
   (StateActive = StateFailed \/ StateActive = StateBanned) /\ state (w s') = StateActive).
Proof. apply (loop_exit_deregisters demo_uuid [EvTask; EvCtxDone] busy_world). by vm_compute. Defined.

Definition mute_world : @world script memdb :=
  {| w := w demo_world; prt := (NewSerializer, [[TimerC]; []]); buf := mem_empty; limiter := ∅;
     registry := ∅; pushed := []; uuids := 0; clock := 0 |}.

Lemma keepalive_timeout_fails_witness :
  let s' := (runKeepalive demo_uuid mute_world).1 in
  state (w s') = StateFailed /\ (prt s').2 = [[]] /\
  exists env, pushed s' = [] ++ [OutModemAlert
    {| Alert_Envelope := env; Alert_ICCID := demo_iccid; AlertCode := AlertModemHang;
       Detail := errors_New "hard reset failed" |}].
Proof.
  exact (keepalive_timeout_fails demo_uuid mute_world (Execute (prt mute_world) "AT+CREG?" TimeoutStd).1 []
           EmptyString eq_refl).
Defined.

(** A successful hard reset leaves the worker INITIALIZING, and nothing in the
    main loop runs the init sequence again or makes it ACTIVE. *)
Lemma reset_leaves_initializing :
  let s' := (run_loop demo_uuid [EvRequestReset; EvReset; EvKeepalive; EvSignal; EvTask] demo_world) in
  s'.2 = None /\ state (w s'.1) = StateInitializing.
Proof. by vm_compute. Qed.

(** A worker that fails with tasks queued returns without acknowledging them. *)
Lemma failed_worker_drops_queue :
  let s0 := set_w mute_world (set_inboundCh (w mute_world) [demo_check]) in
  let s' := run_loop demo_uuid [EvKeepalive] s0 in
  s'.2 = Some StateFailed /\ waiting s'.1 = ["m1"] /\ acked s'.1 = [].
Proof. by vm_compute. Qed.
