(* ===== verification/WorkerSend.v ===== *)
(** * Sending and initialisation of the worker

    The branches of a SEND_SMS task, and what holds once a worker has been
    initialised and registered. *)

From S2P Require Import Prelude GoString Pdu RateLimit Buffer Serializer Protocol Registry Worker WorkerFrame WorkerSafety.

(** A payload that can be sent: it decodes, its fields are there, the number is
    in E.164 form and the body has at most 10000 bytes. *)
Record sendable (task : Task) (p : SendSMSPayload) : Prop := {
  sd_decodes : Unmarshal_SendSMSPayload (Payload task) = inr p;
  sd_iccid : Send_ICCID p <> "";
  sd_to : Send_To p <> "";
  sd_body : Send_Body p <> "";
  sd_number : exists d ds, bytes_of (Send_To p) = 43%Z :: d :: ds /\ (49 <= d <= 57)%Z /\
                Forall (fun x => 48 <= x <= 57)%Z ds /\ 6 <= length ds <= 14;
  sd_length : (Z.of_nat (String.length (Send_Body p)) <= 10000)%Z }.

Lemma validE164_spec to :
  validE164 to = true <->
  exists d ds, bytes_of to = 43%Z :: d :: ds /\ (49 <= d <= 57)%Z /\ Forall (fun x => 48 <= x <= 57)%Z ds /\ 6 <= length ds <= 14.
Proof.
  unfold validE164. split.
  - destruct (bytes_of to) as [|c [|d ds]]; [done|by repeat case_match|].
    destruct (decide (c = 43%Z)) as [->|Hc]; [|by repeat case_match].
    rewrite !andb_true_iff, forallb_forall. unfold is_digit. intros ((((H1 & H2) & H3) & H4) & H5). exists d, ds.
    split; [done|]. split; [lia|]. split; [|lia]. rewrite Forall_forall. intros x Hx%list_elem_of_In. specialize (H3 x Hx). lia.
  - intros (d & ds & -> & Hd & Hds & Hl). rewrite !andb_true_iff, forallb_forall. unfold is_digit.
    split_and!; try lia. intros x Hx%list_elem_of_In. rewrite Forall_forall in Hds. specialize (Hds x Hx). cbn in Hds. lia.
Qed.

Section Send.
Context {M DB : Type} `{HM : Modem M} `{HDB : SqlEngine DB}.
Variable uuid : nat -> string.
Variable self : nat.

Abbreviation world := (@world M DB).

(** ** Sending *)

(** Every part was accepted by the modem, one after the other. *)
Fixpoint sends_ok (p : Serializer * M) (parts : list EncodedPDU) (p' : Serializer * M) : Prop :=
  match parts with
  | [] => p' = p
  | part :: parts => exists p1 mr,
      ExecuteSend p (HexStr part) (Z.of_nat (Length part)) TimeoutSend = (p1, inr mr) /\ sends_ok p1 parts p'
  end.

(** The parts before one were accepted, that one was not, and none was tried after it. *)
Definition sends_fail (p : Serializer * M) (parts : list EncodedPDU) (p' : Serializer * M) : Prop :=
  exists before part after p1 e, parts = before ++ part :: after /\ sends_ok p before p1 /\
    ExecuteSend p1 (HexStr part) (Z.of_nat (Length part)) TimeoutSend = (p', inl e).

Lemma send_parts_spec parts : forall i n (s s' : world) err,
  send_parts parts i n s = (s', err) ->
  s' = set_prt s (prt s') /\
  match err with
  | None => sends_ok (prt s) parts (prt s')
  | Some e => Code e = ErrCodeSendFailed /\ sends_fail (prt s) parts (prt s')
  end.
Proof.
  induction parts as [|part parts IH]; intros i n s s' err; cbn [send_parts].
  - intros [= <- <-]. by destruct s.
  - cbv [mbind st_bind on_port]. destruct (ExecuteSend _ _ _ _) as [p1 [e|mr]] eqn:HE.
    + intros [= <- <-]. split; [done|]. split; [done|]. by exists [], part, parts, (prt s), e.
    + intros HS. destruct (IH _ _ _ _ _ HS) as [Hs Herr]. split; [by rewrite Hs|].
      destruct err as [e|]; cbn in Herr; cbn [sends_ok]; [|eauto].
      destruct Herr as [Hc (before & part' & after & p2 & e2 & -> & Hb & Hx)]. split; [done|].
      exists (part :: before), part', after, p2, e2. cbn [sends_ok app]. split; [done|]. split; [by exists p1, mr|done].
Qed.

(** [doSendSMS] after the checks of the payload. *)
Definition send_checked (p : SendSMSPayload) : st world (option json * option TaskError) :=
  ok ← limiter_Allow;
  if negb ok then mret (None, Some (task_error ErrCodeRateLimited (errors_New "per-SIM rate limit exceeded")))
  else match EncodePDU (Send_To p) (Send_Body p) (Send_Encoding p) with
  | Panic => mret (None, None)
  | Err e => mret (None, Some (task_error ErrCodeSendFailed (pdu_go_error e)))
  | Ok parts =>
    err ← send_parts parts 1 (length parts);
    match err with
    | Some e => mret (None, Some e)
    | None =>
      _ ← upd (fun x => set_sent1H x (sent1H x + 1)%Z);
      x ← st_get w;
      mret (Some (SendSMSResult (Z.of_nat (length parts)) (signalRSSI x) (RegStatusString (regStat x))), None)
    end
  end.

Lemma doSendSMS_checks task s :
  (exists p, sendable task p /\ doSendSMS task s = send_checked p s) \/
  ((forall p, ~ sendable task p) /\ exists e, doSendSMS task s = (s, (None, Some (task_error ErrCodeInvalidPayload e)))).
Proof.
  clear uuid self. unfold doSendSMS. destruct (Unmarshal_SendSMSPayload (Payload task)) as [e|p] eqn:HP.
  { right. split; [intros p []; congruence|by eexists]. }
  assert (~ sendable task p -> forall p', ~ sendable task p') as Hp.
  { intros Hn p' Hp'. assert (p' = p) as -> by (destruct Hp'; congruence). by apply Hn. }
  destruct (String.eqb_spec (Send_ICCID p) ""); [right; split; [apply Hp; by intros []|by eexists]|].
  destruct (String.eqb_spec (Send_To p) ""); [right; split; [apply Hp; by intros []|by eexists]|].
  destruct (String.eqb_spec (Send_Body p) ""); [right; split; [apply Hp; by intros []|by eexists]|]. cbn [orb].
  pose proof (validE164_spec (Send_To p)) as HV. destruct (validE164 (Send_To p)); cbn [negb].
  2:{ right. split; [|by eexists]. apply Hp. intros [_ _ _ _ Hd _]. by apply HV in Hd. }
  destruct (Z.ltb_spec maxSMSBody (Z.of_nat (String.length (Send_Body p)))) as [Hlen|Hlen]; unfold maxSMSBody in Hlen.
  { right. split; [|by eexists]. apply Hp. intros [_ _ _ _ _ Hl]. lia. }
  left. exists p. split; [|done]. split; [done..|by apply HV|lia].
Qed.

(** The task failed with this code and has no result. *)
Definition refused (code : string) (result : option json) (err : option TaskError) : Prop :=
  result = None /\ exists e, err = Some e /\ Code e = code.


(** ** Initialisation *)

(** What the init steps other than the ICCID's leave alone. *)
Lemma init_frame (s s' : world) : frame s s' -> cfg (w s') = cfg (w s) /\ iccid (w s') = iccid (w s).
Proof. intros [_ Hc Hi _ _]. by split. Qed.

(** A step keeps the ICCID guard: settings stay, and the ICCID, if it is the
    expected one, stays so. *)
Definition guarded (s : world) : Prop :=
  ExpectedICCID (cfg (w s)) = "" \/ iccid (w s) = ExpectedICCID (cfg (w s)).

Definition is_iccid_step (name : string) : bool := String.eqb name "read ICCID".

Lemma run_steps_guarded steps : forall (s s' : world),
  run_steps steps s = (s', None) ->
  Forall (fun step => is_iccid_step step.1 = false -> preserves frame step.2) steps ->
  Forall (fun step => is_iccid_step step.1 = true -> forall s0 s1 e, step.2 s0 = (s1, e) ->
            cfg (w s1) = cfg (w s0) /\ (e = None -> guarded s1)) steps ->
  cfg (w s') = cfg (w s) /\
  (guarded s \/ existsb (fun step => is_iccid_step step.1) steps = true -> guarded s').
Proof.
  induction steps as [|[name fn] steps IH]; intros s s'; cbn [run_steps].
  - intros [= <-] _ _. split; [done|]. by intros [?|?].
  - cbv [mbind st_bind]. destruct (fn s) as [s1 e] eqn:HE. intros HR HF HI.
    apply Forall_cons in HF as [Hf HF]. apply Forall_cons in HI as [Hi HI]. cbn [fst snd] in Hf, Hi.
    assert (Hrun : run_steps steps s1 = (s', None) /\ (is_iccid_step name = true -> e = None)).
    { destruct e as [err|]; [|done]. destruct (non_fatal name) eqn:Hn; [|discriminate]. split; [done|].
      unfold non_fatal, is_iccid_step in *. intros ->%String.eqb_eq. discriminate. }
    destruct Hrun as [Hrun Hnone]. destruct (IH _ _ Hrun HF HI) as [Hc Hg]. cbn [existsb fst].
    destruct (is_iccid_step name) eqn:Hname.
    + destruct (Hi eq_refl _ _ _ HE) as [Hc1 Hg1]. split; [congruence|]. intros _. apply Hg. left. auto.
    + specialize (Hf eq_refl s). rewrite HE in Hf. cbn in Hf. apply init_frame in Hf as [Hc1 Hi1].
      split; [congruence|]. intros [Hgs|Hex]; apply Hg; [left|by right].
      unfold guarded in *. by rewrite Hc1, Hi1.
Qed.

Lemma upd_frame f : fixed f -> preserves (S := world) frame (upd f).
Proof. apply (frame_core uuid). Qed.

Lemma init_steps_frame :
  Forall (fun step => is_iccid_step step.1 = false -> preserves (S := world) frame step.2) init_steps.
Proof.
  unfold init_steps. repeat apply Forall_cons_2; try apply Forall_nil_2; cbn [fst snd]; intros Hn;
    try discriminate; try apply frame_on_port.
  - apply (h_retryN uuid frame (frame_core uuid)), frame_on_port.
  - apply preserves_bind; [exact _|apply frame_on_port|intros r; apply preserves_ret; exact _].
  - apply preserves_bind; [exact _|apply frame_on_port|intros [e|v]; [apply preserves_ret; exact _|]].
    apply preserves_bind; [exact _|by apply upd_frame|intros _; apply preserves_ret; exact _].
  - apply preserves_bind; [exact _|apply frame_on_port|intros [e|v]; [apply preserves_ret; exact _|]].
    apply preserves_bind; [exact _|by apply upd_frame|intros _; apply preserves_ret; exact _].
Qed.

Lemma init_steps_iccid :
  Forall (fun step => is_iccid_step step.1 = true -> forall (s0 s1 : world) e, step.2 s0 = (s1, e) ->
            cfg (w s1) = cfg (w s0) /\ (e = None -> guarded s1)) init_steps.
Proof.
  unfold init_steps. repeat apply Forall_cons_2; try apply Forall_nil_2; cbn [fst snd]; intros Hn;
    try discriminate. intros s0 s1 e. cbv [mbind st_bind st_get].
  pose proof (h_retryNVal uuid frame (frame_core uuid) 3 (on_port ReadICCID) (frame_on_port _) (errors_New EmptyString) s0) as HF.
  destruct (retryNVal _ _ _ _) as [s2 [err|ic]]; cbn in HF; apply init_frame in HF as [Hc Hi].
  - intros [= <- <-]. by split.
  - destruct (String.eqb_spec (ExpectedICCID (cfg (w s2))) EmptyString) as [He|He]; cbn [negb andb].
    + intros [= <- <-]. split; [done|]. intros _. by left.
    + destruct (String.eqb_spec ic (ExpectedICCID (cfg (w s2)))) as [Hic|Hic]; cbn [negb]; intros [= <- <-];
        (split; [done|]); [|done]. intros _. right. done.
Qed.

(** The registry is not touched before registration. *)
Definition same_registry (s s' : world) : Prop := registry s' = registry s.

#[local] Instance same_registry_preorder : PreOrder same_registry.
Proof. split; [by intros s | intros s1 s2 s3; unfold same_registry; congruence]. Qed.

Lemma same_registry_core : core_rel uuid same_registry.
Proof.
  pose proof (frame_core uuid (M := M) (DB := DB)) as HF.
  split; intros; intros s; apply fr_registry; by apply HF.
Qed.

Lemma runInitSequence_registry : preserves same_registry runInitSequence.
Proof. apply (h_runInitSequence uuid same_registry same_registry_core). by intros f _ s. Qed.

Lemma start_outcome (dial : res M) (open : nat -> res M) (s s' : world) (x : option State) :
  start self dial open s = (s', x) ->
  match x with
  | None =>
      state (w s') = StateActive /\ registry s' = <[iccid (w s') := self]> (registry s) /\
      limiter s' !! iccid (w s') = Some (newSIMRateLimiter (RateConfig (cfg (w s)))) /\
      (ExpectedICCID (cfg (w s)) <> "" -> iccid (w s') = ExpectedICCID (cfg (w s)))
  | Some f => f = StateFailed /\ state (w s') = StateFailed /\ registry s' = registry s
  end.
Proof.
  unfold start. cbv [mbind st_bind st_modify]. pose proof (h_openPort uuid frame (frame_core uuid) dial open s) as HO.
  destruct (openPort dial open s) as [s1 [e|m]]; cbn [fst] in HO; destruct HO as [_ Hc1 _ Hr1 _].
  { intros [= <- <-]. by split. }
  set (s2 := set_prt s1 (NewSerializer, m)).
  assert (Hreg : registry (runInitSequence s2).1 = registry s1) by exact (runInitSequence_registry s2).
  destruct (runInitSequence s2) as [s3 [e|]] eqn:HI; cbn [fst] in Hreg.
  { intros [= <- <-]. cbn. by rewrite Hreg, Hr1. }
  intros [= <- <-]. cbn.
  destruct (run_steps_guarded _ _ _ HI init_steps_frame init_steps_iccid) as [Hc Hg].
  cbn in Hc. split; [done|]. split; [by rewrite Hreg, Hr1|].
  split; [unfold Registry_Register; rewrite lookup_insert_eq; by rewrite Hc, Hc1|].
  intros Hne. destruct (Hg (or_intror eq_refl)) as [Hg'|Hg']; rewrite Hc, Hc1 in Hg'; done.
Qed.

(** One of at most [n] calls of [f], from [p] to [p'], succeeded with [v]; those before it failed. *)
Fixpoint attempts {A} (n : nat) (f : Serializer * M -> (Serializer * M) * res A) (p p' : Serializer * M) (v : A) : Prop :=
  match n with
  | O => False
  | S n => match f p with
           | (p1, inr a) => p' = p1 /\ v = a
           | (p1, inl _) => attempts n f p1 p' v
           end
  end.

Definition acked_cmd (f : Serializer * M -> (Serializer * M) * option go_error) (p : Serializer * M) : (Serializer * M) * res () :=
  let '(p, e) := f p in (p, match e with Some e => inl e | None => inr tt end).

(** After the ping: the commands in their order, the one that reads the
    capabilities whatever it gives. *)
Definition talked (expected : string) (p1 p' : Serializer * M) (ic : string) : Prop :=
  exists p2 p3 p4 p5,
    DisableEcho p1 = (p2, None) /\ SetPDUMode p2 = (p3, None) /\ EnableCMTIURCs p3 = (p4, None) /\
    attempts 3 ReadICCID (ReadCapabilities p4).1 p5 ic /\
    (expected = "" \/ ic = expected) /\ p' = (ReadOperator (ReadIMSI p5).1).1.

(** The modem answered every command a worker cannot do without: it responded,
    stopped its echo, took the PDU mode, announces messages, and its SIM's ICCID
    [ic] is the one expected, if any is.  [p'] is the port after the operator was read. *)
Definition initialised (expected : string) (p p' : Serializer * M) (ic : string) : Prop :=
  exists p1, attempts 3 (acked_cmd Ping) p p1 tt /\ talked expected p1 p' ic.

Lemma attempts_det {A} n (f : Serializer * M -> (Serializer * M) * res A) : forall p p1 p2 v1 v2,
  attempts n f p p1 v1 -> attempts n f p p2 v2 -> p1 = p2 /\ v1 = v2.
Proof.
  induction n as [|n IH]; intros p p1 p2 v1 v2; cbn [attempts]; [done|].
  destruct (f p) as [q [e|a]]; [apply IH|]. intros [-> ->] [-> ->]. done.
Qed.

Lemma retryN_attempts n f : forall (s s' : world) e0 r,
  retryN n (on_port f) e0 s = (s', r) -> n <> 0 \/ e0 <> None ->
  (w s' = w s /\ limiter s' = limiter s) /\
  match r with None => attempts n (acked_cmd f) (prt s) (prt s') tt | Some _ => forall p, ~ attempts n (acked_cmd f) (prt s) p tt end.
Proof.
  induction n as [|n IH]; intros s s' e0 r; cbn [retryN attempts].
  - intros [= <- <-] [?|?]; [done|]. split; [done|]. destruct e0; [by intros p []|done].
  - cbv [mbind st_bind on_port acked_cmd]. fold acked_cmd. destruct (f (prt s)) as [q [e|]]; [|by intros [= <- <-]].
    intros HR _. destruct (IH _ _ _ _ HR) as [H1 H2]; [by right|]. by split.
Qed.

Lemma retryNVal_attempts n f : forall (s s' : world) e0 r,
  retryNVal n (on_port f) e0 s = (s', r) ->
  (w s' = w s /\ limiter s' = limiter s) /\
  match r with inr v => attempts n f (prt s) (prt s') v | inl _ => forall p v, ~ attempts n f (prt s) p v end.
Proof.
  induction n as [|n IH]; intros s s' e0 r; cbn [retryNVal attempts].
  - intros [= <- <-]. split; [done|]. by intros p v [].
  - cbv [mbind st_bind on_port]. destruct (f (prt s)) as [q [e|v]]; [|by intros [= <- <-]].
    intros HR. destruct (IH _ _ _ _ HR) as [H1 H2]. by split.
Qed.

Lemma run_step name (fn : st world (option go_error)) steps s :
  run_steps ((name, fn) :: steps) s =
  let '(s1, e) := fn s in
  match e with
  | None => run_steps steps s1
  | Some e => if non_fatal name then run_steps steps s1 else (s1, Some (Wrapf "init step %q: %w" [name] e))
  end.
Proof. cbn [run_steps]. cbv [mbind st_bind]. destruct (fn s) as [s1 [e|]]; [|done]. by destruct (non_fatal name). Qed.

(** The last steps, from the ICCID on. *)
Lemma init_tail (s s' : world) err :
  run_steps (drop 5 init_steps) s = (s', err) ->
  limiter s' = limiter s /\
  match err with
  | None => exists p5, attempts 3 ReadICCID (prt s) p5 (iccid (w s')) /\
      (ExpectedICCID (cfg (w s)) = "" \/ iccid (w s') = ExpectedICCID (cfg (w s))) /\ prt s' = (ReadOperator (ReadIMSI p5).1).1
  | Some _ => forall p5 ic, attempts 3 ReadICCID (prt s) p5 ic -> ~ (ExpectedICCID (cfg (w s)) = "" \/ ic = ExpectedICCID (cfg (w s)))
  end.
Proof.
  unfold init_steps. cbn [drop]. rewrite run_step. cbv [mbind st_bind mret st_ret].
  destruct (retryNVal 3 (on_port ReadICCID) (errors_New "") s) as [s1 r1] eqn:E1.
  apply retryNVal_attempts in E1 as [[W1 L1] A1]. destruct r1 as [e|ic].
  { intros [= <- <-]. split; [done|]. intros p5 ic H. by destruct (A1 p5 ic). }
  cbv [st_get]. rewrite W1. destruct (negb _ && _) eqn:Ei.
  { intros [= <- <-]. split; [done|]. intros p5 ic' H. destruct (attempts_det _ _ _ _ _ _ _ A1 H) as [_ <-].
    apply andb_true_iff in Ei as [H1%negb_true_iff%String.eqb_neq H2%negb_true_iff%String.eqb_neq]. tauto. }
  cbv [upd st_modify]. rewrite run_step. cbv [mbind st_bind mret st_ret on_port]. cbn [set_w prt].
  destruct (ReadIMSI (prt s1)) as [p6 r6] eqn:E6. destruct r6 as [e6|v6]; cbn [non_fatal String.eqb Ascii.eqb Bool.eqb orb];
    rewrite run_step; cbv [mbind st_bind mret st_ret on_port]; cbn [set_w set_prt prt];
    destruct (ReadOperator p6) as [p7 [e7|v7]] eqn:E7; intros [= <- <-]; (split; [done|]);
    (exists (prt s1); split; [exact A1|]); rewrite E6; cbn [fst]; rewrite E7; (split; [|done]); cbn;
    destruct (String.eqb_spec (ExpectedICCID (cfg (w s))) ""), (String.eqb_spec ic (ExpectedICCID (cfg (w s)))); auto; done.
Qed.

(** The init sequence succeeds exactly when the modem did its part. *)
Lemma runInitSequence_spec (s s' : world) err :
  runInitSequence s = (s', err) ->
  limiter s' = limiter s /\
  match err with
  | None => initialised (ExpectedICCID (cfg (w s))) (prt s) (prt s') (iccid (w s'))
  | Some _ => forall p ic, ~ initialised (ExpectedICCID (cfg (w s))) (prt s) p ic
  end.
Proof.
  unfold runInitSequence. rewrite <- (take_drop 5 init_steps). pose proof init_tail as HT. revert HT.
  generalize (drop 5 (@init_steps M DB HM)). intros tail HT. unfold init_steps. cbn [take app]. rewrite run_step.
  destruct (retryN 3 (on_port Ping) None s) as [s1 r1] eqn:E1. apply retryN_attempts in E1 as [[W1 L1] A1]; [|by left].
  destruct r1 as [e|]; [intros [= <- <-]; split; [done|]; intros p ic (p1 & H & _); by destruct (A1 p1)|].
  assert (forall p ic, initialised (ExpectedICCID (cfg (w s))) (prt s) p ic -> talked (ExpectedICCID (cfg (w s1))) (prt s1) p ic) as Hi.
  { intros p ic (p1 & H1 & H). rewrite W1. by destruct (attempts_det _ _ _ _ _ _ _ A1 H1) as [-> _]. }
  rewrite run_step. unfold on_port at 1. destruct (DisableEcho (prt s1)) as [p2 [e2|]] eqn:E2.
  { intros [= <- <-]. split; [done|]. intros p ic (q2 & q3 & q4 & q5 & H2 & _)%Hi. congruence. }
  rewrite run_step. unfold on_port at 1. cbn [set_prt prt]. destruct (SetPDUMode p2) as [p3 [e3|]] eqn:E3.
  { intros [= <- <-]. split; [done|]. intros p ic (q2 & q3 & q4 & q5 & H2 & H3 & _)%Hi. congruence. }
  rewrite run_step. unfold on_port at 1. cbn [set_prt prt]. destruct (EnableCMTIURCs p3) as [p4 [e4|]] eqn:E4.
  { intros [= <- <-]. split; [done|]. intros p ic (q2 & q3 & q4 & q5 & H2 & H3 & H4 & _)%Hi. congruence. }
  rewrite run_step. cbv [mbind st_bind mret st_ret]. unfold on_port at 1. cbn [set_prt prt].
  destruct (ReadCapabilities p4) as [pc rc] eqn:Ec. set (s5 := set_prt _ pc).
  assert (run_steps tail s5 = (s', err) -> limiter s' = limiter s /\
    match err with None => initialised (ExpectedICCID (cfg (w s))) (prt s) (prt s') (iccid (w s'))
    | Some _ => forall p ic, ~ initialised (ExpectedICCID (cfg (w s))) (prt s) p ic end) as Hend.
  { intros HR. apply HT in HR as [HL HR]. change (prt s5) with pc in HR. change (w s5) with (w s1) in HR.
    split; [by rewrite HL|]. destruct err.
    - intros p ic (q2 & q3 & q4 & q5 & H2 & H3 & H4 & H5 & H6 & _)%Hi. assert (q4 = p4) as -> by congruence.
      rewrite Ec in H5. by apply (HR q5 ic H5).
    - destruct HR as (p5 & H5 & H6 & H7). exists (prt s1). split; [done|]. exists p2, p3, p4, p5.
      rewrite Ec. rewrite W1 in H6. by split_and!. }
  by destruct rc.
Qed.

(** What opening the port leaves alone. *)
Lemma openPort_limiter dial open (s : world) : limiter (openPort dial open s).1 = limiter s /\ cfg (w (openPort dial open s).1) = cfg (w s).
Proof.
  split; [|apply (h_openPort uuid frame (frame_core uuid) dial open s)].
  assert (forall n a (s : world), limiter (open_device open a n s).1 = limiter s) as HO.
  { induction n as [|n IH]; intros a s0; cbn [open_device]; [done|]. destruct (open a); [|done]. exact (IH (S a) _). }
  unfold openPort. cbv [mbind st_bind st_get]. destruct (_ && _); [done|apply HO].
Qed.

End Send.

(** ** Witnesses *)

Definition demo_send : Task :=
  {| Task_Envelope := {| Type_ := TypeTask; MessageID := "m2"; TS := 0 |}; Action := ActionSendSMS;
     Payload := Some (JObj [("iccid", JStr demo_iccid); ("to", JStr "+491701234567"); ("body", JStr "hi")]) |}.

(** A modem that prompts and then confirms with reference 7. *)
Definition send_world : @world script memdb :=
  {| w := w demo_world; prt := (NewSerializer, [[Scan "> "; Recv]; [Scan "+CMGS: 7"; Scan "OK"; Recv; Recv]]);
     buf := mem_empty; limiter := limiter demo_world; registry := ∅; pushed := []; uuids := 0; clock := 0 |}.

Definition demo_payload : SendSMSPayload :=
  match Unmarshal_SendSMSPayload (Payload demo_send) with inr p => p | inl _ => Build_SendSMSPayload "" "" "" "" end.

Lemma demo_sendable : sendable demo_send demo_payload.
Proof. split; [by vm_compute..| |by_eval]. apply validE164_spec. by vm_compute. Qed.


Definition fresh_world (expected : string) : @world sim memdb :=
  {| w := NewWorker {| Port := "/dev/ttyUSB0"; GatewayID := "gw1"; ExpectedICCID := expected;
        RateConfig := RateConfig demo_config; SIMCapacityWarnPct := 80; SIMCapacityPurgePct := 95;
        InboundQueueSize := 0; StallDuration := 0; SignalPollInterval := 0; PortOpenRetries := 0 |};
     prt := (NewSerializer, {| slots := [] |}); buf := mem_empty; limiter := ∅;
     registry := ∅; pushed := []; uuids := 0; clock := 0 |}.

Definition demo_open (n : nat) : res sim :=
  if n =? 2 then inr {| slots := [] |} else inl (errors_New "no such device").

