(* ===== verification/Supervisor.v ===== *)
(** * The worker supervisor (internal/modem/supervisor.go)

    [RunSupervised] restarts the worker of a port, with a fresh [Worker] for
    each attempt, until the context is cancelled or the SIM is banned.  The
    environment of an attempt is a record: what opening the port gives, the
    events of the main loop, and when the context is cancelled. *)

From S2P Require Import Prelude GoString Pdu RateLimit Buffer Serializer Protocol Registry Worker WorkerFrame WorkerSafety WorkerTasks WorkerSend.

Section Supervisor.
Context {M DB : Type} `{HM : Modem M} `{HDB : SqlEngine DB}.
Variable uuid : nat -> string.

Abbreviation world := (@world M DB).

(** One attempt: the modem found when the port is opened, given the modem as
    the last attempt left it; the events of the loop; whether the context was
    cancelled when [Run] had returned; the back-off that elapsed, or [None]
    when the context was cancelled during it. *)
Record attempt := {
  at_dial : M -> res M;
  at_open : M -> nat -> res M;
  at_events : list loop_event;
  at_cancelled : bool;
  at_backoff : option Z }.

(** The loop of [RunSupervised]; [factory] is [NewWorker] of one configuration,
    [addr] the address of the next worker it makes.  [Run] returns
    [StateActive] only when the context is done.  A list of attempts that ends,
    or events that end inside a worker's loop, leave the supervisor running:
    [None]. *)
Fixpoint RunSupervised (conf : WorkerConfig) (addr : nat) (attempts : list attempt) : st world (option State) :=
  match attempts with
  | [] => mret None
  | a :: attempts =>
      _ ← st_modify (fun wd => set_w wd (NewWorker conf));
      m ← st_get (fun wd => (prt wd).2);
      r ← Run uuid addr (at_dial a m) (at_open a m) (at_events a);
      match r with
      | None => mret None
      | Some finalState =>
          if at_cancelled a || bool_decide (finalState = StateActive) then mret (Some finalState)
          else if bool_decide (finalState = StateBanned) then mret (Some finalState)
          else
            match at_backoff a with
            | None => mret (Some finalState)
            | Some delay => _ ← sleep delay; RunSupervised conf (S addr) attempts
            end
      end
  end.

(** ** Registration over a run *)

Lemma run_loop_registry evs : forall (s s' : world) r,
  run_loop uuid evs s = (s', r) ->
  iccid (w s') = iccid (w s) /\
  registry s' = match r with None => registry s | Some _ => delete (iccid (w s)) (registry s) end.
Proof.
  induction evs as [|e evs IH]; intros s s' r; cbn [run_loop]; [by intros [= <- <-]|].
  cbv [mbind st_bind]. pose proof (loop_step_registry uuid e s) as HS.
  destruct (loop_step uuid e s) as [s1 [x|]]; [by intros [= <- <-]|]. destruct HS as [Hi Hr].
  intros HR. destruct (IH _ _ _ HR) as [Hi' Hr']. split; [congruence|]. by rewrite Hr', Hi, Hr.
Qed.

(** Only the end of the context makes the main loop return ACTIVE. *)
Lemma run_loop_active evs : forall (s s' : world), run_loop uuid evs s = (s', Some StateActive) -> EvCtxDone ∈ evs.
Proof.
  assert (forall h (s s' : world), handled h s = (s', Some StateActive) -> False) as Hh.
  { intros h s s'. unfold handled, after_case. cbv [mbind st_bind]. destruct (h s) as [s1 u].
    destruct (state (w (set_w s1 _))) eqn:E; cbn in E; try (by intros [=]); cbn; rewrite E; by intros [=]. }
  induction evs as [|e evs IH]; intros s s'; cbn [run_loop]; [by intros [=]|].
  cbv [mbind st_bind]. destruct (loop_step uuid e s) as [s1 [x|]] eqn:HE; [|intros HR; right; by eapply IH].
  intros [= -> ->]. destruct e; [left|..]; exfalso; revert HE; cbn [loop_step]; try apply Hh; try (by intros [=]).
  - destruct (URCCH (prt s).1); [by intros [=]|apply Hh].
  - destruct (inboundCh (w s)); [by intros [=]|apply Hh].
  - destruct (resetCh (w s)); [apply Hh|by intros [=]].
  - cbv [mbind st_bind watchdog mret st_ret]. match goal with |- context [if ?b then _ else _] => destruct b end; by intros [=].
Qed.

(** A worker that has returned leaves no entry of its own, and returns the
    terminal state it is in unless the context is done. *)
Lemma Run_exit addr dial open evs (s s' : world) x :
  Run uuid addr dial open evs s = (s', Some x) ->
  registry s' ⊆ registry s /\
  (x = StateActive /\ EvCtxDone ∈ evs \/ (x = StateFailed \/ x = StateBanned) /\ state (w s') = x).
Proof.
  unfold Run. cbv [mbind st_bind]. destruct (start addr dial open s) as [s1 r1] eqn:HS.
  apply (start_outcome uuid) in HS. destruct r1 as [f|].
  - destruct HS as (-> & Hst & Hr). intros [= <- <-]. cbn. split; [by rewrite Hr|auto].
  - destruct (run_loop uuid evs s1) as [s2 [y|]] eqn:HL; [|by intros [=]].
    destruct (run_loop_registry _ _ _ _ HL) as [_ Hr]. destruct (run_loop_exit uuid _ _ _ _ HL) as [_ Hx].
    intros [= <- <-]. cbn. split; [destruct HS as (_ & Hreg & _); rewrite Hr, Hreg, delete_insert_eq; apply delete_subseteq|].
    destruct Hx as [[-> _]|Hx]; [left; split; [done|by eapply run_loop_active]|by right].
Qed.

(** An attempt after which the supervisor goes on: the context was not done and
    the back-off elapsed. *)
Definition goes_on (a : attempt) : Prop := at_cancelled a = false /\ is_Some (at_backoff a).


(** ** Messages over a start

    Opening the port and the init sequence leave the SIM's messages alone. *)

Section Messages.
Context `{!SimStorage M} `{!SqlLaws DB}.

(** Opening the port again finds the SIM as it was left. *)
Definition reopens (a : attempt) : Prop :=
  (forall m m', at_dial a m = inr m' -> forall j, stored m' j = stored m j) /\
  (forall m n m', at_open a m n = inr m' -> forall j, stored m' j = stored m j).

(** A port that was opened is one of the outcomes of opening. *)
Lemma openPort_outcome dial open (s s' : world) m :
  openPort dial open s = (s', inr m) -> dial = inr m \/ exists n, open n = inr m.
Proof.
  assert (HO : forall k n (s0 s1 : world), open_device open n k s0 = (s1, inr m) -> exists n, open n = inr m).
  { induction k as [|k IH]; intros n s0 s1; cbn [open_device]; [by intros [=]|].
    destruct (open n) as [e|m'] eqn:Ho; [apply IH|]. intros [= _ <-]. eauto. }
  unfold openPort. cbv [mbind st_bind st_get]. destruct (_ && _).
  - destruct dial as [e|m']; intros [= _ <-]; auto.
  - intros Hop. right. by eapply HO.
Qed.

(** Messages, rows and the task queue. *)
Definition keeps_queue (s s' : world) : Prop := keeps s s' /\ inboundCh (w s') = inboundCh (w s).

#[local] Instance keeps_queue_preorder : PreOrder keeps_queue.
Proof.
  split; [by intros s|]. intros s1 s2 s3 [K1 Q1] [K2 Q2]. split; [by etransitivity|congruence].
Qed.

Lemma keeps_queue_core : core_rel uuid keeps_queue.
Proof.
  pose proof (keeps_core uuid (M := M) (DB := DB)) as HK. pose proof (frame_core uuid (M := M) (DB := DB)) as HF.
  split; intros; intros s; (split; [by apply HK|apply fr_queue; by apply HF]).
Qed.

Lemma start_keeps addr a (s : world) :
  reopens a -> keeps_queue s (start addr (at_dial a (prt s).2) (at_open a (prt s).2) s).1.
Proof.
  intros [Hd Ho]. unfold start. cbv [mbind st_bind st_modify st_get mret st_ret].
  pose proof (h_openPort uuid keeps_queue keeps_queue_core (at_dial a (prt s).2) (at_open a (prt s).2) s) as HK.
  destruct (openPort _ _ s) as [s1 [e|m]] eqn:HO; cbn [fst] in *.
  { etransitivity; [exact HK|]. by split; [apply keeps_same|]. }
  apply openPort_outcome in HO.
  assert (Hm : forall j, stored m j = stored (prt s).2 j) by (destruct HO as [HO|[n HO]]; eauto).
  set (s2 := set_prt s1 (NewSerializer, m)).
  assert (HK2 : keeps_queue s s2).
  { destruct HK as [[HB HR _] HQ]. split; [|exact HQ]. split; [exact HB|exact HR|].
    intros j h Hs. cbn. by rewrite Hm. }
  pose proof (h_runInitSequence uuid keeps_queue keeps_queue_core
    ltac:(intros f Hf t; split; [by apply keeps_same|apply Hf]) s2) as HI.
  destruct (runInitSequence s2) as [s3 [e|]]; cbn [fst] in *;
    (etransitivity; [exact HK2|]; etransitivity; [exact HI|]); by split; [apply keeps_same|].
Qed.

End Messages.
End Supervisor.

(** ** Witnesses *)

(** The first attempt does not find the device; the second finds the SIM with
    its message, is told of it and receives it before the context is done. *)
Definition demo_attempts : list (@attempt sim) :=
  [{| at_dial := fun _ => inl (errors_New "no"); at_open := fun _ _ => inl (errors_New "no such device");
      at_events := []; at_cancelled := false; at_backoff := Some second |};
   {| at_dial := fun _ => inl (errors_New "no"); at_open := fun m _ => inr m;
      at_events := [EvReader (Scan (cmti 3)); EvURC; EvCtxDone]; at_cancelled := true; at_backoff := None |}].

Definition demo_worker_conf : WorkerConfig := cfg (w (fresh_world demo_iccid)).

(** In that run the second attempt receives the message and the supervisor
    returns with the context. *)
Example demo_supervised :
  let '(s', r) := RunSupervised demo_uuid demo_worker_conf 7 demo_attempts demo_world in
  r = Some StateActive /\ slots (prt s').2 = [] /\ length (db_rows (buf s')) = 1 /\ length (pushed s') = 1.
Proof. by vm_compute. Qed.

