(* ===== verification/Tunnel.v ===== *)
(** * The tunnel manager (internal/tunnel/manager.go)

    The WebSocket connection to the cloud: the outbox of events, the handling
    of inbound messages, the flush of the offline buffer and its
    acknowledgements, sessions and reconnection.  Goroutines of a session are
    interleaved explicitly, as lists of events.  The connection itself decides
    which writes fail; the buffer is any [SqlEngine], the task router the one of
    [Registry]. *)

From stdpp Require Import sorting.
From S2P Require Import Prelude GoString Buffer Protocol Registry.

(** ** State *)

Inductive TunnelState :=
| TunnelDisconnected
| TunnelConnecting
| TunnelConnected
| TunnelBackingOff
| TunnelReconnecting.

Definition TunnelState_String (s : TunnelState) : string :=
  match s with
  | TunnelDisconnected => "DISCONNECTED"
  | TunnelConnecting => "CONNECTING"
  | TunnelConnected => "CONNECTED"
  | TunnelBackingOff => "BACKING_OFF"
  | TunnelReconnecting => "RECONNECTING"
  end.

Definition MaxPendingACKs : nat := 1000.
Definition outbox_cap : nat := 256.

(** Settings of the manager the modelled code reads. *)
Record ManagerConfig := {
  M_GatewayID : string;
  M_AgentVersion : string;
  M_RetentionDays : Z;
  M_StartTime : Z;
  M_Routed : bool }.

(** [acks_pending]: the keys of the map of open acknowledgement channels; a
    channel is closed when its key is removed.  [flushing] is [flushMu]. *)
Record Manager := mkManager {
  tstate : TunnelState;
  attempt : Z;
  outbox : list outbound;
  acks_pending : gset Z;
  flushing : bool }.

Definition set_tstate (r : Manager) (v : TunnelState) : Manager :=
  mkManager v (attempt r) (outbox r) (acks_pending r) (flushing r).
Definition set_attempt (r : Manager) (v : Z) : Manager :=
  mkManager (tstate r) v (outbox r) (acks_pending r) (flushing r).
Definition set_outbox (r : Manager) (v : list outbound) : Manager :=
  mkManager (tstate r) (attempt r) v (acks_pending r) (flushing r).
Definition set_acks_pending (r : Manager) (v : gset Z) : Manager :=
  mkManager (tstate r) (attempt r) (outbox r) v (flushing r).
Definition set_flushing (r : Manager) (v : bool) : Manager :=
  mkManager (tstate r) (attempt r) (outbox r) (acks_pending r) v.

Definition NewManager : Manager := mkManager TunnelDisconnected 0 [] ∅ false.

Section Tunnel.
Context {DB : Type} `{SqlEngine DB}.

(** Settings; fresh UUIDs; local calendar arithmetic; the modem statuses; and
    the connection: whether a write succeeds, given what was written before. *)
Variable conf : ManagerConfig.
Variable uuid : nat -> string.
Variable AddDays : Z -> Z -> Z.
Variable StatusFn : Registry -> list ModemStatus.
Variable write_ok : list outbound -> outbound -> bool.

(** The manager and what it shares: buffer, registry, the messages sent on the
    connection, the session's context. *)
Record tworld := mkTworld {
  mgr : Manager;
  tbuf : DB;
  reg : Registry;
  sent : list outbound;
  done_ctx : bool;
  tuuids : nat;
  tclock : Z }.

Definition set_mgr (r : tworld) (v : Manager) : tworld :=
  mkTworld v (tbuf r) (reg r) (sent r) (done_ctx r) (tuuids r) (tclock r).
Definition set_tbuf (r : tworld) (v : DB) : tworld :=
  mkTworld (mgr r) v (reg r) (sent r) (done_ctx r) (tuuids r) (tclock r).
Definition set_reg (r : tworld) (v : Registry) : tworld :=
  mkTworld (mgr r) (tbuf r) v (sent r) (done_ctx r) (tuuids r) (tclock r).
Definition set_sent (r : tworld) (v : list outbound) : tworld :=
  mkTworld (mgr r) (tbuf r) (reg r) v (done_ctx r) (tuuids r) (tclock r).
Definition set_done_ctx (r : tworld) (v : bool) : tworld :=
  mkTworld (mgr r) (tbuf r) (reg r) (sent r) v (tuuids r) (tclock r).
Definition set_tuuids (r : tworld) (v : nat) : tworld :=
  mkTworld (mgr r) (tbuf r) (reg r) (sent r) (done_ctx r) v (tclock r).
Definition set_tclock (r : tworld) (v : Z) : tworld :=
  mkTworld (mgr r) (tbuf r) (reg r) (sent r) (done_ctx r) (tuuids r) v.

Abbreviation tact := (st tworld).

Definition mupd (f : Manager -> Manager) : tact () := st_modify (fun t => set_mgr t (f (mgr t))).
Definition t_ms (t : tworld) : Z := Z.quot (tclock t) 1000000.

Definition t_envelope (ty : string) : tact Envelope := fun t =>
  (set_tuuids t (S (tuuids t)), NewEnvelope ty (uuid (tuuids t)) (t_ms t)).

(** [Push]: an event is dropped when the outbox is full. *)
Definition Push (e : outbound) : tact () := mupd (fun m =>
  if length (outbox m) <? outbox_cap then set_outbox m (outbox m ++ [e]) else m).

(** [writeJSON]; encoding does not fail. *)
Definition writeJSON (e : outbound) : tact (option go_error) := fun t =>
  if write_ok (sent t) e then (set_sent t (sent t ++ [e]), None)
  else (t, Some (errors_New "websocket: write failed")).

(** [AckDelivered]. *)
Definition AckDelivered (bufferID : Z) : tact () := fun t =>
  let t := set_mgr t (set_acks_pending (mgr t) (acks_pending (mgr t) ∖ {[bufferID]})) in
  let '(db, _) := MarkDelivered (tbuf t) (t_ms t) bufferID in
  (set_tbuf t db, tt).

(** [makeErrorAck]: both branches of the source give the same code. *)
Definition makeErrorAck (taskID : string) (err : go_error) (now : Z) : TaskAckEvent :=
  let code := match err with
              | Errorf fmt [] => if String.eqb fmt ErrModemNotFoundMsg then ErrCodeModemNotFound else ErrCodeModemNotFound
              | _ => ErrCodeModemNotFound
              end in
  {| TaskAck_Envelope := NewEnvelopeFrom TypeTaskAck taskID now; Ack_Status := StatusFailed;
     Result := None; Error := Some {| Code := code; Message := err |} |}.

(** [handleInbound]. *)
Definition handleInbound (raw : option json) : tact (option go_error) :=
  match Unmarshal_Envelope raw with
  | inl e => mret (Some (Wrapf "unmarshal envelope: %w" [] e))
  | inr env =>
    if String.eqb (Type_ env) TypeSMSDeliveredAck then
      match Unmarshal_SMSDeliveredAck raw with
      | inl e => mret (Some (Wrapf "unmarshal SMS_DELIVERED_ACK: %w" [] e))
      | inr ack => _ ← AckDelivered (Ack_BufferID ack); mret None
      end
    else if String.eqb (Type_ env) TypeTask then
      match Unmarshal_Task raw with
      | inl e => mret (Some (Wrapf "unmarshal task: %w" [] e))
      | inr task =>
        if M_Routed conf then
          err ← (fun t => let '(r, err) := Dispatch (reg t) task in (set_reg t r, err)) : tact (option go_error);
          match err with
          | None => mret None
          | Some e =>
              now ← st_get t_ms;
              _ ← Push (OutTaskAck (makeErrorAck (MessageID (Task_Envelope task)) e now));
              mret None
          end
        else mret None
      end
    else mret None
  end.

(** [sendHello] and [sendHeartbeat]. *)
Definition sendHello : tact (option go_error) :=
  env ← t_envelope TypeHello;
  modems ← st_get (fun t => StatusFn (reg t));
  writeJSON (OutHello {| Hello_Envelope := env; Hello_GatewayID := M_GatewayID conf;
    Hello_ProtocolVersion := ProtocolVersion; Hello_AgentVersion := M_AgentVersion conf; Hello_Modems := modems |}).

Definition pending_count : tact (res Z) := fun t => let '(db, r) := PendingCount (tbuf t) in (set_tbuf t db, r).

Definition sendHeartbeat : tact (option go_error) :=
  r ← pending_count;
  match r with
  | inl e => mret (Some (Wrapf "query pending buffer count: %w" [] e))
  | inr n =>
    env ← t_envelope TypeHeartbeat;
    t ← st_get id;
    writeJSON (OutHeartbeat {| HB_Envelope := env; HB_GatewayID := M_GatewayID conf;
      HB_UptimeS := Z.quot (tclock t - M_StartTime conf) second; HB_PendingMsgs := n; HB_Modems := StatusFn (reg t) |})
  end.

(** ** Flushing the buffer *)

(** What happens while the flush waits: an inbound message, another
    goroutine's event or buffer operation, the ACK timeout, cancellation. *)
Inductive flush_event :=
| FInbound (raw : option json)
| FPush (e : outbound)
| FBuffer (o : op)
| FTimeout
| FCtxDone.

Definition on_buffer (o : op) : tact () := fun t => (set_tbuf t (run_op AddDays (tbuf t) o).1, tt).

(** The [select] on the acknowledgement of row [i]: the events left, and
    whether the flush goes on.  No event left is the timeout. *)
Fixpoint await_ack (i : Z) (evs : list flush_event) : tact (list flush_event * bool) := fun t =>
  if decide (i ∈ acks_pending (mgr t)) then
    match evs with
    | [] | FTimeout :: _ =>
        (set_mgr t (set_acks_pending (mgr t) (acks_pending (mgr t) ∖ {[i]})), (tail evs, true))
    | FCtxDone :: evs => (set_done_ctx t true, (evs, false))
    | FInbound raw :: evs => let '(t, _) := handleInbound raw t in await_ack i evs t
    | FPush e :: evs => let '(t, _) := Push e t in await_ack i evs t
    | FBuffer o :: evs => let '(t, _) := on_buffer o t in await_ack i evs t
    end
  else (t, (evs, true)).

(** The event replayed for a row. *)
Definition replay (env : Envelope) (r : SMSRecord) : outbound :=
  OutSMSReceived {| SMS_Envelope := env; SMS_GatewayID := M_GatewayID conf; SMS_ICCID := ICCID r;
    SMS_Sender := Sender r; SMS_Body := Body r; SMS_ReceivedAt := ReceivedAt r; SMS_SMSC := SMSC r;
    SMS_PDUHash := PDUHash r; SMS_BufferID := ID r |}.

(** The loop over the pending rows. *)
Fixpoint flush_rows (rs : list SMSRecord) (evs : list flush_event) : tact () :=
  match rs with
  | [] => mret tt
  | r :: rs => fun t =>
      if done_ctx t then (t, tt) else
      let '(t, env) := t_envelope TypeSMSReceived t in
      let '(t, err) := writeJSON (replay env r) t in
      match err with
      | Some _ => (t, tt)
      | None =>
        if MaxPendingACKs <=? size (acks_pending (mgr t)) then flush_rows rs evs t else
        let t := set_mgr t (set_acks_pending (mgr t) ({[ID r]} ∪ acks_pending (mgr t))) in
        let '(t, (evs, go_on)) := await_ack (ID r) evs t in
        if (go_on : bool) then flush_rows rs evs t else (t, tt)
      end
  end.

Definition pending_rows : tact (res (list SMSRecord)) := fun t =>
  let '(db, r) := PendingRows (tbuf t) in (set_tbuf t db, r).

(** [flushBuffer]: one at a time. *)
Definition flushBuffer (evs : list flush_event) : tact () := fun t =>
  if flushing (mgr t) then (t, tt) else
  let t := set_mgr t (set_flushing (mgr t) true) in
  let '(t, r) := pending_rows t in
  let '(t, _) := match r with inl _ => (t, tt) | inr rs => flush_rows rs evs t end in
  (set_mgr t (set_flushing (mgr t) false), tt).

(** ** Sessions *)

(** The steps of a session's goroutines: the reader's next message or error,
    the writer taking the outbox, a ping (and whether it was written), a
    heartbeat, a flush, a purge, other components, cancellation. *)
Inductive session_event :=
| SInbound (raw : option json)
| SReadError
| SOutbox
| SPing (ok : bool)
| SHeartbeat
| SFlush (evs : list flush_event)
| SPurge
| SPush (e : outbound)
| SBuffer (o : op)
| SCtxDone.

Definition purge : tact () := fun t =>
  (set_tbuf t (Purge AddDays (tbuf t) (t_ms t) (M_RetentionDays conf)).1, tt).

Definition cancel : tact () := st_modify (fun t => set_done_ctx t true).

Definition cancel_on (err : option go_error) : tact () :=
  match err with Some _ => cancel | None => mret tt end.

Definition session_step (e : session_event) : tact () :=
  match e with
  | SInbound raw => _ ← handleInbound raw; mret tt
  | SReadError => cancel
  | SOutbox => fun t =>
      match outbox (mgr t) with
      | [] => (t, tt)
      | e :: q => (err ← writeJSON e; cancel_on err) (set_mgr t (set_outbox (mgr t) q))
      end
  | SPing ok => if ok then mret tt else cancel
  | SHeartbeat => err ← sendHeartbeat; cancel_on err
  | SFlush evs => flushBuffer evs
  | SPurge => purge
  | SPush e => Push e
  | SBuffer o => on_buffer o
  | SCtxDone => cancel
  end.

(** Steps until the session's context is cancelled. *)
Fixpoint session_loop (evs : list session_event) : tact () :=
  match evs with
  | [] => mret tt
  | e :: evs => fun t =>
      if done_ctx t then (t, tt) else let '(t, _) := session_step e t in session_loop evs t
  end.

(** [runSession]: purge and HELLO; the goroutines; the clean-up of the
    acknowledgement map. *)
Definition session_open : tact (option go_error) :=
  _ ← st_modify (fun t => set_sent (set_done_ctx t false) []);
  _ ← purge;
  sendHello.

Definition session_close : tact () :=
  _ ← cancel;
  mupd (fun m => set_acks_pending m ∅).

Definition runSession (evs : list session_event) : tact () :=
  err ← session_open;
  match err with
  | Some _ => mret tt
  | None => _ ← session_loop evs; session_close
  end.

(** ** Reconnection *)

(** A round of [Run]: the dial fails, or it succeeds and a session is run. *)
Inductive round :=
| DialFailed
| DialOk (evs : list session_event).

Definition backOff : tact () :=
  mupd (fun m => set_tstate (set_attempt m (attempt m + 1)%Z) TunnelBackingOff).

Definition run_round (r : round) : tact () :=
  _ ← mupd (fun m => set_tstate m TunnelConnecting);
  match r with
  | DialFailed => backOff
  | DialOk evs =>
    _ ← mupd (fun m => set_attempt (set_tstate m TunnelConnected) 0);
    _ ← runSession evs;
    _ ← mupd (fun m => set_tstate m TunnelReconnecting);
    backOff
  end.

(** [Run]: rounds until the context is done. *)
Fixpoint Run (rs : list round) : tact () :=
  match rs with
  | [] => mupd (fun m => set_tstate m TunnelDisconnected)
  | r :: rs => _ ← run_round r; Run rs
  end.
End Tunnel.
