(* ===== verification/TunnelProps.v ===== *)
(** * Properties of the tunnel

    Messages leave the pending set only when the cloud acknowledges them; a
    flush replays every pending message in order and, when all are
    acknowledged, empties the queue; tasks are queued or refused. *)

From stdpp Require Import sorting.
From S2P Require Import Prelude GoString RateLimit Buffer Protocol Registry Tunnel.

(** The buffer id an inbound message acknowledges. *)
Definition ack_of (raw : option json) : option Z :=
  match Unmarshal_Envelope raw, Unmarshal_SMSDeliveredAck raw with
  | inr env, inr ack => if String.eqb (Type_ env) TypeSMSDeliveredAck then Some (Ack_BufferID ack) else None
  | _, _ => None
  end.

Definition flush_marks (i : Z) (e : flush_event) : bool :=
  match e with
  | FInbound raw => bool_decide (ack_of raw = Some i)
  | FBuffer o => marks o i
  | _ => false
  end.

Definition session_marks (i : Z) (e : session_event) : bool :=
  match e with
  | SInbound raw => bool_decide (ack_of raw = Some i)
  | SFlush evs => existsb (flush_marks i) evs
  | SBuffer o => marks o i
  | _ => false
  end.

Definition round_marks (i : Z) (r : round) : bool :=
  match r with DialFailed => false | DialOk evs => existsb (session_marks i) evs end.

Section Props.
Context {DB : Type} `{HDB : SqlEngine DB} `{!SqlLaws DB}.
Variable conf : ManagerConfig.
Variable uuid : nat -> string.
Variable AddDays : Z -> Z -> Z.
Variable StatusFn : Registry -> list ModemStatus.
Variable write_ok : list outbound -> outbound -> bool.

Abbreviation tworld := (@tworld DB).

(** ** Who may change the buffer *)

Section Keeps.
Variable mk : Z -> bool.

Definition keeps_row (t t' : tworld) : Prop := delivers mk (tbuf t) (tbuf t').

(** Every id the events acknowledge is named by [mk]. *)
Definition named {E} (f : Z -> E -> bool) (evs : list E) : Prop :=
  forall i, existsb (f i) evs = true -> mk i = true.

Lemma named_cons {E} (f : Z -> E -> bool) e evs :
  named f (e :: evs) -> (forall i, f i e = true -> mk i = true) /\ named f evs.
Proof.
  intros Hn. split; intros i Hi; apply Hn; cbn [existsb]; apply orb_true_iff; auto.
Qed.

#[local] Instance keeps_row_preorder : PreOrder keeps_row.
Proof.
  split; [intros t; unfold keeps_row; reflexivity|].
  intros t1 t2 t3 H1 H2. unfold keeps_row in *. by etransitivity.
Qed.

Lemma keeps_row_same (t t' : tworld) : tbuf t' = tbuf t -> keeps_row t t'.
Proof. intros Hb. unfold keeps_row. rewrite Hb. reflexivity. Qed.

Lemma on_buffer_keeps o : (forall i, marks o i = true -> mk i = true) -> preserves keeps_row (on_buffer AddDays o).
Proof. intros Hm t. unfold keeps_row. cbn. by apply run_op_delivers. Qed.

Lemma AckDelivered_keeps j : mk j = true -> preserves keeps_row (AckDelivered j).
Proof.
  intros Hj t. pose proof (run_op_delivers AddDays mk (tbuf t) (OpMarkDelivered (t_ms t) j)) as HK.
  unfold keeps_row, AckDelivered. cbn [run_op marks] in HK. cbn [set_mgr tbuf].
  change (t_ms (set_mgr t _)) with (t_ms t).
  destruct (MarkDelivered (tbuf t) (t_ms t) j) as [db r]. apply HK.
  intros i Hi. by replace i with j by lia.
Qed.

Lemma handleInbound_keeps raw : (forall i, ack_of raw = Some i -> mk i = true) -> preserves keeps_row (handleInbound conf raw).
Proof.
  intros Ha. unfold handleInbound. unfold ack_of in Ha.
  destruct (Unmarshal_Envelope raw) as [e|env]; [apply preserves_ret; exact _|].
  destruct (String.eqb (Type_ env) TypeSMSDeliveredAck).
  - destruct (Unmarshal_SMSDeliveredAck raw) as [e|ack]; [apply preserves_ret; exact _|].
    apply preserves_bind; [exact _|by apply AckDelivered_keeps, Ha|intros _; apply preserves_ret; exact _].
  - destruct (String.eqb _ _); [|apply preserves_ret; exact _].
    destruct (Unmarshal_Task raw) as [e|task]; [apply preserves_ret; exact _|].
    destruct (M_Routed conf); [|apply preserves_ret; exact _].
    apply preserves_bind; [exact _| |].
    + intros t. destruct (Dispatch (reg t) task). by apply keeps_row_same.
    + intros [e|]; [|apply preserves_ret; exact _]. intros t. by apply keeps_row_same.
Qed.

Lemma await_ack_keeps j evs : named flush_marks evs -> preserves keeps_row (await_ack conf AddDays j evs).
Proof.
  induction evs as [|e evs IH]; intros He t; cbn [await_ack].
  - case_decide; by apply keeps_row_same.
  - apply named_cons in He as [He Hevs]. specialize (IH Hevs).
    case_decide; [|by apply keeps_row_same]. destruct e; try (by apply keeps_row_same).
    + pose proof (handleInbound_keeps raw ltac:(intros i Hi; by apply He, bool_decide_eq_true) t) as Hk.
      destruct (handleInbound conf raw t) as [t1 r]. etransitivity; [exact Hk|apply IH].
    + etransitivity; [|apply IH]. by apply keeps_row_same.
    + etransitivity; [|apply IH]. by apply on_buffer_keeps.
Qed.

(** Waiting consumes a prefix of the events. *)
Lemma await_ack_suffix j evs : forall t : tworld, exists k, evs = k ++ (await_ack conf AddDays j evs t).2.1.
Proof.
  induction evs as [|e evs IH]; intros t; cbn [await_ack]; (case_decide; [|by exists []]).
  - by exists [].
  - destruct e.
    + destruct (handleInbound conf raw t) as [t1 r]. destruct (IH t1) as [k Hk]. exists (FInbound raw :: k).
      cbn. by f_equal.
    + destruct (Push e t) as [t1 r]. destruct (IH t1) as [k Hk]. exists (FPush e :: k). cbn. by f_equal.
    + destruct (on_buffer AddDays o t) as [t1 r]. destruct (IH t1) as [k Hk]. exists (FBuffer o :: k). cbn. by f_equal.
    + by exists [FTimeout].
    + by exists [FCtxDone].
Qed.

Lemma flush_rows_keeps rs : forall evs, named flush_marks evs ->
  preserves keeps_row (flush_rows conf uuid AddDays write_ok rs evs).
Proof.
  induction rs as [|r rs IH]; intros evs He t; cbn [flush_rows]; [reflexivity|].
  destruct (done_ctx t); [reflexivity|].
  unfold t_envelope, writeJSON. cbn [set_tuuids sent].
  destruct (write_ok _ _); [|by apply keeps_row_same]. cbn [set_sent set_tuuids mgr].
  destruct (_ <=? _).
  - etransitivity; [|apply IH; exact He]. by apply keeps_row_same.
  - match goal with |- context [await_ack ?c ?a ?j ?e ?t1] => set (t1' := t1);
      pose proof (await_ack_keeps j e He t1') as Hk; destruct (await_ack_suffix j e t1') as [k Hsuf] end.
    destruct (await_ack _ _ _ _ _) as [t2 [evs' go_on]]. cbn [fst snd] in *.
    assert (He' : named flush_marks evs').
    { intros i Hi. apply He. rewrite Hsuf, existsb_app, Hi. apply orb_true_r. }
    destruct go_on; [etransitivity; [|apply (IH evs' He')]|]; (etransitivity; [|exact Hk]); by apply keeps_row_same.
Qed.

Lemma pending_rows_keeps : preserves keeps_row pending_rows.
Proof.
  intros t. pose proof (run_op_delivers AddDays mk (tbuf t) OpPendingRows ltac:(done)) as HK.
  unfold keeps_row, pending_rows. cbn [run_op] in HK. by destruct (PendingRows (tbuf t)).
Qed.

Lemma flushBuffer_keeps evs : named flush_marks evs ->
  preserves keeps_row (flushBuffer conf uuid AddDays write_ok evs).
Proof.
  intros He t. unfold flushBuffer. destruct (flushing (mgr t)); [reflexivity|].
  set (t0 := set_mgr t _). pose proof (pending_rows_keeps t0) as Hp.
  destruct (pending_rows t0) as [t1 [e|rs]]; cbn [fst] in Hp.
  - etransitivity; [exact Hp|]. by apply keeps_row_same.
  - pose proof (flush_rows_keeps rs evs He t1) as Hf. destruct (flush_rows _ _ _ _ _ _ _) as [t2 u].
    etransitivity; [exact Hp|]. etransitivity; [exact Hf|]. by apply keeps_row_same.
Qed.

Lemma purge_keeps : preserves keeps_row (purge conf AddDays).
Proof.
  intros t. pose proof (run_op_delivers AddDays mk (tbuf t) (OpPurge (t_ms t) (M_RetentionDays conf)) ltac:(done)) as HK.
  unfold keeps_row, purge. cbn [run_op set_tbuf tbuf fst] in *. by destruct (Purge _ _ _ _).
Qed.

Lemma writeJSON_keeps e : preserves keeps_row (writeJSON write_ok e).
Proof. intros t. unfold writeJSON. destruct (write_ok _ _); by apply keeps_row_same. Qed.

Lemma cancel_on_keeps err : preserves keeps_row (cancel_on err).
Proof. intros t. destruct err; by apply keeps_row_same. Qed.

Lemma session_step_keeps e : (forall i, session_marks i e = true -> mk i = true) ->
  preserves keeps_row (session_step conf uuid AddDays StatusFn write_ok e).
Proof.
  intros He. destruct e; cbn [session_step session_marks] in *; try (by intros t; apply keeps_row_same).
  - apply preserves_bind; [exact _|apply handleInbound_keeps; intros i Hi; by apply He, bool_decide_eq_true|].
    intros _. apply preserves_ret; exact _.
  - intros t. destruct (outbox (mgr t)) as [|e q]; [reflexivity|].
    etransitivity; [|exact (preserves_bind keeps_row _ _ (writeJSON_keeps e) cancel_on_keeps _)].
    by apply keeps_row_same.
  - destruct ok; intros t; by apply keeps_row_same.
  - apply preserves_bind; [exact _| |apply cancel_on_keeps]. unfold sendHeartbeat.
    apply preserves_bind; [exact _| |].
    + intros t. pose proof (run_op_delivers AddDays mk (tbuf t) OpPendingCount ltac:(done)) as HK.
      unfold keeps_row, pending_count. cbn [run_op] in HK. by destruct (PendingCount (tbuf t)).
    + intros [e|n]; [apply preserves_ret; exact _|].
      apply preserves_bind; [exact _|intros t; by apply keeps_row_same|intros env].
      apply preserves_bind; [exact _|apply preserves_get; exact _|intros t; apply writeJSON_keeps].
  - by apply flushBuffer_keeps.
  - apply purge_keeps.
  - by apply on_buffer_keeps.
Qed.

Lemma session_open_keeps : preserves keeps_row (session_open conf uuid AddDays StatusFn write_ok).
Proof.
  unfold session_open, sendHello. apply preserves_bind; [exact _|intros t; by apply keeps_row_same|intros _].
  apply preserves_bind; [exact _|apply purge_keeps|intros _].
  apply preserves_bind; [exact _|intros t; by apply keeps_row_same|intros env].
  apply preserves_bind; [exact _|apply preserves_get; exact _|intros m; apply writeJSON_keeps].
Qed.

Lemma runSession_keeps evs : named session_marks evs ->
  preserves keeps_row (runSession conf uuid AddDays StatusFn write_ok evs).
Proof.
  intros He. unfold runSession. apply preserves_bind; [exact _|apply session_open_keeps|].
  intros [e|]; [apply preserves_ret; exact _|].
  apply preserves_bind; [exact _| |intros _ t; by apply keeps_row_same].
  induction evs as [|e evs IH]; intros t; cbn [session_loop]; [reflexivity|].
  destruct (done_ctx t); [reflexivity|]. apply named_cons in He as [He Hevs].
  pose proof (session_step_keeps e He t) as Hs. destruct (session_step _ _ _ _ _ e t) as [t1 u].
  etransitivity; [exact Hs|by apply IH].
Qed.

Lemma Run_keeps rs : named round_marks rs ->
  preserves keeps_row (Run conf uuid AddDays StatusFn write_ok rs).
Proof.
  induction rs as [|r rs IH]; intros Hr; cbn [Run]; [intros t; by apply keeps_row_same|].
  apply named_cons in Hr as [Hr Hrs].
  apply preserves_bind; [exact _| |intros _; by apply IH].
  unfold run_round. apply preserves_bind; [exact _|intros t; by apply keeps_row_same|intros _].
  destruct r as [|evs]; [intros t; by apply keeps_row_same|].
  apply preserves_bind; [exact _|intros t; by apply keeps_row_same|intros _].
  apply preserves_bind; [exact _|by apply runSession_keeps|intros _ t; by apply keeps_row_same].
Qed.
End Keeps.

(** C6: only the cloud's acknowledgement takes a message out of the queue.
    Whatever the tunnel does (failed dials, sessions with flushes, timeouts,
    write errors, heartbeats, purges, other inbound messages), a message that
    was waiting in the buffer and whose buffer id no SMS_DELIVERED_ACK named
    is still waiting, unchanged. *)
Theorem only_acks_deliver (rs : list round) (t : tworld) (m : SMSRecord * Z) :
  buffer_wf (tbuf t) -> m ∈ queue (inbox_of (tbuf t)) ->
  existsb (round_marks (ID m.1)) rs = false ->
  m ∈ queue (inbox_of (tbuf (Run conf uuid AddDays StatusFn write_ok rs t).1)).
Proof.
  intros Hwf Hin Hr. destruct (Run_keeps (fun i => existsb (round_marks i) rs) rs (fun i Hi => Hi) t Hwf) as (_ & HK).
  by apply HK.
Qed.

(** ** What a flush sends *)

(** Inbound handling, pushes and buffer operations send nothing themselves. *)
Record quiet (t t' : tworld) : Prop := {
  q_sent : sent t' = sent t; q_uuids : tuuids t' = tuuids t;
  q_clock : tclock t' = tclock t; q_ctx : done_ctx t' = done_ctx t }.

#[local] Instance quiet_preorder : PreOrder quiet.
Proof. split; [by intros t|]. intros t1 t2 t3 [] []. split; congruence. Qed.

Lemma handleInbound_quiet raw : preserves (S := tworld) quiet (handleInbound conf raw).
Proof.
  unfold handleInbound. destruct (Unmarshal_Envelope raw) as [e|env]; [apply preserves_ret; exact _|].
  destruct (String.eqb _ _).
  - destruct (Unmarshal_SMSDeliveredAck raw) as [e|ack]; [apply preserves_ret; exact _|].
    intros t. unfold AckDelivered. cbv [mbind st_bind]. by destruct (MarkDelivered _ _ _).
  - destruct (String.eqb _ _); [|apply preserves_ret; exact _].
    destruct (Unmarshal_Task raw) as [e|task]; [apply preserves_ret; exact _|].
    destruct (M_Routed conf); [|apply preserves_ret; exact _].
    intros t. cbv [mbind st_bind]. destruct (Dispatch (reg t) task) as [r [e|]]; by split.
Qed.

Definition is_ctx_done (e : flush_event) : bool := match e with FCtxDone => true | _ => false end.

Lemma await_ack_quiet i evs : forall t : tworld,
  existsb is_ctx_done evs = false ->
  quiet t (await_ack conf AddDays i evs t).1 /\ (await_ack conf AddDays i evs t).2.2 = true.
Proof.
  induction evs as [|e evs IH]; intros t He; cbn [await_ack]; (case_decide; [|by split]).
  - by split.
  - cbn [existsb] in He. apply orb_false_iff in He as [He Hevs]. destruct e; try done.
    + pose proof (handleInbound_quiet raw t) as Hq. destruct (handleInbound conf raw t) as [t1 r]. cbn [fst] in Hq.
      destruct (IH t1 Hevs) as [Hq' Hg]. split; [by etransitivity|done].
    + destruct (IH (Push e t).1 Hevs) as [Hq Hg]. split; [|done]. etransitivity; [|exact Hq]. by split.
    + destruct (IH (on_buffer AddDays o t).1 Hevs) as [Hq Hg]. split; [|done]. etransitivity; [|exact Hq]. by split.
Qed.

Lemma ctx_done_suffix i evs (t : tworld) :
  existsb is_ctx_done evs = false -> existsb is_ctx_done (await_ack conf AddDays i evs t).2.1 = false.
Proof.
  destruct (await_ack_suffix i evs t) as [k Hk]. rewrite Hk at 1. rewrite existsb_app.
  by intros [_ ?]%orb_false_iff.
Qed.

(** The events a flush writes: one per row, in order, with fresh ids. *)
Fixpoint replays (n : nat) (now : Z) (rs : list SMSRecord) : list outbound :=
  match rs with
  | [] => []
  | r :: rs => replay conf (NewEnvelope TypeSMSReceived (uuid n) now) r :: replays (S n) now rs
  end.

Lemma flush_rows_sent rs : forall evs (t : tworld),
  (forall h e, write_ok h e = true) -> existsb is_ctx_done evs = false -> done_ctx t = false ->
  let t' := (flush_rows conf uuid AddDays write_ok rs evs t).1 in
  sent t' = sent t ++ replays (tuuids t) (t_ms t) rs /\ done_ctx t' = false.
Proof.
  intros evs t HW. revert evs t. induction rs as [|r rs IH]; intros evs t He Hd; cbn [flush_rows replays].
  - cbn. by rewrite app_nil_r.
  - rewrite Hd. unfold t_envelope, writeJSON. cbn [set_tuuids sent]. rewrite HW. cbn [set_sent set_tuuids mgr].
    destruct (_ <=? _).
    + match goal with |- context [flush_rows _ _ _ _ rs evs ?t1] => destruct (IH evs t1 He Hd) as [Hs Hd'] end.
      cbn [sent tuuids set_sent set_tuuids] in Hs. cbv zeta. rewrite Hs, <- app_assoc. by split.
    + match goal with |- context [await_ack _ _ ?j evs ?t1] => set (t1' := t1);
        destruct (await_ack_quiet j evs t1' He) as [Hq Hg]; pose proof (ctx_done_suffix j evs t1' He) as He' end.
      destruct (await_ack _ _ _ _ _) as [t2 [evs' go_on]]. cbn [fst snd] in *. subst go_on.
      destruct Hq as [Q1 Q2 Q3 Q4]. cbn in Q1, Q2, Q3, Q4.
      destruct (IH evs' t2 He' ltac:(by rewrite Q4)) as [Hs Hd']. cbv zeta. rewrite Hs, Q1, Q2.
      unfold t_ms. rewrite Q3, <- app_assoc. by split.
Qed.

Lemma pending_rows_spec (t : tworld) rs t' :
  pending_rows t = (t', inr rs) ->
  rs = (queue (inbox_of (tbuf t))).*1 /\ same_table (tbuf t) (tbuf t') /\ t' = set_tbuf t (tbuf t').
Proof.
  unfold pending_rows, PendingRows. destruct (select_order_by_id _ _) as [db r] eqn:HS.
  pose proof (select_same _ _ _ _ HS) as Hsame. destruct r as [e|rows]; [by intros [=]|].
  apply select_ok in HS as ->. intros [= <- <-]. split; [|by split].
  cbn. unfold queued. rewrite <- list_fmap_compose. by apply list_fmap_ext.
Qed.

(** C12: a flush replays the whole queue.  When no write fails and the session
    is not cancelled, a flush sends exactly one SMS_RECEIVED event per waiting
    message, oldest first, with the message's own data and buffer id, whatever
    acknowledgements, timeouts and other activity happen meanwhile and even
    when the acknowledgement map is full. *)
Theorem flush_replays_queue_in_order (evs : list flush_event) (t : tworld) (rs : list SMSRecord) (db : DB) :
  (forall h e, write_ok h e = true) ->
  flushing (mgr t) = false -> done_ctx t = false -> existsb is_ctx_done evs = false ->
  PendingRows (tbuf t) = (db, inr rs) ->
  let t' := (flushBuffer conf uuid AddDays write_ok evs t).1 in
  sent t' = sent t ++ replays (tuuids t) (t_ms t) rs /\ rs = (queue (inbox_of (tbuf t))).*1 /\
  flushing (mgr t') = false.
Proof.
  intros HW Hf Hd He HP. unfold flushBuffer. rewrite Hf.
  set (t0 := set_mgr t (set_flushing (mgr t) true)).
  assert (Hp : pending_rows t0 = (set_tbuf t0 db, inr rs)).
  { unfold pending_rows, t0. cbn [set_mgr tbuf]. by rewrite HP. }
  destruct (pending_rows_spec t0 rs _ Hp) as [Hrs _]. rewrite Hp.
  destruct (flush_rows_sent rs evs (set_tbuf t0 db) HW He Hd) as [Hs _].
  destruct (flush_rows _ _ _ _ rs evs _) as [t2 u]. cbn in Hs |- *. by rewrite Hs.
Qed.

(** ** A flush that is acknowledged *)

Lemma handleInbound_ack raw i (t : tworld) :
  ack_of raw = Some i ->
  handleInbound conf raw t = ((AckDelivered i t).1, None).
Proof.
  unfold ack_of, handleInbound. destruct (Unmarshal_Envelope raw) as [e|env]; [done|].
  destruct (Unmarshal_SMSDeliveredAck raw) as [e|ack]; [done|].
  destruct (String.eqb _ _); [|done]. intros [= <-]. cbv [mbind st_bind]. by destruct (AckDelivered _ t).
Qed.

Lemma AckDelivered_spec i (t : tworld) db' :
  buffer_wf (tbuf t) -> MarkDelivered (tbuf t) (t_ms t) i = (db', inr tt) ->
  let t' := (AckDelivered i t).1 in
  buffer_wf (tbuf t') /\ tbuf t' = db' /\ queue (inbox_of (tbuf t')) = filter (fun m => ID m.1 <> i) (queue (inbox_of (tbuf t))) /\
  acks_pending (mgr t') = acks_pending (mgr t) ∖ {[i]} /\ quiet t t'.
Proof.
  intros Hwf HM. unfold AckDelivered. cbn [set_mgr tbuf]. change (t_ms (set_mgr t _)) with (t_ms t). rewrite HM.
  destruct (MarkDelivered_sim AddDays _ _ _ _ _ _ Hwf (refines_inbox_of (tbuf t)) HM) as (Hwf' & s & Hs & [Hq _]).
  cbn in Hs. injection Hs as <-. cbn in Hq |- *. by rewrite <- Hq.
Qed.

(** A healthy database: marking a row succeeds and leaves it healthy. *)
Definition marks_rows (healthy : DB -> Prop) : Prop :=
  forall db now i, healthy db -> exists db', MarkDelivered db now i = (db', inr tt) /\ healthy db'.

Lemma flush_rows_acked healthy rs : forall evs (t : tworld),
  (forall h e, write_ok h e = true) -> marks_rows healthy -> healthy (tbuf t) ->
  buffer_wf (tbuf t) -> done_ctx t = false -> acks_pending (mgr t) = ∅ ->
  (forall m, m ∈ queue (inbox_of (tbuf t)) -> m.1 ∈ rs) ->
  Forall2 (fun r e => exists raw, e = FInbound raw /\ ack_of raw = Some (ID r)) rs evs ->
  queue (inbox_of (tbuf (flush_rows conf uuid AddDays write_ok rs evs t).1)) = [].
Proof.
  induction rs as [|r rs IH]; intros evs t HW HM Hh Hwf Hd Hp Hin HF; cbn [flush_rows].
  - destruct (queue (inbox_of (tbuf t))) as [|m q] eqn:Hq; [done|].
    specialize (Hin m ltac:(left)). by apply not_elem_of_nil in Hin.
  - inversion HF as [|? ? ? evs' (raw & -> & Hraw) HF']; subst. rewrite Hd. unfold t_envelope, writeJSON.
    cbn [set_tuuids sent]. rewrite HW. cbn [set_sent set_tuuids mgr]. rewrite Hp, size_empty.
    replace (MaxPendingACKs <=? 0) with false by (by vm_compute).
    set (t1 := set_mgr _ _). cbn [await_ack].
    rewrite decide_True by (unfold t1; cbn; set_solver). rewrite (handleInbound_ack raw (ID r)) by done.
    destruct (HM (tbuf t1) (t_ms t1) (ID r) Hh) as (db' & Hmark & Hh').
    destruct (AckDelivered_spec (ID r) t1 db' Hwf Hmark) as (Hwf' & Hdb & Hq & Ha & [Q1 Q2 Q3 Q4]).
    set (t2 := (AckDelivered (ID r) t1).1) in *.
    assert (Hna : acks_pending (mgr t2) = ∅) by (rewrite Ha; unfold t1; cbn; set_solver).
    assert (Haw : await_ack conf AddDays (ID r) evs' t2 = (t2, (evs', true))).
    { destruct evs'; cbn [await_ack]; rewrite decide_False by (rewrite Hna; set_solver); done. }
    rewrite Haw. apply IH; try done; [by rewrite Hdb|rewrite Q4; exact Hd|]. intros m Hm. rewrite Hq in Hm.
    apply list_elem_of_filter in Hm as [Hne Hm]. specialize (Hin m Hm).
    apply elem_of_cons in Hin as [Heq|Hin]; [by rewrite Heq in Hne|done].
Qed.

(** C13: an acknowledged flush delivers everything.  If writes succeed, marking
    a row succeeds, and the cloud acknowledges each replayed message in turn,
    then after the flush no message is waiting. *)
Theorem acked_flush_empties_queue (healthy : DB -> Prop) (evs : list flush_event) (t : tworld)
    (rs : list SMSRecord) (db : DB) :
  (forall h e, write_ok h e = true) -> marks_rows healthy -> healthy db ->
  buffer_wf (tbuf t) -> flushing (mgr t) = false -> done_ctx t = false -> acks_pending (mgr t) = ∅ ->
  PendingRows (tbuf t) = (db, inr rs) ->
  Forall2 (fun r e => exists raw, e = FInbound raw /\ ack_of raw = Some (ID r)) rs evs ->
  queue (inbox_of (tbuf (flushBuffer conf uuid AddDays write_ok evs t).1)) = [].
Proof.
  intros HW HM Hh Hwf Hf Hd Ha HP HF. unfold flushBuffer. rewrite Hf.
  set (t0 := set_mgr t (set_flushing (mgr t) true)).
  assert (Hp : pending_rows t0 = (set_tbuf t0 db, inr rs)).
  { unfold pending_rows, t0. cbn [set_mgr tbuf]. by rewrite HP. }
  destruct (pending_rows_spec t0 rs _ Hp) as (Hrs & Hsame & _). rewrite Hp.
  pose proof (flush_rows_acked healthy rs evs (set_tbuf t0 db) HW HM Hh) as HA.
  destruct (flush_rows _ _ _ _ rs evs _) as [t2 u]. cbn [fst] in HA |- *. apply HA; try done.
  - by eapply wf_same.
  - intros m Hm. rewrite Hrs. apply list_elem_of_fmap. exists m. split; [done|].
    destruct Hsame as [Hr _]. cbn in Hr, Hm |- *. by rewrite <- Hr.
Qed.

(** An event pushed while the outbox has room is its last. *)
Lemma Push_room e (t : tworld) :
  length (outbox (mgr t)) < outbox_cap -> outbox (mgr (Push e t).1) = outbox (mgr t) ++ [e].
Proof.
  intros Hlen. unfold Push, mupd, st_modify. cbn [fst set_mgr mgr].
  by rewrite (proj2 (Nat.ltb_lt _ _) Hlen).
Qed.

(** ** Inbound tasks *)

(** C23: every inbound task is queued or refused.  A TASK message either puts
    the task last on the queue of the worker its payload names and answers
    nothing yet, or leaves all workers alone and pushes exactly one FAILED
    acknowledgement that carries the task's message id (when the outbox has
    room). *)
Theorem inbound_task_queued_or_refused (raw : option json) (env : Envelope) (task : Task) (t : tworld) :
  M_Routed conf = true -> registry_wf (reg t) ->
  Unmarshal_Envelope raw = inr env -> Type_ env = TypeTask -> Unmarshal_Task raw = inr task ->
  let '(t', r) := handleInbound conf raw t in
  r = None /\ tbuf t' = tbuf t /\ registry_wf (reg t') /\
  ((exists ic addr x, extractICCID task = inr ic /\ workers (reg t) !! ic = Some addr /\
      heap (reg t) !! addr = Some x /\
      reg t' = {| workers := workers (reg t);
                  heap := <[addr := set_inboundCh x (inboundCh x ++ [queued_task task])]> (heap (reg t)) |} /\
      outbox (mgr t') = outbox (mgr t)) \/
   (reg t' = reg t /\
    exists ack, MessageID (TaskAck_Envelope ack) = MessageID (Task_Envelope task) /\
      Ack_Status ack = StatusFailed /\
      (length (outbox (mgr t)) < outbox_cap -> outbox (mgr t') = outbox (mgr t) ++ [OutTaskAck ack]))).
Proof.
  intros Hr Hwf He Hty Ht. unfold handleInbound. rewrite He, Hty, Ht, Hr. cbn [String.eqb].
  change (String.eqb TypeTask TypeSMSDeliveredAck) with false. change (String.eqb TypeTask TypeTask) with true.
  cbv iota. cbv [mbind st_bind].
  pose proof (Dispatch_cases (reg t) task Hwf) as HD.
  destruct (Dispatch (reg t) task) as [r' [e|]]; destruct HD as [Hwf' HD].
  - destruct HD as [-> _]. split; [done|]. split; [done|]. split; [done|]. right. split; [done|].
    exists (makeErrorAck (MessageID (Task_Envelope task)) e (t_ms t)). split; [done|]. split; [done|].
    intros Hlen. by apply (Push_room _ (set_reg t (reg t))).
  - destruct HD as (ic & addr & x & H1 & H2 & H3 & _ & H5). cbn. split; [done|]. split; [done|]. split; [done|].
    left. exists ic, addr, x. done.
Qed.
End Props.

(** ** Witnesses *)

Definition demo_conf : ManagerConfig :=
  {| M_GatewayID := "gw1"; M_AgentVersion := "1.0"; M_RetentionDays := 7; M_StartTime := 0; M_Routed := true |}.

Definition demo_ids (n : nat) : string := "uuid-" +:+ itoa (Z.of_nat n).
Definition utc_days (t d : Z) : Z := (t + d * 86400000)%Z.
Definition no_status (_ : Registry) : list ModemStatus := [].
Definition all_ok (_ : list outbound) (_ : outbound) : bool := true.

(** A buffer with two waiting messages. *)
Definition demo_db : memdb :=
  (run_ops utc_days mem_empty
    [OpInsert 1000 demo_iccid "+49170" "hello" "h1" "+49171" 900;
     OpInsert 1002 demo_iccid "+49172" "world" "h2" EmptyString 901]).1.

Definition demo_tunnel : @tworld memdb :=
  {| mgr := NewManager; tbuf := demo_db; reg := demo_registry; sent := []; done_ctx := false;
     tuuids := 0; tclock := 1700000000000000000 |}.

Definition ack_json (i : string) : option json :=
  Some (JObj [("type", JStr TypeSMSDeliveredAck); ("message_id", JStr "a"); ("ts", JNum "1"); ("buffer_id", JNum i)]).

Lemma demo_db_wf : buffer_wf demo_db.
Proof.
  split; cbn.
  - by repeat constructor.
  - by repeat constructor.
  - by_eval.
  - repeat constructor.
  - by repeat constructor.
Defined.

Definition demo_rounds : list round :=
  [DialFailed; DialOk [SInbound (ack_json "1"); SFlush [FTimeout]; SPurge; SHeartbeat; SReadError]].

Definition second_message : SMSRecord * Z :=
  ({| ID := 2; ICCID := demo_iccid; Sender := "+49172"; Body := "world"; ReceivedAt := 901;
      PDUHash := "h2"; SMSC := EmptyString; Buffer.Status := "PENDING" |}, 1002%Z).

Lemma only_acks_deliver_witness :
  second_message ∈ queue (inbox_of (tbuf (Run demo_conf demo_ids utc_days no_status all_ok demo_rounds demo_tunnel).1)).
Proof.
  apply (only_acks_deliver demo_conf demo_ids utc_days no_status all_ok demo_rounds demo_tunnel second_message);
    [exact demo_db_wf | right; left | by vm_compute].
Defined.

Example first_message_delivered :
  length (queue (inbox_of (tbuf (Run demo_conf demo_ids utc_days no_status all_ok demo_rounds demo_tunnel).1))) = 1.
Proof. by vm_compute. Qed.

Definition demo_records : list SMSRecord := (queue (inbox_of demo_db)).*1.

Lemma flush_replays_queue_in_order_witness :
  let t' := (flushBuffer demo_conf demo_ids utc_days all_ok [FTimeout; FInbound (ack_json "2")] demo_tunnel).1 in
  sent t' = [] ++ replays demo_conf demo_ids 0 1700000000000 demo_records /\
  demo_records = (queue (inbox_of (tbuf demo_tunnel))).*1 /\ flushing (mgr t') = false.
Proof.
  apply (flush_replays_queue_in_order demo_conf demo_ids utc_days all_ok [FTimeout; FInbound (ack_json "2")]
           demo_tunnel demo_records (PendingRows demo_db).1); by vm_compute || done.
Defined.

Lemma acked_flush_empties_queue_witness :
  queue (inbox_of (tbuf (flushBuffer demo_conf demo_ids utc_days all_ok
    [FInbound (ack_json "1"); FInbound (ack_json "2")] demo_tunnel).1)) = [].
Proof.
  apply (acked_flush_empties_queue demo_conf demo_ids utc_days all_ok (fun db => m_faults db = [])
           [FInbound (ack_json "1"); FInbound (ack_json "2")] demo_tunnel demo_records (PendingRows demo_db).1).
  - done.
  - intros db now i Hf. unfold MarkDelivered. cbn [exec_update mem_engine]. unfold mem_stmt. rewrite Hf.
    eexists. split; [reflexivity|done].
  - by vm_compute.
  - exact demo_db_wf.
  - done.
  - done.
  - done.
  - by vm_compute.
  - apply Forall2_cons. split; [exists (ack_json "1"); split; [done|by vm_compute]|].
    apply Forall2_cons. split; [exists (ack_json "2"); split; [done|by vm_compute]|]. apply Forall2_nil_2.
Defined.

Definition demo_task_json : option json :=
  Some (JObj [("type", JStr TypeTask); ("message_id", JStr "m1"); ("ts", JNum "0");
              ("action", JStr ActionCheckSignal); ("payload", JObj [("iccid", JStr "unknown")])]).

Lemma inbound_task_queued_or_refused_witness :
  exists env task, Unmarshal_Envelope demo_task_json = inr env /\ Unmarshal_Task demo_task_json = inr task /\
  let '(t', r) := handleInbound demo_conf demo_task_json demo_tunnel in
  r = None /\ tbuf t' = tbuf demo_tunnel /\ registry_wf (reg t') /\
  ((exists ic addr x, extractICCID task = inr ic /\ workers (reg demo_tunnel) !! ic = Some addr /\
      heap (reg demo_tunnel) !! addr = Some x /\
      reg t' = {| workers := workers (reg demo_tunnel);
                  heap := <[addr := set_inboundCh x (inboundCh x ++ [queued_task task])]> (heap (reg demo_tunnel)) |} /\
      outbox (mgr t') = outbox (mgr demo_tunnel)) \/
   (reg t' = reg demo_tunnel /\
    exists ack, MessageID (TaskAck_Envelope ack) = MessageID (Task_Envelope task) /\
      Ack_Status ack = StatusFailed /\
      (length (outbox (mgr demo_tunnel)) < outbox_cap -> outbox (mgr t') = outbox (mgr demo_tunnel) ++ [OutTaskAck ack]))).
Proof.
  exists {| Type_ := TypeTask; MessageID := "m1"; TS := 0 |},
    {| Task_Envelope := {| Type_ := TypeTask; MessageID := "m1"; TS := 0 |}; Action := ActionCheckSignal;
       Payload := Some (JObj [("iccid", JStr "unknown")]) |}.
  split; [by vm_compute|]. split; [by vm_compute|].
  apply (inbound_task_queued_or_refused demo_conf demo_task_json
           {| Type_ := TypeTask; MessageID := "m1"; TS := 0 |}); [done|exact demo_registry_wf|by vm_compute..].
Defined.

(** A task refused because the worker's queue is full is reported to the cloud
    as MODEM_NOT_FOUND. *)
Lemma busy_reported_as_not_found :
  forall now, match Error (makeErrorAck "m1" (Wrapf "%s: %w" [ErrCodeModemBusy] ErrModemBusy) now) with
              | Some e => Code e = ErrCodeModemNotFound
              | None => False
              end.
Proof. done. Qed.
