(* ===== verification/Gateway.v ===== *)
(** * The gateway (internal/gateway/gateway.go)

    The composition: one supervised worker per configured port, one tunnel,
    all on one buffer, one registry and one table of rate limiters.  A step is
    a step of one worker, of the tunnel or of the control API; a run is any
    interleaving of them.  What a step may do to messages is proved here, and
    how it adds up over the runs of any system of such steps; [Concurrent]
    applies it to the interleaved goroutines. *)

From S2P Require Import Prelude GoString Config Pdu RateLimit Buffer Serializer Protocol Registry Worker WorkerFrame WorkerSafety WorkerTasks WorkerSend Supervisor Tunnel TunnelProps.

(** [modemStatuses]: what HELLO and heartbeats report. *)
Definition modemStatuses (r : Registry) : list ModemStatus :=
  map (fun '(_, s) =>
    {| MS_ICCID := WS_ICCID s; MS_Port := WS_Port s; MS_State := WS_State s; MS_IMSI := WS_IMSI s;
       MS_Operator := WS_Operator s; MS_SignalRSSI := WS_SignalRSSI s; MS_RegStatus := WS_RegStatus s;
       MS_Sent1H := WS_Sent1H s; MS_Recv1H := WS_Recv1H s |}) (map_to_list (Snapshot r)).

(** ** Settings *)

Definition agentVersion : string := "2.0.0".

(** The [WorkerConfig] of a configured modem in [Run]; zero stands for the
    defaults [NewWorker] fills in. *)
Definition worker_config (conf : GatewayConfig) (m : ModemConfig) : WorkerConfig :=
  {| Port := MC_Port m; GatewayID := G_ID (Config.Gateway conf); ExpectedICCID := MC_ExpectedICCID m;
     RateConfig := {| PerMin := R_PerMin (MC_RateLimit m); PerHour := R_PerHour (MC_RateLimit m);
                      PerDay := R_PerDay (MC_RateLimit m) |};
     SIMCapacityWarnPct := H_SIMCapacityWarnPct (Health conf);
     SIMCapacityPurgePct := H_SIMCapacityPurgePct (Health conf);
     InboundQueueSize := 0; StallDuration := 0;
     SignalPollInterval := H_SignalPollIntervalS (Health conf) * second; PortOpenRetries := 0 |}.

(** The [ManagerConfig] in [New]; the router is always set. *)
Definition manager_config (conf : GatewayConfig) (now : Z) : ManagerConfig :=
  {| M_GatewayID := G_ID (Config.Gateway conf); M_AgentVersion := agentVersion;
     M_RetentionDays := B_RetentionDays (Config.Buffer conf); M_StartTime := now; M_Routed := true |}.

(** A supervised port: between attempts, in a worker's main loop, or given up
    (the context is done or the SIM banned). *)
Inductive phase := Idle | Running | Ended.

#[global] Instance phase_eq_dec : EqDecision phase.
Proof. solve_decision. Defined.

Section Gateway.
Context {M DB : Type} `{HM : Modem M} `{HDB : SqlEngine DB}.
Variable conf : ManagerConfig.
Variable uuid : nat -> string.
Variable AddDays : Z -> Z -> Z.
Variable write_ok : list outbound -> outbound -> bool.

Abbreviation world := (@world M DB).

(** A configured modem: the settings its workers are made with, the serializer
    and modem at its port, the address of its current worker. *)
Record slot := mkSlot {
  sl_conf : WorkerConfig;
  sl_port : Serializer * M;
  sl_addr : nat;
  sl_phase : phase }.

(** [g_tun] holds the manager and what everything shares: buffer, registry and
    the heap of workers, clock.  [g_session]: a session is running. *)
Record gateway := mkGateway {
  g_slots : gmap nat slot;
  g_limiter : gmap string SIMRateLimiter;
  g_tun : @tworld DB;
  g_next : nat;
  g_session : bool }.

(** [New], given the modems at the configured ports: the buffer is opened, the
    registry and the limiters are empty, nothing runs yet. *)
Definition New (c : GatewayConfig) (opened : option go_error) (d : DB) (modem : nat -> M) (now : Z) : res gateway :=
  let '(d, r) := Open opened d in
  match r with
  | inl e => inl (Wrapf "open buffer: %w" [] e)
  | inr _ =>
    inr (mkGateway
      (list_to_map (imap (fun k m => (k, mkSlot (worker_config c m) (NewSerializer, modem k) 0 Idle)) (Modems c)))
      NewRateLimiterRegistry (mkTworld NewManager d NewRegistry [] false 0 now) 1 false)
  end.

(** ** Workers in the gateway *)

(** What the worker [x] at port [p] sees of the gateway. *)
Definition view (g : gateway) (x : Worker) (p : Serializer * M) : world :=
  let t := g_tun g in
  mkWorld x p (tbuf t) (g_limiter g) (workers (reg t)) [] (tuuids t) (tclock t).

(** The world of a worker written back; what it pushed goes to the outbox
    ([eventFn], and the router's [AckFn], are [mgr.Push]). *)
Definition absorb (g : gateway) (k : nat) (sl : slot) (ph : phase) (s : world) : gateway :=
  let t := g_tun g in
  let r := {| workers := registry s; heap := <[sl_addr sl := w s]> (heap (reg t)) |} in
  let t := mkTworld (mgr t) (buf s) r (sent t) (done_ctx t) (uuids s) (clock s) in
  mkGateway (<[k := mkSlot (sl_conf sl) (prt s) (sl_addr sl) ph]> (g_slots g)) (limiter s)
            (foldl (fun t e => (Push e t).1) t (pushed s)) (g_next g) (g_session g).

Definition after_exit (x : State) : phase := match x with StateFailed => Idle | _ => Ended end.

(** An attempt of the supervisor: a fresh worker, up to its main loop. *)
Definition start_worker (g : gateway) (k : nat) (dial : M -> res M) (open : M -> nat -> res M) : gateway :=
  match g_slots g !! k with
  | Some sl =>
    if decide (sl_phase sl = Idle) then
      let addr := g_next g in
      let g := mkGateway (g_slots g) (g_limiter g) (g_tun g) (S addr) (g_session g) in
      let m := (sl_port sl).2 in
      let '(s, r) := start addr (dial m) (open m) (view g (NewWorker (sl_conf sl)) (sl_port sl)) in
      let sl := mkSlot (sl_conf sl) (sl_port sl) addr Idle in
      match r with
      | None => absorb g k sl Running s
      | Some x => absorb g k sl (after_exit x) (close_port s).1
      end
    else g
  | None => g
  end.

(** One event of a running worker's main loop; tasks reach it through the
    tunnel only. *)
Definition run_worker (g : gateway) (k : nat) (e : loop_event) : gateway :=
  match g_slots g !! k, e with
  | None, _ | _, EvDispatch _ => g
  | Some sl, _ =>
    match sl_phase sl, heap (reg (g_tun g)) !! sl_addr sl with
    | Running, Some x =>
      let '(s, r) := loop_step uuid e (view g x (sl_port sl)) in
      match r with
      | None => absorb g k sl Running s
      | Some x => absorb g k sl (after_exit x) (close_port s).1
      end
    | _, _ => g
    end
  end.

(** ** The tunnel in the gateway *)

Definition on_tunnel (g : gateway) (a : st (@tworld DB) ()) : gateway :=
  mkGateway (g_slots g) (g_limiter g) (a (g_tun g)).1 (g_next g) (g_session g).

Definition set_session (g : gateway) (b : bool) : gateway :=
  mkGateway (g_slots g) (g_limiter g) (g_tun g) (g_next g) b.

(** The end of a session in [Manager.Run]. *)
Definition reconnect : st (@tworld DB) () :=
  _ ← mupd (fun m => set_tstate m TunnelReconnecting);
  backOff.

(** A successful dial, up to the goroutines of the session. *)
Definition connect (g : gateway) : gateway :=
  let begin := _ ← mupd (fun m => set_tstate m TunnelConnecting);
               _ ← mupd (fun m => set_attempt (set_tstate m TunnelConnected) 0);
               session_open conf uuid AddDays modemStatuses write_ok in
  let '(t, err) := begin (g_tun g) in
  let g := mkGateway (g_slots g) (g_limiter g) t (g_next g) true in
  match err with
  | Some _ => set_session (on_tunnel g reconnect) false
  | None => g
  end.

(** ** The control API *)

(** [modemResetHandler]: the status code. *)
Definition modemResetHandler (g : gateway) (post : bool) (ic : string) : gateway * Z :=
  if negb post then (g, 405%Z) else
  if String.eqb ic "" then (g, 400%Z) else
  let t := g_tun g in
  match workers (reg t) !! ic with
  | None => (g, 404%Z)
  | Some addr =>
    let r := {| workers := workers (reg t); heap := alter RequestReset addr (heap (reg t)) |} in
    (on_tunnel g (st_modify (fun t => set_reg t r)), 202%Z)
  end.

(** [healthHandler]: the status code and word. *)
Definition healthHandler (g : gateway) (get : bool) : Z * string :=
  if negb get then (405%Z, "method not allowed") else
  match tstate (mgr (g_tun g)) with
  | TunnelConnected => (200%Z, "ok")
  | _ => (503%Z, "degraded")
  end.

(** ** Runs *)

Inductive gstep :=
| GStart (k : nat) (dial : M -> res M) (open : M -> nat -> res M)
| GWorker (k : nat) (e : loop_event)
| GDialFailed
| GConnect
| GSession (e : session_event)
| GHangup
| GReset (post : bool) (ic : string).

Definition gateway_step (g : gateway) (a : gstep) : gateway :=
  match a with
  | GStart k dial open => start_worker g k dial open
  | GWorker k e => run_worker g k e
  | GDialFailed =>
      if g_session g then g
      else on_tunnel g (run_round conf uuid AddDays modemStatuses write_ok DialFailed)
  | GConnect => if g_session g then g else connect g
  | GSession e =>
      if g_session g && negb (done_ctx (g_tun g))
      then on_tunnel g (session_step conf uuid AddDays modemStatuses write_ok e) else g
  | GHangup =>
      if g_session g && done_ctx (g_tun g)
      then set_session (on_tunnel g (_ ← session_close; reconnect)) false else g
  | GReset post ic => (modemResetHandler g post ic).1
  end.

Definition gateway_run (g : gateway) (steps : list gstep) : gateway := foldl gateway_step g steps.

(** ** No message is lost *)

Section Safety.
Context `{!SimStorage M} `{!SqlLaws DB}.

Definition db (g : gateway) : DB := tbuf (g_tun g).

(** The message [h] is stored at index [j] of the SIM at port [k]. *)
Definition on_sim (g : gateway) (k : nat) (j : Z) (h : string) : Prop :=
  exists sl, g_slots g !! k = Some sl /\ stored (sl_port sl).2 j = Some h.

(** A step that acknowledges row [i]. *)
Definition step_marks (i : Z) (a : gstep) : bool :=
  match a with GSession e => session_marks i e | _ => false end.

(** A step in which no worker purges its SIM. *)
Definition step_spares (g : gateway) (a : gstep) : bool :=
  match a with
  | GWorker k e =>
    match g_slots g !! k with
    | Some sl =>
      match heap (reg (g_tun g)) !! sl_addr sl with
      | Some x => spares_step e (view g x (sl_port sl))
      | None => true
      end
    | None => true
    end
  | _ => true
  end.

(** Opening a port finds its SIM as it was left. *)
Definition to_attempt (dial : M -> res M) (open : M -> nat -> res M) : Supervisor.attempt :=
  {| at_dial := dial; at_open := open; at_events := []; at_cancelled := false; at_backoff := None |}.

Definition step_reopens (a : gstep) : Prop :=
  match a with GStart _ dial open => reopens (to_attempt dial open) | _ => True end.

(** What the worker at port [k] reads in a step: its ICCID, the index, the PDU. *)
Definition step_reads (g : gateway) (a : gstep) (k : nat) : option (string * Z * string) :=
  match a with
  | GWorker k' e =>
    if decide (k' = k) then
      sl ← g_slots g !! k;
      x ← heap (reg (g_tun g)) !! sl_addr sl;
      r ← sms_read e (view g x (sl_port sl));
      match sl_phase sl with Running => Some (iccid x, r.1, r.2) | _ => None end
    else None
  | _ => None
  end.

(** What one step may do to messages: a queued one stays unless [mk] names it,
    a stored one stays unless it is the one read, [rd], and secured. *)
Record advances (mk : Z -> bool) (rd : nat -> option (string * Z * string)) (g g' : gateway) : Prop := {
  ad_inbox : delivers mk (db g) (db g');
  ad_worker : forall k r, rd k = Some r -> delivers (fun _ => false) (db g) (db g');
  ad_sms : forall k j h, on_sim g k j h -> on_sim g' k j h \/
    exists ic hex, rd k = Some (ic, j, hex) /\ secured ic (db g) (db g') hex }.

Lemma advances_refl mk rd g : advances mk rd g g.
Proof. split; [reflexivity|reflexivity|auto]. Qed.

Lemma Push_all_buf (l : list outbound) : forall t : @tworld DB,
  tbuf (foldl (fun t e => (Push e t).1) t l) = tbuf t.
Proof. induction l as [|e l IH]; intros t; cbn [foldl]; [done|]. by rewrite IH. Qed.

Lemma absorb_advances mk rd0 rd g k sl0 sl ph x (s : world) :
  g_slots g !! k = Some sl0 -> sl_port sl0 = sl_port sl ->
  (forall r, rd0 = Some r -> rd k = Some (iccid x, r.1, r.2)) ->
  takes rd0 (view g x (sl_port sl)) s -> advances mk rd g (absorb g k sl ph s).
Proof.
  intros Hsl Hp Hrd [HB HR HS].
  assert (Hdb : db (absorb g k sl ph s) = buf s) by (unfold db, absorb; cbn; by rewrite Push_all_buf).
  split; rewrite ?Hdb; [by eapply delivers_mono; [|exact HB]|by intros; exact HB|].
  intros k' j h (sl' & Hk & Hst). destruct (decide (k' = k)) as [->|Hne].
  - rewrite Hsl in Hk. injection Hk as <-. rewrite Hp in Hst. destruct (HS j h Hst) as [Hs|(hex & Hx & Hsec)]; [left|right].
    + eexists. cbn. rewrite lookup_insert_eq. by split.
    + exists (iccid x), hex. split; [by apply (Hrd (j, hex))|]. exact Hsec.
  - left. exists sl'. cbn. by rewrite lookup_insert_ne by done.
Qed.

Lemma close_takes rd (s s' : world) : takes rd s s' -> takes rd s (close_port s').1.
Proof. intros [B R K]. by split. Qed.

(** A step that reads no message and leaves the ports alone. *)
Lemma tun_advances mk g g' :
  g_slots g' = g_slots g -> delivers mk (db g) (db g') -> advances mk (fun _ => None) g g'.
Proof. intros Hs HD. split; [done|done|]. intros k j h (sl & Hk & Hst). left. exists sl. by rewrite Hs. Qed.

Lemma start_worker_advances mk g k dial open :
  reopens (to_attempt dial open) -> advances mk (fun _ => None) g (start_worker g k dial open).
Proof.
  intros Hr. unfold start_worker. destruct (g_slots g !! k) as [sl|] eqn:Hsl; [|apply advances_refl].
  case_decide; [|apply advances_refl]. set (g1 := mkGateway _ _ _ _ _).
  pose proof (start_keeps uuid (g_next g) (to_attempt dial open) (view g1 (NewWorker (sl_conf sl)) (sl_port sl)) Hr) as [HK _].
  cbn [to_attempt at_dial at_open view prt] in HK. apply (keeps_takes None) in HK.
  destruct (start _ _ _ _) as [s r]. cbn [fst] in HK.
  assert (Hadv : forall s1 ph, takes None (view g1 (NewWorker (sl_conf sl)) (sl_port sl)) s1 ->
    advances mk (fun _ => None) g (absorb g1 k (mkSlot (sl_conf sl) (sl_port sl) (g_next g) Idle) ph s1)).
  { intros s1 ph HK1. destruct (absorb_advances mk None (fun _ => None) g1 k sl
      (mkSlot (sl_conf sl) (sl_port sl) (g_next g) Idle) ph _ s1 Hsl eq_refl ltac:(done) HK1)
      as [Ha Hb Hc]. split; [exact Ha|exact Hb|exact Hc]. }
  destruct r as [y|]; [apply Hadv, close_takes, HK|by apply Hadv].
Qed.

Lemma run_worker_advances mk g k e :
  step_spares g (GWorker k e) = true -> advances mk (step_reads g (GWorker k e)) g (run_worker g k e).
Proof.
  cbn. unfold run_worker. destruct (g_slots g !! k) as [sl|] eqn:Hsl; [|intros _; apply advances_refl].
  destruct (heap (reg (g_tun g)) !! sl_addr sl) as [x|] eqn:Hx.
  2:{ intros _. destruct e, (sl_phase sl); apply advances_refl. }
  intros Hs. pose proof (loop_step_takes uuid e (view g x (sl_port sl)) Hs) as HK.
  assert (sl_phase sl = Running -> forall r, sms_read e (view g x (sl_port sl)) = Some r ->
    step_reads g (GWorker k e) k = Some (iccid x, r.1, r.2)) as Hrd.
  { intros Hph r Hr. unfold step_reads. rewrite decide_True, Hsl by done. cbn [mbind option_bind].
    rewrite Hx. cbn [mbind option_bind]. by rewrite Hr, Hph. }
  destruct e; try apply advances_refl; (destruct (sl_phase sl) eqn:Hph; try apply advances_refl);
    (destruct (loop_step uuid _ _) as [s [y|]]; cbn [fst] in HK;
     [eapply absorb_advances with (x := x) (sl0 := sl); [exact Hsl|done|exact (Hrd eq_refl)|apply close_takes; exact HK]
     |eapply absorb_advances with (x := x) (sl0 := sl); [exact Hsl|done|exact (Hrd eq_refl)|exact HK]]).
Qed.

Lemma gateway_step_advances mk g a :
  step_spares g a = true -> step_reopens a -> (forall i, step_marks i a = true -> mk i = true) ->
  advances mk (step_reads g a) g (gateway_step g a).
Proof.
  intros Hs Hr Hm. destruct a as [k dial open|k e| | |e| |post ic]; cbn [gateway_step];
    try change (step_reads g _) with (fun _ : nat => @None (string * Z * string)).
  - by apply start_worker_advances.
  - by apply run_worker_advances.
  - destruct (g_session g) eqn:Hg; [apply advances_refl|by apply tun_advances].
  - destruct (g_session g) eqn:Hg; [apply advances_refl|]. unfold connect.
    assert (HD : forall t, delivers mk (tbuf t) (tbuf (session_open conf uuid AddDays modemStatuses write_ok t).1))
      by exact (session_open_keeps conf uuid AddDays modemStatuses write_ok mk).
    cbv [mbind st_bind mupd st_modify]. match goal with |- context [session_open _ _ _ _ _ ?t] => specialize (HD t) end.
    destruct (session_open _ _ _ _ _ _) as [t1 [e|]]; apply tun_advances; done.
  - destruct (_ && _); [|apply advances_refl]. apply tun_advances; [done|].
    apply (session_step_keeps conf uuid AddDays modemStatuses write_ok mk e Hm).
  - destruct (_ && _); [|apply advances_refl]. by apply tun_advances.
  - unfold modemResetHandler. destruct post; [|apply advances_refl]. destruct (String.eqb ic ""); [apply advances_refl|].
    cbn. destruct (workers _ !! ic); [|apply advances_refl]. by apply tun_advances.
Qed.

(** The record [m] carries the message [d] received on the SIM [ic]. *)
Definition carries (ic : string) (d : DecodedSMS) (m : SMSRecord) : Prop :=
  ICCID m = ic /\ Sender m = Pdu.Sender d /\ Body m = Pdu.Body d /\ ReceivedAt m = (Timestamp d * 1000)%Z /\
  PDUHash m = Pdu.PDUHash d /\ SMSC m = Pdu.SMSC d.

(** A row of the table is in the queue or in the archive. *)
Lemma row_cases (d : DB) r :
  r ∈ db_rows d ->
  (exists m, m ∈ queue (inbox_of d) /\ PDUHash m.1 = r_pdu_hash r) \/
  r_pdu_hash r ∈ (archive (inbox_of d)).*1.
Proof.
  intros Hr. destruct (is_pending r) eqn:Hp.
  - left. exists (record_of r, r_created_at r). split; [|done]. apply list_elem_of_fmap. exists r. split; [done|].
    apply list_elem_of_filter. split; [by rewrite Hp|done].
  - right. apply list_elem_of_fmap. exists (r_pdu_hash r, r_created_at r). split; [done|].
    apply list_elem_of_fmap. exists r. split; [done|]. apply list_elem_of_filter.
    split; [rewrite Hp; intros []|done].
Qed.

(** A secured PDU that decodes was delivered before, or is queued: from before,
    or with its own fields. *)
Lemma secured_queued ic (d d' : DB) hex sms :
  buffer_wf d -> delivers (fun _ => false) d d' -> secured ic d d' hex -> DecodePDU hex = Ok sms ->
  Pdu.PDUHash sms ∈ (archive (inbox_of d)).*1 \/
  exists m, m ∈ queue (inbox_of d') /\ PDUHash m.1 = Pdu.PDUHash sms /\ (m ∈ queue (inbox_of d) \/ carries ic sms m.1).
Proof.
  intros Hwf HD Hsec Hsms. unfold secured in Hsec. rewrite Hsms in Hsec. destruct (HD Hwf) as [_ HK].
  destruct Hsec as [(r & Hr & Hh)|(i & now & Hrows)].
  - destruct (row_cases _ _ Hr) as [(m & Hm & Hmh)|Ha]; rewrite Hh in *; [right|by left]. exists m. auto.
  - right. exists (record_of (new_row i now (values_of ic sms)), now). split_and!; [|done|by right].
    unfold inbox_of. cbn [queue]. rewrite Hrows, queued_app. apply elem_of_app. right. by apply list_elem_of_singleton.
Qed.

(** Runs of any system whose steps advance a gateway: [gw] is the gateway of a
    state, [marks] the rows a step acknowledges, [reads] the message a worker
    reads in a step, [ok] the steps considered. *)
Section Runs.
Context {S A : Type} (step : S -> A -> S) (gw : S -> gateway) (marks : Z -> A -> bool)
  (reads : S -> A -> nat -> option (string * Z * string)) (ok : S -> A -> Prop).

Fixpoint run_ok (s : S) (steps : list A) : Prop :=
  match steps with
  | [] => True
  | a :: steps => ok s a /\ run_ok (step s a) steps
  end.

(** What became of the PDU [hex] that was read on the SIM [ic] in the step [a]
    from [s], when the steps [after] have followed: it does not decode; or a
    message with its hash had been delivered before; or a record with its hash
    was in the queue after the step, put there by it with the decoded fields or
    waiting there already, and that record is in the queue of the final state
    or one of the steps [after] acknowledged its id. *)
Definition passed_on (s : S) (a : A) (after : list A) (ic hex : string) : Prop :=
  match DecodePDU hex with
  | Ok d =>
    let s2 := step s a in
    Pdu.PDUHash d ∈ (archive (inbox_of (db (gw s)))).*1 \/
    exists m, m ∈ queue (inbox_of (db (gw s2))) /\ PDUHash m.1 = Pdu.PDUHash d /\
      (m ∈ queue (inbox_of (db (gw s))) \/ carries ic d m.1) /\
      (m ∈ queue (inbox_of (db (gw (foldl step s2 after)))) \/ existsb (marks (ID m.1)) after = true)
  | _ => True
  end.

Hypothesis Hadv : forall s a, ok s a -> advances (fun i => marks i a) (reads s a) (gw s) (gw (step s a)).

Lemma run_queued m steps : forall s,
  run_ok s steps -> buffer_wf (db (gw s)) -> m ∈ queue (inbox_of (db (gw s))) ->
  m ∈ queue (inbox_of (db (gw (foldl step s steps)))) \/ existsb (marks (ID m.1)) steps = true.
Proof.
  induction steps as [|a steps IH]; intros s Hok Hwf Hm; [by left|]. destruct Hok as [Ha Hok]. cbn [foldl existsb].
  destruct (ad_inbox _ _ _ _ (Hadv s a Ha) Hwf) as [Hwf' HK].
  destruct (marks (ID m.1) a) eqn:Hmk; [by right|]. rewrite orb_false_l. apply IH; auto.
Qed.

Lemma run_passed_on k j h steps : forall s,
  run_ok s steps -> buffer_wf (db (gw s)) -> on_sim (gw s) k j h ->
  on_sim (gw (foldl step s steps)) k j h \/
  exists before a after ic hex, steps = before ++ a :: after /\
    let s1 := foldl step s before in
    reads s1 a k = Some (ic, j, hex) /\ passed_on s1 a after ic hex.
Proof.
  induction steps as [|a steps IH]; intros s Hok Hwf Hsim; [by left|]. destruct Hok as [Ha Hok]. cbn [foldl].
  destruct (Hadv s a Ha) as [HD HW HS]. destruct (HD Hwf) as [Hwf' _].
  destruct (HS k j h Hsim) as [Hsim'|(ic & hex & Hrd & Hsec)].
  - destruct (IH _ Hok Hwf' Hsim') as [|(before & b & after & ic & hex & -> & H1 & H2)]; [by left|right].
    by exists (a :: before), b, after, ic, hex.
  - right. exists [], a, steps, ic, hex. split; [done|]. split; [done|]. unfold passed_on. cbn [foldl].
    destruct (DecodePDU hex) as [d| |] eqn:Hd; try done.
    destruct (secured_queued ic _ _ hex d Hwf (HW k _ Hrd) Hsec Hd) as [|(m & Hm & Hmh & Hmc)]; [by left|right].
    exists m. split_and!; [done..|]. by apply run_queued.
Qed.
End Runs.
End Safety.
End Gateway.

(** ** Settings that were loaded *)

Lemma device_path_slash p : device_path p = true -> HasPrefix p "/" = true.
Proof.
  unfold device_path, HasPrefix. destruct p as [|a p]; [done|]. cbn [strip_prefix].
  destruct (Ascii.eqb _ a) eqn:E; [by destruct p|done].
Qed.

(** Workers open devices only.  For a modem of a configuration that [Load]
    returned, opening the port of a worker made for it does not depend on what
    dialling a TCP address would give: [openPort] never takes its TCP branch. *)
Theorem loaded_ports_never_dialled {M DB : Type} (decode : string -> res GatewayConfig) (env : environment)
    (file : res string) (conf : GatewayConfig) (m : ModemConfig) (s : @world M DB)
    (dial dial' : res M) (open : nat -> res M) :
  Load decode env file = inr conf -> m ∈ Modems conf ->
  cfg (w s) = cfg (NewWorker (worker_config conf m)) ->
  openPort dial open s = openPort dial' open s.
Proof.
  intros HL Hm Hc. apply Load_returns in HL as [_ _ _ _ _ HP].
  assert (Hd : device_path (MC_Port m) = true) by (by eapply (Forall_forall (fun m => device_path (MC_Port m) = true))).
  apply device_path_slash in Hd. unfold openPort. cbv [mbind st_bind st_get]. rewrite Hc. cbn [NewWorker cfg Port worker_config].
  rewrite Hd. cbn [negb]. by rewrite andb_false_r.
Qed.

(** ** Witnesses *)

(** One modem whose SIM holds a message at index 3, and nothing started. *)
Definition demo_gateway : @gateway sim memdb :=
  mkGateway {[0%nat := mkSlot demo_worker_conf (NewSerializer, {| slots := [(3%Z, demo_pdu)] |}) 0 Idle]} ∅
    (mkTworld NewManager mem_empty NewRegistry [] false 0 1700000000000000000) 1 false.

(** The worker starts while the first dial fails; the tunnel connects; the
    message arrives, is announced, and is replayed once without an answer. *)
Definition demo_steps : list (@gstep sim) :=
  [GDialFailed; GStart 0 (fun _ => inl (errors_New "no")) (fun m _ => inr m); GConnect;
   GWorker 0 (EvReader (Scan (cmti 3))); GWorker 0 EvURC; GSession SOutbox; GSession (SFlush [FTimeout]);
   GReset true demo_iccid; GWorker 0 EvReset; GSession SReadError; GHangup].

Definition demo_sms : DecodedSMS :=
  match DecodePDU demo_pdu with
  | Ok d => d
  | _ => {| Pdu.SMSC := ""; Pdu.Sender := ""; Pdu.Body := ""; Timestamp := 0; Pdu.PDUHash := "" |}
  end.

Abbreviation demo_run := (gateway_run demo_conf demo_ids utc_days all_ok).

(** In that run the message leaves the SIM for the queue; once the cloud has
    acknowledged its replay the queue is empty, and the health check follows
    the tunnel. *)
Example demo_gateway_run :
  let g := demo_run demo_gateway demo_steps in
  let g' := demo_run g [GConnect; GSession (SFlush [FInbound (ack_json "1")])] in
  healthHandler demo_gateway true = (503%Z, "degraded") /\ healthHandler g' true = (200%Z, "ok") /\
  length (queue (inbox_of (db g))) = 1 /\ queue (inbox_of (db g')) = [] /\
  (slots ∘ snd ∘ sl_port <$> g_slots g !! 0%nat) = Some [].
Proof. by vm_compute. Qed.

Lemma loaded_ports_never_dialled_witness :
  let s := @mkWorld sim memdb (NewWorker (worker_config (applyEnvOverrides demo_env (defaults demo_file))
               (modem_defaults {| MC_Port := "/dev/ttyUSB0"; MC_Baud := 0;
                  MC_RateLimit := {| R_PerMin := 5; R_PerHour := 0; R_PerDay := 0 |}; MC_ExpectedICCID := EmptyString |})))
             (NewSerializer, {| slots := [] |}) mem_empty ∅ ∅ [] 0 0 in
  openPort (inr {| slots := [] |}) (fun _ => inl (errors_New "busy")) s =
  openPort (inl (errors_New "refused")) (fun _ => inl (errors_New "busy")) s.
Proof.
  cbv zeta. eapply (loaded_ports_never_dialled (fun _ => inr demo_file) demo_env (inr "x")
    (applyEnvOverrides demo_env (defaults demo_file))); [by vm_compute|left|reflexivity].
Defined.
