(* ===== verification/Breaker.v ===== *)
(** * Circuit breaker (breaker/breaker.go)

    The three-state machine as operations on a [Breaker] record, each taking
    the reading of the clock it makes ([time.Now], nanoseconds).  A mutex makes
    every method one step, so a run is a list of timed operations.  [breaker_cycle]
    follows the machine through a whole cycle: it trips on exactly [threshold]
    consecutive failures, refuses for [resetTimeout], then lets a probe decide.
    [failures_bounded] is its invariant, and with it the counter cannot overflow. *)

From S2P Require Import Prelude.

Local Open Scope Z_scope.

Inductive State := Closed | Open | HalfOpen.

#[global] Instance State_eq_dec : EqDecision State.
Proof. solve_decision. Defined.

(** The method [String]; the enumeration has no fourth value to print as
    "Unknown". *)
Definition State_String (s : State) : string :=
  match s with
  | Closed => "Closed"
  | Open => "Open"
  | HalfOpen => "HalfOpen"
  end.

Definition DefaultThreshold : Z := 5.
Definition DefaultResetTimeout : Z := 60 * 1000000000.

Record Breaker := {
  state : State;
  failures : Z;
  threshold : Z;
  resetTimeout : Z;
  openUntil : Z
}.

(** [New]; the zero [time.Time] of [openUntil] lies before every reading of the
    clock and is only read after it was set. *)
Definition Breaker_New (threshold resetTimeout : Z) : Breaker :=
  {| state := Closed; failures := 0; threshold := threshold;
     resetTimeout := resetTimeout; openUntil := 0 |}.

Definition Breaker_NewDefault : Breaker := Breaker_New DefaultThreshold DefaultResetTimeout.

Definition set_state (s : State) (b : Breaker) : Breaker :=
  {| state := s; failures := failures b; threshold := threshold b;
     resetTimeout := resetTimeout b; openUntil := openUntil b |}.
Definition set_failures (n : Z) (b : Breaker) : Breaker :=
  {| state := state b; failures := n; threshold := threshold b;
     resetTimeout := resetTimeout b; openUntil := openUntil b |}.
Definition set_openUntil (t : Z) (b : Breaker) : Breaker :=
  {| state := state b; failures := failures b; threshold := threshold b;
     resetTimeout := resetTimeout b; openUntil := t |}.

Definition Breaker_Allow (b : Breaker) (now : Z) : bool * Breaker :=
  match state b with
  | Closed => (true, b)
  | Open => if now <? openUntil b then (false, b) else (true, set_state HalfOpen b)
  | HalfOpen => (true, b)
  end.

Definition RecordSuccess (b : Breaker) : Breaker :=
  let b := set_failures 0 b in
  match state b with
  | HalfOpen | Open => set_state Closed b
  | Closed => b
  end.

Definition RecordFailure (b : Breaker) (now : Z) : Breaker :=
  match state b with
  | Open => b
  | HalfOpen => set_openUntil (now + resetTimeout b) (set_state Open b)
  | Closed =>
    let b := set_failures (to_int64 (failures b + 1)) b in
    if threshold b <=? failures b
    then set_openUntil (now + resetTimeout b) (set_state Open b)
    else b
  end.

Definition Breaker_State (b : Breaker) : State := state b.
Definition Breaker_Failures (b : Breaker) : Z := failures b.

(** ** Runs *)

Inductive breaker_op := CallAllow | CallSuccess | CallFailure.

#[global] Instance breaker_op_eq_dec : EqDecision breaker_op.
Proof. solve_decision. Defined.

(** One timed call: the new state and, for [Allow], its answer. *)
Definition breaker_step (b : Breaker) (c : Z * breaker_op) : list bool * Breaker :=
  match c.2 with
  | CallAllow => let '(ok, b) := Breaker_Allow b c.1 in ([ok], b)
  | CallSuccess => ([], RecordSuccess b)
  | CallFailure => ([], RecordFailure b c.1)
  end.

Fixpoint breaker_run (b : Breaker) (cs : list (Z * breaker_op)) : list bool * Breaker :=
  match cs with
  | [] => ([], b)
  | c :: cs =>
    let '(oks, b) := breaker_step b c in
    let '(oks', b) := breaker_run b cs in (oks ++ oks', b)
  end.

(** Failures since the last success, [n] of them before the run. *)
Fixpoint failing (n : Z) (cs : list (Z * breaker_op)) : Z :=
  match cs with
  | [] => n
  | (_, CallAllow) :: cs => failing n cs
  | (_, CallSuccess) :: cs => failing 0 cs
  | (_, CallFailure) :: cs => failing (n + 1) cs
  end.

(** No point of the run has [th] failures in a row. *)
Fixpoint stays_below (th n : Z) (cs : list (Z * breaker_op)) : bool :=
  (n <? th) &&
  match cs with
  | [] => true
  | (_, CallAllow) :: cs => stays_below th n cs
  | (_, CallSuccess) :: cs => stays_below th 0 cs
  | (_, CallFailure) :: cs => stays_below th (n + 1) cs
  end.

Definition closed_at (th rt n : Z) (b : Breaker) : Prop :=
  state b = Closed /\ failures b = n /\ threshold b = th /\ resetTimeout b = rt.

(** ** The closed phase *)

Lemma breaker_run_app b cs1 cs2 :
  breaker_run b (cs1 ++ cs2) =
  let '(o1, b1) := breaker_run b cs1 in
  let '(o2, b2) := breaker_run b1 cs2 in (o1 ++ o2, b2).
Proof.
  revert b. induction cs1 as [|c cs IH]; intros b; cbn [breaker_run app].
  - by destruct (breaker_run b cs2).
  - destruct (breaker_step b c) as [o b1]. rewrite IH.
    destruct (breaker_run b1 cs) as [o2 b2]. destruct (breaker_run b2 cs2) as [o3 b3].
    by rewrite app_assoc.
Qed.

Lemma stays_below_hd th n cs : stays_below th n cs = true -> n < th.
Proof. destruct cs as [|[? []] cs]; cbn; lia. Qed.

(** Closed and below the threshold, every call is allowed and the counter is
    the number of failures in a row. *)
Lemma closed_run th rt cs : forall n b,
  in_int64 th = true -> 0 <= n -> closed_at th rt n b -> stays_below th n cs = true ->
  Forall (eq true) (breaker_run b cs).1 /\ closed_at th rt (failing n cs) (breaker_run b cs).2 /\
  0 <= failing n cs < th.
Proof.
  induction cs as [|[t op] cs IH]; intros n b Hth Hn (Hs & Hf & Ht & Hr) Hb;
    [pose proof (stays_below_hd _ _ _ Hb); repeat split; auto; cbn; lia|].
  destruct op; cbn in Hb; apply andb_prop in Hb as [Hlt Hb]; cbn [breaker_run breaker_step fst snd failing].
  - unfold Breaker_Allow. rewrite Hs. specialize (IH n b Hth Hn ltac:(done) Hb).
    destruct (breaker_run b cs) as [o b']. cbn in *. destruct IH. split; [by constructor|done].
  - unfold RecordSuccess. cbv zeta. cbn [set_failures state]. rewrite Hs.
    specialize (IH 0 (set_failures 0 b) Hth ltac:(lia) ltac:(done) Hb).
    destruct (breaker_run _ cs) as [o b']. done.
  - pose proof (stays_below_hd _ _ _ Hb) as Hn1.
    unfold RecordFailure. rewrite Hs, Hf, to_int64_id by (unfold in_int64 in *; lia).
    cbv zeta. cbn [set_failures failures threshold]. rewrite Ht.
    destruct (Z.leb_spec th (n + 1)); [lia|].
    specialize (IH (n + 1) (set_failures (n + 1) b) Hth ltac:(lia) ltac:(done) Hb).
    destruct (breaker_run _ cs) as [o b']. done.
Qed.

(** ** The open phase *)

Definition refused_period (u : Z) (cs : list (Z * breaker_op)) : Prop :=
  Forall (fun c => c.1 < u /\ c.2 <> CallSuccess) cs.

Lemma open_run cs : forall b,
  state b = Open -> refused_period (openUntil b) cs ->
  Forall (eq false) (breaker_run b cs).1 /\ (breaker_run b cs).2 = b.
Proof.
  induction cs as [|[t op] cs IH]; intros b Hs Hp; [done|].
  inversion Hp as [|? ? [Ht Hop] Hp']; subst. cbn [fst snd] in *.
  destruct op; [|done|]; cbn [breaker_run breaker_step fst snd].
  - unfold Breaker_Allow. rewrite Hs. destruct (Z.ltb_spec t (openUntil b)); [|lia].
    destruct (IH b Hs Hp') as [Ho Hb]. destruct (breaker_run b cs). cbn in *. split; [by constructor|done].
  - unfold RecordFailure. rewrite Hs. destruct (IH b Hs Hp') as [Ho Hb].
    destruct (breaker_run b cs). done.
Qed.

(** ** The whole cycle *)

Definition opened_until (u : Z) (b : Breaker) : Prop := state b = Open /\ openUntil b = u.

Lemma trip th rt n b t :
  in_int64 th = true -> 0 <= n -> closed_at th rt n b -> th = n + 1 ->
  opened_until (t + rt) (RecordFailure b t).
Proof.
  intros Hth Hn (Hs & Hf & Ht & Hr) ->. unfold RecordFailure.
  rewrite Hs, Hf, to_int64_id by (unfold in_int64 in *; lia). cbv zeta. cbn [set_failures failures threshold].
  rewrite Ht, Z.leb_refl. split; cbn; [done|by rewrite Hr].
Qed.

(** C34: From a new breaker, any run in which fewer than [threshold] failures follow each other is
    allowed throughout; the failure at [t] that completes [threshold] of them opens the breaker;
    every call made before [t + resetTimeout] is refused (as long as no success is recorded); the
    first call after that is let through as a probe, whose success closes the breaker with a clean
    count and whose failure at [t3] opens it until [t3 + resetTimeout]. *)
Theorem breaker_cycle th rt calm t during t2 t3 :
  in_int64 th = true ->
  stays_below th 0 calm = true -> failing 0 calm = th - 1 ->
  refused_period (t + rt) during -> t + rt <= t2 ->
  let '(oks, b) := breaker_run (Breaker_New th rt) calm in
  let '(refused, b1) := breaker_run (RecordFailure b t) during in
  let '(probe, b2) := Breaker_Allow b1 t2 in
  Forall (eq true) oks /\ Breaker_State b = Closed /\
  Forall (eq false) refused /\ opened_until (t + rt) b1 /\
  probe = true /\ Breaker_State b2 = HalfOpen /\
  closed_at th rt 0 (RecordSuccess b2) /\ opened_until (t3 + rt) (RecordFailure b2 t3).
Proof.
  intros Hth Hcalm Hn Hd Ht2.
  destruct (closed_run th rt calm 0 (Breaker_New th rt)) as (Ho & Hc & Hlt); [done..|].
  destruct (breaker_run _ calm) as [oks b]. cbn [fst snd] in *.
  rewrite Hn in Hc. destruct Hc as (Hs & Hf & Hth' & Hr).
  assert (threshold (RecordFailure b t) = th /\ resetTimeout (RecordFailure b t) = rt) as [HT HR].
  { unfold RecordFailure. destruct (state b); [destruct (_ <=? _)| |]; done. }
  destruct (trip th rt (th - 1) b t) as [Hs1 Hu]; [done|lia|done|lia|].
  destruct (open_run during (RecordFailure b t) Hs1) as [Hr1 Hb1]; [by rewrite Hu|].
  destruct (breaker_run _ during) as [refused b1]. cbn [fst snd] in *. subst b1.
  unfold Breaker_Allow. rewrite Hs1, Hu. destruct (Z.ltb_spec t2 (t + rt)); [lia|].
  unfold RecordSuccess, closed_at, opened_until. repeat split; try done.
  cbn. by rewrite HR.
Qed.

Lemma breaker_cycle_witness :
  let '(oks, b) := breaker_run (Breaker_New 2 10) [(0, CallAllow); (1, CallFailure)] in
  let '(refused, b1) := breaker_run (RecordFailure b 5) [(6, CallAllow); (14, CallAllow)] in
  let '(probe, b2) := Breaker_Allow b1 15 in
  Forall (eq true) oks /\ Breaker_State b = Closed /\
  Forall (eq false) refused /\ opened_until 15 b1 /\
  probe = true /\ Breaker_State b2 = HalfOpen /\
  closed_at 2 10 0 (RecordSuccess b2) /\ opened_until 26 (RecordFailure b2 16).
Proof.
  apply (breaker_cycle 2 10 [(0, CallAllow); (1, CallFailure)] 5 [(6, CallAllow); (14, CallAllow)] 15 16);
    [reflexivity..|repeat constructor; discriminate|lia].
Defined.

(** ** The counter *)

(** What holds of every breaker with a representable threshold: closed, the
    counter is below the threshold; tripped, it stands at the threshold. *)
Definition counted (b : Breaker) : Prop :=
  in_int64 (threshold b) = true /\
  match state b with
  | Closed => 0 <= failures b < Z.max 1 (threshold b)
  | Open | HalfOpen => failures b = Z.max 1 (threshold b)
  end.

Lemma counted_step b c : counted b -> counted (breaker_step b c).2.
Proof.
  intros [Hth Hc]. destruct c as [t []]; cbn [breaker_step fst snd].
  - unfold Breaker_Allow. destruct (state b) eqn:E; [|destruct (_ <? _)|]; unfold counted; cbn;
      rewrite ?E; try done.
  - unfold RecordSuccess. cbv zeta. cbn [set_failures state]. destruct (state b) eqn:E; unfold counted; cbn;
      rewrite ?E; split; try done; lia.
  - unfold RecordFailure. destruct (state b) eqn:E; [|by unfold counted; rewrite E|by split].
    cbv zeta. cbn [set_failures failures threshold]. rewrite to_int64_id by (unfold in_int64 in *; lia).
    destruct (Z.leb_spec (threshold b) (failures b + 1)); unfold counted; cbn; rewrite ?E;
      split; try done; lia.
Qed.

Lemma counted_run cs : forall b, counted b -> counted (breaker_run b cs).2.
Proof.
  induction cs as [|c cs IH]; intros b Hb; [done|]. cbn [breaker_run].
  pose proof (counted_step b c Hb) as H1. destruct (breaker_step b c) as [o b1]. specialize (IH b1 H1).
  destruct (breaker_run b1 cs). done.
Qed.

(** Over any run, at any times, the failure counter stays within the threshold (at least one), so
    its 64-bit increment never wraps; and the breaker refuses or probes exactly when the counter
    has reached the threshold. *)
Theorem failures_bounded th rt cs :
  in_int64 th = true ->
  let b := (breaker_run (Breaker_New th rt) cs).2 in
  0 <= Breaker_Failures b <= Z.max 1 th /\
  (Breaker_State b <> Closed <-> Breaker_Failures b = Z.max 1 th).
Proof.
  intros Hth b.
  assert (threshold b = th) as Hb.
  { unfold b. enough (forall b0, threshold (breaker_run b0 cs).2 = threshold b0) as -> by done.
    clear. induction cs as [|[t op] cs IH]; intros b; [done|]. cbn [breaker_run].
    destruct (breaker_step b (t, op)) as [o b1] eqn:E. specialize (IH b1).
    destruct (breaker_run b1 cs). cbn in *. rewrite IH. clear -E.
    destruct op; cbn in E; unfold Breaker_Allow, RecordSuccess, RecordFailure in E; cbn in E;
      repeat case_match; simplify_eq; done. }
  assert (counted b) as [_ Hc].
  { apply counted_run. split; [done|]. cbn. lia. }
  unfold Breaker_Failures, Breaker_State. rewrite <- Hb. destruct (state b); split; try lia; split;
    intros; try done; lia.
Qed.

Lemma failures_bounded_witness :
  let b := (breaker_run Breaker_NewDefault (replicate 7 (0, CallFailure))).2 in
  Breaker_Failures b = 5 /\ Breaker_State b <> Closed.
Proof.
  pose proof (failures_bounded DefaultThreshold DefaultResetTimeout (replicate 7 (0, CallFailure)) eq_refl) as H.
  split; [reflexivity|]. apply H. reflexivity.
Defined.

(** ** Where the comments differ *)

(** [RecordSuccess] is documented to do nothing on an open breaker; it closes it. *)
Lemma success_closes_open_breaker :
  let b := (breaker_run (Breaker_New 1 10) [(0, CallFailure)]).2 in
  Breaker_State b = Open /\ Breaker_State (RecordSuccess b) = Closed.
Proof. split; reflexivity. Qed.

(** [Failures] is documented to be zero on an open breaker. *)
Lemma open_breaker_counts : Breaker_Failures (breaker_run (Breaker_New 1 10) [(0, CallFailure)]).2 = 1.
Proof. reflexivity. Qed.

(** The package comment allows one probe; a half-open breaker lets every call through. *)
Lemma half_open_allows_all b n t :
  Breaker_State b = HalfOpen -> (breaker_run b (replicate n (t, CallAllow))).1 = replicate n true.
Proof.
  intros Hs. induction n as [|n IH]; [done|]. cbn [replicate breaker_run breaker_step fst snd].
  unfold Breaker_Allow. unfold Breaker_State in Hs. rewrite Hs.
  destruct (breaker_run b _) as [o b']. cbn in *. by rewrite IH.
Qed.
