(* ===== verification/Dedup.v ===== *)
(** * Duplicate detection (dedup/dedup.go)

    A bounded list of fingerprints with the time each was first seen.  The
    specification [spec_dup] speaks of messages, not fingerprints: a message is
    a duplicate when an equal one is among the last [maxSize] accepted and
    younger than the window.  [dedup_refines_spec] shows the code answers so
    whenever the truncated hash does not collide on the messages concerned;
    [accepted_twins_apart] is what a sender relies on. *)

From S2P Require Import Prelude GoString Sha256.

Local Open Scope Z_scope.

Definition DefaultMaxSize : Z := 100.
Definition DefaultWindow : Z := 60 * 1000000000.

Record entry := { key : string; ts : Z }.

Record Dedup := { entries : list entry; maxSize : Z; window : Z }.

Definition Dedup_New (maxSize window : Z) : Dedup :=
  let maxSize := if maxSize <=? 0 then DefaultMaxSize else maxSize in
  {| entries := []; maxSize := maxSize; window := window |}.

Definition Dedup_NewDefault : Dedup := Dedup_New DefaultMaxSize DefaultWindow.

(** The bytes written to the hash, in order. *)
Definition hashed (iccid to body : string) : list Z :=
  bytes_of iccid ++ [0] ++ bytes_of to ++ [0] ++ bytes_of body.

Definition fingerprint (iccid to body : string) : string :=
  string_of (hex_encode (take 16 (sha256 (hashed iccid to body)))).

(** [IsDuplicate] from the point where the key is known: the loop over the
    entries, then eviction and append. *)
Definition check_key (d : Dedup) (k : string) (now : Z) : bool * Dedup :=
  if existsb (fun e => String.eqb (key e) k && (now - ts e <? window d)) (entries d)
  then (true, d)
  else
    let es := if maxSize d <=? Z.of_nat (length (entries d)) then drop 1 (entries d) else entries d in
    (false, {| entries := es ++ [{| key := k; ts := now |}]; maxSize := maxSize d; window := window d |}).

Definition IsDuplicate (d : Dedup) (iccid to body : string) (now : Z) : bool * Dedup :=
  check_key d (fingerprint iccid to body) now.

(** ** Specification *)

(** A message is the triple (iccid, to, body), a call a message with the time of day. *)
Local Abbreviation message := (string * string * string)%type.
Local Abbreviation call := (message * Z)%type.

Definition fp (m : message) : string := fingerprint m.1.1 m.1.2 m.2.

Definition spec_dup (size : nat) (window : Z) (hist : list call) (c : call) : bool :=
  existsb (fun h => bool_decide (h.1 = c.1) && (c.2 - h.2 <? window)) (keep_last size hist).

(** The answers to a run of calls, and all messages accepted so far, oldest first. *)
Fixpoint spec_run (size : nat) (window : Z) (hist : list call) (cs : list call) : list bool * list call :=
  match cs with
  | [] => ([], hist)
  | c :: cs =>
    let dup := spec_dup size window hist c in
    let '(r, hist) := spec_run size window (if dup then hist else hist ++ [c]) cs in (dup :: r, hist)
  end.

Fixpoint dedup_run (d : Dedup) (cs : list call) : list bool * Dedup :=
  match cs with
  | [] => ([], d)
  | c :: cs =>
    let '(dup, d) := IsDuplicate d c.1.1.1 c.1.1.2 c.1.2 c.2 in
    let '(r, d) := dedup_run d cs in (dup :: r, d)
  end.

(** No two of the messages share a fingerprint. *)
Definition collision_free (cs : list call) : Prop :=
  forall c1 c2, c1 ∈ cs -> c2 ∈ cs -> fp c1.1 = fp c2.1 -> c1.1 = c2.1.

(** ** Refinement *)

Definition shadow (c : call) : entry := {| key := fp c.1; ts := c.2 |}.

(** The entries are the shadows of the last accepted messages. *)
Definition tracks (size : nat) (w : Z) (hist : list call) (d : Dedup) : Prop :=
  entries d = map shadow (keep_last size hist) /\ maxSize d = Z.of_nat size /\ window d = w.

Lemma keep_last_incl {A} n (l : list A) x : x ∈ keep_last n l -> x ∈ l.
Proof. unfold keep_last. intros H. rewrite <- (take_drop (length l - n) l). apply elem_of_app. by right. Qed.

Lemma existsb_shadow (hist : list call) (c : call) w :
  (forall h, h ∈ hist -> fp h.1 = fp c.1 -> h.1 = c.1) ->
  existsb (fun e => String.eqb (key e) (fp c.1) && (c.2 - ts e <? w)) (map shadow hist)
  = existsb (fun h => bool_decide (h.1 = c.1) && (c.2 - h.2 <? w)) hist.
Proof.
  induction hist as [|h hist IH]; intros Hc; [done|]. cbn [map existsb].
  rewrite IH by (intros; apply Hc; [by right|done]). do 2 f_equal. cbn [shadow key].
  destruct (String.eqb_spec (fp h.1) (fp c.1)) as [E|E].
  - rewrite bool_decide_true; [done|]. apply Hc; [by left|done].
  - rewrite bool_decide_false; [done|]. intros Hh. apply E. by rewrite Hh.
Qed.

Lemma IsDuplicate_tracks size w hist d (c : call) :
  (1 <= size)%nat -> tracks size w hist d ->
  (forall h, h ∈ hist -> fp h.1 = fp c.1 -> h.1 = c.1) ->
  let '(dup, d') := IsDuplicate d c.1.1.1 c.1.1.2 c.1.2 c.2 in
  dup = spec_dup size w hist c /\ tracks size w (if dup then hist else hist ++ [c]) d'.
Proof.
  intros Hs (He & Hm & Hw) Hc. unfold IsDuplicate, check_key. change (fingerprint _ _ _) with (fp c.1).
  rewrite He, Hw, existsb_shadow by eauto using keep_last_incl. fold (spec_dup size w hist c).
  destruct (spec_dup size w hist c); [by split|]. split; [done|]. repeat split; try done. cbn [entries].
  rewrite <- keep_last_snoc by done. rewrite map_app, Hm, length_map. f_equal.
  destruct (Z.leb_spec (Z.of_nat size) (Z.of_nat (length (keep_last size hist)))),
    (Nat.leb_spec size (length (keep_last size hist))); try lia; [|done]. apply skipn_map.
Qed.

Lemma dedup_run_tracks size w cs : forall hist d,
  (1 <= size)%nat -> tracks size w hist d -> collision_free (hist ++ cs) ->
  (dedup_run d cs).1 = (spec_run size w hist cs).1 /\
  tracks size w (spec_run size w hist cs).2 (dedup_run d cs).2.
Proof.
  induction cs as [|c cs IH]; intros hist d Hs Ht Hc; [done|]. cbn [dedup_run spec_run].
  assert (forall h, h ∈ hist -> fp h.1 = fp c.1 -> h.1 = c.1) as Hh.
  { intros h Hin. apply Hc; apply elem_of_app; [by left|right; by left]. }
  pose proof (IsDuplicate_tracks size w hist d c Hs Ht Hh) as H.
  destruct (IsDuplicate d _ _ _ _) as [dup d']. destruct H as [-> H].
  destruct (IH _ d' Hs H) as [H1 H2].
  { intros c1 c2 Hc1 Hc2. assert (forall c', c' ∈ (if spec_dup size w hist c then hist else hist ++ [c]) ++ cs ->
      c' ∈ hist ++ c :: cs) as Hin; [|by apply Hc; apply Hin].
    intros c'. destruct (spec_dup _ _ _ _); rewrite !elem_of_app, !elem_of_cons; [tauto|].
    rewrite elem_of_nil. tauto. }
  destruct (dedup_run d' cs), (spec_run _ _ _ cs). cbn in *. by rewrite H1.
Qed.

(** The capacity [New] settles on. *)
Definition capacity (maxSize : Z) : nat := Z.to_nat (if maxSize <=? 0 then DefaultMaxSize else maxSize).

Lemma tracks_New n w : (1 <= capacity n)%nat /\ tracks (capacity n) w [] (Dedup_New n w).
Proof. unfold capacity, tracks, Dedup_New, DefaultMaxSize. cbn. destruct (Z.leb_spec n 0); repeat split; lia || done. Qed.

(** C33: On any sequence of calls whose messages have no fingerprint collision, a new deduplicator
    answers each call exactly as the specification: true when an equal message (ICCID, recipient and
    body) is among the last [maxSize] accepted ones and was accepted less than a window ago. The
    entries never exceed [maxSize]. *)
Theorem dedup_refines_spec n w cs :
  collision_free cs ->
  (dedup_run (Dedup_New n w) cs).1 = (spec_run (capacity n) w [] cs).1 /\
  (length (entries (dedup_run (Dedup_New n w) cs).2) <= capacity n)%nat.
Proof.
  intros Hc. destruct (tracks_New n w) as [Hs Ht].
  destruct (dedup_run_tracks (capacity n) w cs [] (Dedup_New n w) Hs Ht Hc) as [H1 (H2 & _)].
  split; [done|]. rewrite H2, length_map, length_keep_last. lia.
Qed.

Definition demo_calls : list call :=
  [(("894", "+49", "hi"), 0); (("894", "+49", "hi"), 5); (("894", "+49", "yo"), 6); (("894", "+49", "hi"), 20)]%string.

Definition collision_freeb (cs : list call) : bool :=
  forallb (fun c1 => forallb (fun c2 => negb (String.eqb (fp c1.1) (fp c2.1)) || bool_decide (c1.1 = c2.1)) cs) cs.

Lemma collision_freeb_sound cs : collision_freeb cs = true -> collision_free cs.
Proof.
  unfold collision_freeb. intros H c1 c2 H1%list_elem_of_In H2%list_elem_of_In E.
  rewrite forallb_forall in H. specialize (H c1 H1). rewrite forallb_forall in H. specialize (H c2 H2).
  apply String.eqb_eq in E. rewrite E in H. by apply bool_decide_eq_true in H.
Qed.

Lemma demo_collision_free : collision_free demo_calls.
Proof. apply collision_freeb_sound. vm_compute. reflexivity. Qed.

Lemma dedup_refines_spec_witness :
  (dedup_run (Dedup_New 0 10) demo_calls).1 = [false; true; false; false].
Proof.
  rewrite (proj1 (dedup_refines_spec 0 10 demo_calls demo_collision_free)). vm_compute. reflexivity.
Defined.

(** ** What a sender relies on *)

(** In the list of accepted messages, equal ones at a distance of at most the
    capacity were accepted at least a window apart. *)
Definition twins_apart (size : nat) (w : Z) (hist : list call) : Prop :=
  forall i j c1 c2, hist !! i = Some c1 -> hist !! j = Some c2 -> (i < j <= i + size)%nat ->
    c1.1 = c2.1 -> w <= c2.2 - c1.2.

Lemma spec_dup_false size w hist c i h :
  spec_dup size w hist c = false -> hist !! i = Some h -> (length hist <= i + size)%nat ->
  h.1 = c.1 -> w <= c.2 - h.2.
Proof.
  unfold spec_dup. intros Hd Hi Hl Hm.
  assert (h ∈ keep_last size hist) as Hin.
  { unfold keep_last. apply list_elem_of_lookup. exists (i - (length hist - size))%nat.
    rewrite lookup_drop. rewrite <- Hi. f_equal. lia. }
  apply not_true_iff_false in Hd. destruct (Z.ltb_spec (c.2 - h.2) w); [|lia]. exfalso. apply Hd.
  apply existsb_exists. exists h. split; [by apply list_elem_of_In|].
  rewrite bool_decide_true by done. destruct (Z.ltb_spec (c.2 - h.2) w); [done|lia].
Qed.

Lemma spec_run_twins size w cs : forall hist,
  twins_apart size w hist -> twins_apart size w (spec_run size w hist cs).2.
Proof.
  induction cs as [|c cs IH]; intros hist Hh; [done|]. cbn [spec_run].
  destruct (spec_dup size w hist c) eqn:E.
  - specialize (IH hist Hh). destruct (spec_run _ _ _ cs). done.
  - specialize (IH (hist ++ [c])). destruct (spec_run _ _ _ cs). apply IH. clear IH.
    intros i j c1 c2 Hi Hj Hij Hm. apply lookup_app_Some in Hj as [Hj|[Hj Hc]].
    + rewrite lookup_app_l in Hi by (apply lookup_lt_Some in Hj; lia). by apply (Hh i j).
    + assert (j = length hist) as -> by (apply lookup_lt_Some in Hc; cbn [length] in Hc; lia).
      rewrite Nat.sub_diag in Hc. injection Hc as <-. rewrite lookup_app_l in Hi by lia.
      apply (spec_dup_false size w hist c i); [done..|lia|done].
Qed.

(** The calls of a run answered "not a duplicate". *)
Fixpoint accepted (answers : list bool) (cs : list call) : list call :=
  match answers, cs with
  | dup :: answers, c :: cs => if dup then accepted answers cs else c :: accepted answers cs
  | _, _ => []
  end.

Lemma spec_run_accepted size w cs : forall hist,
  (spec_run size w hist cs).2 = hist ++ accepted (spec_run size w hist cs).1 cs.
Proof.
  induction cs as [|c cs IH]; intros hist; cbn [spec_run]; [by rewrite app_nil_r|].
  specialize (IH (if spec_dup size w hist c then hist else hist ++ [c])).
  destruct (spec_run _ _ _ cs) as [r h]. cbn [fst snd] in *. rewrite IH. cbn [accepted].
  destruct (spec_dup _ _ _ _); [done|]. by rewrite <- app_assoc.
Qed.

(** Among the messages a deduplicator lets pass, two equal ones with fewer than [maxSize] others
    between them are at least a window apart, however often they are repeated in between and in
    whatever order the clock readings arrive. *)
Theorem accepted_twins_apart n w cs :
  collision_free cs ->
  twins_apart (capacity n) w (accepted (dedup_run (Dedup_New n w) cs).1 cs).
Proof.
  intros Hc. destruct (tracks_New n w) as [Hs Ht].
  destruct (dedup_run_tracks (capacity n) w cs [] (Dedup_New n w) Hs Ht Hc) as [-> _].
  pose proof (spec_run_accepted (capacity n) w cs []) as H. cbn [app] in H. rewrite <- H.
  apply spec_run_twins. intros i j c1 c2 Hi. by rewrite lookup_nil in Hi.
Qed.

Lemma accepted_twins_apart_witness :
  twins_apart 100 10 (accepted (dedup_run (Dedup_New 0 10) demo_calls).1 demo_calls).
Proof. exact (accepted_twins_apart 0 10 demo_calls demo_collision_free). Defined.

(** ** The hashed bytes

    The separators make the hashed bytes determine the message when neither the ICCID nor the
    recipient contains a zero byte, so that only the hash itself can collide. *)
Lemma app_zero_inj (a1 a2 r1 r2 : list Z) :
  0 ∉ a1 -> 0 ∉ a2 -> a1 ++ 0 :: r1 = a2 ++ 0 :: r2 -> a1 = a2 /\ r1 = r2.
Proof.
  revert a2. induction a1 as [|x a1 IH]; intros [|y a2] H1 H2; cbn [app]; intros E; simplify_eq;
    rewrite ?not_elem_of_cons in *; try tauto.
  destruct (IH a2) as [-> ->]; tauto.
Qed.

Lemma hashed_inj i1 t1 b1 i2 t2 b2 :
  0 ∉ bytes_of i1 -> 0 ∉ bytes_of t1 -> 0 ∉ bytes_of i2 -> 0 ∉ bytes_of t2 ->
  hashed i1 t1 b1 = hashed i2 t2 b2 -> i1 = i2 /\ t1 = t2 /\ b1 = b2.
Proof.
  unfold hashed. intros H1 H2 H3 H4 E. apply app_zero_inj in E as [E1 E]; [|done..].
  apply app_zero_inj in E as [E2 E3]; [|done..]. auto using bytes_of_inj.
Qed.

(** With a zero byte in a field, different messages have the same fingerprint. *)
Lemma zero_byte_collides :
  let z := String (ascii_of_byte 0) "" in
  fingerprint "1" (z +:+ "2") "3" = fingerprint ("1" +:+ z) "2" "3".
Proof. cbv zeta. unfold fingerprint. do 5 f_equal. Qed.
