(* ===== verification/Slices.v ===== *)
(** * Go slices over a shared store

    A slice is a window (offset, length, capacity) on an array of a [heap];
    several slices may share an array.  The operations are those of the
    language: [make], indexing expressions [s[a:b]], [append] (in place while
    the capacity lasts, otherwise into a new array whose size [grow] chooses)
    and [copy].  [owns] says that a slice lies within its array; the lemmas
    give the contents after each operation and what it leaves untouched. *)

From S2P Require Import Prelude.

Record heap (A : Type) := { arrays : gmap nat (list A); next : nat }.
Record slice := { ptr : nat; off : nat; len : nat; cap : nat }.

Arguments arrays {A} h.
Arguments next {A} h.

(** What the language promises of the capacity after growth. *)
Class Growth := { grow : nat -> nat; grow_spec : forall n, n <= grow n }.

Section Slices.
Context {A : Type} (zero : A).

Definition array (h : heap A) (p : nat) : list A := default [] (arrays h !! p).

(** The elements a slice shows. *)
Definition elems (h : heap A) (s : slice) : list A := take (len s) (drop (off s) (array h (ptr s))).

Definition alloc (h : heap A) (l : list A) : nat * heap A :=
  (next h, {| arrays := <[next h := l]> (arrays h); next := S (next h) |}).

Definition store (h : heap A) (p : nat) (l : list A) : heap A :=
  {| arrays := <[p := l]> (arrays h); next := next h |}.

(** [make([]A, n, c)]. *)
Definition make (h : heap A) (n c : nat) : slice * heap A :=
  let '(p, h) := alloc h (replicate c zero) in ({| ptr := p; off := 0; len := n; cap := c |}, h).

(** [s[a:b]] with [a <= b <= cap s]. *)
Definition reslice (s : slice) (a b : nat) : slice :=
  {| ptr := ptr s; off := off s + a; len := b - a; cap := cap s - a |}.

(** [append(s, x)]. *)
Definition append `{Growth} (h : heap A) (s : slice) (x : A) : slice * heap A :=
  if len s <? cap s
  then ({| ptr := ptr s; off := off s; len := S (len s); cap := cap s |},
        store h (ptr s) (<[off s + len s := x]> (array h (ptr s))))
  else
    let c := grow (S (len s)) in
    let '(p, h') := alloc h (elems h s ++ x :: replicate (c - S (len s)) zero) in
    ({| ptr := p; off := 0; len := S (len s); cap := c |}, h').

(** [copy(dst, src)] for slices of different arrays. *)
Definition copy (h : heap A) (dst src : slice) : heap A :=
  let n := len dst `min` len src in
  let a := array h (ptr dst) in
  store h (ptr dst) (take (off dst) a ++ take n (elems h src) ++ drop (off dst + n) a).

(** ** Well-formedness *)

Definition owns (h : heap A) (s : slice) : Prop :=
  ptr s < next h /\ len s <= cap s /\ off s + cap s <= length (array h (ptr s)).

(** Every array of [h] except those in [P] is the same in [h'], and fresh
    arrays stay beyond the old ones. *)
Definition untouched (P : nat -> Prop) (h h' : heap A) : Prop :=
  next h <= next h' /\ forall p, p < next h -> ~ P p -> array h' p = array h p.

#[global] Instance untouched_refl P : Reflexive (untouched P).
Proof. intros h. split; [lia|done]. Qed.

#[global] Instance untouched_trans P : Transitive (untouched P).
Proof.
  intros h1 h2 h3 [H1 H2] [H3 H4]. split; [lia|]. intros p Hp Hn. rewrite H4, H2 by (lia || done). done.
Qed.

Lemma untouched_elems P h h' s :
  untouched P h h' -> ptr s < next h -> ~ P (ptr s) -> elems h' s = elems h s.
Proof. intros [_ H] Hp Hn. unfold elems. by rewrite H. Qed.

Lemma array_store h p l q : array (store h p l) q = if decide (p = q) then l else array h q.
Proof.
  unfold array, store. cbn [arrays]. case_decide; subst;
    [by rewrite lookup_insert_eq|by rewrite lookup_insert_ne].
Qed.

Lemma array_alloc h l q :
  array (alloc h l).2 q = if decide (next h = q) then l else array h q.
Proof.
  unfold array, alloc. cbn [arrays snd]. case_decide; subst;
    [by rewrite lookup_insert_eq|by rewrite lookup_insert_ne].
Qed.

Lemma length_elems h s : owns h s -> length (elems h s) = len s.
Proof. intros (_ & H1 & H2). unfold elems. rewrite length_take, length_drop. lia. Qed.

(** ** The operations *)

Lemma make_spec h n c :
  n <= c ->
  let '(s, h') := make h n c in
  owns h' s /\ elems h' s = replicate n zero /\ ptr s = next h /\ next h' = S (next h) /\
  untouched (fun _ => False) h h'.
Proof.
  intros Hn. unfold make, alloc.
  pose proof (array_alloc h (replicate c zero)) as Ha. unfold alloc in Ha. cbn [snd] in Ha.
  repeat split; cbn [ptr len cap off next]; try lia.
  - rewrite Ha, decide_True, length_replicate by done. lia.
  - unfold elems. cbn [len off ptr]. rewrite Ha, decide_True, drop_0, take_replicate by done. f_equal. lia.
  - intros p Hp _. rewrite Ha, decide_False by lia. done.
Qed.

Lemma reslice_spec h s a b :
  owns h s -> a <= b -> b <= cap s ->
  owns h (reslice s a b) /\ (b <= len s -> elems h (reslice s a b) = take (b - a) (drop a (elems h s))).
Proof.
  intros (H1 & H2 & H3) Ha Hb. split.
  - unfold reslice, owns. cbn [ptr len cap off]. lia.
  - intros Hl. unfold elems, reslice. cbn [ptr len off].
    rewrite <- drop_drop, skipn_firstn_comm, firstn_firstn. f_equal. lia.
Qed.

Lemma append_spec `{Growth} h s x :
  owns h s ->
  let '(s', h') := append h s x in
  owns h' s' /\ elems h' s' = elems h s ++ [x] /\ (ptr s' = ptr s \/ next h <= ptr s') /\
  untouched (fun p => p = ptr s) h h'.
Proof.
  intros Ho. pose proof (length_elems h s Ho) as Hl. destruct Ho as (H1 & H2 & H3).
  unfold append. destruct (Nat.ltb_spec (len s) (cap s)).
  - set (l := <[off s + len s := x]> (array h (ptr s))).
    assert (length l = length (array h (ptr s))) as Hll by apply length_insert.
    repeat split; cbn [ptr len cap off next store]; try lia.
    + rewrite array_store, decide_True by done. lia.
    + unfold elems. cbn [len off ptr]. rewrite array_store, decide_True by done. unfold l.
      rewrite drop_insert_ge by lia. replace (off s + len s - off s) with (len s) by lia.
      rewrite (take_S_r _ _ x); [by rewrite take_insert_ge by lia|].
      rewrite list_lookup_insert_eq; [done|]. rewrite length_drop. lia.
    + intros p Hp Hne. rewrite array_store, decide_False; congruence.
  - pose proof (grow_spec (S (len s))) as Hg.
    set (l := elems h s ++ x :: replicate (grow (S (len s)) - S (len s)) zero).
    assert (length l = grow (S (len s))) as Hll.
    { unfold l. rewrite length_app. cbn [length]. rewrite length_replicate. lia. }
    pose proof (array_alloc h l) as Ha. unfold alloc in *. cbn [snd] in Ha.
    repeat split; cbn [ptr len cap off next]; try lia.
    + rewrite Ha, decide_True by done. lia.
    + unfold elems at 1. cbn [len off ptr]. rewrite Ha, decide_True, drop_0 by done. unfold l.
      rewrite take_app, Hl. replace (S (len s) - len s) with 1 by lia. cbn [take].
      by rewrite take_ge by lia.
    + intros p Hp _. rewrite Ha, decide_False by lia. done.
Qed.

Lemma copy_spec h dst src :
  owns h dst -> owns h src -> len dst = len src ->
  owns (copy h dst src) dst /\ elems (copy h dst src) dst = elems h src /\
  next (copy h dst src) = next h /\ untouched (fun p => p = ptr dst) h (copy h dst src).
Proof.
  intros (H1 & H2 & H3) Hs Hl. pose proof (length_elems h src Hs) as Hls.
  unfold copy. rewrite Hl, Nat.min_id, (take_ge (elems h src)) by lia.
  set (l := take _ _ ++ _).
  assert (length l = length (array h (ptr dst))) as Hll.
  { unfold l. rewrite !length_app, length_take, length_drop. lia. }
  repeat split; cbn [next store]; try lia.
  - rewrite array_store, decide_True by done. lia.
  - unfold elems at 1. rewrite array_store, decide_True by done. unfold l.
    rewrite drop_app_length' by (rewrite length_take; lia). rewrite Hl. by apply take_app_length'.
  - intros p Hp Hne. rewrite array_store, decide_False; congruence.
Qed.

End Slices.

(** The growth of the runtime for small slices: twice the size. *)
Definition double_growth : Growth.
Proof. refine {| grow n := 2 * n |}. intros; lia. Defined.
