(* ===== verification/Dlq.v ===== *)
(** * Dead-letter queue (dlq/dlq.go)

    The queue as the code keeps it: a slice over a shared store ([Slices]),
    re-sliced on eviction and on [Drain], appended to in place.  The
    specification is the list of the last [maxSize] entries.  The slices handed
    out by [Drain] are read at the end of the run ([dlq_refines_fifo]), so the
    theorem also says that later pushes, which reuse the queue's array, never
    overwrite what a caller holds. *)

From S2P Require Import Prelude Slices.

Record Entry := {
  ID : string; To : string; Body : string; ICCID : string; Reason : string;
  CreatedAt : Z; Retries : Z
}.

Definition zero_Entry : Entry :=
  {| ID := ""; To := ""; Body := ""; ICCID := ""; Reason := ""; CreatedAt := 0; Retries := 0 |}.

Definition defaultMaxSize : Z := 1000.

Record Queue := { entries : slice; maxSize : Z }.

Section Dlq.
Context `{Growth}.

Definition Dlq_New (h : heap Entry) (maxSize : Z) : Queue * heap Entry :=
  let maxSize := if (maxSize <=? 0)%Z then defaultMaxSize else maxSize in
  let '(s, h) := make zero_Entry h 0 (Z.to_nat maxSize) in
  ({| entries := s; maxSize := maxSize |}, h).

Definition Dlq_Push (h : heap Entry) (q : Queue) (e : Entry) : Queue * heap Entry :=
  let s := if (maxSize q <=? Z.of_nat (len (entries q)))%Z
           then reslice (entries q) 1 (len (entries q)) else entries q in
  let '(s, h) := append zero_Entry h s e in
  ({| entries := s; maxSize := maxSize q |}, h).

Definition Dlq_Drain (h : heap Entry) (q : Queue) : slice * Queue * heap Entry :=
  let '(out, h) := make zero_Entry h (len (entries q)) (len (entries q)) in
  let h := copy h out (entries q) in
  (out, {| entries := reslice (entries q) 0 0; maxSize := maxSize q |}, h).

Definition Dlq_Len (q : Queue) : Z := Z.of_nat (len (entries q)).

(** ** Runs *)

Inductive op := Push (e : Entry) | Drain | Len.
Inductive reply := Pushed | Drained (out : slice) | Length (n : Z).

Definition dlq_step (h : heap Entry) (q : Queue) (o : op) : reply * Queue * heap Entry :=
  match o with
  | Push e => let '(q, h) := Dlq_Push h q e in (Pushed, q, h)
  | Drain => let '(out, q, h) := Dlq_Drain h q in (Drained out, q, h)
  | Len => (Length (Dlq_Len q), q, h)
  end.

Fixpoint dlq_run (h : heap Entry) (q : Queue) (ops : list op) : list reply * Queue * heap Entry :=
  match ops with
  | [] => ([], q, h)
  | o :: ops =>
    let '(r, q, h) := dlq_step h q o in
    let '(rs, q, h) := dlq_run h q ops in (r :: rs, q, h)
  end.

(** ** Specification: a bounded first-in first-out queue *)

Inductive answer := APushed | ADrained (l : list Entry) | ALength (n : nat).

Definition fifo_step (max : nat) (l : list Entry) (o : op) : answer * list Entry :=
  match o with
  | Push e => (APushed, keep_last max (l ++ [e]))
  | Drain => (ADrained l, [])
  | Len => (ALength (length l), l)
  end.

Fixpoint fifo_run (max : nat) (l : list Entry) (ops : list op) : list answer * list Entry :=
  match ops with
  | [] => ([], l)
  | o :: ops =>
    let '(a, l) := fifo_step max l o in
    let '(r, l) := fifo_run max l ops in (a :: r, l)
  end.

(** A reply as its caller reads it in the store [h]. *)
Definition read_reply (h : heap Entry) (r : reply) : answer :=
  match r with
  | Pushed => APushed
  | Drained out => ADrained (elems h out)
  | Length n => ALength (Z.to_nat n)
  end.

(** ** Refinement *)

Definition holds (max : nat) (h : heap Entry) (q : Queue) (l : list Entry) : Prop :=
  owns h (entries q) /\ elems h (entries q) = l /\ maxSize q = Z.of_nat max /\ length l <= max.

(** A reply the queue will not disturb: its slice is on an array of its own. *)
Definition private (h : heap Entry) (q : Queue) (r : reply) : Prop :=
  match r with
  | Drained out => ptr out < next h /\ ptr out <> ptr (entries q)
  | _ => True
  end.

Lemma holds_len max h q l : holds max h q l -> len (entries q) = length l.
Proof. intros (Ho & <- & _). by rewrite length_elems. Qed.

Lemma keep_last_all {A} n (l : list A) : length l <= n -> keep_last n l = l.
Proof. intros Hl. unfold keep_last. by replace (length l - n) with 0 by lia. Qed.

Lemma Push_holds max h q l e :
  1 <= max -> holds max h q l ->
  let '(q', h') := Dlq_Push h q e in
  holds max h' q' (keep_last max (l ++ [e])) /\
  (ptr (entries q') = ptr (entries q) \/ next h <= ptr (entries q')) /\
  untouched (fun p => p = ptr (entries q)) h h'.
Proof.
  intros Hm Hq. pose proof (holds_len _ _ _ _ Hq) as Hlen. destruct Hq as (Ho & He & Hs & Hl).
  unfold Dlq_Push. rewrite Hs.
  set (s := if (_ <=? _)%Z then _ else _).
  assert (owns h s /\ ptr s = ptr (entries q) /\
    elems h s = if max <=? length (keep_last max l) then drop 1 (keep_last max l) else keep_last max l)
    as (Hos & Hp & Hes).
  { unfold s. rewrite keep_last_all by done. rewrite Hlen.
    destruct (Z.leb_spec (Z.of_nat max) (Z.of_nat (length l))), (Nat.leb_spec max (length l)); try lia; [|done].
    destruct (reslice_spec h (entries q) 1 (length l) Ho) as [Q1 Q2]; [lia|destruct Ho; lia|].
    split; [done|]. split; [done|]. rewrite Q2, He by lia. apply take_ge. rewrite length_drop. lia. }
  pose proof (append_spec zero_Entry h s e Hos) as Ha. destruct (append zero_Entry h s e) as [s' h'].
  destruct Ha as (H1 & H2 & H3 & H4). rewrite Hp in H3, H4. split; [|done].
  split; [done|]. cbn [entries maxSize]. rewrite H2, Hes, keep_last_snoc by done.
  split; [done|]. split; [done|]. rewrite length_keep_last. lia.
Qed.

Lemma Drain_holds max h q l :
  holds max h q l ->
  let '(out, q', h') := Dlq_Drain h q in
  holds max h' q' [] /\ elems h' out = l /\ ptr (entries q') = ptr (entries q) /\
  ptr out = next h /\ next h' = S (next h) /\ untouched (fun _ => False) h h'.
Proof.
  intros Hq. pose proof (holds_len _ _ _ _ Hq) as Hlen. destruct Hq as (Ho & He & Hs & Hl).
  unfold Dlq_Drain.
  pose proof (make_spec zero_Entry h (len (entries q)) (len (entries q)) ltac:(lia)) as Hm.
  destruct (make zero_Entry h _ _) as [out h1] eqn:Em. destruct Hm as (Ho1 & _ & Hp & Hn & Hu).
  assert (len out = len (entries q)) as Hlo.
  { unfold make, alloc in Em. by injection Em as <- _. }
  assert (elems h1 (entries q) = l) as He1.
  { rewrite <- He. apply (untouched_elems _ _ _ _ Hu); [by destruct Ho|tauto]. }
  assert (owns h1 (entries q)) as Ho2.
  { destruct Ho as (O1 & O2 & O3), Hu as [U1 U2]. split; [lia|]. split; [done|].
    rewrite U2 by (lia || tauto). done. }
  destruct (copy_spec h1 out (entries q) Ho1 Ho2 Hlo) as (C1 & C2 & C3 & C4 & C5).
  rewrite He1 in C2. cbn [entries maxSize].
  assert (owns (copy h1 out (entries q)) (entries q)) as Ho3.
  { destruct Ho as (O1 & _), Ho2 as (O2 & O3 & O4). split; [lia|]. split; [done|].
    rewrite C5 by lia. done. }
  destruct (reslice_spec _ (entries q) 0 0 Ho3) as [R1 R2]; [lia..|].
  split; [split; [exact R1|]; split; [done|]; split; [exact Hs|cbn [length]; lia]|]. split; [done|]. split; [done|]. split; [done|].
  split; [lia|]. split; [lia|].
  intros p Hlt _. destruct Hu as [U1 U2]. rewrite C5 by lia. apply U2; [done|tauto].
Qed.

Lemma dlq_step_refines max h q l o :
  1 <= max -> holds max h q l ->
  let '(r, q', h') := dlq_step h q o in
  let '(a, l') := fifo_step max l o in
  holds max h' q' l' /\ read_reply h' r = a /\ private h' q' r /\
  (ptr (entries q') = ptr (entries q) \/ next h <= ptr (entries q')) /\
  untouched (fun p => p = ptr (entries q)) h h'.
Proof.
  intros Hm Hq. destruct o as [e| |]; cbn [dlq_step fifo_step].
  - pose proof (Push_holds max h q l e Hm Hq) as H1. destruct (Dlq_Push h q e) as [q' h'].
    destruct H1 as (H1 & H2 & H3). done.
  - pose proof (Drain_holds max h q l Hq) as H1. destruct (Dlq_Drain h q) as [[out q'] h'].
    destruct H1 as (H1 & H2 & H3 & H4 & H5 & H6 & H7). cbn [read_reply private]. rewrite H2.
    destruct Hq as [(O1 & _) _]. split; [done|]. split; [done|]. split; [lia|]. split; [by left|]. split; [lia|].
    intros p Hlt _. apply H7; [done|tauto].
  - cbn [read_reply private]. unfold Dlq_Len. rewrite (holds_len _ _ _ _ Hq), Nat2Z.id.
    split; [done|]. split; [done|]. split; [done|]. split; [by left|reflexivity].
Qed.

(** A run changes no array but the queue's own and those it allocates. *)
Lemma dlq_run_untouched max ops : forall h q l p,
  1 <= max -> holds max h q l -> p < next h -> p <> ptr (entries q) ->
  array (dlq_run h q ops).2 p = array h p.
Proof.
  induction ops as [|o ops IH]; intros h q l p Hm Hq Hp Hne; [done|]. cbn [dlq_run].
  pose proof (dlq_step_refines max h q l o Hm Hq) as H1.
  destruct (dlq_step h q o) as [[r q1] h1]. destruct (fifo_step max l o) as [a l1].
  destruct H1 as (H1 & _ & _ & H4 & [H5 H6]). specialize (IH h1 q1 l1 p Hm H1).
  destruct (dlq_run h1 q1 ops) as [[rs q2] h2]. cbn [snd] in *. rewrite IH by lia. by apply H6.
Qed.

Lemma dlq_run_refines max ops : forall h q l,
  1 <= max -> holds max h q l ->
  let '(rs, q', h') := dlq_run h q ops in
  let '(answers, l') := fifo_run max l ops in
  holds max h' q' l' /\ map (read_reply h') rs = answers.
Proof.
  induction ops as [|o ops IH]; intros h q l Hm Hq; cbn [dlq_run fifo_run]; [done|].
  pose proof (dlq_step_refines max h q l o Hm Hq) as H1.
  destruct (dlq_step h q o) as [[r q1] h1]. destruct (fifo_step max l o) as [a l1].
  destruct H1 as (H1 & H2 & H3 & _). specialize (IH h1 q1 l1 Hm H1).
  pose proof (dlq_run_untouched max ops h1 q1 l1) as Hu.
  destruct (dlq_run h1 q1 ops) as [[rs q2] h2]. destruct (fifo_run max l1 ops) as [answers l2].
  destruct IH as [I1 I2]. split; [done|]. cbn [map]. rewrite I2, <- H2. f_equal.
  destruct r as [|out|]; try done. cbn [read_reply]. unfold elems. destruct H3 as [P1 P2].
  cbn [snd] in Hu. by rewrite (Hu (ptr out)).
Qed.

(** The capacity [New] settles on. *)
Definition capacity (maxSize : Z) : nat := Z.to_nat (if (maxSize <=? 0)%Z then defaultMaxSize else maxSize).

(** C32: Whatever calls follow [New(n)], with slices shared, re-sliced and appended in place as the code
    does, every reply read at the end of the run is that of a bounded first-in first-out queue: each
    [Drain] returned, in order, the last [maxSize] entries pushed since the previous one, no later
    push has overwritten them, and [Len] counts what is queued. *)
Theorem dlq_refines_fifo h n ops :
  let '(q, h0) := Dlq_New h n in
  let '(rs, q', h') := dlq_run h0 q ops in
  let '(answers, l) := fifo_run (capacity n) [] ops in
  map (read_reply h') rs = answers /\ elems h' (entries q') = l /\ length l <= capacity n.
Proof.
  assert (1 <= capacity n) as Hc.
  { unfold capacity, defaultMaxSize. destruct (Z.leb_spec n 0); lia. }
  unfold Dlq_New. fold (capacity n).
  pose proof (make_spec zero_Entry h 0 (capacity n) ltac:(lia)) as Hm.
  destruct (make zero_Entry h 0 (capacity n)) as [s h0]. destruct Hm as (M1 & M2 & _).
  set (q := {| entries := s; maxSize := _ |}).
  assert (holds (capacity n) h0 q []) as Hq.
  { split; [done|]. split; [done|]. split; [|cbn; lia]. unfold q, capacity, defaultMaxSize. cbn [maxSize].
    destruct (Z.leb_spec n 0); lia. }
  pose proof (dlq_run_refines (capacity n) ops h0 q [] Hc Hq) as H1.
  destruct (dlq_run h0 q ops) as [[rs q'] h']. destruct (fifo_run (capacity n) [] ops) as [answers l].
  destruct H1 as [(R1 & R2 & R3 & R4) R5]. auto.
Qed.

End Dlq.

(** A run with evictions and a drain before further pushes. *)
Example dlq_demo :
  let e n := {| ID := n; To := ""; Body := ""; ICCID := ""; Reason := ""; CreatedAt := 0; Retries := 0 |} in
  let '(q, h) := Dlq_New {| arrays := ∅; next := 0 |} 2 in
  let '(rs, _, h') := dlq_run (H := double_growth) h q
    [Push (e "a"); Push (e "b"); Push (e "c"); Drain; Push (e "d"); Push (e "e"); Push (e "f"); Len] in
  map (read_reply h') rs
  = [APushed; APushed; APushed; ADrained [e "b"; e "c"]; APushed; APushed; APushed; ALength 2].
Proof. vm_compute. reflexivity. Qed.
