(* ===== verification/Diskqueue.v ===== *)
(** * Disk queue (diskqueue/diskqueue.go)

    A queue of JSON files in a directory.  The [disk] holds files and
    directories by their cleaned absolute path; every system call consumes an
    [io_event] that says whether it works, fails (and what a failed write left
    behind) or is where the process dies, so the theorems cover I/O errors and
    crashes at any point.  [push_atomic] is the promise of the temporary file
    and rename; [diskqueue_refines_map] shows that on a healthy disk the
    directory implements a map from message IDs to entries.  The directory's
    path is taken to contain no pattern character of [filepath.Glob]. *)

From stdpp Require Import sorting.
From S2P Require Import Prelude GoString Protocol.

(** The text of a [time.Time] in JSON (RFC 3339): [MarshalJSON] fails outside
    the years 0 to 9999, and what it prints is read back as the same instant, if
    the zone's offset is a whole number of minutes ([wholeZone]); the monotonic
    reading and the location are not kept. *)
Class TimeJSON := {
  Time : Type;
  zeroTime : Time;
  MarshalTime : Time -> option string;
  UnmarshalTime : string -> option Time;
  UnixNano : Time -> Z;
  wholeZone : Time -> bool;
  time_roundtrip : forall t s, MarshalTime t = Some s -> wholeZone t = true ->
    exists t', UnmarshalTime s = Some t' /\ UnixNano t' = UnixNano t
}.

(** ** The file system *)

(** What a file holds: a JSON document, or bytes that are none. *)
Local Abbreviation content := (option json).

Inductive io_event := Works | Fails (torn : option content) | Dies (torn : option content).

Record disk := {
  files : gmap (list string) content;
  dirs : gset (list string);
  io : list io_event
}.

Definition set_files (f : gmap (list string) content) (d : disk) : disk :=
  {| files := f; dirs := dirs d; io := io d |}.
Definition set_io (l : list io_event) (d : disk) : disk :=
  {| files := files d; dirs := dirs d; io := l |}.
Definition set_dirs (s : gset (list string)) (d : disk) : disk :=
  {| files := files d; dirs := s; io := io d |}.

(** An action on the disk; [None] is the end of the process. *)
Definition osM (A : Type) : Type := disk -> disk * option A.

#[global] Instance os_ret : MRet osM := fun A a d => (d, Some a).
#[global] Instance os_bind : MBind osM := fun A B f m d =>
  match m d with
  | (d, Some a) => f a d
  | (d, None) => (d, None)
  end.

(** One system call: its effect, what a failing one leaves, its error. *)
Definition syscall {A} (works : disk -> disk * A) (leaves : option content -> disk -> disk) (failed : A) : osM A :=
  fun d =>
    match io d with
    | [] => (d, None)
    | Works :: rest => let '(d, a) := works (set_io rest d) in (d, Some a)
    | Fails torn :: rest => (leaves torn (set_io rest d), Some failed)
    | Dies torn :: rest => (leaves torn (set_io rest d), None)
    end.

Definition EIO : go_error := errors_New "input/output error".
Definition ENOENT : go_error := errors_New "file does not exist".
Definition EISDIR : go_error := errors_New "is a directory".
Definition ENOTEMPTY : go_error := errors_New "directory not empty".

Definition IsNotExist (e : go_error) : bool := errors_Is e "file does not exist".

Definition parent (p : list string) : list string := removelast p.

(** A file can be created at [p]. *)
Definition writable (d : disk) (p : list string) : bool :=
  bool_decide (parent p ∈ dirs d) && bool_decide (p ∉ dirs d).

(** [os.WriteFile]: creates or truncates. *)
Definition WriteFile (p : list string) (c : content) : osM (res ()) :=
  syscall
    (fun d => if writable d p then (set_files (<[p := c]> (files d)) d, inr tt) else (d, inl ENOENT))
    (fun torn d =>
       match torn with
       | Some c' => if writable d p then set_files (<[p := c']> (files d)) d else d
       | None => d
       end)
    (inl EIO).

(** [os.Rename] of a file: atomic. *)
Definition Rename (p q : list string) : osM (res ()) :=
  syscall
    (fun d =>
       match files d !! p with
       | Some c => if writable d q then (set_files (<[q := c]> (delete p (files d))) d, inr tt) else (d, inl EISDIR)
       | None => (d, inl ENOENT)
       end)
    (fun _ d => d) (inl EIO).

Definition has_child (d : disk) (p : list string) : bool :=
  existsb (fun q => bool_decide (parent q = p /\ q <> [])) ((map_to_list (files d)).*1 ++ elements (dirs d)).

(** [os.Remove]: a file or an empty directory. *)
Definition os_Remove (p : list string) : osM (res ()) :=
  syscall
    (fun d =>
       match files d !! p with
       | Some _ => (set_files (delete p (files d)) d, inr tt)
       | None =>
         if bool_decide (p ∈ dirs d)
         then if has_child d p then (d, inl ENOTEMPTY) else (set_dirs (dirs d ∖ {[p]}) d, inr tt)
         else (d, inl ENOENT)
       end)
    (fun _ d => d) (inl EIO).

Definition ReadFile (p : list string) : osM (res content) :=
  syscall
    (fun d =>
       match files d !! p with
       | Some c => (d, inr c)
       | None => (d, inl (if bool_decide (p ∈ dirs d) then EISDIR else ENOENT))
       end)
    (fun _ d => d) (inl EIO).

(** Every prefix of a path, the path included. *)
Fixpoint prefixes (p : list string) : list (list string) :=
  match p with
  | [] => [[]]
  | x :: p => [] :: map (cons x) (prefixes p)
  end.

(** [os.MkdirAll]: fails when a prefix is a file. *)
Definition MkdirAll (p : list string) : osM (res ()) :=
  syscall
    (fun d =>
       if existsb (fun q => bool_decide (is_Some (files d !! q))) (prefixes p) then (d, inl (errors_New "not a directory"))
       else (set_dirs (dirs d ∪ list_to_set (prefixes p)) d, inr tt))
    (fun _ d => d) (inl EIO).

(** ** path/filepath *)

Definition slash : Ascii.ascii := Ascii.ascii_of_nat 47.

(** One element of [filepath.Clean] on the elements kept so far. *)
Definition clean_step (p : list string) (x : string) : list string :=
  if String.eqb x "" || String.eqb x "." then p
  else if String.eqb x ".." then removelast p
  else p ++ [x].

Definition Join (dir : list string) (name : string) : list string :=
  fold_left clean_step (Split slash name) dir.

Definition is_json (name : string) : bool := bool_decide (keep_last 5 (bytes_of name) = bytes_of ".json").

Definition child (dir p : list string) : option string :=
  match last p with
  | Some n => if decide (p = dir ++ [n]) then Some n else None
  | None => None
  end.

Definition name_le (a b : string) : Prop := String.leb a b = true.
#[global] Instance name_le_dec : RelDecision name_le := fun a b => decide (String.leb a b = true).

Definition json_names (dir : list string) (d : disk) : list string :=
  filter (fun n => is_json n) (omap (child dir) ((map_to_list (files d)).*1 ++ elements (dirs d))).

(** [filepath.Glob(dir/*.json)]: the sorted names that match; errors of reading
    the directory are ignored, as documented. *)
Definition Glob (dir : list string) : osM (res (list (list string))) :=
  syscall (fun d => (d, inr (map (fun n => dir ++ [n]) (merge_sort name_le (json_names dir d))))) (fun _ d => d) (inr []).

Definition show_path (p : list string) : string := String.concat "" (map (fun x => "/" +:+ x) p).

(** ** The queue *)

Section Diskqueue.
Context `{TimeJSON}.

Record Entry := {
  ID : string; To : string; Body : string; ICCID : string; CreatedAt : Time; Retries : Z
}.

(** [json.Marshal] of a string: bytes that are not UTF-8 become U+FFFD. *)
Definition json_string (s : string) : json := JStr (string_of_runes (runes_of s)).

Definition Marshal_Entry (e : Entry) : option json :=
  t ← MarshalTime (CreatedAt e);
  Some (JObj [("id", json_string (ID e)); ("to", json_string (To e)); ("body", json_string (Body e));
              ("iccid", json_string (ICCID e)); ("created_at", JStr t); ("retries", JNum (itoa (Retries e)))]).

Definition dec_time (v : json) : option Time := match v with JStr s => UnmarshalTime s | _ => None end.

Definition Unmarshal_Entry (doc : content) : res Entry :=
  let? fields := object_fields doc in
  let? id := get_string fields "id" in
  let? to := get_string fields "to" in
  let? body := get_string fields "body" in
  let? iccid := get_string fields "iccid" in
  let? created := field_of dec_time zeroTime fields "created_at" in
  let? retries := get_int64 fields "retries" in
  inr {| ID := id; To := to; Body := body; ICCID := iccid; CreatedAt := created; Retries := retries |}.

Definition Diskqueue_New (dir : list string) : osM (res (list string)) :=
  r ← MkdirAll dir;
  match r with
  | inl e => mret (inl (Wrapf "diskqueue: mkdir %s: %w" [show_path dir] e))
  | inr _ => mret (inr dir)
  end.

Definition Diskqueue_Push (dir : list string) (e : Entry) : osM (res ()) :=
  match Marshal_Entry e with
  | None => mret (inl (Wrapf "diskqueue: marshal entry %s: %w" [ID e] (errors_New "Time.MarshalJSON")))
  | Some data =>
    let tmp := Join dir (ID e +:+ ".tmp") in
    let dst := Join dir (ID e +:+ ".json") in
    r ← WriteFile tmp (Some data);
    match r with
    | inl err => mret (inl (Wrapf "diskqueue: write temp %s: %w" [show_path tmp] err))
    | inr _ =>
      r ← Rename tmp dst;
      match r with
      | inl err =>
        _ ← os_Remove tmp;
        mret (inl (Wrapf "diskqueue: rename to %s: %w" [show_path dst] err))
      | inr _ => mret (inr tt)
      end
    end
  end.

Fixpoint drain_files (entries : list Entry) (matches : list (list string)) : osM (res (list Entry)) :=
  match matches with
  | [] => mret (inr entries)
  | path :: matches =>
    r ← ReadFile path;
    match r with
    | inl err => mret (inl (Wrapf "diskqueue: read %s: %w" [show_path path] err))
    | inr data =>
      match Unmarshal_Entry data with
      | inl err => mret (inl (Wrapf "diskqueue: unmarshal %s: %w" [show_path path] err))
      | inr e =>
        r ← os_Remove path;
        match r with
        | inl err =>
          if IsNotExist err then drain_files (entries ++ [e]) matches
          else mret (inl (Wrapf "diskqueue: remove %s: %w" [show_path path] err))
        | inr _ => drain_files (entries ++ [e]) matches
        end
      end
    end
  end.

Definition Diskqueue_Drain (dir : list string) : osM (res (list Entry)) :=
  r ← Glob dir;
  match r with
  | inl err => mret (inl (Wrapf "diskqueue: glob: %w" [] err))
  | inr matches => drain_files [] matches
  end.

Definition Diskqueue_Len (dir : list string) : osM (res Z) :=
  r ← Glob dir;
  match r with
  | inl err => mret (inl (Wrapf "diskqueue: glob: %w" [] err))
  | inr matches => mret (inr (Z.of_nat (length matches)))
  end.

Definition Diskqueue_Remove (dir : list string) (id : string) : osM (res ()) := os_Remove (Join dir (id +:+ ".json")).

(** ** Names *)

(** A message ID that is one path element. *)
Definition plain (id : string) : bool := negb (ContainsByte id slash).

End Diskqueue.

Lemma ContainsByte_app s1 s2 c : ContainsByte (s1 +:+ s2) c = ContainsByte s1 c || ContainsByte s2 c.
Proof.
  induction s1 as [|a s1 IH]; [done|]. change (String a s1 +:+ s2) with (String a (s1 +:+ s2)).
  cbn [ContainsByte]. by rewrite IH, orb_assoc.
Qed.

Lemma Split_plain s c : ContainsByte s c = false -> Split c s = [s].
Proof.
  induction s as [|a s IH]; cbn; [done|]. intros [Ha Hs]%orb_false_elim. by rewrite Ha, IH.
Qed.

Lemma Join_plain dir id ext :
  plain id = true -> ContainsByte ext slash = false -> 3 <= String.length ext ->
  Join dir (id +:+ ext) = dir ++ [id +:+ ext].
Proof.
  unfold plain, Join. intros Hid Hext Hlen. rewrite Split_plain.
  2: { rewrite ContainsByte_app. by destruct (ContainsByte id slash). }
  assert (3 <= String.length (id +:+ ext)) as Hl.
  { rewrite <- length_bytes_of, bytes_of_app, length_app, !length_bytes_of. lia. }
  cbn [fold_left]. unfold clean_step.
  repeat match goal with |- context [String.eqb ?a ?b] =>
    destruct (String.eqb_spec a b) as [E|_]; [rewrite E in Hl; cbn in Hl; lia|] end. done.
Qed.

Lemma is_json_ext id : is_json (id +:+ ".json") = true.
Proof.
  unfold is_json. apply bool_decide_true. rewrite bytes_of_app. unfold keep_last.
  rewrite drop_app_ge by (rewrite length_app; cbn; lia). rewrite length_app.
  replace (_ - _ - _) with 0 by (cbn; lia). done.
Qed.

Lemma is_json_inv n : is_json n = true -> exists id, n = id +:+ ".json".
Proof.
  unfold is_json, keep_last. intros E%bool_decide_eq_true.
  set (k := length (bytes_of n) - 5) in E. exists (string_of (take k (bytes_of n))).
  apply bytes_of_inj. rewrite bytes_of_app, <- E, bytes_of_string_of, take_drop; [done|].
  apply Forall_take, bytes_of_is_byte.
Qed.

Lemma is_json_tmp id : is_json (id +:+ ".tmp") = false.
Proof.
  apply not_true_iff_false. intros [id' E]%is_json_inv. apply (f_equal bytes_of) in E.
  rewrite !bytes_of_app in E.
  change (bytes_of ".tmp") with [46; 116; 109; 112]%Z in E. change (bytes_of ".json") with [46; 106; 115; 111; 110]%Z in E.
  apply (f_equal (@rev Z)) in E. rewrite !rev_app_distr in E. cbn in E. congruence.
Qed.

(** ** Atomicity *)

Section Diskqueue_theorems.
Context `{TimeJSON}.

Lemma paths_differ dir id : dir ++ [id +:+ ".tmp"] <> dir ++ [id +:+ ".json"].
Proof.
  intros [= E]%app_inv_head. pose proof (is_json_tmp id) as Hn. change (id +:+ ".tmp") with (String.append id ".tmp") in Hn.
  rewrite E in Hn. by rewrite is_json_ext in Hn.
Qed.

(** The disk after a call, whatever its outcome: only [ps] may differ. *)
Definition only (ps : list (list string)) (d d' : disk) : Prop :=
  forall p, p ∉ ps -> files d' !! p = files d !! p.

Lemma only_trans ps d1 d2 d3 : only ps d1 d2 -> only ps d2 d3 -> only ps d1 d3.
Proof. intros H1 H2 p Hp. rewrite H2, H1; done. Qed.

Lemma WriteFile_only p c d : only [p] d (WriteFile p c d).1.
Proof.
  intros q Hq%not_elem_of_cons. destruct Hq as [Hq _].
  unfold WriteFile, syscall. destruct (io d) as [|[|[c'|]|[c'|]] rest]; cbn [set_io files fst]; try done;
    destruct (writable _ _); cbn [set_files set_io files fst]; try done; by rewrite lookup_insert_ne.
Qed.

Lemma Remove_only p d : only [p] d (os_Remove p d).1.
Proof.
  intros q Hq%not_elem_of_cons. destruct Hq as [Hq _].
  unfold os_Remove, syscall. destruct (io d) as [|[| |] rest]; cbn [set_io files fst]; try done.
  destruct (files d !! p); cbn [set_files set_io files fst]; [by rewrite lookup_delete_ne|].
  destruct (bool_decide _); [destruct (has_child _ _)|]; done.
Qed.

(** A rename moves the file or changes nothing; it reports success in the first case only. *)
Lemma Rename_cases p q d :
  let '(d', r) := Rename p q d in
  (files d' = files d /\ r <> Some (inr tt)) \/
  (exists c, files d !! p = Some c /\ files d' = <[q := c]> (delete p (files d)) /\ r = Some (inr tt)).
Proof.
  unfold Rename, syscall. destruct (io d) as [|[| |] rest]; cbn [set_io files]; try (by left).
  destruct (files d !! p) as [c|] eqn:E; [|by left]. destruct (writable _ _); [|by left].
  right. by exists c.
Qed.

Lemma WriteFile_ok p c d d' : WriteFile p c d = (d', Some (inr tt)) -> files d' !! p = Some c.
Proof.
  unfold WriteFile, syscall. destruct (io d) as [|[| |] rest]; try done.
  destruct (writable _ _); intros [= <-]. cbn. apply lookup_insert_eq.
Qed.

(** C30: [Push] is atomic, for an ID without a slash: whichever of its system calls fails, leaves a torn file or is the last thing
    the process does, the entry's file [<id>.json] afterwards is either as before or the complete new
    document, it is the new document when [Push] returned nil and as before when it returned an
    error; and no file but [<id>.json] and [<id>.tmp] has changed. *)
Theorem push_atomic dir (e : Entry) (d : disk) :
  plain (ID e) = true ->
  let tmp := dir ++ [ID e +:+ ".tmp"] in
  let dst := dir ++ [ID e +:+ ".json"] in
  let '(d', r) := Diskqueue_Push dir e d in
  only [tmp; dst] d d' /\
  (files d' !! dst = files d !! dst /\ r <> Some (inr tt) \/
   exists doc, Marshal_Entry e = Some doc /\ files d' !! dst = Some (Some doc) /\ r = Some (inr tt)).
Proof.
  intros Hid tmp dst. unfold Diskqueue_Push. destruct (Marshal_Entry e) as [doc|]; [|split; [done|by left]].
  rewrite !Join_plain by (done || cbn; lia). fold tmp dst.
  assert (tmp <> dst) as Hne by apply paths_differ.
  unfold mbind, os_bind.
  pose proof (WriteFile_only tmp (Some doc) d) as H1.
  destruct (WriteFile tmp (Some doc) d) as [d1 r1] eqn:E1. cbn [fst] in H1.
  assert (files d1 !! dst = files d !! dst) as Hdst.
  { apply H1. rewrite list_elem_of_singleton. done. }
  assert (only [tmp; dst] d d1) as H1'.
  { intros p Hp. apply H1. rewrite !not_elem_of_cons in *. tauto. }
  destruct r1 as [[err|[]]|]; [split; [done|by left]| |split; [done|by left]].
  pose proof (WriteFile_ok _ _ _ _ E1) as Htmp. pose proof (Rename_cases tmp dst d1) as H2.
  destruct (Rename tmp dst d1) as [d2 r2]. destruct H2 as [[Hf Hr]|(c & Hc & Hf & ->)].
  - assert (only [tmp; dst] d d2) as H2' by (intros p Hp; rewrite Hf; by apply H1').
    destruct r2 as [[err|[]]|]; [|done|split; [done|left; by rewrite Hf]].
    pose proof (Remove_only tmp d2) as H3. destruct (os_Remove tmp d2) as [d3 r3]. cbn [fst] in H3.
    assert (only [tmp; dst] d d3 /\ files d3 !! dst = files d !! dst) as [H3' H4].
    { split.
      - apply (only_trans _ _ _ _ H2'). intros p Hp. apply H3. rewrite !not_elem_of_cons in *. tauto.
      - rewrite H3, Hf by (rewrite list_elem_of_singleton; done). done. }
    destruct r3; (split; [done|]; left; split; [done|discriminate]).
  - split; [|right; exists doc].
    + intros p Hp. rewrite !not_elem_of_cons in Hp. rewrite Hf, lookup_insert_ne, lookup_delete_ne by intuition congruence.
      apply H1'. rewrite !not_elem_of_cons. tauto.
    + rewrite Htmp in Hc. injection Hc as <-. rewrite Hf, lookup_insert_eq. done.
Qed.

(** ** Round trip of an entry *)

Definition utf8 (s : string) : Prop := rune_error ∉ runes_of s.

(** Entries that JSON represents: text in UTF-8, a printable time in a zone of
    whole minutes, an [int]. *)
Definition representable (e : Entry) : Prop :=
  plain (ID e) = true /\ utf8 (ID e) /\ utf8 (To e) /\ utf8 (Body e) /\ utf8 (ICCID e) /\
  (is_Some (MarshalTime (CreatedAt e)) /\ wholeZone (CreatedAt e) = true) /\ in_int64 (Retries e) = true.

(** The same entry, its time up to the instant it names ([Time.Equal]). *)
Record same_entry (e e' : Entry) : Prop := {
  se_id : ID e' = ID e; se_to : To e' = To e; se_body : Body e' = Body e; se_iccid : ICCID e' = ICCID e;
  se_created : UnixNano (CreatedAt e') = UnixNano (CreatedAt e); se_retries : Retries e' = Retries e }.

Lemma field_stores {A} (dec : json -> option A) zero fields name v a :
  stores fields name = [v] -> v <> JNull -> dec v = Some a -> field_of dec zero fields name = inr a.
Proof. intros Hs Hv Hd. unfold field_of. rewrite Hs. cbn. destruct v; try done; by rewrite Hd. Qed.

Lemma entry_roundtrip e :
  representable e -> exists doc e', Marshal_Entry e = Some doc /\ Unmarshal_Entry (Some doc) = inr e' /\ same_entry e e'.
Proof.
  intros (_ & H1 & H2 & H3 & H4 & [[t Ht] Hz] & Hr). destruct (time_roundtrip _ _ Ht Hz) as (t' & Ht' & Heq). unfold Marshal_Entry, json_string. rewrite Ht.
  rewrite !string_of_runes_runes_of by done. cbn [mbind option_bind].
  eexists _, {| ID := ID e; To := To e; Body := Body e; ICCID := ICCID e; CreatedAt := t'; Retries := Retries e |}.
  split; [done|]. split; [|done].
  unfold Unmarshal_Entry. cbn [object_fields].
  set (fields := [_; _; _; _; _; _]). unfold get_string, get_int64.
  assert (stores fields "id" = [JStr (ID e)] /\ stores fields "to" = [JStr (To e)] /\
    stores fields "body" = [JStr (Body e)] /\ stores fields "iccid" = [JStr (ICCID e)] /\
    stores fields "created_at" = [JStr t] /\ stores fields "retries" = [JNum (itoa (Retries e))])
    as (S1 & S2 & S3 & S4 & S5 & S6) by (repeat split; reflexivity).
  rewrite (field_stores dec_string _ _ _ _ (ID e) S1), (field_stores dec_string _ _ _ _ (To e) S2),
    (field_stores dec_string _ _ _ _ (Body e) S3), (field_stores dec_string _ _ _ _ (ICCID e) S4),
    (field_stores dec_time _ _ _ _ _ S5 ltac:(done) Ht'),
    (field_stores dec_int64 _ _ _ _ _ S6 ltac:(done) (Atoi_itoa _ Hr)) by done.
  done.
Qed.

(** ** Refinement: the directory is a map from IDs to entries *)

Definition json_path (dir : list string) (id : string) : list string := dir ++ [id +:+ ".json"].

(** The directory holds exactly the entries of [m], and nothing else with a matching name. *)
Definition keeps_map (dir : list string) (d : disk) (m : gmap string Entry) : Prop :=
  dir ∈ dirs d /\
  (forall n, dir ++ [n] ∉ dirs d) /\
  (forall id, match m !! id with
              | Some e => ID e = id /\ representable e /\ exists doc, Marshal_Entry e = Some doc /\
                          files d !! json_path dir id = Some (Some doc)
              | None => files d !! json_path dir id = None
              end).

(** The next [n] system calls work. *)
Definition healthy (n : nat) (d : disk) : Prop := exists rest, io d = replicate n Works ++ rest.

Lemma healthy_S n d : healthy (S n) d -> exists rest, io d = Works :: rest /\ healthy n (set_io rest d).
Proof. intros [rest E]. exists (replicate n Works ++ rest). split; [done|]. by exists rest. Qed.

Lemma syscall_works {A} w l (f : A) n d :
  healthy (S n) d -> exists d0, files d0 = files d /\ dirs d0 = dirs d /\ healthy n d0 /\
  syscall w l f d = let '(d', a) := w d0 in (d', Some a).
Proof.
  intros (rest & E & Hh)%healthy_S. exists (set_io rest d). repeat split; try done.
  unfold syscall. by rewrite E.
Qed.

(** Runs the next system call of the goal on a healthy disk. *)
Ltac sys_works Hh d0 Hf Hd Hh0 :=
  match goal with
  | |- context [syscall ?w ?l ?f ?d] => destruct (syscall_works w l f _ d Hh) as (d0 & Hf & Hd & Hh0 & ->)
  end.

Lemma parent_snoc dir (n : string) : parent (dir ++ [n]) = dir.
Proof. apply removelast_last. Qed.

Lemma writable_in dir n d : dir ∈ dirs d -> dir ++ [n] ∉ dirs d -> writable d (dir ++ [n]) = true.
Proof. intros H1 H2. unfold writable. rewrite parent_snoc, !bool_decide_true; done. Qed.

Lemma json_path_inj dir id1 id2 : json_path dir id1 = json_path dir id2 -> id1 = id2.
Proof. unfold json_path. intros [= E]%app_inv_head. exact (string_app_inv_r _ _ _ E). Qed.

Lemma json_path_tmp dir id1 id2 : json_path dir id1 <> dir ++ [id2 +:+ ".tmp"].
Proof.
  intros [= E]%app_inv_head. pose proof (is_json_tmp id2) as Hn.
  change (id2 +:+ ".tmp") with (String.append id2 ".tmp") in Hn. rewrite <- E in Hn.
  by rewrite (is_json_ext id1) in Hn.
Qed.

Lemma Push_keeps n dir e d m :
  representable e -> keeps_map dir d m -> healthy (2 + n) d ->
  let '(d', r) := Diskqueue_Push dir e d in
  r = Some (inr tt) /\ keeps_map dir d' (<[ID e := e]> m) /\ healthy n d'.
Proof.
  intros He (Hd & Hc & Hm) Hh. destruct (entry_roundtrip e He) as (doc & _ & Hdoc & _).
  unfold Diskqueue_Push. rewrite Hdoc. destruct He as (Hid & He).
  rewrite !Join_plain by (done || cbn; lia). fold (json_path dir (ID e)). set (tmp := dir ++ [ID e +:+ ".tmp"]).
  unfold mbind, os_bind, WriteFile, Rename.
  sys_works Hh d0 Hf0 Hd0 Hh0.
  assert (writable d0 tmp = true) as -> by (apply writable_in; rewrite Hd0; auto).
  set (d1 := set_files _ d0).
  sys_works Hh0 d2 Hf2 Hd2 Hh2.
  rewrite Hf2. unfold d1 at 1. cbn [set_files files]. rewrite lookup_insert_eq.
  assert (dirs d2 = dirs d) as Hdd by (rewrite Hd2; exact Hd0).
  assert (writable d2 (json_path dir (ID e)) = true) as -> by (apply writable_in; rewrite Hdd; auto).
  split; [done|]. split; [|done]. cbn [set_files].
  split; [cbn; by rewrite Hdd|]. split; [intros x; cbn; rewrite Hdd; apply Hc|].
  intros id. cbn [files]. unfold d1. cbn [set_files files]. destruct (decide (id = ID e)) as [->|Hne].
  - rewrite lookup_insert_eq. split; [done|]. split; [by split|]. exists doc. by rewrite lookup_insert_eq.
  - rewrite lookup_insert_ne by done.
    rewrite (lookup_insert_ne (delete _ _)) by (intros E%json_path_inj; done).
    rewrite lookup_delete_ne, lookup_insert_ne by (intros E; symmetry in E; by apply json_path_tmp in E).
    rewrite Hf0. apply Hm.
Qed.

Lemma Remove_keeps n dir id d m :
  plain id = true -> keeps_map dir d m -> healthy (1 + n) d ->
  let '(d', r) := Diskqueue_Remove dir id d in
  r = Some (match m !! id with Some _ => inr tt | None => inl ENOENT end) /\
  keeps_map dir d' (delete id m) /\ healthy n d'.
Proof.
  intros Hid (Hd & Hc & Hm) Hh. unfold Diskqueue_Remove, os_Remove.
  rewrite Join_plain by (done || cbn; lia). fold (json_path dir id).
  sys_works Hh d0 Hf Hd0 Hh0.
  rewrite Hf. pose proof (Hm id) as Hi. destruct (m !! id) as [e|] eqn:Em.
  - destruct Hi as (_ & _ & doc & _ & ->). split; [done|]. split; [|done].
    split; [cbn; by rewrite Hd0|]. split; [intros x; cbn; rewrite Hd0; apply Hc|].
    intros id'. cbn [set_files files]. destruct (decide (id' = id)) as [->|Hne].
    + by rewrite !lookup_delete_eq.
    + rewrite lookup_delete_ne by done. rewrite (lookup_delete_ne (files d)) by (intros E%json_path_inj; done).
      apply Hm.
  - rewrite Hi, bool_decide_false by (rewrite Hd0; apply Hc). split; [done|]. split; [|done].
    rewrite delete_id by done. split; [by rewrite Hd0|]. split; [intros x; rewrite Hd0; apply Hc|].
    by rewrite Hf.
Qed.

(** ** Listing the directory *)

Lemma elem_child dir p n : child dir p = Some n <-> p = dir ++ [n].
Proof.
  unfold child. split.
  - destruct (last p); [|done]. case_decide; congruence.
  - intros ->. rewrite last_snoc, decide_True; done.
Qed.

Lemma NoDup_omap_inj {A B} (f : A -> option B) (l : list A) :
  (forall x y b, f x = Some b -> f y = Some b -> x = y) -> NoDup l -> NoDup (omap f l).
Proof.
  intros Hf. induction 1 as [|x l Hx Hl IH]; [constructor|]. cbn [omap list_omap].
  destruct (f x) as [b|] eqn:E; [|done]. constructor; [|done].
  intros (y & Hy & E2)%list_elem_of_omap. by rewrite (Hf x y b E E2) in Hx.
Qed.

Lemma json_names_spec dir d m :
  keeps_map dir d m -> json_names dir d ≡ₚ map (fun id => id +:+ ".json") (map_to_list m).*1.
Proof.
  intros (Hd & Hc & Hm). apply NoDup_Permutation.
  - unfold json_names. apply NoDup_filter. rewrite omap_app.
    assert (omap (child dir) (elements (dirs d)) = []) as ->.
    { apply elem_of_nil_inv. intros n (p & Hp & Hn)%list_elem_of_omap. apply elem_child in Hn as ->.
      apply elem_of_elements in Hp. by apply (Hc n). }
    rewrite app_nil_r. apply NoDup_omap_inj; [|apply NoDup_fst_map_to_list].
    intros p1 p2 n H1%elem_child H2%elem_child. congruence.
  - apply NoDup_fmap_2_strong; [|apply NoDup_fst_map_to_list]. intros a b _ _. apply string_app_inv_r.
  - intros n. unfold json_names. rewrite list_elem_of_filter, list_elem_of_omap. split.
    + intros [Hj (p & Hp & ->%elem_child)]. apply elem_of_app in Hp as [Hp|Hp%elem_of_elements]; [|by apply Hc in Hp].
      apply Is_true_eq_true, is_json_inv in Hj as [id ->].
      apply list_elem_of_fmap. exists id. split; [done|]. apply list_elem_of_fmap in Hp as ([p c] & E & Hp).
      cbn in E. subst p. apply elem_of_map_to_list in Hp. specialize (Hm id). unfold json_path in Hm.
      destruct (m !! id) as [e|] eqn:Em; [|congruence].
      apply list_elem_of_fmap. exists (id, e). split; [done|]. by apply elem_of_map_to_list.
    + intros (id & -> & Hid)%list_elem_of_fmap. apply list_elem_of_fmap in Hid as ([id' e] & -> & Hid).
      apply elem_of_map_to_list in Hid. split; [by rewrite is_json_ext|]. cbn [fst].
      exists (dir ++ [id' +:+ ".json"]). split; [|by apply elem_child]. apply elem_of_app. left.
      specialize (Hm id'). rewrite Hid in Hm. destruct Hm as (_ & _ & doc & _ & Hf).
      apply list_elem_of_fmap. exists (json_path dir id', Some doc). split; [done|]. by apply elem_of_map_to_list.
Qed.

Lemma Glob_spec n dir d m :
  keeps_map dir d m -> healthy (1 + n) d ->
  exists ids d', ids ≡ₚ (map_to_list m).*1 /\ Glob dir d = (d', Some (inr (map (json_path dir) ids))) /\
    files d' = files d /\ dirs d' = dirs d /\ healthy n d'.
Proof.
  intros Hk Hh. unfold Glob. sys_works Hh d0 Hf Hd0 Hh0.
  assert (merge_sort name_le (json_names dir d0) ≡ₚ map (fun id => id +:+ ".json") (map_to_list m).*1) as Hp.
  { rewrite merge_sort_Permutation. apply json_names_spec. destruct Hk as (K1 & K2 & K3).
    split; [by rewrite Hd0|]. split; [intros x; rewrite Hd0; apply K2|]. by rewrite Hf. }
  apply Permutation_map_inv in Hp as (ids & Hids & Hp).
  exists ids, d0. split; [by symmetry|]. split; [|done]. by rewrite Hids, map_map.
Qed.


(** ** Draining *)

(** The map without the given IDs. *)
Definition without (ids : list string) (m : gmap string Entry) : gmap string Entry :=
  foldl (fun m id => delete id m) m ids.

Lemma drain_files_spec n dir ids : forall acc d m,
  keeps_map dir d m -> NoDup ids -> healthy (2 * length ids + n) d ->
  (forall id, id ∈ ids -> is_Some (m !! id)) ->
  exists d' l, drain_files acc (map (json_path dir) ids) d = (d', Some (inr (acc ++ l))) /\
    Forall2 same_entry (omap (fun id => m !! id) ids) l /\
    keeps_map dir d' (without ids m) /\ healthy n d'.
Proof.
  induction ids as [|id ids IH]; intros acc d m Hk Hnd Hh Hin.
  { exists d, []. cbn. by rewrite app_nil_r. }
  destruct (Hin id) as [e He]; [by left|]. cbn [map drain_files].
  replace (2 * length (id :: ids) + n) with (1 + (1 + (2 * length ids + n))) in Hh by (cbn [length]; lia).
  pose proof Hk as (Hd & Hc & Hm). pose proof (Hm id) as Hi. rewrite He in Hi.
  destruct Hi as (<- & Hrep & doc & Hdoc & Hf).
  destruct (entry_roundtrip e Hrep) as (doc' & e' & Hdoc' & Hun & Hse).
  assert (doc' = doc) as -> by congruence.
  unfold mbind, os_bind, ReadFile. sys_works Hh d0 Hf0 Hd0 Hh0. rewrite Hf0, Hf, Hun.
  assert (keeps_map dir d0 m) as Hk0.
  { split; [by rewrite Hd0|]. split; [intros x; rewrite Hd0; apply Hc|]. by rewrite Hf0. }
  pose proof (Remove_keeps _ dir (ID e) d0 m (proj1 Hrep) Hk0 Hh0) as Hr.
  unfold Diskqueue_Remove in Hr. rewrite Join_plain in Hr by (apply Hrep || done || cbn; lia).
  fold (json_path dir (ID e)) in Hr.
  destruct (os_Remove (json_path dir (ID e)) d0) as [d1 r]. rewrite He in Hr. destruct Hr as (-> & Hk1 & Hh1).
  apply NoDup_cons in Hnd as [Hni Hnd].
  destruct (IH (acc ++ [e']) d1 _ Hk1 Hnd Hh1) as (d' & l & Ed & Hl & Hk' & Hh').
  { intros id Hid. rewrite lookup_delete_ne by congruence. apply Hin. by right. }
  exists d', (e' :: l). split; [by rewrite Ed, <- app_assoc|]. split; [|done]. cbn [omap list_omap]. rewrite He.
  constructor; [done|]. erewrite list_omap_ext; [exact Hl|]. apply Forall_Forall2_diag, Forall_forall. intros id Hid.
  symmetry. apply lookup_delete_ne. congruence.
Qed.

Lemma without_all ids m : ids ≡ₚ (map_to_list m).*1 -> without ids m = ∅.
Proof.
  intros Hp. apply map_empty. intros i.
  assert (forall ids (m : gmap string Entry), (i ∈ ids \/ m !! i = None) -> without ids m !! i = None) as Hw.
  { clear. induction ids as [|id ids IH]; intros m [Hi|Hi]; cbn; try done.
    - by apply elem_of_nil in Hi.
    - apply IH. apply elem_of_cons in Hi as [<-|Hi]; [right; apply lookup_delete_eq|by left].
    - apply IH. right. rewrite lookup_delete. by case_decide. }
  apply Hw. destruct (m !! i) as [e|] eqn:E; [left|by right].
  rewrite Hp. apply list_elem_of_fmap. exists (i, e). split; [done|]. by apply elem_of_map_to_list.
Qed.

Lemma omap_all ids (m : gmap string Entry) : ids ≡ₚ (map_to_list m).*1 -> omap (fun id => m !! id) ids ≡ₚ (map_to_list m).*2.
Proof.
  intros Hp. rewrite Hp. clear ids Hp.
  assert (forall l, (forall kv, kv ∈ l -> m !! kv.1 = Some kv.2) -> omap (fun id => m !! id) l.*1 = l.*2) as Hl.
  { induction l as [|[k e] l IH]; intros Hl; [done|]. cbn.
    pose proof (Hl (k, e) ltac:(by left)) as E. cbn in E. rewrite E. f_equal. apply IH. intros kv Hkv. apply Hl. by right. }
  rewrite Hl; [done|]. intros [k e] Hkv. by apply elem_of_map_to_list.
Qed.

Lemma Drain_keeps n dir d m :
  keeps_map dir d m -> healthy (1 + 2 * size m + n) d ->
  exists l d', Diskqueue_Drain dir d = (d', Some (inr l)) /\
    (exists l0, l0 ≡ₚ (map_to_list m).*2 /\ Forall2 same_entry l0 l) /\
    keeps_map dir d' ∅ /\ healthy n d'.
Proof.
  intros Hk Hh. destruct (Glob_spec (2 * size m + n) dir d m Hk Hh) as (ids & d1 & Hp & E & Hf & Hd & Hh1).
  assert (keeps_map dir d1 m) as Hk1.
  { destruct Hk as (K1 & K2 & K3). split; [by rewrite Hd|]. split; [intros x; rewrite Hd; apply K2|]. by rewrite Hf. }
  assert (length ids = size m) as Hl.
  { rewrite Hp, length_fmap. apply length_map_to_list. }
  destruct (drain_files_spec n dir ids [] d1 m Hk1) as (d' & l & E' & Hl' & Hk' & Hh').
  - rewrite Hp. apply NoDup_fst_map_to_list.
  - by rewrite Hl.
  - intros id Hid. rewrite Hp in Hid. apply list_elem_of_fmap in Hid as ([k e] & -> & Hid).
    apply elem_of_map_to_list in Hid. by exists e.
  - exists l, d'. unfold Diskqueue_Drain, mbind, os_bind. rewrite E, E'.
    split; [done|]. split; [exists (omap (fun id => m !! id) ids); split; [by apply omap_all|done]|]. rewrite without_all in Hk' by done. done.
Qed.

(** ** Runs *)

Inductive op := Push (e : Entry) | Remove (id : string) | Len | Drain.
Inductive answer := Done | NotFound | Failed (e : go_error) | Count (n : Z) | Entries (l : list Entry) | Stopped.

Definition answer_of {A} (f : A -> answer) (r : option (res A)) : answer :=
  match r with
  | Some (inr a) => f a
  | Some (inl e) => if IsNotExist e then NotFound else Failed e
  | None => Stopped
  end.

Definition dq_step (dir : list string) (o : op) (d : disk) : disk * answer :=
  match o with
  | Push e => let '(d, r) := Diskqueue_Push dir e d in (d, answer_of (fun _ => Done) r)
  | Remove id => let '(d, r) := Diskqueue_Remove dir id d in (d, answer_of (fun _ => Done) r)
  | Len => let '(d, r) := Diskqueue_Len dir d in (d, answer_of Count r)
  | Drain => let '(d, r) := Diskqueue_Drain dir d in (d, answer_of Entries r)
  end.

Fixpoint dq_run (dir : list string) (ops : list op) (d : disk) : disk * list answer :=
  match ops with
  | [] => (d, [])
  | o :: ops => let '(d, a) := dq_step dir o d in let '(d, r) := dq_run dir ops d in (d, a :: r)
  end.

Definition map_step (o : op) (m : gmap string Entry) : gmap string Entry * answer :=
  match o with
  | Push e => (<[ID e := e]> m, Done)
  | Remove id => (delete id m, match m !! id with Some _ => Done | None => NotFound end)
  | Len => (m, Count (Z.of_nat (size m)))
  | Drain => (∅, Entries (map_to_list m).*2)
  end.

Fixpoint map_run (ops : list op) (m : gmap string Entry) : gmap string Entry * list answer :=
  match ops with
  | [] => (m, [])
  | o :: ops => let '(m, a) := map_step o m in let '(m, r) := map_run ops m in (m, a :: r)
  end.

(** Equal answers, up to the order of the drained entries and the
    representation of their times. *)
Definition same_answer (a b : answer) : Prop :=
  match a, b with
  | Entries l1, Entries l2 => exists l, l ≡ₚ l2 /\ Forall2 same_entry l l1
  | _, _ => a = b
  end.

Definition op_ok (o : op) : Prop :=
  match o with
  | Push e => representable e
  | Remove id => plain id = true
  | Len | Drain => True
  end.

(** System calls a run makes: every pushed file is read and removed at most once. *)
Fixpoint calls (ops : list op) (queued : nat) : nat :=
  match ops with
  | [] => 0
  | Push _ :: ops => 2 + calls ops (S queued)
  | (Remove _ | Len) :: ops => 1 + calls ops queued
  | Drain :: ops => 1 + 2 * queued + calls ops 0
  end.

Lemma calls_mono ops : forall a b, a <= b -> calls ops a <= calls ops b.
Proof.
  induction ops as [|[e|id| |] ops IH]; intros a b Hab; cbn [calls]; try done.
  - specialize (IH (S a) (S b)). lia.
  - specialize (IH a b). lia.
  - specialize (IH a b). lia.
  - lia.
Qed.

Lemma healthy_le n n' d : n <= n' -> healthy n' d -> healthy n d.
Proof.
  intros Hn [rest E]. exists (replicate (n' - n) Works ++ rest).
  by rewrite E, app_assoc, <- replicate_add, Nat.add_comm, Nat.sub_add by lia.
Qed.

Lemma size_insert_le k e (m : gmap string Entry) : size (<[k := e]> m) <= S (size m).
Proof. rewrite map_size_insert. destruct (m !! k); unfold id; lia. Qed.

Lemma size_delete_le k (m : gmap string Entry) : size (delete k m) <= size m.
Proof. rewrite map_size_delete. destruct (m !! k); unfold id; lia. Qed.

Lemma Len_keeps n dir d m :
  keeps_map dir d m -> healthy (1 + n) d ->
  exists d', Diskqueue_Len dir d = (d', Some (inr (Z.of_nat (size m)))) /\ keeps_map dir d' m /\ healthy n d'.
Proof.
  intros Hk Hh. destruct (Glob_spec n dir d m Hk Hh) as (ids & d1 & Hp & E & Hf & Hd & Hh1).
  exists d1. unfold Diskqueue_Len, mbind, os_bind. rewrite E, length_map, Hp, length_fmap, length_map_to_list.
  split; [done|]. split; [|done]. destruct Hk as (K1 & K2 & K3).
  split; [by rewrite Hd|]. split; [intros x; rewrite Hd; apply K2|]. by rewrite Hf.
Qed.

Lemma dq_step_keeps o ops n dir d m :
  op_ok o -> keeps_map dir d m -> healthy (calls (o :: ops) (size m) + n) d ->
  let '(d', a) := dq_step dir o d in
  let '(m', b) := map_step o m in
  keeps_map dir d' m' /\ same_answer a b /\ healthy (calls ops (size m') + n) d'.
Proof.
  intros Ho Hk Hh. destruct o as [e|id| |]; cbn [dq_step map_step op_ok calls] in *.
  - pose proof (Push_keeps (calls ops (S (size m)) + n) dir e d m Ho Hk Hh) as H1.
    destruct (Diskqueue_Push dir e d) as [d' r]. destruct H1 as (-> & H1 & H2). split; [done|]. split; [done|].
    apply (healthy_le _ _ _ ltac:(apply Nat.add_le_mono_r, calls_mono, size_insert_le) H2).
  - pose proof (Remove_keeps (calls ops (size m) + n) dir id d m Ho Hk Hh) as H1.
    destruct (Diskqueue_Remove dir id d) as [d' r]. destruct H1 as (-> & H1 & H2). split; [done|].
    split; [by destruct (m !! id)|].
    apply (healthy_le _ _ _ ltac:(apply Nat.add_le_mono_r, calls_mono, size_delete_le) H2).
  - destruct (Len_keeps (calls ops (size m) + n) dir d m Hk Hh) as (d' & -> & H1 & H2). done.
  - destruct (Drain_keeps (calls ops 0 + n) dir d m Hk) as (l & d' & -> & H1 & H2 & H3).
    { eapply healthy_le; [|exact Hh]. lia. }
    split; [done|]. split; [done|]. by rewrite map_size_empty.
Qed.

Lemma dq_run_keeps ops : forall n dir d m,
  Forall op_ok ops -> keeps_map dir d m -> healthy (calls ops (size m) + n) d ->
  keeps_map dir (dq_run dir ops d).1 (map_run ops m).1 /\
  Forall2 same_answer (dq_run dir ops d).2 (map_run ops m).2.
Proof.
  induction ops as [|o ops IH]; intros n dir d m Ho Hk Hh; cbn [dq_run map_run]; [by split|].
  apply Forall_cons in Ho as [Ho Hos]. pose proof (dq_step_keeps o ops n dir d m Ho Hk Hh) as H1.
  destruct (dq_step dir o d) as [d1 a]. destruct (map_step o m) as [m1 b]. destruct H1 as (H1 & H2 & H3).
  destruct (IH n dir d1 m1 Hos H1 H3) as [I1 I2].
  destruct (dq_run dir ops d1), (map_run ops m1). split; [done|]. by constructor.
Qed.

(** C29: On a disk whose calls work, the queue's directory implements a map from IDs to entries: over any
    sequence of calls on a directory that holds no subdirectory and no .json file at first, pushes insert (a second
    push of an ID replaces the first), [Remove] deletes and reports a missing entry, [Len] counts, and [Drain]
    returns every entry, each field as it was pushed and the time as the same instant (in some order), and leaves the
    queue empty.  This is for entries that file names and JSON can represent: IDs without a slash, texts in UTF-8
    without U+FFFD, times of the years 0 to 9999 in a zone of whole minutes, and [int] retries. *)
Theorem diskqueue_refines_map dir ops d :
  dir ∈ dirs d -> (forall n, dir ++ [n] ∉ dirs d) -> (forall id, files d !! json_path dir id = None) ->
  Forall op_ok ops -> healthy (calls ops 0) d ->
  Forall2 same_answer (dq_run dir ops d).2 (map_run ops ∅).2 /\
  keeps_map dir (dq_run dir ops d).1 (map_run ops ∅).1.
Proof.
  intros Hd Hc Hf Ho Hh. destruct (dq_run_keeps ops 0 dir d ∅) as [H1 H2]; [done| | |done].
  - split; [done|]. split; [done|]. intros id. by rewrite lookup_empty.
  - by rewrite map_size_empty, Nat.add_0_r.
Qed.

End Diskqueue_theorems.

(** ** Examples *)

(** A time with its location: the instant is printed in decimal, the location is
    not, and what is read back is in UTC. *)
Definition located : TimeJSON.
Proof.
  refine {| Time := Z * string; zeroTime := (0%Z, "UTC"); MarshalTime t := if in_int64 t.1 then Some (itoa t.1) else None;
            UnmarshalTime s := (fun t => (t, "UTC")) <$> Atoi s; UnixNano := fst; wholeZone _ := true |}.
  intros [t z] s. cbn. destruct (in_int64 t) eqn:E; [|done]. intros [= <-] _. exists (t, "UTC"). by rewrite (Atoi_itoa t E).
Defined.

Definition demo_entry (id : string) : @Entry located :=
  {| ID := id; To := "+49"; Body := "hi"; ICCID := "894"; CreatedAt := (7%Z, "Europe/Berlin") : @Time located; Retries := 0 |}.

Definition demo_disk (n : nat) : disk :=
  {| files := ∅; dirs := {[ []; ["q"] ]}; io := replicate n Works |}.

Lemma diskqueue_refines_map_witness :
  Forall2 same_answer (dq_run (H := located) ["q"] [Push (demo_entry "a"); Len; Drain] (demo_disk 20)).2
    [Done; Count 1; Entries [demo_entry "a"]].
Proof.
  refine (proj1 (diskqueue_refines_map (H := located) ["q"] [Push (demo_entry "a"); Len; Drain] (demo_disk 20) _ _ _ _ _)).
  - by_eval.
  - intros n. unfold demo_disk. cbn [dirs]. set_solver.
  - intros id. reflexivity.
  - repeat constructor; unfold representable; cbn; repeat split; try by_eval; by eexists.
  - by exists (replicate 14 Works).
Defined.

(** The entry drained names the same instant; its location is lost. *)
Example location_lost :
  match (dq_run (H := located) ["q"] [Push (demo_entry "a"); Drain] (demo_disk 20)).2 with
  | [_; Entries l] => map (fun e => @CreatedAt located e : Z * string) l
  | _ => []
  end = [(7%Z, "UTC")].
Proof. by vm_compute. Qed.

(** The process dies in the rename after an entry was replaced once: the old document is still there. *)
Lemma push_atomic_witness :
  let d := set_io [Works; Dies None] (dq_run (H := located) ["q"] [Push (demo_entry "a")] (demo_disk 2)).1 in
  (let '(d', r) := Diskqueue_Push (H := located) ["q"] (demo_entry "a") d in
   only [["q"; "a.tmp"]; ["q"; "a.json"]] d d' /\
   (files d' !! ["q"; "a.json"] = files d !! ["q"; "a.json"] /\ r <> Some (inr tt) \/
    exists doc, Marshal_Entry (demo_entry "a") = Some doc /\ files d' !! ["q"; "a.json"] = Some (Some doc) /\ r = Some (inr tt))) /\
  (Diskqueue_Push (H := located) ["q"] (demo_entry "a") d).2 = None.
Proof.
  intros d. split; [exact (push_atomic (H := located) ["q"] (demo_entry "a") d eq_refl)|vm_compute; reflexivity].
Defined.

(** ** Where the code loses entries *)

(** A file that is no JSON document makes [Drain] fail after it removed the
    files before it: their entries are neither returned nor on disk. *)
Lemma drain_error_loses_entries :
  let d := (dq_run (H := located) ["q"] [Push (demo_entry "a")] (demo_disk 10)).1 in
  let d := set_files (<[["q"; "b.json"] := None]> (files d)) d in
  let '(d', r) := Diskqueue_Drain (H := located) ["q"] d in
  match r with Some (inl (Wrapf _ args _)) => args | _ => [] end = ["/q/b.json"] /\
  bool_decide (is_Some (files d !! ["q"; "a.json"])) = true /\ files d' !! ["q"; "a.json"] = None.
Proof. vm_compute. auto. Qed.

(** An error of reading the directory is reported as an empty queue. *)
Lemma drain_hides_read_error :
  let d := (dq_run (H := located) ["q"] [Push (demo_entry "a")] (demo_disk 2)).1 in
  match (Diskqueue_Drain (H := located) ["q"] (set_io [Fails None] d)).2 with
  | Some (inr []) => true | _ => false end = true.
Proof. vm_compute. reflexivity. Qed.

(** An ID with path elements leaves the queue's directory, and [Drain] does not see it. *)
Lemma push_escapes_directory :
  Join ["var"; "q"] ("../x" +:+ ".json") = ["var"; "x.json"].
Proof. reflexivity. Qed.
