(* ===== verification/Float64.v ===== *)
(** * Floating point (float64, time.Duration)

    The arithmetic of Go's [float64]: a finite value is the rational it stands
    for, and an operation is the exact one followed by rounding to 53 bits,
    nearest, ties to even, with gradual underflow and overflow to infinity
    (IEEE 754).  The sign of zero is not kept.  [rabs_err] bounds the rounding
    error; the clients' theorems rest on it and on [rnd_exact]. *)

From Stdlib Require Export QArith Qround Qpower Lqa.
From Stdlib Require Import Qcanon.
From S2P Require Import Prelude.

Local Open Scope Q_scope.

Inductive float64 := F (q : Q) | Infinity (neg : bool) | NaN.

(** ** Rounding *)

Definition two_to (k : Z) : Q := Qpower 2 k.

(** The greatest [k] with [2^k <= q], for [0 < q]. *)
Definition exponent (q : Q) : Z :=
  let k := (Z.log2 (Qnum q) - Z.log2 (Zpos (Qden q)))%Z in
  if Qle_bool (two_to k) q then k else (k - 1)%Z.

Definition nearest_even (x : Q) : Z :=
  let f := Qfloor x in
  match Qcompare (x - inject_Z f) (1 # 2) with
  | Lt => f
  | Gt => (f + 1)%Z
  | Eq => if Z.even f then f else (f + 1)%Z
  end.

(** The unit in the last place of a positive number. *)
Definition ulp (q : Q) : Z := Z.max (exponent q - 52) (-1074).

Definition rabs (q : Q) : Q := Qred (inject_Z (nearest_even (q * two_to (- ulp q))) * two_to (ulp q)).

Definition rnd (q : Q) : float64 :=
  match Qcompare q 0 with
  | Eq => F 0
  | Gt => if Qle_bool (two_to 1024) (rabs q) then Infinity false else F (rabs q)
  | Lt => if Qle_bool (two_to 1024) (rabs (- q)) then Infinity true else F (Qred (- rabs (- q)))
  end.

(** ** Operations *)

Definition is_neg (q : Q) : bool := negb (Qle_bool 0 q).

Definition fneg (a : float64) : float64 :=
  match a with F q => F (Qred (- q)) | Infinity s => Infinity (negb s) | NaN => NaN end.

Definition fadd (a b : float64) : float64 :=
  match a, b with
  | F p, F q => rnd (p + q)
  | Infinity s, F _ | F _, Infinity s => Infinity s
  | Infinity s, Infinity t => if Bool.eqb s t then Infinity s else NaN
  | _, _ => NaN
  end.

Definition fsub (a b : float64) : float64 := fadd a (fneg b).

Definition fmul (a b : float64) : float64 :=
  match a, b with
  | F p, F q => rnd (p * q)
  | Infinity s, F q | F q, Infinity s => if Qeq_bool q 0 then NaN else Infinity (xorb s (is_neg q))
  | Infinity s, Infinity t => Infinity (xorb s t)
  | _, _ => NaN
  end.

Definition fdiv (a b : float64) : float64 :=
  match a, b with
  | F p, F q =>
    if Qeq_bool q 0 then (if Qeq_bool p 0 then NaN else Infinity (is_neg p)) else rnd (p / q)
  | F _, Infinity _ => F 0
  | Infinity s, F q => Infinity (xorb s (is_neg q))
  | _, _ => NaN
  end.

(** [a < b] and [a <= b]; a comparison with NaN is false. *)
Definition flt (a b : float64) : bool :=
  match a, b with
  | F p, F q => negb (Qle_bool q p)
  | F _, Infinity s => negb s
  | Infinity s, F _ => s
  | Infinity s, Infinity t => s && negb t
  | _, _ => false
  end.

Definition fle (a b : float64) : bool :=
  match a, b with
  | F p, F q => Qle_bool p q
  | F _, Infinity s => negb s
  | Infinity s, F _ => s
  | Infinity s, Infinity t => s || negb t
  | _, _ => false
  end.

(** [math.Min]. *)
Definition fmin (a b : float64) : float64 :=
  match a, b with
  | NaN, _ | _, NaN => NaN
  | _, _ => if flt a b then a else b
  end.

(** The conversions [float64(z)] and [int64(f)] (towards zero; out of range,
    the value amd64 gives). *)
Definition of_int (z : Z) : float64 := rnd (inject_Z z).

Definition truncate (q : Q) : Z := Z.quot (Qnum q) (Zpos (Qden q)).

Definition to_int (f : float64) : Z :=
  match f with
  | F q => if in_int64 (truncate q) then truncate q else (-9223372036854775808)%Z
  | _ => (-9223372036854775808)%Z
  end.

(** ** time.Duration *)

Definition Second : Z := 1000000000.

(** The method [Seconds]. *)
Definition Seconds (d : Z) : float64 :=
  fadd (of_int (Z.quot d Second)) (fdiv (of_int (Z.rem d Second)) (of_int Second)).

(** ** Sample values *)

Example tenth_plus_fifth :
  fadd (rnd (1 # 10)) (rnd (2 # 10)) = F (1351079888211149 # 4503599627370496) /\
  rnd (1 # 10) = F (3602879701896397 # 36028797018963968).
Proof. vm_compute. done. Qed.

Example ties_to_even :
  of_int 9007199254740993 = F 9007199254740992 /\ of_int 9007199254740995 = F 9007199254740996 /\
  fmul (F (two_to 1023)) (F 2) = Infinity false /\ rnd (two_to (-1080)) = F 0.
Proof. vm_compute. done. Qed.

(** ** Error of rounding *)

Lemma two_to_pos k : 0 < two_to k.
Proof. apply Qpower_0_lt. lra. Qed.

Lemma two_to_plus a b : two_to (a + b) == two_to a * two_to b.
Proof. apply Qpower_plus. lra. Qed.

Lemma two_to_inv k : two_to (- k) * two_to k == 1.
Proof. rewrite <- two_to_plus, Z.add_opp_diag_l. reflexivity. Qed.

Lemma two_to_le a b : (a <= b)%Z -> two_to a <= two_to b.
Proof. intros. apply Qpower_le_compat_l; [done|lra]. Qed.

Lemma two_to_Z k : (0 <= k)%Z -> two_to k == inject_Z (2 ^ k).
Proof. intros Hk. symmetry. by apply Zpower_Qpower. Qed.

Lemma nearest_even_err x :
  inject_Z (nearest_even x) <= x + (1 # 2) /\ x - (1 # 2) <= inject_Z (nearest_even x).
Proof.
  pose proof (Qfloor_le x) as H1. pose proof (Qlt_floor x) as H2. unfold nearest_even.
  rewrite inject_Z_plus in H2. change (inject_Z 1) with 1 in H2.
  destruct (Qcompare_spec (x - inject_Z (Qfloor x)) (1 # 2)) as [E|E|E];
    [destruct (Z.even _)| |]; rewrite ?inject_Z_plus; change (inject_Z 1) with 1; lra.
Qed.

Lemma nearest_even_Z z : nearest_even (inject_Z z) = z.
Proof.
  unfold nearest_even. rewrite Qfloor_Z.
  destruct (Qcompare_spec (inject_Z z - inject_Z z) (1 # 2)) as [E|E|E]; [lra|done|lra].
Qed.

Lemma nearest_even_comp x y : x == y -> nearest_even x = nearest_even y.
Proof. intros E. unfold nearest_even. rewrite (Qfloor_comp _ _ E), E. done. Qed.

(** The exponent is a lower bound. *)
Lemma exponent_le q : 0 < q -> two_to (exponent q) <= q.
Proof.
  intros Hq. unfold exponent. set (k := (_ - _)%Z).
  destruct (Qle_bool (two_to k) q) eqn:E; [by apply Qle_bool_iff|].
  destruct q as [n d]. unfold Qlt in Hq. cbn [Qnum Qden] in *.
  assert (0 < n)%Z as Hn by lia.
  destruct (Z.log2_spec n Hn) as [L1 _]. destruct (Z.log2_spec (Zpos d) ltac:(lia)) as [_ L2].
  (* 2^log2 n <= n and d < 2^(log2 d + 1) *)
  assert (two_to (Z.log2 n) <= inject_Z n) as Q1.
  { rewrite two_to_Z by apply Z.log2_nonneg. by rewrite <- Zle_Qle. }
  assert (inject_Z (Zpos d) <= two_to (Z.succ (Z.log2 (Zpos d)))) as Q2.
  { rewrite two_to_Z by (pose proof (Z.log2_nonneg (Zpos d)); lia). rewrite <- Zle_Qle. lia. }
  assert (n # d == inject_Z n / inject_Z (Zpos d)) as -> by apply Qmake_Qdiv.
  assert (0 < inject_Z (Zpos d)) as Hd by (unfold Qlt; cbn; lia).
  apply Qle_shift_div_l; [done|].
  apply Qle_trans with (two_to (k - 1) * two_to (Z.succ (Z.log2 (Zpos d)))).
  - apply Qmult_le_l; [apply two_to_pos|done].
  - rewrite <- two_to_plus. unfold k. replace (_ + _)%Z with (Z.log2 n) by lia. done.
Qed.

(** Half a unit in the last place is at most the 2^-53rd part, or tiny. *)
Lemma ulp_le q : 0 < q -> two_to (ulp q) <= q * two_to (-52) + two_to (-1074).
Proof.
  intros Hq. unfold ulp. destruct (Z.max_spec (exponent q - 52) (-1074)) as [[_ ->]|[_ ->]].
  - pose proof (two_to_pos (-52)). pose proof (Qmult_lt_0_compat q (two_to (-52)) Hq ltac:(done)). lra.
  - change (exponent q - 52)%Z with (exponent q + - 52)%Z. rewrite two_to_plus.
    pose proof (exponent_le q Hq). pose proof (two_to_pos (-52)). pose proof (two_to_pos (-1074)). nra.
Qed.

Lemma rabs_err q :
  0 < q ->
  rabs q <= q + q * two_to (-53) + two_to (-1075) /\ q - q * two_to (-53) - two_to (-1075) <= rabs q.
Proof.
  intros Hq. unfold rabs. rewrite Qred_correct.
  destruct (nearest_even_err (q * two_to (- ulp q))) as [H1 H2].
  pose proof (ulp_le q Hq) as Hu. pose proof (two_to_pos (ulp q)) as Hp.
  assert (q * two_to (- ulp q) * two_to (ulp q) == q) as Hc.
  { rewrite <- Qmult_assoc, two_to_inv. ring. }
  assert (two_to (-53) == two_to (-52) * (1 # 2)) as E1 by reflexivity.
  assert (two_to (-1075) == two_to (-1074) * (1 # 2)) as E2 by reflexivity.
  apply (Qmult_le_compat_r _ _ (two_to (ulp q))) in H1; [|lra].
  apply (Qmult_le_compat_r _ _ (two_to (ulp q))) in H2; [|lra].
  rewrite Qmult_plus_distr_l, Hc in H1. unfold Qminus in H2. rewrite Qmult_plus_distr_l, Hc in H2.
  rewrite E1, E2. generalize dependent (two_to (-52)). generalize dependent (two_to (-1074)). intros.
  split; lra.
Qed.

(** ** Rounding in range *)

(** Relative and absolute error of one rounding (the absolute one, of
    underflow, is far smaller than stated). *)
Definition eps : Q := 1 # 9007199254740992.
Definition tiny : Q := 1 # 1267650600228229401496703205376.

(** [y] is what [0 <= x] may round to. *)
Definition near (x y : Q) : Prop := 0 <= y /\ x - x * eps - tiny <= y /\ y <= x + x * eps + tiny.

Definition big : Q := 1606938044258990275541962092341162602522202993782792835301376.  (* 2^200 *)

Lemma tiny_ge : two_to (-1075) <= tiny.
Proof. apply Qle_bool_iff. vm_compute. reflexivity. Qed.

Lemma big_lt : big + big * eps + tiny < two_to 1024.
Proof. apply Qnot_le_lt. intros H%Qle_bool_iff. revert H. vm_compute. discriminate. Qed.

Lemma rabs_nonneg q : 0 < q -> 0 <= rabs q.
Proof.
  intros Hq. unfold rabs. rewrite Qred_correct. apply Qmult_le_0_compat; [|apply Qlt_le_weak, two_to_pos].
  change 0 with (inject_Z 0). rewrite <- Zle_Qle.
  destruct (nearest_even_err (q * two_to (- ulp q))) as [_ H].
  pose proof (Qmult_lt_0_compat _ _ Hq (two_to_pos (- ulp q))) as Hp.
  assert (inject_Z (-1) < inject_Z (nearest_even (q * two_to (- ulp q)))) as Hl.
  { change (inject_Z (-1)) with (-1#1). lra. }
  rewrite <- Zlt_Qlt in Hl. lia.
Qed.

Lemma rabs_near q : 0 < q -> near q (rabs q).
Proof.
  intros Hq. destruct (rabs_err q Hq) as [H1 H2]. pose proof tiny_ge.
  assert (two_to (-53) == eps) as E by reflexivity. rewrite E in *.
  split; [by apply rabs_nonneg|]. split; lra.
Qed.

(** A nonnegative number in range rounds to a finite nonnegative one, and its
    opposite to the opposite. *)
Lemma rnd_near q : 0 <= q -> q <= big -> exists r, rnd q = F r /\ near q r.
Proof.
  intros Hq Hb. unfold rnd. destruct (Qcompare_spec q 0) as [E|E|E]; [|lra|].
  - exists 0. split; [done|]. unfold near. rewrite E. unfold tiny. lra.
  - pose proof (rabs_near q E) as Hn. destruct (Qle_bool (two_to 1024) (rabs q)) eqn:Eo.
    + exfalso. apply Qle_bool_iff in Eo. pose proof big_lt as Hbig. destruct Hn as (_ & _ & Hn).
      unfold eps, tiny in *. lra.
    + by exists (rabs q).
Qed.

Lemma rnd_near_opp q x : 0 <= q -> q <= big -> x == - q -> exists r, rnd x = F r /\ near q (- r).
Proof.
  intros Hq Hb Hx. unfold rnd. destruct (Qcompare_spec x 0) as [E|E|E]; [| |lra].
  - exists 0. split; [done|]. unfold near, tiny, eps. repeat split; lra.
  - pose proof (rabs_near (- x) ltac:(lra)) as Hn. destruct (Qle_bool (two_to 1024) (rabs (- x))) eqn:Eo.
    + exfalso. apply Qle_bool_iff in Eo. pose proof big_lt as Hbig. destruct Hn as (_ & _ & Hn).
      unfold eps, tiny in *. lra.
    + exists (Qred (- rabs (- x))). split; [done|]. unfold near in *. rewrite Qred_correct.
      unfold eps, tiny in *. repeat split; lra.
Qed.

(** Integers of up to 53 bits are represented exactly. *)
Lemma rabs_exact z : (0 < z <= 2 ^ 53)%Z -> rabs (inject_Z z) = inject_Z z.
Proof.
  intros Hz. unfold rabs. set (q := inject_Z z).
  assert (0 < q) as Hq by (unfold q, Qlt; cbn; lia).
  assert (ulp q <= 1)%Z as Hu.
  { pose proof (exponent_le q Hq) as He. unfold ulp.
    destruct (Z.le_gt_cases (exponent q) 53); [lia|]. exfalso.
    assert (two_to 54 <= q) as H1 by (eapply Qle_trans; [|exact He]; apply two_to_le; lia).
    rewrite two_to_Z in H1 by lia. unfold q in H1. rewrite <- Zle_Qle in H1. lia. }
  assert (exists w, q * two_to (- ulp q) == inject_Z w) as [w Hw].
  { destruct (Z.eq_dec (ulp q) 1%Z) as [E|E].
    - assert (z = 2 ^ 53)%Z as ->.
      { unfold ulp in E. assert (exponent q = 53)%Z as E2 by lia. pose proof (exponent_le q Hq) as He.
        rewrite E2, two_to_Z in He by lia. unfold q in He. rewrite <- Zle_Qle in He. lia. }
      rewrite E. exists (2 ^ 52)%Z. reflexivity.
    - exists (z * 2 ^ (- ulp q))%Z. rewrite two_to_Z by lia. unfold q. by rewrite <- inject_Z_mult. }
  rewrite (nearest_even_comp _ _ Hw), nearest_even_Z.
  assert (inject_Z w * two_to (ulp q) == q) as E.
  { rewrite <- Hw, <- Qmult_assoc, two_to_inv. ring. }
  rewrite (Qred_complete _ _ E). unfold q. apply Qred_iff. cbn. apply Z.gcd_1_r.
Qed.

Lemma of_int_exact z : (0 <= z <= 2 ^ 53)%Z -> of_int z = F (inject_Z z).
Proof.
  intros Hz. unfold of_int, rnd. destruct (Qcompare_spec (inject_Z z) 0) as [E|E|E].
  - unfold Qeq in E. cbn in E. assert (z = 0)%Z as -> by lia. done.
  - unfold Qlt in E. cbn in E. lia.
  - assert (0 < z)%Z by (unfold Qlt in E; cbn in E; lia). rewrite rabs_exact by lia.
    destruct (Qle_bool _ _) eqn:Eo; [|done]. exfalso. apply Qle_bool_iff in Eo.
    rewrite two_to_Z in Eo by lia. rewrite <- Zle_Qle in Eo. lia.
Qed.

(** [Seconds] of a nonnegative duration: three roundings. *)
Lemma Seconds_near d :
  (0 <= d <= 2 ^ 62)%Z ->
  exists s, Seconds d = F s /\ 0 <= s /\
    let x := inject_Z d * (1 # 1000000000) in x - 3 * x * eps - 3 * tiny <= s <= x + 3 * x * eps + 3 * tiny.
Proof.
  intros Hd. unfold Seconds.
  assert (0 <= Z.quot d Second <= 2 ^ 53)%Z as Hs by (unfold Second; rewrite Z.quot_div_nonneg by lia; lia).
  assert (0 <= Z.rem d Second < Second)%Z as Hr by (apply Z.rem_bound_pos; unfold Second; lia).
  rewrite !of_int_exact by (unfold Second in *; lia).
  pose proof (Z.quot_rem d Second ltac:(done)) as Hdm.
  set (s := Z.quot d Second) in *. set (r := Z.rem d Second) in *.
  assert (inject_Z d * (1 # 1000000000) == inject_Z s + inject_Z r * (1 # 1000000000)) as Hx.
  { rewrite Hdm, inject_Z_plus, inject_Z_mult. change (inject_Z Second) with (1000000000 # 1). ring. }
  assert (0 <= inject_Z r <= 1000000000) as Hrq by (change 0 with (inject_Z 0);
    change 1000000000 with (inject_Z Second); rewrite <- !Zle_Qle; lia).
  assert (0 <= inject_Z s <= 9007199254740992) as Hsq by (change 0 with (inject_Z 0);
    change 9007199254740992 with (inject_Z (2 ^ 53)); rewrite <- !Zle_Qle; lia).
  cbn [fdiv]. change (Qeq_bool (inject_Z Second) 0) with false. cbv iota.
  assert (inject_Z r / inject_Z Second == inject_Z r * (1 # 1000000000)) as Hdiv by reflexivity.
  destruct (rnd_near (inject_Z r / inject_Z Second)) as (t & -> & Ht0 & Ht1 & Ht2).
  { rewrite Hdiv. lra. }
  { rewrite Hdiv. unfold big. lra. }
  rewrite Hdiv in *. cbn [fadd]. unfold eps, tiny in *.
  destruct (rnd_near (inject_Z s + t)) as (v & -> & Hv0 & Hv1 & Hv2).
  { lra. }
  { unfold big. lra. }
  exists v. unfold eps, tiny in *. cbv zeta. rewrite Hx. split; [done|]. lra.
Qed.

(** The same without the absolute term: a nonzero duration is at least a nanosecond. *)
Lemma Seconds_rel d :
  (0 <= d <= 2 ^ 62)%Z ->
  exists s, Seconds d = F s /\ 0 <= s /\
    let x := inject_Z d * (1 # 1000000000) in x - 4 * x * eps <= s <= x + 4 * x * eps.
Proof.
  intros Hd. destruct (Z.eq_dec d 0%Z) as [->|Hne]; [exists 0; split; [reflexivity|]; unfold eps; split; [lra|]; cbv zeta;
    change (inject_Z 0) with 0; lra|].
  destruct (Seconds_near d Hd) as (s & -> & Hs). exists s. split; [done|].
  assert (inject_Z 1 <= inject_Z d) as H1 by (rewrite <- Zle_Qle; lia). change (inject_Z 1) with 1 in H1.
  unfold eps, tiny in *. cbv zeta in *. lra.
Qed.

(** The error of rounding a number of either sign and of size at most [X]. *)
Lemma rnd_close x X :
  - X <= x <= X -> X <= big -> exists r, rnd x = F r /\ x - X * eps - tiny <= r <= x + X * eps + tiny.
Proof.
  intros Hx HX. unfold big, eps, tiny in *.
  destruct (Qlt_le_dec x 0) as [H|H].
  - destruct (rnd_near_opp (- x) x) as (r & -> & H0 & H1 & H2); [lra|unfold big; lra|ring|].
    exists r. unfold eps, tiny in *. split; [done|]. lra.
  - destruct (rnd_near x) as (r & -> & H0 & H1 & H2); [lra|unfold big; lra|].
    exists r. unfold eps, tiny in *. split; [done|]. lra.
Qed.

Lemma rnd_within x X :
  - X <= x <= X -> X <= big -> exists r, rnd x = F r /\ - (X + X * eps + tiny) <= r <= X + X * eps + tiny.
Proof. intros Hx HX. destruct (rnd_close x X Hx HX) as (r & -> & Hr). exists r. split; [done|]. lra. Qed.

(** Conversion to an integer drops the fraction. *)
Lemma truncate_bounds q : 0 <= q -> inject_Z (truncate q) <= q /\ q - 1 <= inject_Z (truncate q).
Proof.
  intros Hq. assert (truncate q = Qfloor q) as ->.
  { unfold truncate, Qfloor. destruct q as [n d]. cbn [Qnum Qden]. unfold Qle in Hq. cbn in Hq.
    apply Z.quot_div_nonneg; lia. }
  pose proof (Qfloor_le q). pose proof (Qlt_floor q) as H1. rewrite inject_Z_plus in H1. change (inject_Z 1) with 1 in H1. lra.
Qed.

Lemma to_int_bounds q :
  0 <= q <= inject_Z (2 ^ 62) ->
  (0 <= to_int (F q))%Z /\ inject_Z (to_int (F q)) <= q /\ q - 1 <= inject_Z (to_int (F q)).
Proof.
  intros Hq. pose proof (truncate_bounds q ltac:(lra)) as Ht. cbn [to_int].
  assert (0 <= truncate q)%Z as H0.
  { unfold truncate. apply Z.quot_pos; [|lia]. destruct Hq as [Hq _]. unfold Qle in Hq. cbn in Hq. lia. }
  assert (in_int64 (truncate q) = true) as ->; [|done].
  assert (-1 <= truncate q <= 2 ^ 62)%Z; [|unfold in_int64; lia].
  split; rewrite Zle_Qle; [change (inject_Z (-1)) with (-1 # 1)|]; lra.
Qed.
