(* ===== verification/Backoff.v ===== *)
(** * Exponential back-off (backoff/backoff.go)

    [ComputeWith] in the arithmetic of [Float64], operation by operation.  The
    two random draws are arguments: [coin] is [rand.Intn(2)] and [u] is
    [rand.Float64()].  [backoff_bounds] brackets the delay for every draw. *)

From S2P Require Import Prelude Float64.

Local Open Scope Q_scope.

Definition DefaultBase : Z := (1 * Second)%Z.
Definition DefaultMax : Z := (60 * Second)%Z.
Definition DefaultJitter : float64 := rnd (20 # 100).

(** [math.Pow(2, e)] for an integral [e]: exact. *)
Definition Pow2 (e : float64) : float64 :=
  match e with
  | F q => F (Qred (two_to (Qfloor q)))
  | Infinity false => Infinity false
  | Infinity true => F 0
  | NaN => NaN
  end.

Definition ComputeWith (attempt base max : Z) (jitterFraction : float64) (coin : Z) (u : float64) : Z :=
  let attempt := if (attempt <? 1)%Z then 1%Z else attempt in
  let exp := of_int (attempt - 1) in
  let exp := if flt (F 62) exp then F 62 else exp in
  let delay := fmin (fmul (Seconds base) (Pow2 exp)) (Seconds max) in
  let sign := if (coin =? 0)%Z then F (-1 # 1) else F 1 in
  let jitter := fmul (fmul (fmul sign jitterFraction) u) delay in
  let total := fadd delay jitter in
  let total := if flt total (F 0) then F 0 else total in
  to_int (fmul total (of_int Second)).

Definition Compute_delay (attempt : Z) (coin : Z) (u : float64) : Z :=
  ComputeWith attempt DefaultBase DefaultMax DefaultJitter coin u.

Definition half : float64 := F (1 # 2).

Example compute_samples :
  map (fun n => Compute_delay n 1 (F 0)) [0; 1; 2; 3; 6; 7; 100]%Z
  = map (fun s => s * Second)%Z [1; 1; 2; 4; 32; 60; 60]%Z /\
  Compute_delay 3 0 half = 3600000000%Z /\ Compute_delay 3 1 half = 4400000000%Z.
Proof. vm_compute. done. Qed.

(** ** The exponent *)

(** The doublings of an attempt. *)
Definition doublings (attempt : Z) : Z := Z.min (Z.max attempt 1 - 1) 62.

Lemma inject_Z_le a b : inject_Z a <= inject_Z b <-> (a <= b)%Z.
Proof. by rewrite Zle_Qle. Qed.

Lemma of_int_big z : (62 < z < 2 ^ 63)%Z -> flt (F 62) (of_int z) = true.
Proof.
  intros Hz. unfold of_int. destruct (rnd_near (inject_Z z)) as (r & -> & _ & Hr & _).
  { apply (inject_Z_le 0). lia. }
  { change big with (inject_Z (2 ^ 200)). apply inject_Z_le. lia. }
  assert (inject_Z 63 <= inject_Z z) as H1 by (apply inject_Z_le; lia). change (inject_Z 63) with (63#1) in H1.
  cbn [flt]. apply negb_true_iff, not_true_iff_false. rewrite Qle_bool_iff. unfold eps, tiny in *. lra.
Qed.

Lemma exponent_value attempt :
  in_int64 attempt = true ->
  Pow2 (let e := of_int ((if (attempt <? 1)%Z then 1 else attempt) - 1) in if flt (F 62) e then F 62 else e)
  = F (Qred (inject_Z (2 ^ doublings attempt))).
Proof.
  intros Ha. set (z := ((if (attempt <? 1)%Z then 1 else attempt) - 1)%Z).
  assert (z = Z.max attempt 1 - 1)%Z as Hz by (unfold z; destruct (Z.ltb_spec attempt 1); lia).
  unfold doublings. rewrite <- Hz. cbv zeta. unfold in_int64 in Ha.
  destruct (Z.le_gt_cases z 62).
  - rewrite Z.min_l by lia. rewrite of_int_exact by lia.
    assert (flt (F 62) (F (inject_Z z)) = false) as ->.
    { cbn [flt]. apply negb_false_iff, Qle_bool_iff. change 62 with (inject_Z 62). apply inject_Z_le. lia. }
    cbn [Pow2]. rewrite Qfloor_Z. f_equal. apply Qred_complete, two_to_Z. lia.
  - rewrite Z.min_r by lia. rewrite of_int_big by lia. done.
Qed.

(** ** The bracket *)

(** The undisturbed delay. *)
Definition nominal (attempt base max : Z) : Z := Z.min (base * 2 ^ doublings attempt) max.

Definition ns (z : Z) : Q := inject_Z z * (1 # 1000000000).

(** A few roundings of [x]. *)
Definition close (x s : Q) : Prop := 0 <= s /\ x - 6 * x * eps - tiny <= s <= x + 6 * x * eps + tiny.

Lemma ns_le a b : (a <= b)%Z -> ns a <= ns b.
Proof. intros H. unfold ns. apply Qmult_le_compat_r; [by apply inject_Z_le|done]. Qed.

Lemma ns_range z : (0 <= z <= 2 ^ 45)%Z -> 0 <= ns z <= 35184372088832 # 1000000000.
Proof.
  intros [H1%ns_le H2%ns_le]. change (ns 0) with (0 # 1000000000) in H1.
  change (ns (2 ^ 45)) with (35184372088832 # 1000000000) in H2. lra.
Qed.

(** The exact doubling of a delay. *)
Lemma doubled_close k base :
  (0 <= k <= 62)%Z -> (0 <= base <= 2 ^ 45)%Z ->
  exists s, fmul (Seconds base) (F (Qred (inject_Z (2 ^ k)))) = F s /\ close (ns (base * 2 ^ k)) s.
Proof.
  intros Hk Hb. destruct (Seconds_rel base ltac:(lia)) as (b & -> & Hb0 & Hb1 & Hb2). fold (ns base) in *.
  pose proof (ns_range base Hb) as Hbq. set (p := Qred (inject_Z (2 ^ k))).
  assert (1 <= p <= 4611686018427387904) as Hp.
  { unfold p. rewrite Qred_correct. change 1 with (inject_Z 1). change 4611686018427387904 with (inject_Z (2 ^ 62)).
    rewrite !inject_Z_le. split; [apply (Z.pow_le_mono_r 2 0 k); lia|apply Z.pow_le_mono_r; lia]. }
  assert (ns (base * 2 ^ k) == ns base * p) as Hx.
  { unfold ns, p. rewrite Qred_correct, inject_Z_mult. ring. }
  cbn [fmul]. unfold close, eps, tiny in *. set (B := ns base) in *. set (X := ns (base * 2 ^ k)) in *. clearbody X B p.
  assert (0 <= b * p /\ B * p - (4 # 9007199254740992) * (B * p) <= b * p <= B * p + (4 # 9007199254740992) * (B * p) /\
          0 <= B * p <= 35184372088832 * 4611686018427387904) as (H0 & H1 & H2) by (repeat split; nra).
  destruct (rnd_near (b * p) H0) as (v & -> & Hv0 & Hv1 & Hv2).
  { unfold big. lra. }
  exists v. split; [done|]. unfold eps, tiny in *. lra.
Qed.

(** The delay before jitter, in seconds. *)
Lemma delay_close attempt base max :
  in_int64 attempt = true -> (0 <= base <= 2 ^ 45)%Z -> (0 <= max <= 2 ^ 45)%Z ->
  let e := of_int ((if (attempt <? 1)%Z then 1 else attempt) - 1) in
  exists s, fmin (fmul (Seconds base) (Pow2 (if flt (F 62) e then F 62 else e))) (Seconds max) = F s /\
    close (ns (nominal attempt base max)) s.
Proof.
  intros Ha Hb Hm. pose proof (exponent_value attempt Ha) as E. cbv zeta in *. rewrite E. clear E.
  unfold nominal. set (k := doublings attempt). assert (0 <= k <= 62)%Z as Hk by (unfold k, doublings; lia).
  destruct (doubled_close k base Hk Hb) as (b & -> & Hb0 & Hb1 & Hb2).
  destruct (Seconds_rel max ltac:(lia)) as (m & -> & Hm0 & Hm1 & Hm2). fold (ns max) in *.
  pose proof (ns_range max Hm) as Hmq. unfold close, eps, tiny in *.
  assert (Z.min (base * 2 ^ k) max = (base * 2 ^ k)%Z /\ ns (base * 2 ^ k) <= ns max \/
          Z.min (base * 2 ^ k) max = max /\ ns max <= ns (base * 2 ^ k)) as Hn.
  { destruct (Z.le_ge_cases (base * 2 ^ k) max); [left|right];
      [rewrite Z.min_l by done|rewrite Z.min_r by done]; split; auto using ns_le. }
  cbn [fmin flt]. destruct (Qle_bool m b) eqn:E.
  - exists m. split; [done|]. apply Qle_bool_iff in E. destruct Hn as [[-> Hn]|[-> Hn]]; lra.
  - exists b. split; [done|]. assert (b < m) by (apply Qnot_le_lt; rewrite <- Qle_bool_iff; congruence).
    destruct Hn as [[-> Hn]|[-> Hn]]; lra.
Qed.

(** ** Jitter *)

(** The jitter for either coin: at most the fraction of the delay, in size. *)
Lemma jitter_close coin j u s :
  0 <= j <= 1 -> 0 <= u <= 1 -> 0 <= s <= 100000 ->
  exists t, fmul (fmul (fmul (if (coin =? 0)%Z then F (-1 # 1) else F 1) (F j)) (F u)) (F s) = F t /\
    - (j * s) - 4 * s * eps - 4 * s * tiny - tiny <= t <= j * s + 4 * s * eps + 4 * s * tiny + tiny.
Proof.
  intros Hj Hu Hs.
  assert (exists a, fmul (if (coin =? 0)%Z then F (-1 # 1) else F 1) (F j) = F a /\
    - (j + j * eps + tiny) <= a <= j + j * eps + tiny) as (a & -> & Ha).
  { destruct (coin =? 0)%Z; cbn [fmul]; apply rnd_within; unfold big; lra. }
  cbn [fmul]. unfold eps, tiny in *.
  destruct (rnd_within (a * u) (j + j * eps + tiny)) as (b & -> & Hb); unfold eps, tiny, big in *; [nra|lra|].
  cbn [fmul]. set (B := j + j * (1 # 9007199254740992) + (1 # 1267650600228229401496703205376)) in *.
  destruct (rnd_within (b * s) ((B + B * eps + tiny) * s)) as (t & -> & Ht); unfold eps, tiny, big, B in *; [nra|nra|].
  exists t. split; [done|]. nra.
Qed.

(** From the delay and the jitter to nanoseconds. *)
Lemma total_bounds s t j X :
  0 <= j <= 1 -> 0 <= X <= 35185 -> close X s ->
  - (j * s) - 4 * s * eps - 4 * s * tiny - tiny <= t <= j * s + 4 * s * eps + 4 * s * tiny + tiny ->
  let total := fadd (F s) (F t) in
  let r := to_int (fmul (if flt total (F 0) then F 0 else total) (of_int Second)) in
  (0 <= r)%Z /\ (X - j * X) * 1000000000 - 2 <= inject_Z r <= (X + j * X) * 1000000000 + 1.
Proof.
  intros Hj HX (Hs0 & Hs) Ht. unfold eps, tiny in *. cbv zeta. cbn [fadd].
  assert (0 <= j * s <= s /\ j * X - (7 # 9007199254740992) * X - (1 # 1267650600228229401496703205376) <= j * s <=
    j * X + (7 # 9007199254740992) * X + (1 # 1267650600228229401496703205376) /\ 0 <= j * X <= X) as (J1 & J2 & J3)
    by (repeat split; nra).
  destruct (rnd_close (s + t) 80000) as (v & -> & Hv); unfold big; [lra..|]. unfold eps, tiny in *.
  assert (exists w, (if flt (F v) (F 0) then F 0 else F v) = F w /\ 0 <= w /\
    X - j * X - (1 # 10000000000) <= w <= X + j * X + (1 # 10000000000)) as (w & -> & Hw0 & Hw).
  { cbn [flt]. destruct (Qle_bool 0 v) eqn:E; cbn [negb].
    - exists v. apply Qle_bool_iff in E. split; [done|]. lra.
    - exists 0. split; [done|]. assert (v < 0) by (apply Qnot_le_lt; rewrite <- Qle_bool_iff; congruence). lra. }
  rewrite of_int_exact by (unfold Second; lia). cbn [fmul]. change (inject_Z Second) with 1000000000.
  destruct (rnd_near (w * 1000000000)) as (x & -> & Hx0 & Hx); unfold big; [lra..|]. unfold eps, tiny in *.
  destruct (to_int_bounds x) as (T0 & T1 & T2); [change (inject_Z (2 ^ 62)) with 4611686018427387904; lra|].
  split; [done|]. lra.
Qed.

(** The bracket, for use by the callers. *)
Lemma ComputeWith_bounds attempt base max j coin u :
  in_int64 attempt = true -> (0 <= base <= 2 ^ 45)%Z -> (0 <= max <= 2 ^ 45)%Z ->
  0 <= j <= 1 -> 0 <= u <= 1 ->
  let d := inject_Z (nominal attempt base max) in
  let r := ComputeWith attempt base max (F j) coin (F u) in
  (0 <= r)%Z /\ d - j * d - 2 <= inject_Z r <= d + j * d + 1.
Proof.
  intros Ha Hb Hm Hj Hu. cbv zeta. unfold ComputeWith.
  destruct (delay_close attempt base max Ha Hb Hm) as (s & E & Hs). cbv zeta in *. rewrite E.
  assert (0 <= ns (nominal attempt base max) <= 35185) as Hn.
  { assert (0 <= nominal attempt base max <= 2 ^ 45)%Z as H1%ns_range by (unfold nominal; nia). lra. }
  assert (0 <= s <= 100000) as Hs1 by (unfold close, eps, tiny in Hs; lra).
  destruct (jitter_close coin j u s Hj Hu Hs1) as (t & -> & Ht).
  pose proof (total_bounds s t j (ns (nominal attempt base max)) Hj Hn Hs Ht) as [R0 R]. cbv zeta in *.
  set (r := to_int _) in *. assert (ns (nominal attempt base max) * 1000000000 == inject_Z (nominal attempt base max)) as En.
  { unfold ns. ring. }
  split; [done|]. nra.
Qed.

(** For any attempt, any base and maximum of up to 2^45 ns (nine hours), any jitter fraction up to one
    and whatever the random draws, the delay is never negative and lies, up to two nanoseconds of
    rounding, within the given fraction of the nominal one, min(base * 2^(attempt-1), max). *)
Theorem backoff_bounds attempt base max j coin u :
  in_int64 attempt = true -> (0 <= base <= 2 ^ 45)%Z -> (0 <= max <= 2 ^ 45)%Z ->
  0 <= j <= 1 -> 0 <= u <= 1 ->
  let d := inject_Z (nominal attempt base max) in
  let r := ComputeWith attempt base max (F j) coin (F u) in
  (0 <= r)%Z /\ d - j * d - 2 <= inject_Z r <= d + j * d + 1.
Proof. apply ComputeWith_bounds. Qed.


Lemma backoff_bounds_witness :
  let r := ComputeWith 3 DefaultBase DefaultMax (F (1 # 5)) 1 (F (1 # 2)) in
  (0 <= r)%Z /\ inject_Z r <= 4000000000 + (1 # 5) * 4000000000 + 1.
Proof.
  pose proof (backoff_bounds 3 DefaultBase DefaultMax (1 # 5) 1 (1 # 2)) as H.
  split; [apply H; (reflexivity || (unfold DefaultBase, DefaultMax, Second; lia) || lra)|].
  apply H; (reflexivity || (unfold DefaultBase, DefaultMax, Second; lia) || lra).
Defined.

(** [Compute]: at most a fifth above the nominal delay. *)
Lemma Compute_bounds attempt coin u :
  in_int64 attempt = true -> 0 <= u <= 1 ->
  (0 <= Compute_delay attempt coin (F u))%Z /\
  (5 * Compute_delay attempt coin (F u) <= 6 * nominal attempt DefaultBase DefaultMax + 10)%Z.
Proof.
  intros Ha Hu. unfold Compute_delay. change DefaultJitter with (F (3602879701896397 # 18014398509481984)).
  destruct (ComputeWith_bounds attempt DefaultBase DefaultMax (3602879701896397 # 18014398509481984) coin u)
    as [H0 [_ H1]]; [done|unfold DefaultBase, Second; lia|unfold DefaultMax, Second; lia|lra|done|].
  split; [done|]. rewrite Zle_Qle, inject_Z_plus, !inject_Z_mult. change (inject_Z 10) with 10.
  change (inject_Z 5) with 5. change (inject_Z 6) with 6.
  assert (inject_Z (nominal attempt DefaultBase DefaultMax) <= 60000000000) as Hn.
  { change 60000000000 with (inject_Z DefaultMax). rewrite <- Zle_Qle. unfold nominal. lia. }
  lra.
Qed.

(** The jitter is added after the cap: the delay can exceed [DefaultMax]. *)
Lemma delay_exceeds_cap : (DefaultMax < Compute_delay 7 1 half)%Z /\ Compute_delay 7 1 half = 66000000000%Z.
Proof. vm_compute. done. Qed.
