(* ===== verification/TokenBucket.v ===== *)
(** * Token-bucket limiter (ratelimit/limiter.go, ratelimit/registry.go)

    Buckets in the arithmetic of [Float64], the limiter and the generic registry
    as maps of buckets, the HTTP middleware as the response it gives.  Clock
    readings (nanoseconds) are arguments: [newBucket] and [Allow] each make one.
    [bucket_rate_bound] bounds what a bucket permits over any period, rounding
    included; [limiter_isolates_keys] reduces a limiter to its buckets. *)

From S2P Require Import Prelude GoString Float64.

Local Open Scope Q_scope.

Definition defaultPerMin : Z := 10.
Definition Minute : Z := (60 * Second)%Z.

Record bucket := {
  tokens : float64;
  maxTokens : float64;
  refillRate : float64;
  lastRefill : Z
}.

Definition newBucket (perMin now : Z) : bucket :=
  let max := of_int perMin in
  let rate := fdiv max (of_int Minute) in
  {| tokens := max; maxTokens := max; refillRate := rate; lastRefill := now |}.

(** The refill at the start of [Allow]. *)
Definition refill (b : bucket) (now : Z) : float64 :=
  let elapsed := (now - lastRefill b)%Z in
  let t := fadd (tokens b) (fmul (fmul (Seconds elapsed) (refillRate b)) (of_int Second)) in
  if flt (maxTokens b) t then maxTokens b else t.

Definition with_tokens (b : bucket) (t : float64) (now : Z) : bucket :=
  {| tokens := t; maxTokens := maxTokens b; refillRate := refillRate b; lastRefill := now |}.

Definition bucket_Allow (b : bucket) (now : Z) : bool * Z * bucket :=
  let t := refill b now in
  if fle (F 1) t then (true, 0%Z, with_tokens b (fsub t (F 1)) now)
  else
    let needed := fsub (F 1) t in
    let waitNs := to_int (fmul (fdiv needed (fmul (refillRate b) (of_int Second))) (of_int Second)) in
    let waitNs := if (waitNs <? Second)%Z then Second else waitNs in
    (false, waitNs, with_tokens b t now).

(** ** Limiters: one bucket per key *)

Section Registry.
Context {K : Type} `{Countable K}.

Record Registry := { perMin : Z; buckets : gmap K bucket }.

Definition NewRegistry (perMin : Z) : Registry := {| perMin := perMin; buckets := ∅ |}.

(** [created] is the clock when the bucket is made, [now] when it is asked. *)
Definition KeyRegistry_Allow (r : Registry) (key : K) (created now : Z) : bool * Z * Registry :=
  let b := match buckets r !! key with
           | Some b => b
           | None => newBucket (perMin r) created
           end in
  let '(ok, retry, b) := bucket_Allow b now in
  (ok, retry, {| perMin := perMin r; buckets := <[key := b]> (buckets r) |}).

Definition KeyRegistry_Len (r : Registry) : Z := Z.of_nat (size (buckets r)).

End Registry.

Arguments Registry K {_ _}.

(** [Limiter] is the registry keyed by ICCID. *)
Local Abbreviation Limiter := (Registry string).

Definition Limiter_New (perMin : Z) : Limiter := NewRegistry perMin.

Definition Limiter_Allow (l : Limiter) (iccid : string) (created now : Z) : bool * Z * Limiter :=
  let b := match buckets l !! iccid with
           | Some b => b
           | None => newBucket (perMin l) created
           end in
  let '(ok, retry, b) := bucket_Allow b now in
  (ok, retry, {| perMin := perMin l; buckets := <[iccid := b]> (buckets l) |}).

(** [FromEnv] with the value of RATE_LIMIT_PER_ICCID (empty when unset). *)
Definition Limiter_FromEnv (env : string) : option Limiter :=
  let perMin :=
    if String.eqb env "" then defaultPerMin
    else match Atoi env with
         | Some n => if (0 <=? n)%Z then n else defaultPerMin
         | None => defaultPerMin
         end in
  if (perMin =? 0)%Z then None else Some (Limiter_New perMin).

(** What the middleware does with a request: pass it to the next handler, or
    answer 429 with a Retry-After header. *)
Inductive handled := Next | TooManyRequests (retryAfter : string).

Definition Middleware (l : Limiter) (xICCID : string) (created now : Z) : handled * Limiter :=
  if String.eqb xICCID "" then (Next, l)
  else
    let '(ok, retryAfter, l) := Limiter_Allow l xICCID created now in
    if ok then (Next, l)
    else
      let secs := to_int (Seconds retryAfter) in
      let secs := if (secs <? 1)%Z then 1%Z else secs in
      (TooManyRequests (itoa secs), l).

(** ** Runs *)

Fixpoint bucket_run (b : bucket) (ts : list Z) : list bool * bucket :=
  match ts with
  | [] => ([], b)
  | t :: ts =>
    let '(ok, _, b) := bucket_Allow b t in
    let '(oks, b) := bucket_run b ts in (ok :: oks, b)
  end.

Fixpoint granted (oks : list bool) : Z :=
  match oks with
  | [] => 0
  | ok :: oks => (if ok : bool then 1 else 0) + granted oks
  end.

Definition secs (n : Z) : Z := (n * Second)%Z.

Example bucket_sample :
  (bucket_run (newBucket 2 0) [0; 1; 2; secs 30; secs 31; secs 200; secs 200; secs 200]%Z).1
  = [true; true; false; true; false; true; true; false].
Proof. vm_compute. reflexivity. Qed.

(** ** One refill *)

Definition in_range (p : Z) : Prop := (1 <= p <= 2 ^ 30)%Z.
Definition rate_of (p : Z) : float64 := fdiv (of_int p) (of_int Minute).

Lemma in_range_Q p : in_range p -> 1 <= inject_Z p <= 1073741824.
Proof.
  intros [H1 H2]. rewrite Zle_Qle in H1, H2. change (inject_Z 1) with 1 in H1.
  change (inject_Z (2 ^ 30)) with 1073741824 in H2. lra.
Qed.

Lemma rate_near p :
  in_range p -> exists r, rate_of p = F r /\
    let x := inject_Z p * (1 # 60000000000) in x - 2 * x * eps <= r <= x + 2 * x * eps.
Proof.
  intros Hp. pose proof (in_range_Q p Hp) as Hq. unfold rate_of, in_range in *.
  rewrite !of_int_exact by (unfold Minute, Second; lia). cbn [fdiv].
  change (Qeq_bool (inject_Z Minute) 0) with false. cbv iota.
  assert (inject_Z p / inject_Z Minute == inject_Z p * (1 # 60000000000)) as E by reflexivity.
  destruct (rnd_near (inject_Z p / inject_Z Minute)) as (r & -> & H0 & H1); [rewrite E; lra|rewrite E; unfold big; lra|].
  exists r. rewrite E in H1. unfold eps, tiny in *. cbv zeta. split; [done|]. lra.
Qed.

(** Products of two approximations. *)
Lemma mul_close x y S R a b :
  0 <= x -> 0 <= y -> 0 <= a <= 1 -> 0 <= b <= 1 ->
  x - a * x <= S <= x + a * x -> y - b * y <= R <= y + b * y ->
  x * y - (a + b) * (x * y) <= S * R <= x * y + (a + b + a * b) * (x * y).
Proof.
  intros Hx Hy Ha Hb HS HR.
  assert (0 <= S) by nra. assert (0 <= R) by nra. assert (0 <= x * y) by nra. split.
  - apply Qle_trans with ((x - a * x) * (y - b * y)).
    + assert (0 <= a * b * (x * y)) by nra. nra.
    + apply Qle_trans with (S * (y - b * y)); [apply Qmult_le_compat_r; nra|].
      setoid_replace (S * (y - b * y)) with ((y - b * y) * S) using relation Qeq by ring.
      setoid_replace (S * R) with (R * S) using relation Qeq by ring. apply Qmult_le_compat_r; lra.
  - apply Qle_trans with ((x + a * x) * (y + b * y)); [|nra].
    apply Qle_trans with (S * (y + b * y)); [|apply Qmult_le_compat_r; nra].
    setoid_replace (S * (y + b * y)) with ((y + b * y) * S) using relation Qeq by ring.
    setoid_replace (S * R) with (R * S) using relation Qeq by ring. apply Qmult_le_compat_r; lra.
Qed.

(** The exact refill of [e] nanoseconds. *)
Definition earned (p e : Z) : Q := inject_Z e * (1 # 1000000000) * (inject_Z p * (1 # 60)).

Definition dust : Q := 1 # 1152921504606846976.  (* 2^-60 *)

Lemma refill_amount p e :
  in_range p -> (0 <= e <= 2 ^ 62)%Z ->
  exists g, fmul (fmul (Seconds e) (rate_of p)) (of_int Second) = F g /\ 0 <= g /\ 0 <= earned p e /\
    earned p e - 16 * earned p e * eps - dust <= g <= earned p e + 16 * earned p e * eps + dust.
Proof.
  intros Hp He. pose proof (in_range_Q p Hp) as Hq.
  destruct (Seconds_rel e He) as (S & -> & HS0 & HS). destruct (rate_near p Hp) as (R & -> & HR). cbv zeta in *.
  unfold earned. set (x := inject_Z e * (1 # 1000000000)) in *. set (y := inject_Z p * (1 # 60000000000)) in *.
  assert (0 <= x <= 4611686019) as Hx.
  { rewrite Zle_Qle, (Zle_Qle e) in He. change (inject_Z 0) with 0 in He.
    change (inject_Z (2 ^ 62)) with 4611686018427387904 in He. unfold x. lra. }
  assert (0 <= y <= 1) as Hy by (unfold y; lra).
  assert (x * (inject_Z p * (1 # 60)) == x * y * 1000000000) as E by (unfold y; ring).
  assert (x * y - (6 # 9007199254740992) * (x * y) <= S * R <= x * y + (7 # 9007199254740992) * (x * y)) as HSR.
  { pose proof (mul_close x y S R (4 * eps) (2 * eps)) as M. unfold eps in *. clearbody x y.
    assert (0 <= x * y) by nra.
    destruct M as [M1 M2]; [lra..|]. split; lra. }
  assert (0 <= x * y <= 4611686019) as Hxy by (clearbody x y; split; nra).
  clearbody x y. cbn [fmul]. unfold eps, dust in *.
  destruct (rnd_near (S * R)) as (v & -> & Hv0 & Hv); unfold big; [lra..|]. unfold eps, tiny in *.
  rewrite of_int_exact by (unfold Second; lia). cbn [fmul]. change (inject_Z Second) with 1000000000.
  destruct (rnd_near (v * 1000000000)) as (g & -> & Hg0 & Hg); unfold big; [lra..|]. unfold eps, tiny in *.
  exists g. split; [done|]. rewrite E. lra.
Qed.

(** ** The invariant of a bucket *)

(** Between none and [p] tokens. *)
Definition holds (p : Z) (b : bucket) (t : Q) : Prop :=
  tokens b = F t /\ 0 <= t <= inject_Z p /\ maxTokens b = F (inject_Z p) /\ refillRate b = rate_of p.

Lemma holds_new p now : in_range p -> holds p (newBucket p now) (inject_Z p).
Proof.
  intros Hp. pose proof (in_range_Q p Hp). unfold in_range in Hp. unfold holds, newBucket, rate_of. cbn.
  rewrite of_int_exact by lia. repeat split; lra.
Qed.

(** Rounding slack of one call. *)
Definition slack (p : Z) : Q := inject_Z p * (1 # 562949953421312).  (* p / 2^49 *)

Lemma refill_holds p b t now :
  in_range p -> holds p b t -> (0 <= now - lastRefill b <= 2 ^ 62)%Z ->
  exists t', refill b now = F t' /\ 0 <= t' <= inject_Z p /\ 0 <= earned p (now - lastRefill b) /\
    t' <= t + earned p (now - lastRefill b) + 16 * earned p (now - lastRefill b) * eps + slack p * (1 # 2) /\
    (inject_Z p <= t' \/ t + earned p (now - lastRefill b) - 16 * earned p (now - lastRefill b) * eps - slack p <= t').
Proof.
  intros Hp (Ht & Htr & Hm & Hr) He. pose proof (in_range_Q p Hp) as Hq. unfold refill. rewrite Ht, Hm, Hr.
  set (e := (now - lastRefill b)%Z) in *. destruct (refill_amount p e Hp He) as (g & -> & Hg0 & He0 & Hg).
  cbn [fadd]. set (g0 := earned p e) in *.
  assert (exists v, rnd (t + g) = F v /\ 0 <= v /\ (inject_Z p < v \/ t + g <= 2 * inject_Z p) /\
    (t + g <= 2 * inject_Z p -> t + g - 3 * inject_Z p * eps <= v <= t + g + 3 * inject_Z p * eps)) as (v & -> & Hv0 & Hv1 & Hv2).
  { destruct (rnd_near (t + g)) as (v & -> & Hv0 & Hv1 & Hv2); [lra| |].
    - assert (g0 <= 4611686019 * 1073741824).
      { unfold g0, earned. rewrite Zle_Qle, (Zle_Qle e) in He. change (inject_Z 0) with 0 in He.
        change (inject_Z (2 ^ 62)) with 4611686018427387904 in He.
        assert (0 <= inject_Z e * (1 # 1000000000) <= 4611686019) by lra. nra. }
      unfold big, eps, dust in *. lra.
    - exists v. split; [done|]. split; [done|]. unfold eps, tiny in *. split.
      + destruct (Qlt_le_dec (2 * inject_Z p) (t + g)); [left; lra|by right].
      + intros. lra. }
  cbn [flt]. unfold eps, dust, slack in *. clearbody g0. destruct (Qle_bool v (inject_Z p)) eqn:E; cbn [negb].
  - apply Qle_bool_iff in E. exists v. destruct Hv1 as [Hv1|Hv1]; [lra|]. specialize (Hv2 Hv1).
    split; [done|]. lra.
  - assert (inject_Z p < v) by (apply Qnot_le_lt; rewrite <- Qle_bool_iff; congruence).
    exists (inject_Z p). split; [done|]. destruct (Qlt_le_dec (2 * inject_Z p) (t + g)) as [Hlt|Hle]; [lra|].
    specialize (Hv2 Hle). lra.
Qed.

Definition one (ok : bool) : Q := if ok then 1 else 0.

(** A call keeps the invariant; what it grants is paid for by the tokens. *)
Lemma Allow_holds p b t now :
  in_range p -> holds p b t -> (0 <= now - lastRefill b <= 2 ^ 62)%Z ->
  let '(ok, _, b') := bucket_Allow b now in
  exists t', holds p b' t' /\ lastRefill b' = now /\
    one ok + t' <= t + earned p (now - lastRefill b) + 16 * earned p (now - lastRefill b) * eps + slack p /\
    one ok + t' <= inject_Z p + slack p.
Proof.
  intros Hp Hb He. pose proof (in_range_Q p Hp) as Hq.
  destruct (refill_holds p b t now Hp Hb He) as (v & Er & Hv & He0 & Hu & _). unfold bucket_Allow. rewrite Er.
  destruct Hb as (_ & _ & Hm & Hr). cbn [fle]. destruct (Qle_bool 1 v) eqn:E.
  - apply Qle_bool_iff in E. cbn [fsub fneg fadd].
    assert (v + Qred (- (1)) == v - 1) as E1 by (rewrite Qred_correct; ring).
    destruct (rnd_near (v + Qred (- (1)))) as (w & -> & Hw0 & Hw); [rewrite E1; lra|rewrite E1; unfold big; lra|].
    rewrite E1 in Hw. unfold eps, tiny, slack in *.
    exists w. unfold holds, with_tokens. cbn [tokens maxTokens refillRate lastRefill one].
    split; [repeat split; try done; try lra|]. split; [done|]. lra.
  - exists v. unfold holds, with_tokens, slack in *. cbn [tokens maxTokens refillRate lastRefill one].
    split; [repeat split; try done; lra|]. split; [done|]. unfold eps in *. lra.
Qed.

(** ** What a bucket permits *)

(** Readings of a clock that does not run backwards (and gaps below a century). *)
Fixpoint later (t0 : Z) (ts : list Z) : Prop :=
  match ts with
  | [] => True
  | t :: ts => (0 <= t - t0 <= 2 ^ 62)%Z /\ later t ts
  end.

Lemma last_default (ts : list Z) : forall x d, List.last (x :: ts) d = List.last ts x.
Proof.
  induction ts as [|y ts IH]; intros x d; [done|].
  change (List.last (x :: y :: ts) d) with (List.last (y :: ts) d). by rewrite !IH.
Qed.

Lemma later_app t0 ts1 ts2 : later t0 (ts1 ++ ts2) <-> later t0 ts1 /\ later (List.last ts1 t0) ts2.
Proof.
  revert t0. induction ts1 as [|t ts IH]; intros t0; cbn [later app]; [cbn; tauto|].
  rewrite IH, last_default. tauto.
Qed.

Lemma earned_add p a b : earned p a + earned p b == earned p (a + b).
Proof. unfold earned. rewrite inject_Z_plus. ring. Qed.

Lemma bucket_run_holds p ts : forall b t,
  in_range p -> holds p b t -> later (lastRefill b) ts ->
  exists t', holds p (bucket_run b ts).2 t' /\ lastRefill (bucket_run b ts).2 = List.last ts (lastRefill b) /\
    let T := earned p (List.last ts (lastRefill b) - lastRefill b) in
    inject_Z (granted (bucket_run b ts).1) + t' <= t + T + 16 * T * eps + inject_Z (Z.of_nat (length ts)) * slack p.
Proof.
  induction ts as [|x ts IH]; intros b t Hp Hb Hl.
  { exists t. split; [done|]. split; [done|]. cbn [bucket_run granted length List.last fst]. rewrite Z.sub_diag.
    assert (earned p 0 == 0) as E by (unfold earned; change (inject_Z 0) with 0; ring). cbv zeta.
    rewrite E. change (inject_Z 0) with 0. change (inject_Z (Z.of_nat 0)) with 0. lra. }
  destruct Hl as [Hx Hl]. cbn [bucket_run]. pose proof (Allow_holds p b t x Hp Hb Hx) as Ha.
  destruct (bucket_Allow b x) as [[ok w] b1]. destruct Ha as (t1 & Hb1 & Hl1 & Hu & _).
  rewrite <- Hl1 in Hl. destruct (IH b1 t1 Hp Hb1 Hl) as (t2 & Hb2 & Hl2 & Hu2). cbv zeta in Hu2.
  destruct (bucket_run b1 ts) as [oks b2]. cbn [fst snd granted length] in *. exists t2. split; [done|].
  rewrite last_default. rewrite Hl1 in *. split; [done|]. cbv zeta.
  pose proof (earned_add p (x - lastRefill b) (List.last ts x - x)) as Ee.
  replace (x - lastRefill b + (List.last ts x - x))%Z with (List.last ts x - lastRefill b)%Z in Ee by lia.
  rewrite <- Ee, inject_Z_plus, Nat2Z.inj_succ. unfold Z.succ. rewrite inject_Z_plus. change (inject_Z 1) with 1.
  assert (inject_Z (if ok then 1 else 0) == one ok) as -> by (by destruct ok). unfold eps in *. lra.
Qed.

(** C31: A token bucket of [p] tokens per minute, rounding of floating point included: in any window of
    calls made at any point of its life, the requests it permits are at most its capacity [p] plus what is
    refilled between the first and the last call of the window ([p] per minute, up to a relative error
    of 2^-49), up to [p/2^49] of a token per call. *)
Theorem bucket_rate_bound p t0 before first window :
  in_range p -> later t0 (before ++ first :: window) ->
  let b := (bucket_run (newBucket p t0) before).2 in
  let T := earned p (List.last window first - first) in
  inject_Z (granted (bucket_run b (first :: window)).1)
  <= inject_Z p + T + 16 * T * eps + inject_Z (Z.of_nat (S (length window))) * slack p.
Proof.
  intros Hp [Hl1 Hl2]%later_app. cbv zeta.
  destruct (bucket_run_holds p before (newBucket p t0) _ Hp (holds_new p t0 Hp) Hl1) as (t & Hb & Hlast & _).
  set (b := (bucket_run (newBucket p t0) before).2) in *.
  destruct Hl2 as [Hf Hl2]. cbn [newBucket lastRefill] in Hlast. rewrite <- Hlast in Hf.
  cbn [bucket_run]. pose proof (Allow_holds p b t first Hp Hb Hf) as Ha.
  destruct (bucket_Allow b first) as [[ok w] b1]. destruct Ha as (t1 & Hb1 & El & _ & Hu).
  rewrite <- El in Hl2. destruct (bucket_run_holds p window b1 t1 Hp Hb1 Hl2) as (t2 & Hb2 & _ & Hu2). cbv zeta in Hu2.
  destruct (bucket_run b1 window) as [oks b2]. cbn [fst granted] in *. rewrite El in Hu2.
  rewrite inject_Z_plus, Nat2Z.inj_succ. unfold Z.succ. rewrite inject_Z_plus. change (inject_Z 1) with 1.
  assert (inject_Z (if ok then 1 else 0) == one ok) as -> by (by destruct ok).
  destruct Hb2 as (_ & Ht2 & _). unfold eps in *. lra.
Qed.

Lemma bucket_rate_bound_witness :
  inject_Z (granted (bucket_run (newBucket 2 0) [0; 1; 2; secs 30]%Z).1) <= 2 + 1 + (1 # 1000).
Proof.
  pose proof (bucket_rate_bound 2 0 [] 0 [1; 2; secs 30]%Z ltac:(unfold in_range; lia)
    ltac:(unfold secs, Second; cbn; lia)) as Hb.
  eapply Qle_trans; [exact Hb|]. apply Qle_bool_iff. vm_compute. reflexivity.
Defined.

(** C38: No key starves: whatever happened before, a bucket left alone for 61/p seconds permits the next
    request. *)
Theorem bucket_recovers p t0 before now :
  in_range p -> later t0 (before ++ [now]) ->
  (61 * Second <= (now - List.last before t0) * p)%Z ->
  (bucket_Allow (bucket_run (newBucket p t0) before).2 now).1.1 = true.
Proof.
  intros Hp [Hl1 Hl2]%later_app Hw.
  destruct (bucket_run_holds p before (newBucket p t0) _ Hp (holds_new p t0 Hp) Hl1) as (t & Hb & Hlast & _).
  set (b := (bucket_run (newBucket p t0) before).2) in *. cbn [newBucket lastRefill] in Hlast.
  destruct Hl2 as [Hf _]. rewrite <- Hlast in Hf, Hw.
  destruct (refill_holds p b t now Hp Hb Hf) as (v & Er & Hv & He0 & _ & Hd). unfold bucket_Allow. rewrite Er.
  pose proof (in_range_Q p Hp) as Hq. cbn [fle].
  assert (61 # 60 <= earned p (now - lastRefill b)) as He.
  { rewrite Zle_Qle, (inject_Z_mult (now - _)) in Hw. change (inject_Z (61 * Second)) with 61000000000 in Hw.
    unfold earned. lra. }
  destruct Hb as (_ & Ht & _). set (g := earned p (now - lastRefill b)) in *.
  assert (1 <= v) as H1%Qle_bool_iff; [|by rewrite H1].
  destruct Hd as [Hd|Hd]; [lra|]. unfold eps, slack in *. lra.
Qed.

Lemma bucket_recovers_witness :
  (bucket_Allow (bucket_run (newBucket 2 0) [0; 0; 0]%Z).2 (secs 31)).1.1 = true.
Proof.
  apply (bucket_recovers 2 0 [0; 0; 0]%Z (secs 31)); [unfold in_range; lia|unfold secs, Second; cbn; lia|unfold secs, Second; cbn; lia].
Defined.

(** ** Keys are independent *)

Section Isolation.
Context {K : Type} `{Countable K}.

(** A call of the registry: the key and the two clock readings. *)
Fixpoint registry_run (r : Registry K) (cs : list (K * Z * Z)) : list bool * Registry K :=
  match cs with
  | [] => ([], r)
  | (k, created, now) :: cs =>
    let '(ok, _, r) := KeyRegistry_Allow r k created now in
    let '(oks, r) := registry_run r cs in (ok :: oks, r)
  end.

(** The answers and the times of the calls for one key. *)
Fixpoint answers_of (k : K) (cs : list (K * Z * Z)) (oks : list bool) : list bool :=
  match cs, oks with
  | (k', _, _) :: cs, ok :: oks => if decide (k' = k) then ok :: answers_of k cs oks else answers_of k cs oks
  | _, _ => []
  end.

Definition calls_of (k : K) (cs : list (K * Z * Z)) : list (K * Z * Z) := filter (fun c => c.1.1 = k) cs.

Lemma registry_run_known k cs : forall r b,
  buckets r !! k = Some b ->
  answers_of k cs (registry_run r cs).1 = (bucket_run b (calls_of k cs).*2).1.
Proof.
  induction cs as [|[[k' c] t] cs IH]; intros r b Hb; [done|].
  cbn [registry_run calls_of]. unfold calls_of. rewrite filter_cons. unfold KeyRegistry_Allow. cbn [fst].
  destruct (decide (k' = k)) as [->|Hne].
  - rewrite Hb. destruct (bucket_Allow b t) as [[ok w] b1] eqn:Ea. cbn [fmap list_fmap bucket_run snd]. rewrite Ea.
    specialize (IH {| perMin := perMin r; buckets := <[k := b1]> (buckets r) |} b1 ltac:(cbn; apply lookup_insert_eq)).
    destruct (registry_run _ cs) as [oks r'] eqn:Er. cbn [fst answers_of] in *. rewrite decide_True by done.
    fold (calls_of k cs). destruct (bucket_run b1 _). cbn [fst] in *. by rewrite IH.
  - destruct (bucket_Allow _ t) as [[ok w] b1].
    specialize (IH {| perMin := perMin r; buckets := <[k' := b1]> (buckets r) |} b
      ltac:(cbn; by rewrite lookup_insert_ne)).
    destruct (registry_run _ cs) as [oks r'] eqn:Er. cbn [fst answers_of] in *. rewrite decide_False by done.
    exact IH.
Qed.

Lemma registry_run_unknown k cs : forall r,
  buckets r !! k = None ->
  answers_of k cs (registry_run r cs).1 =
  match calls_of k cs with
  | [] => []
  | (_, created, _) :: _ => (bucket_run (newBucket (perMin r) created) (calls_of k cs).*2).1
  end.
Proof.
  induction cs as [|[[k' c] t] cs IH]; intros r Hb; [done|].
  cbn [registry_run]. unfold calls_of. rewrite filter_cons. cbn [fst]. unfold KeyRegistry_Allow.
  destruct (decide (k' = k)) as [->|Hne].
  - rewrite Hb. cbn [fmap list_fmap bucket_run snd].
    destruct (bucket_Allow (newBucket (perMin r) c) t) as [[ok w] b1] eqn:Ea.
    pose proof (registry_run_known k cs {| perMin := perMin r; buckets := <[k := b1]> (buckets r) |} b1
      ltac:(cbn; apply lookup_insert_eq)) as Hk.
    destruct (registry_run _ cs) as [oks r'] eqn:Er. cbn [fst answers_of] in *. rewrite decide_True by done.
    fold (calls_of k cs). destruct (bucket_run b1 _). cbn [fst] in *. by rewrite Hk.
  - destruct (bucket_Allow _ t) as [[ok w] b1].
    specialize (IH {| perMin := perMin r; buckets := <[k' := b1]> (buckets r) |} ltac:(cbn; by rewrite lookup_insert_ne)).
    destruct (registry_run _ cs) as [oks r'] eqn:Er. cbn [fst answers_of] in *. rewrite decide_False by done.
    exact IH.
Qed.

(** A registry shares nothing between keys: whatever the interleaving of calls, the answers one key
    gets are those of a bucket of its own, made at the key's first call and asked at the key's calls only. *)
Theorem registry_isolates_keys perMin k cs :
  answers_of k cs (registry_run (NewRegistry perMin) cs).1 =
  match calls_of k cs with
  | [] => []
  | (_, created, _) :: _ => (bucket_run (newBucket perMin created) (calls_of k cs).*2).1
  end.
Proof. apply (registry_run_unknown k cs (NewRegistry perMin)). apply lookup_empty. Qed.

End Isolation.

(** ** Where the code and its comments differ *)

(** The limiter and the generic registry are the same code. *)
Lemma Limiter_is_registry l iccid created now : Limiter_Allow l iccid created now = KeyRegistry_Allow l iccid created now.
Proof. reflexivity. Qed.

(** With the default limit, a caller that waits exactly [retryAfter] is refused
    again: six seconds refill a little less than one token. *)
Lemma retry_after_too_short :
  let b := (bucket_run (newBucket defaultPerMin 0) (replicate 10 0%Z)).2 in
  let '(ok, retryAfter, b) := bucket_Allow b 0 in
  ok = false /\ retryAfter = (6 * Second)%Z /\ (bucket_Allow b retryAfter).1.1 = false.
Proof. vm_compute. done. Qed.

(** The header drops the fraction of a second: eight seconds are announced for 8.57. *)
Lemma retry_header_truncated :
  let l := Limiter_New 7 in
  let pass l := (Middleware l "894" 0 0).2 in
  (Middleware (Nat.iter 7 pass l) "894" 0 0).1 = TooManyRequests "8" /\
  (Middleware (Nat.iter 8 pass l) "894" 0 (secs 8)).1 = TooManyRequests "1".
Proof. vm_compute. done. Qed.

(** "Maximum messages per minute": ten are permitted at once and eight more within the minute. *)
Lemma more_than_limit_in_a_minute :
  granted (bucket_run (newBucket defaultPerMin 0)
    (replicate 10 0%Z ++ map (fun i => secs 6 * i)%Z [1; 2; 3; 4; 5; 6; 7; 8; 9]%Z)).1 = 18%Z.
Proof. vm_compute. reflexivity. Qed.
