(* ===== verification/Webhook.v ===== *)
(** * Webhook notifications (webhook/webhook.go)

    [Notify] over an [http] environment that answers each attempt (the context's
    error, whether a request can be built, the client's response, cancellation
    while waiting).  A run yields the trace of what was sent and waited for.
    The body is the JSON text the encoder prints, the signature HMAC-SHA256
    over [Sha256].  [notify_trace] is the contract of delivery. *)

From S2P Require Import Prelude GoString Sha256 Float64 Backoff.

Local Open Scope Z_scope.

(** ** HMAC (crypto/hmac with SHA-256) *)

Definition hmac_key (key : list Z) : list Z :=
  let k := if (64 <? length key)%nat then sha256 key else key in
  k ++ replicate (64 - length k) 0.

Definition hmac_sha256 (key msg : list Z) : list Z :=
  let k := hmac_key key in
  sha256 (map (Z.lxor 92) k ++ sha256 (map (Z.lxor 54) k ++ msg)).

(** RFC 4231, test case 2, and a key longer than a block (test case 6). *)
Example hmac_rfc4231 :
  string_of (hex_encode (hmac_sha256 (bytes_of "Jefe") (bytes_of "what do ya want for nothing?")))
  = "5bdcc146bf60754e6a042426089575c75a003f089d2739839dec58b964ec3843"%string /\
  string_of (hex_encode (hmac_sha256 (replicate 131 170)
    (bytes_of "Test Using Larger Than Block-Size Key - Hash Key First")))
  = "60e431591ee0b67f0d8a26aacbf5b77f8e0bc6213728c5140546040f0ee37f54"%string.
Proof. vm_compute. done. Qed.

(** ** The JSON text of a string (encoding/json, HTML-safe) *)

Definition u_escape (r : Z) : list Z :=
  bytes_of "\u" ++ [hex_digit (r / 4096 mod 16); hex_digit (r / 256 mod 16); hex_digit (r / 16 mod 16); hex_digit (r mod 16)].

Definition json_rune (r : Z) : list Z :=
  if r =? 34 then [92; 34] else if r =? 92 then [92; 92]
  else if r =? 8 then bytes_of "\b" else if r =? 12 then bytes_of "\f"
  else if r =? 10 then bytes_of "\n" else if r =? 13 then bytes_of "\r"
  else if r =? 9 then bytes_of "\t"
  else if (r <? 32) || (r =? 60) || (r =? 62) || (r =? 38) || (r =? 8232) || (r =? 8233) then u_escape r
  else utf8_encode_rune r.

(** Rune by rune; a byte that is not UTF-8 is printed as an escaped U+FFFD,
    a genuine U+FFFD as itself.  Every round consumes a byte, so the length of
    the text is fuel enough. *)
Fixpoint json_chars (fuel : nat) (l : list Z) : list Z :=
  match fuel, utf8_decode l with
  | S fuel, r :: _ =>
    if (r =? rune_error) && negb (bool_decide (take 3 l = [239; 191; 189]))
    then u_escape rune_error ++ json_chars fuel (drop 1 l)
    else json_rune r ++ json_chars fuel (drop (length (utf8_encode_rune r)) l)
  | _, _ => []
  end.

Definition json_text (s : string) : list Z :=
  [34] ++ json_chars (String.length s) (bytes_of s) ++ [34].

(** ** Data *)

Record Payload := { Event : string; ICCID : string; From : string; Body : string; Timestamp : string }.

Definition Marshal_Payload (p : Payload) : list Z :=
  bytes_of "{" ++
  json_text "event" ++ bytes_of ":" ++ json_text (Event p) ++ bytes_of "," ++
  json_text "iccid" ++ bytes_of ":" ++ json_text (ICCID p) ++ bytes_of "," ++
  json_text "from" ++ bytes_of ":" ++ json_text (From p) ++ bytes_of "," ++
  json_text "body" ++ bytes_of ":" ++ json_text (Body p) ++ bytes_of "," ++
  json_text "timestamp" ++ bytes_of ":" ++ json_text (Timestamp p) ++ bytes_of "}".

Definition maxAttempts : nat := 3.
Definition contentType : string := "application/json".

Record Notifier := { url : string; secret : string }.
Record Config := { URL : string; Secret : string }.

Definition Notifier_New (cfg : Config) : option Notifier :=
  if String.eqb (URL cfg) "" then None
  else Some {| url := URL cfg; secret := Secret cfg |}.

(** [FromEnv] with the values of WEBHOOK_URL and WEBHOOK_SECRET. *)
Definition Notifier_FromEnv (env : string -> string) : option Notifier :=
  Notifier_New {| URL := env "WEBHOOK_URL"; Secret := env "WEBHOOK_SECRET" |}.

Definition sign (body : list Z) (secret : string) : string :=
  string_of (hex_encode (hmac_sha256 (bytes_of secret) body)).

(** The request of one attempt. *)
Record request := { target : string; content_type : string; signature : option string; payload : list Z }.

(** What the outside does at attempt [n] (1, 2, 3). *)
Record http := {
  ctx_err : nat -> option go_error;         (** [ctx.Err()] when the attempt starts *)
  new_request : option go_error;            (** whether the URL makes a request *)
  do : nat -> request -> res Z;             (** the client's answer: an error or a status code *)
  cancelled : nat -> option go_error;       (** cancellation while waiting after the attempt *)
  coin : nat -> Z;                          (** the draws of the back-off *)
  draw : nat -> float64
}.

Inductive action := Sent (r : request) | Waited (ns : Z).

(** [post]: the request sent, if any, and its error. *)
Definition post (h : http) (n : Notifier) (attempt : nat) (body : list Z) : list action * option go_error :=
  match new_request h with
  | Some err => ([], Some err)
  | None =>
    let sig := if String.eqb (secret n) "" then None
               else Some ("sha256=" +:+ sign body (secret n))%string in
    let req := {| target := url n; content_type := contentType; signature := sig; payload := body |} in
    ([Sent req],
     match do h attempt req with
     | inl err => Some err
     | inr status =>
       if (status <? 200) || (300 <=? status) then Some (Errorf "unexpected status %d" [itoa status]) else None
     end)
  end.

(** The loop of [Notify] with [left] attempts to go. *)
Fixpoint notify_loop (h : http) (n : Notifier) (body : list Z) (left : nat) (lastErr : option go_error)
  : list action * option go_error :=
  match left with
  | O => ([], Some (match lastErr with
                    | Some e => Wrapf "webhook: all %d attempts failed: %w" [itoa (Z.of_nat maxAttempts)] e
                    | None => Errorf "webhook: all %d attempts failed: %w" [itoa (Z.of_nat maxAttempts)]
                    end))
  | S left' =>
    let attempt := (maxAttempts - left')%nat in
    match ctx_err h attempt with
    | Some err => ([], Some (Wrapf "webhook: context canceled: %w" [] err))
    | None =>
      let '(sent, r) := post h n attempt body in
      match r with
      | None => (sent, None)
      | Some err =>
        if (attempt <? maxAttempts)%nat then
          match cancelled h attempt with
          | Some cerr => (sent, Some (Wrapf "webhook: context canceled during backoff: %w" [] cerr))
          | None =>
            let delay := Compute_delay (Z.of_nat attempt) (coin h attempt) (draw h attempt) in
            let '(rest, r) := notify_loop h n body left' (Some err) in
            (sent ++ Waited delay :: rest, r)
          end
        else
          let '(rest, r) := notify_loop h n body left' (Some err) in (sent ++ rest, r)
      end
    end
  end.

(** [Notify]: marshalling strings cannot fail. *)
Definition Notify (h : http) (n : Notifier) (p : Payload) : list action * option go_error :=
  notify_loop h n (Marshal_Payload p) maxAttempts None.

(** ** The contract of delivery *)

Fixpoint requests (tr : list action) : list request :=
  match tr with
  | [] => []
  | Sent r :: tr => r :: requests tr
  | Waited _ :: tr => requests tr
  end.

Fixpoint waiting (tr : list action) : Z :=
  match tr with
  | [] => 0
  | Sent _ :: tr => waiting tr
  | Waited d :: tr => d + waiting tr
  end.

Definition accepts (h : http) (attempt : nat) (r : request) : bool :=
  match do h attempt r with
  | inl _ => false
  | inr status => (200 <=? status) && (status <? 300)
  end.

(** The request every attempt sends. *)
Definition the_request (n : Notifier) (p : Payload) : request :=
  let body := Marshal_Payload p in
  {| target := url n; content_type := contentType;
     signature := if String.eqb (secret n) "" then None else Some ("sha256=" +:+ sign body (secret n))%string;
     payload := body |}.

(** The draws of [rand.Float64]. *)
Definition fair_draws (h : http) : Prop := forall k, exists u, draw h k = F u /\ (0 <= u <= 1)%Q.

(** One attempt: nothing is sent when no request can be built; otherwise the
    request is, and the attempt fails exactly when it is not accepted. *)
Lemma post_spec h n k p :
  match new_request h with
  | Some err => post h n k (Marshal_Payload p) = ([], Some err)
  | None => exists r, post h n k (Marshal_Payload p) = ([Sent (the_request n p)], r) /\
                      (accepts h k (the_request n p) = true <-> r = None)
  end.
Proof.
  unfold post. fold (the_request n p). destruct (new_request h); [done|]. eexists. split; [reflexivity|].
  unfold accepts. destruct (do h k (the_request n p)) as [|status]; [done|].
  destruct (Z.ltb_spec status 200), (Z.leb_spec 300 status), (Z.leb_spec 200 status), (Z.ltb_spec status 300);
    try done; lia.
Qed.

Lemma requests_app t1 t2 : requests (t1 ++ t2) = requests t1 ++ requests t2.
Proof. induction t1 as [|[r|d] t1 IH]; cbn; congruence. Qed.

Lemma waiting_app t1 t2 : waiting (t1 ++ t2) = waiting t1 + waiting t2.
Proof. induction t1 as [|[r|d] t1 IH]; cbn; lia. Qed.

(** What holds of the rest of a run whose next attempt is [k + 1]. *)
Definition delivery (h : http) (r : request) (k left : nat) (tr : list action) (result : option go_error) : Prop :=
  exists m, requests tr = replicate m r /\ (m <= left)%nat /\
    (forall i, (1 <= i < m)%nat -> accepts h (k + i) r = false) /\
    match result with
    | None => (1 <= m)%nat /\ accepts h (k + m) r = true
    | Some _ => (1 <= m)%nat -> accepts h (k + m) r = false
    end.

(** The rest of the run after attempt [k] was sent in vain. *)
Lemma delivery_step h r k left tr result :
  accepts h (S k) r = false -> delivery h r (S k) left tr result -> delivery h r k (S left) (Sent r :: tr) result.
Proof.
  intros Ha (m & Hm & Hle & Hno & Hr). exists (S m). cbn [requests]. rewrite Hm. split; [done|]. split; [lia|]. split.
  - intros i Hi. destruct (decide (i = 1%nat)) as [->|Hi1]; [by rewrite Nat.add_1_r|].
    replace (k + i)%nat with (S k + (i - 1))%nat by lia. apply Hno. lia.
  - replace (k + S m)%nat with (S k + m)%nat by lia. destruct result; [|destruct Hr; split; [lia|done]].
    intros _. destruct m; [by rewrite Nat.add_0_r|apply Hr; lia].
Qed.

Lemma notify_loop_delivery h n p left : forall lastErr,
  (left <= maxAttempts)%nat -> new_request h = None ->
  let '(tr, r) := notify_loop h n (Marshal_Payload p) left lastErr in
  delivery h (the_request n p) (maxAttempts - left) left tr r.
Proof.
  induction left as [|left IH]; intros lastErr Hl Hn; cbn [notify_loop].
  { exists 0%nat. repeat split; lia. }
  set (k := (maxAttempts - left)%nat). replace (maxAttempts - S left)%nat with (k - 1)%nat by lia.
  assert (k = S (k - 1)) as Hk by (unfold k; lia).
  destruct (ctx_err h k); [exists 0%nat; repeat split; lia|].
  pose proof (post_spec h n k p) as Hp. rewrite Hn in Hp. destruct Hp as (r & -> & Hr).
  assert (delivery h (the_request n p) k left [] (Some (errors_New ""))) as Hend by (exists 0%nat; repeat split; lia).
  destruct r as [err|].
  - assert (accepts h (S (k - 1)) (the_request n p) = false) as Ha.
    { rewrite <- Hk. apply not_true_iff_false. intros E%Hr. done. }
    specialize (IH (Some err) ltac:(lia) Hn). fold k in IH.
    destruct (notify_loop h n (Marshal_Payload p) left (Some err)) as [tr r].
    assert (delivery h (the_request n p) (k - 1) (S left) (Sent (the_request n p) :: tr) r) as Hd
      by (apply delivery_step; [done|by rewrite <- Hk]).
    destruct (k <? maxAttempts)%nat; [|exact Hd]. destruct (cancelled h k); [|exact Hd].
    apply (delivery_step _ _ _ _ [] (Some _) Ha). rewrite <- Hk. exact Hend.
  - exists 1%nat. split; [done|]. split; [lia|]. split; [lia|].
    replace (k - 1 + 1)%nat with k by lia. split; [lia|]. by apply Hr.
Qed.

(** Without a request nothing is sent and the run fails. *)
Lemma notify_loop_unsent h n p e left : forall lastErr,
  new_request h = Some e ->
  let '(tr, r) := notify_loop h n (Marshal_Payload p) left lastErr in requests tr = [] /\ is_Some r.
Proof.
  induction left as [|left IH]; intros lastErr Hn; cbn [notify_loop]; [by split|].
  destruct (ctx_err h _); [by split|]. pose proof (post_spec h n (maxAttempts - left) p) as Hp. rewrite Hn in Hp.
  rewrite Hp. specialize (IH (Some e) Hn).
  destruct (notify_loop h n (Marshal_Payload p) left (Some e)) as [tr r]. destruct (_ <? _)%nat; [|exact IH].
  destruct (cancelled h _); [by split|exact IH].
Qed.

(** The delays of a run with [left] attempts to go. *)
Lemma notify_loop_waiting h n p left : forall lastErr,
  fair_draws h -> (left <= maxAttempts)%nat ->
  0 <= waiting (notify_loop h n (Marshal_Payload p) left lastErr).1 <=
  match left with 3%nat => 3600000004 | 2%nat => 2400000002 | _ => 0 end.
Proof.
  intros lastErr Hd. revert lastErr. induction left as [|left IH]; intros lastErr Hl; cbn [notify_loop]; [cbn; lia|].
  set (k := (maxAttempts - left)%nat).
  assert (0 <= match S left with 3%nat => 3600000004 | 2%nat => 2400000002 | _ => 0 end) as H0.
  { destruct left as [|[|[|]]]; lia. }
  destruct (ctx_err h k); [cbn [fst waiting]; lia|].
  assert (exists sent r, post h n k (Marshal_Payload p) = (sent, r) /\ waiting sent = 0) as (sent & r & -> & Hs).
  { pose proof (post_spec h n k p) as Hp. destruct (new_request h); [by eexists _, _|].
    destruct Hp as (r & -> & _). by eexists _, _. }
  destruct r as [err|]; [|cbn [fst]; lia]. specialize (IH (Some err) ltac:(lia)).
  destruct (notify_loop h n (Marshal_Payload p) left (Some err)) as [tr r]. cbn [fst] in IH.
  destruct (Nat.ltb_spec k maxAttempts) as [Hk|Hk].
  - destruct (cancelled h k); [cbn [fst]; lia|]. cbn [fst]. rewrite waiting_app, Hs. cbn [waiting].
    destruct (Hd k) as (u & -> & Hu). unfold k, maxAttempts in *.
    destruct left as [|[|[|]]]; [lia| | |lia].
    + destruct (Compute_bounds 2 (coin h 2) u eq_refl Hu) as [B1 B2].
      change (nominal 2 DefaultBase DefaultMax) with 2000000000 in B2.
      change (3 - 1)%nat with 2%nat. change (Z.of_nat 2) with 2. lia.
    + destruct (Compute_bounds 1 (coin h 1) u eq_refl Hu) as [B1 B2].
      change (nominal 1 DefaultBase DefaultMax) with 1000000000 in B2.
      change (3 - 2)%nat with 1%nat. change (Z.of_nat 1) with 1. lia.
  - cbn [fst]. rewrite waiting_app, Hs. unfold k, maxAttempts in Hk. destruct left; [cbn in *; lia|lia].
Qed.

(** C35: [Notify] ends after at most three attempts and 3.6 seconds of waiting, whatever the server and the
    context do.  Every request it sends is the same: the JSON payload, signed with HMAC-SHA256 exactly
    when there is a secret.  It returns nil if and only if the last request it sent was answered
    2xx, and then no request before that one was; so a notification the server accepted is never
    repeated, and one it did not accept is never reported delivered. *)
Theorem notify_trace h n p :
  fair_draws h ->
  let '(tr, r) := Notify h n p in
  exists m, requests tr = replicate m (the_request n p) /\ (m <= 3)%nat /\
    0 <= waiting tr <= 3600000004 /\
    (forall i, (1 <= i < m)%nat -> accepts h i (the_request n p) = false) /\
    (r = None <-> (1 <= m)%nat /\ accepts h m (the_request n p) = true).
Proof.
  intros Hd. unfold Notify. pose proof (notify_loop_waiting h n p maxAttempts None Hd ltac:(lia)) as Hw.
  destruct (new_request h) as [e|] eqn:Hn.
  - pose proof (notify_loop_unsent h n p e maxAttempts None Hn) as Hu.
    destruct (notify_loop _ _ _ _ _) as [tr r]. destruct Hu as [Hu [err ->]]. exists 0%nat.
    split; [exact Hu|]. split; [lia|]. split; [exact Hw|]. split; [intros; lia|]. split; [done|lia].
  - pose proof (notify_loop_delivery h n p maxAttempts None ltac:(lia) Hn) as Hu.
    destruct (notify_loop _ _ _ _ _) as [tr r]. destruct Hu as (m & Hm & Hle & Hno & Hr).
    exists m. split; [done|]. split; [exact Hle|]. split; [exact Hw|]. split; [exact Hno|].
    destruct r; [|by split]. split; [done|]. intros [H1 H2]. specialize (Hr H1). cbn in Hr. congruence.
Qed.

(** A server that is down twice. *)
Definition demo_http : http :=
  {| ctx_err _ := None; new_request := None; do k _ := if (k <? 3)%nat then inr 503 else inr 204;
     cancelled _ := None; coin _ := 1; draw _ := half |}.
Definition demo_notifier : Notifier := {| url := "https://example.org/hook"; secret := "s3cret" |}.
Definition demo_payload : Payload :=
  {| Event := "sms_received"; ICCID := "894"; From := "+49"; Body := "<hi>"; Timestamp := "2026-01-01T00:00:00Z" |}.

Lemma demo_draws : fair_draws demo_http.
Proof. intros k. exists (1 # 2)%Q. split; [reflexivity|]. split; discriminate. Qed.

Lemma notify_trace_witness :
  let '(tr, r) := Notify demo_http demo_notifier demo_payload in
  exists m, requests tr = replicate m (the_request demo_notifier demo_payload) /\ (m <= 3)%nat /\
    0 <= waiting tr <= 3600000004 /\
    (forall i, (1 <= i < m)%nat -> accepts demo_http i (the_request demo_notifier demo_payload) = false) /\
    (r = None <-> (1 <= m)%nat /\ accepts demo_http m (the_request demo_notifier demo_payload) = true).
Proof. exact (notify_trace demo_http demo_notifier demo_payload demo_draws). Defined.

(** In that run the third request is the one accepted. *)
Example demo_notified :
  length (requests (Notify demo_http demo_notifier demo_payload).1) = 3%nat /\
  (Notify demo_http demo_notifier demo_payload).2 = None.
Proof. vm_compute. done. Qed.

Example payload_text :
  string_of (json_text (Body demo_payload)) =
  String (ascii_of_byte 34) ("\u003chi\u003e" +:+ String (ascii_of_byte 34) "")%string.
Proof. vm_compute. reflexivity. Qed.
