(* ===== verification/Watchdog.v ===== *)
(** * Software watchdog (watchdog/watchdog.go)

    The loop of [Run] over a schedule of ticks and of the end of the context.
    Probes and the notification socket answer by tick number.  [pings_iff_healthy]:
    systemd gets a keep-alive on exactly the ticks on which every probe
    passed (and the socket could be written), and none after the end. *)

From S2P Require Import Prelude.

(** A probe's answer at each tick. *)
Local Abbreviation Probe := (nat -> option go_error).

Record Config := { cfg_Interval : Z; cfg_Probes : list Probe }.

Record Watchdog := { interval : Z; probes : list Probe }.

Definition Watchdog_New (cfg : Config) : Watchdog :=
  {| interval := if (cfg_Interval cfg <=? 0)%Z then (5 * 1000000000)%Z else cfg_Interval cfg;
     probes := cfg_Probes cfg |}.

(** [tick]: the first error of the probes, in order; the probes after it do not run. *)
Fixpoint tick (ps : list Probe) (n : nat) : option go_error :=
  match ps with
  | [] => None
  | p :: ps => match p n with Some err => Some err | None => tick ps n end
  end.

(** The notification socket: its path (NOTIFY_SOCKET) and the results of
    dialling and writing at each tick. *)
Record socket := { path : string; dial : nat -> option go_error; write : nat -> option go_error }.

(** [sdNotify]: whether the datagram went out, and the error. *)
Definition sdNotify (s : socket) (n : nat) : bool * option go_error :=
  if String.eqb (path s) "" then (false, None)
  else match dial s n with
       | Some err => (false, Some (Wrapf "watchdog: dial %s: %w" [path s] err))
       | None => match write s n with
                 | Some err => (false, Some err)
                 | None => (true, None)
                 end
       end.

Inductive event := TickerC | CtxDone.

(** [Run] from tick [n] on: the ticks whose keep-alive was sent. *)
Fixpoint Watchdog_Run (w : Watchdog) (s : socket) (n : nat) (es : list event) : list nat :=
  match es with
  | [] => []
  | CtxDone :: _ => []
  | TickerC :: es =>
    match tick (probes w) n with
    | Some _ => Watchdog_Run w s (S n) es
    | None => (if (sdNotify s n).1 then [n] else []) ++ Watchdog_Run w s (S n) es
    end
  end.

(** Ticks before the context ends. *)
Fixpoint ticks (es : list event) : nat :=
  match es with
  | TickerC :: es => S (ticks es)
  | _ => 0
  end.

Definition healthy (w : Watchdog) (n : nat) : Prop := Forall (fun p : Probe => p n = None) (probes w).
Definition reachable (s : socket) (n : nat) : Prop := path s <> ""%string /\ dial s n = None /\ write s n = None.

Lemma tick_None ps n : tick ps n = None <-> Forall (fun p : Probe => p n = None) ps.
Proof.
  induction ps as [|p ps IH]; cbn [tick]; [done|]. rewrite Forall_cons.
  destruct (p n); [split; [done|intros [? ?]; done]|]. rewrite IH. tauto.
Qed.

Lemma sdNotify_sent s n : (sdNotify s n).1 = true <-> reachable s n.
Proof.
  unfold sdNotify, reachable. destruct (String.eqb_spec (path s) ""); [cbn; naive_solver|].
  destruct (dial s n), (write s n); cbn; naive_solver.
Qed.

Lemma Run_pings w s es : forall n i,
  i ∈ Watchdog_Run w s n es <-> n <= i < n + ticks es /\ healthy w i /\ reachable s i.
Proof.
  induction es as [|[] es IH]; intros n i; cbn [Watchdog_Run ticks]; rewrite ?elem_of_nil; try (split; [done|lia]).
  pose proof (tick_None (probes w) n) as Ht. pose proof (sdNotify_sent s n) as Hs.
  assert (i ∈ Watchdog_Run w s n (TickerC :: es) <->
    (i = n /\ healthy w n /\ reachable s n) \/ i ∈ Watchdog_Run w s (S n) es) as E.
  { cbn [Watchdog_Run]. unfold healthy. destruct (tick (probes w) n) as [err|].
    - assert (~ Forall (fun p : Probe => p n = None) (probes w)) by (intros ?%Ht; done). naive_solver.
    - rewrite elem_of_app. destruct (sdNotify s n).1.
      + rewrite list_elem_of_singleton. naive_solver.
      + rewrite elem_of_nil. naive_solver. }
  cbn [Watchdog_Run] in E. rewrite E, IH. split.
  - intros [(-> & H1 & H2)|(H1 & H2)]; (split; [lia|done]).
  - intros (H1 & H2). destruct (decide (i = n)) as [->|]; [by left|right]. split; [lia|done].
Qed.


Example watchdog_sample :
  let flaky : Probe := fun n => if n =? 1 then Some (errors_New "stalled") else None in
  let s := {| path := "/run/systemd/notify"; dial _ := None; write _ := None |} in
  Watchdog_Run (Watchdog_New {| cfg_Interval := 0; cfg_Probes := [flaky] |}) s 0
    [TickerC; TickerC; TickerC; CtxDone; TickerC] = [0; 2].
Proof. reflexivity. Qed.
