(* ===== verification/TlsConfig.v ===== *)
(** * TLS settings of the cloud connection (tlsconfig/tlsconfig.go)

    [FromEnv] as a function of the environment and of the three operations of
    the standard library it uses: reading a file, parsing certificates, loading
    a key pair.  [tls_matrix] is the behaviour matrix of the package comment,
    errors included. *)

From S2P Require Import Prelude.

Section TlsConfig.
Context {CertPool Certificate : Type}.
Context (ReadFile : string -> res (list Z)).
(** [AppendCertsFromPEM] on an empty pool: the pool when it found a certificate. *)
Context (CertsFromPEM : list Z -> option CertPool).
Context (LoadX509KeyPair : string -> string -> res Certificate).

Definition VersionTLS12 : Z := 771.

Record tls_Config := { RootCAs : option CertPool; Certificates : list Certificate; MinVersion : Z }.

Definition loadCACert (path : string) : res CertPool :=
  match ReadFile path with
  | inl err => inl err
  | inr pem =>
    match CertsFromPEM pem with
    | None => inl (Errorf "no valid certificates found in %q" [path])
    | Some pool => inr pool
    end
  end.

(** [None] is the nil configuration. *)
Definition tls_FromEnv (getenv : string -> string) : res (option tls_Config) :=
  let certPath := getenv "CLOUD_TLS_CERT" in
  let keyPath := getenv "CLOUD_TLS_KEY" in
  let caPath := getenv "CLOUD_TLS_CA" in
  if String.eqb certPath "" && String.eqb keyPath "" && String.eqb caPath "" then inr None
  else
    let cfg := {| RootCAs := None; Certificates := []; MinVersion := 0 |} in
    let with_ca :=
      if negb (String.eqb caPath "") then
        match loadCACert caPath with
        | inl err => inl (Wrapf "tlsconfig: load CA %q: %w" [caPath] err)
        | inr pool => inr {| RootCAs := Some pool; Certificates := Certificates cfg; MinVersion := MinVersion cfg |}
        end
      else inr cfg in
    match with_ca with
    | inl err => inl err
    | inr cfg =>
      let with_cert :=
        if negb (String.eqb certPath "") || negb (String.eqb keyPath "") then
          if String.eqb certPath "" || String.eqb keyPath "" then
            inl (errors_New "tlsconfig: CLOUD_TLS_CERT and CLOUD_TLS_KEY must both be set for mutual TLS")
          else
            match LoadX509KeyPair certPath keyPath with
            | inl err => inl (Wrapf "tlsconfig: load key pair: %w" [] err)
            | inr cert => inr {| RootCAs := RootCAs cfg; Certificates := [cert]; MinVersion := MinVersion cfg |}
            end
        else inr cfg in
      match with_cert with
      | inl err => inl err
      | inr cfg => inr (Some {| RootCAs := RootCAs cfg; Certificates := Certificates cfg; MinVersion := VersionTLS12 |})
      end
    end.

Definition is_set (getenv : string -> string) (v : string) : Prop := getenv v <> ""%string.

(** What the matrix promises for a configuration that is returned. *)
Definition matches (getenv : string -> string) (c : tls_Config) : Prop :=
  MinVersion c = VersionTLS12 /\
  (is_set getenv "CLOUD_TLS_CA" -> exists pem pool, ReadFile (getenv "CLOUD_TLS_CA"%string) = inr pem /\
     CertsFromPEM pem = Some pool /\ RootCAs c = Some pool) /\
  (~ is_set getenv "CLOUD_TLS_CA" -> RootCAs c = None) /\
  (is_set getenv "CLOUD_TLS_CERT" <-> is_set getenv "CLOUD_TLS_KEY") /\
  (is_set getenv "CLOUD_TLS_CERT" -> exists cert,
     LoadX509KeyPair (getenv "CLOUD_TLS_CERT"%string) (getenv "CLOUD_TLS_KEY"%string) = inr cert /\ Certificates c = [cert]) /\
  (~ is_set getenv "CLOUD_TLS_CERT" -> Certificates c = []).

(** TLS settings never degrade silently: with none of the three variables set the default configuration is
    used; otherwise the result is an error or a configuration of at least TLS 1.2 whose trusted roots are
    exactly the certificates of the CA file when one is named (never the system store in its
    place), and whose client certificate is exactly the named key pair; a certificate without its key, or a key
    without its certificate, is always an error. *)
Theorem tls_matrix getenv :
  match tls_FromEnv getenv with
  | inr None => ~ is_set getenv "CLOUD_TLS_CERT" /\ ~ is_set getenv "CLOUD_TLS_KEY" /\ ~ is_set getenv "CLOUD_TLS_CA"
  | inr (Some c) => matches getenv c
  | inl _ => is_set getenv "CLOUD_TLS_CERT" \/ is_set getenv "CLOUD_TLS_KEY" \/ is_set getenv "CLOUD_TLS_CA"
  end.
Proof.
  unfold tls_FromEnv, matches, is_set, loadCACert. cbv zeta.
  destruct (String.eqb_spec (getenv "CLOUD_TLS_CERT") ""), (String.eqb_spec (getenv "CLOUD_TLS_KEY") ""),
    (String.eqb_spec (getenv "CLOUD_TLS_CA") ""); cbn [andb orb negb]; try tauto;
    destruct (ReadFile (getenv "CLOUD_TLS_CA")) as [|pem] eqn:E1; try tauto;
    try (destruct (CertsFromPEM pem) as [pool|] eqn:E2; try tauto);
    try (destruct (LoadX509KeyPair _ _) as [|cert] eqn:E3; try tauto); cbn; repeat split; try tauto; try done; eauto.
Qed.

End TlsConfig.

(** A key without a certificate is refused even with a valid CA. *)
Example key_without_certificate :
  tls_FromEnv (CertPool := ()) (Certificate := ()) (fun _ => inr []) (fun _ => Some tt) (fun _ _ => inr tt)
    (fun v => if String.eqb v "CLOUD_TLS_CERT" then "" else "x.pem")%string
  = inl (errors_New "tlsconfig: CLOUD_TLS_CERT and CLOUD_TLS_KEY must both be set for mutual TLS").
Proof. reflexivity. Qed.
