(* ===== verification/Modemspool.v ===== *)
(** * Per-modem counters (modemspool/modemspool.go)

    A table of counters per ICCID, incremented as 64-bit unsigned integers.
    [snapshot_counts]: a snapshot tells, for every ICCID recorded, how many
    sends and errors were recorded and when the last was. *)

From S2P Require Import Prelude.

Record ModemMetrics := { ICCID : string; SentCount : Z; ErrCount : Z; LastActive : Z }.

Definition uint64 (z : Z) : Z := (z mod 2 ^ 64)%Z.

Definition NewPool : gmap string ModemMetrics := ∅.

(** The entry of an ICCID, made on first use ([zeroTime] is the zero [time.Time]). *)
Definition zeroTime : Z := 0.
Definition getOrCreate (p : gmap string ModemMetrics) (iccid : string) : ModemMetrics :=
  match p !! iccid with
  | Some m => m
  | None => {| ICCID := iccid; SentCount := 0; ErrCount := 0; LastActive := zeroTime |}
  end.

Definition RecordSent (p : gmap string ModemMetrics) (iccid : string) (now : Z) : gmap string ModemMetrics :=
  let m := getOrCreate p iccid in
  <[iccid := {| ICCID := ICCID m; SentCount := uint64 (SentCount m + 1); ErrCount := ErrCount m; LastActive := now |}]> p.

Definition RecordError (p : gmap string ModemMetrics) (iccid : string) (now : Z) : gmap string ModemMetrics :=
  let m := getOrCreate p iccid in
  <[iccid := {| ICCID := ICCID m; SentCount := SentCount m; ErrCount := uint64 (ErrCount m + 1); LastActive := now |}]> p.

(** [Snapshot]; Go visits a map in any order. *)
Definition Snapshot (p : gmap string ModemMetrics) : list ModemMetrics := (map_to_list p).*2.

(** ** Runs *)

Inductive record := Sent | Failed.

Definition pool_step (p : gmap string ModemMetrics) (r : record * string * Z) : gmap string ModemMetrics :=
  match r with
  | (Sent, iccid, now) => RecordSent p iccid now
  | (Failed, iccid, now) => RecordError p iccid now
  end.

Definition pool_run (rs : list (record * string * Z)) : gmap string ModemMetrics := foldl pool_step NewPool rs.

Definition of_iccid (i : string) (rs : list (record * string * Z)) : list (record * string * Z) :=
  filter (fun r => r.1.2 = i) rs.

Definition same (a b : record) : bool :=
  match a, b with Sent, Sent | Failed, Failed => true | _, _ => false end.

Fixpoint count (k : record) (rs : list (record * string * Z)) : Z :=
  match rs with
  | [] => 0
  | (k', _, _) :: rs => ((if same k k' then 1 else 0) + count k rs)%Z
  end.

(** What the table should say of an ICCID after the given records of it. *)
Definition summary (i : string) (rs : list (record * string * Z)) : option ModemMetrics :=
  match last rs with
  | None => None
  | Some (_, _, t) => Some {| ICCID := i; SentCount := uint64 (count Sent rs); ErrCount := uint64 (count Failed rs); LastActive := t |}
  end.

Lemma count_snoc k rs r : count k (rs ++ [r]) = (count k rs + count k [r])%Z.
Proof. induction rs as [|[[k' i] t] rs IH]; [done|]. cbn [app count] in *. rewrite IH. cbn [count]. lia. Qed.

Lemma uint64_succ a : uint64 (uint64 a + 1) = uint64 (a + 1).
Proof. unfold uint64. by rewrite Z.add_mod_idemp_l. Qed.

Lemma pool_run_summary rs i : pool_run rs !! i = summary i (of_iccid i rs).
Proof.
  unfold pool_run. induction rs as [|r rs IH] using rev_ind; [apply lookup_empty|].
  rewrite foldl_app. cbn [foldl]. set (p := foldl pool_step NewPool rs) in *.
  unfold of_iccid in *. rewrite filter_app, filter_cons, filter_nil. destruct r as [[k j] t]. cbn [fst snd].
  destruct (decide (j = i)) as [->|Hne].
  - unfold summary at 1. rewrite last_snoc, !count_snoc.
    assert (SentCount (getOrCreate p i) = uint64 (count Sent (filter (fun r => r.1.2 = i) rs)) /\
      ErrCount (getOrCreate p i) = uint64 (count Failed (filter (fun r => r.1.2 = i) rs)) /\ ICCID (getOrCreate p i) = i)
      as (H1 & H2 & H3).
    { unfold getOrCreate. rewrite IH. unfold summary.
      destruct (last (filter (fun r => r.1.2 = i) rs)) as [[[? ?] ?]|] eqn:E; [done|].
      apply last_None in E. by rewrite E. }
    destruct k; cbn [pool_step]; unfold RecordSent, RecordError; rewrite lookup_insert_eq, H1, H2, H3, uint64_succ;
      cbn [count same]; by rewrite ?Z.add_0_r.
  - rewrite app_nil_r, <- IH. destruct k; cbn [pool_step]; unfold RecordSent, RecordError; by rewrite lookup_insert_ne.
Qed.

(** After any sequence of recorded sends and errors, a snapshot has exactly one row for each ICCID that was
    recorded, with the number of its sends and of its errors (modulo 2^64) and the time of its
    last record; records of one ICCID never touch another's row. *)
Theorem snapshot_counts rs :
  (forall m, m ∈ Snapshot (pool_run rs) <-> exists i, summary i (of_iccid i rs) = Some m) /\
  NoDup (ICCID <$> Snapshot (pool_run rs)).
Proof.
  assert (forall i m, pool_run rs !! i = Some m -> ICCID m = i) as Hi.
  { intros i m. rewrite pool_run_summary. unfold summary. destruct (last _) as [[[? ?] ?]|]; [|done]. by intros [= <-]. }
  split.
  - intros m. unfold Snapshot. rewrite list_elem_of_fmap. split.
    + intros ([i m'] & -> & Hm). apply elem_of_map_to_list in Hm. exists i. by rewrite <- pool_run_summary.
    + intros [i Hs]. exists (i, m). split; [done|]. apply elem_of_map_to_list. by rewrite pool_run_summary.
  - unfold Snapshot. rewrite <- list_fmap_compose.
    assert ((ICCID ∘ snd) <$> map_to_list (pool_run rs) = (map_to_list (pool_run rs)).*1) as ->.
    { apply list_fmap_ext. intros k [i m] Hm. apply list_elem_of_lookup_2, elem_of_map_to_list in Hm. by apply Hi. }
    apply NoDup_fst_map_to_list.
Qed.
