(* ===== verification/Safe.v ===== *)
(** * Panic-safe goroutines (safe/safe.go)

    A goroutine's body is an action on the program's state that returns or
    panics.  [safe_Go] and [safe_GoWithWaitGroup] run it with the deferred calls
    in Go's order (last in, first out) and say how the goroutine ends: a panic
    that reaches the end of a goroutine kills the process. *)

From S2P Require Import Prelude.

Inductive ending := Returned | Panicked (value : string).

#[global] Instance ending_eq_dec : EqDecision ending.
Proof. solve_decision. Defined.

Section Safe.
Context {W : Type}.
Local Abbreviation body := (W -> W * ending).

(** [log.Error("goroutine panic — recovered", ...)]. *)
Context (log_panic : string -> string -> W -> W).

(** The deferred [recover]: a panic is logged and ends here. *)
Definition recovering (name : string) (fn : body) : body := fun w =>
  match fn w with
  | (w, Returned) => (w, Returned)
  | (w, Panicked r) => (log_panic name r w, Returned)
  end.

(** [defer done()]: runs when [fn] has ended, however it ended; its own panic
    takes the place of a panic in progress. *)
Definition deferring (done : body) (fn : body) : body := fun w =>
  let '(w, e) := fn w in
  match done w with
  | (w, Returned) => (w, e)
  | (w, Panicked r) => (w, Panicked r)
  end.

(** The goroutine started by [Go]. *)
Definition safe_Go (name : string) (fn : body) : body := recovering name fn.

(** The goroutine started by [GoWithWaitGroup]: [wg.Done] is deferred first, so it runs last. *)
Definition safe_GoWithWaitGroup (name : string) (Done : body) (fn : body) : body :=
  deferring Done (recovering name fn).

(** A goroutine started through the guard never ends by a panic of its body, so the body cannot bring the process
    down: its effects up to the panic stay, the panic is logged once under the goroutine's
    name, and with a wait group [Done] is called exactly once, after the body and the log, on both
    ways out. *)
Theorem guard_contains_panics name (fn : body) (Done : body) w :
  let after := match fn w with
               | (w, Returned) => w
               | (w, Panicked r) => log_panic name r w
               end in
  safe_Go name fn w = (after, Returned) /\
  safe_GoWithWaitGroup name Done fn w = Done after.
Proof.
  unfold safe_Go, safe_GoWithWaitGroup, deferring, recovering. destruct (fn w) as [w' []]; cbv zeta;
    (split; [done|]); destruct (Done _) as [? []]; done.
Qed.

End Safe.
