(* ===== verification/Metrics.v ===== *)
(** * Prometheus metrics (metrics/metrics.go)

    The metrics [New] creates, with name, kind, labels and buckets, and their
    registration.  The registry of the client library is an interface
    ([Registerer]): registering a metric succeeds unless one of that name is
    there, and [MustRegister] panics otherwise.  Counting itself is left out of
    the models of the other components. *)

From S2P Require Import Prelude Float64.

Inductive kind :=
| Counter | Gauge | CounterVec (labels : list string) | GaugeVec (labels : list string)
| HistogramVec (labels : list string) (buckets : list float64).

Record metric := { Name : string; Help : string; Kind : kind }.

(** ** The metrics, by field of [Gateway] *)

Local Open Scope string_scope.

Definition SMSReceived : metric :=
  {| Name := "smsgate_sms_received_total";
     Help := "Total SMS messages received, by iccid.";
     Kind := CounterVec ["iccid"] |}.
Definition SMSDelivered : metric :=
  {| Name := "smsgate_sms_delivered_total";
     Help := "Total SMS messages ACKed by cloud, by iccid.";
     Kind := CounterVec ["iccid"] |}.
Definition SMSSent : metric :=
  {| Name := "smsgate_sms_sent_total";
     Help := "SEND_SMS tasks completed, by iccid and status.";
     Kind := CounterVec ["iccid"; "status"] |}.
Definition MessagesSentTotal : metric :=
  {| Name := "smsgate_messages_sent_total";
     Help := "Total outbound SMS messages successfully sent, by iccid.";
     Kind := CounterVec ["iccid"] |}.
Definition MessagesFailedTotal : metric :=
  {| Name := "smsgate_messages_failed_total";
     Help := "Total outbound SMS messages that failed, by iccid and reason.";
     Kind := CounterVec ["iccid"; "reason"] |}.
Definition SMSPendingCount : metric :=
  {| Name := "smsgate_sms_pending_count";
     Help := "Current PENDING rows in SQLite buffer.";
     Kind := Gauge |}.
Definition ModemState : metric :=
  {| Name := "smsgate_modem_state";
     Help := "Current modem FSM state as numeric enum, by iccid.";
     Kind := GaugeVec ["iccid"] |}.
Definition ModemSignalRSSI : metric :=
  {| Name := "smsgate_modem_signal_rssi";
     Help := "Current RSSI in dBm, by iccid.";
     Kind := GaugeVec ["iccid"] |}.
Definition ActiveConnections : metric :=
  {| Name := "smsgate_active_connections";
     Help := "Number of modem workers currently in ACTIVE or EXECUTING state.";
     Kind := Gauge |}.
Definition RegistrationFailures : metric :=
  {| Name := "smsgate_registration_failures_total";
     Help := "Network registration failures (denied or recovery triggered), by iccid.";
     Kind := CounterVec ["iccid"] |}.
Definition TunnelState : metric :=
  {| Name := "smsgate_tunnel_state";
     Help := "1 = CONNECTED, 0 = disconnected.";
     Kind := Gauge |}.
Definition TunnelReconnectsTotal : metric :=
  {| Name := "smsgate_tunnel_reconnects_total";
     Help := "Total tunnel reconnection attempts.";
     Kind := Counter |}.
Definition ReconnectsTotal : metric :=
  {| Name := "smsgate_reconnects_total";
     Help := "Total tunnel reconnection attempts (canonical name).";
     Kind := Counter |}.
Definition QueueDepth : metric :=
  {| Name := "smsgate_queue_depth";
     Help := "Total tasks queued across all modem worker inbound channels.";
     Kind := Gauge |}.
Definition ATCmdDurationMs : metric :=
  {| Name := "smsgate_at_cmd_duration_ms";
     Help := "AT command round-trip time by command type.";
     Kind := HistogramVec ["command"]
              [rnd (5 # 1); rnd (10 # 1); rnd (25 # 1); rnd (50 # 1); rnd (100 # 1); rnd (250 # 1); rnd (500 # 1); rnd (1000 # 1); rnd (2500 # 1); rnd (5000 # 1); rnd (10000 # 1); rnd (30000 # 1); rnd (60000 # 1)] |}.
Definition TasksDropped : metric :=
  {| Name := "smsgate_tasks_dropped_total";
     Help := "Tasks rejected because the worker inbound queue was full, by iccid.";
     Kind := CounterVec ["iccid"] |}.
Definition WorkerStalls : metric :=
  {| Name := "smsgate_worker_stalls_total";
     Help := "Times a worker exceeded the stall threshold without progress, by iccid.";
     Kind := CounterVec ["iccid"] |}.
Definition ModemReconnectTotal : metric :=
  {| Name := "smsgate_modem_reconnect_total";
     Help := "Total modem reconnection attempts, by port.";
     Kind := CounterVec ["port"] |}.
Definition ModemSignalStrength : metric :=
  {| Name := "smsgate_modem_signal_strength";
     Help := "Current AT+CSQ signal strength in dBm, by iccid.";
     Kind := GaugeVec ["iccid"] |}.
Definition ActiveSerialPorts : metric :=
  {| Name := "smsgate_active_serial_ports";
     Help := "Number of currently open modem serial port connections.";
     Kind := Gauge |}.
Definition BufferPendingCount : metric :=
  {| Name := "smsgate_buffer_pending_count";
     Help := "Number of pending rows in the SQLite buffer awaiting flush.";
     Kind := Gauge |}.
Definition OutboxDepth : metric :=
  {| Name := "smsgate_outbox_depth";
     Help := "Number of events waiting in the tunnel outbox channel.";
     Kind := Gauge |}.
Definition TaskRoundTripDuration : metric :=
  {| Name := "smsgate_task_round_trip_seconds";
     Help := "End-to-end task execution time from dispatch to ACK, by action.";
     Kind := HistogramVec ["action"]
              [rnd (1 # 100); rnd (1 # 20); rnd (1 # 10); rnd (1 # 4); rnd (1 # 2); rnd (1 # 1); rnd (5 # 2); rnd (5 # 1); rnd (10 # 1); rnd (30 # 1)] |}.
Definition ATCommandDuration : metric :=
  {| Name := "smsgate_at_command_duration_seconds";
     Help := "AT command round-trip latency in seconds, by command.";
     Kind := HistogramVec ["command"]
              [rnd (1 # 1000); rnd (1 # 200); rnd (1 # 100); rnd (1 # 40); rnd (1 # 20); rnd (1 # 10); rnd (1 # 4); rnd (1 # 2); rnd (1 # 1); rnd (2 # 1); rnd (5 # 1)] |}.
Definition ModemInitDuration : metric :=
  {| Name := "smsgate_modem_init_duration_seconds";
     Help := "Duration of the modem initialisation sequence, by iccid.";
     Kind := HistogramVec ["iccid"]
              [rnd (1 # 2); rnd (1 # 1); rnd (2 # 1); rnd (5 # 1); rnd (10 # 1); rnd (30 # 1); rnd (60 # 1)] |}.
Definition WorkerPoolTotal : metric :=
  {| Name := "smsgate_worker_pool_total";
     Help := "Total configured modem workers.";
     Kind := Gauge |}.
Definition WorkerPoolActive : metric :=
  {| Name := "smsgate_worker_pool_active";
     Help := "Modem workers currently in ACTIVE or EXECUTING state.";
     Kind := Gauge |}.
Definition WorkerPoolBanned : metric :=
  {| Name := "smsgate_worker_pool_banned";
     Help := "Modem workers currently in BANNED state.";
     Kind := Gauge |}.
Definition ATRetryTotal : metric :=
  {| Name := "smsgate_at_retry_total";
     Help := "AT command retry attempts, by iccid and command.";
     Kind := CounterVec ["iccid"; "command"] |}.

(** The argument list of [reg.MustRegister], in order. *)
Definition registered_metrics : list metric :=
  [SMSReceived; SMSDelivered; SMSSent; MessagesSentTotal; MessagesFailedTotal; SMSPendingCount; ModemState; ModemSignalRSSI; ActiveConnections; RegistrationFailures; TunnelState; TunnelReconnectsTotal; ReconnectsTotal; QueueDepth; ATCmdDurationMs; TasksDropped; WorkerStalls; ModemReconnectTotal; ModemSignalStrength; ActiveSerialPorts; BufferPendingCount; OutboxDepth; TaskRoundTripDuration; ATCommandDuration; ModemInitDuration; WorkerPoolTotal; WorkerPoolActive; WorkerPoolBanned; ATRetryTotal].

(** ** Registration *)

(** A Prometheus registry: the names it holds, and registration. *)
Class Registerer (R : Type) := {
  names : R -> list string;
  Register : R -> metric -> option R;
  Register_new : forall r m, Name m ∉ names r -> exists r', Register r m = Some r' /\ names r' = Name m :: names r;
  Register_dup : forall r m, Name m ∈ names r -> Register r m = None
}.

(** [MustRegister]: panics at the first metric that is refused. *)
Fixpoint MustRegister {R} `{Registerer R} (r : R) (ms : list metric) : outcome go_error R :=
  match ms with
  | [] => Ok r
  | m :: ms => match Register r m with Some r => MustRegister r ms | None => Panic end
  end.

(** [New]: creates the metrics and registers them. *)
Definition Metrics_New {R} `{Registerer R} (r : R) : outcome go_error R := MustRegister r registered_metrics.

(** Buckets in increasing order. *)
Fixpoint increasing (l : list float64) : bool :=
  match l with
  | a :: ((b :: _) as l') => flt a b && increasing l'
  | _ => true
  end.

Definition buckets_increase (m : metric) : bool :=
  match Kind m with HistogramVec _ bs => increasing bs | _ => true end.

Lemma MustRegister_new {R} `{Registerer R} ms : forall r,
  NoDup (Name <$> ms) -> (forall n, n ∈ Name <$> ms -> n ∉ names r) ->
  exists r', MustRegister r ms = Ok r' /\ forall n, n ∈ names r' <-> n ∈ Name <$> ms \/ n ∈ names r.
Proof.
  induction ms as [|m ms IH]; intros r Hd Hn; cbn [MustRegister].
  { exists r. split; [done|]. intros n. cbn. rewrite elem_of_nil. tauto. }
  rewrite fmap_cons in Hd, Hn. apply NoDup_cons in Hd as [Hm Hd].
  destruct (Register_new r m) as (r1 & -> & Hr1); [apply Hn; by left|].
  destruct (IH r1 Hd) as (r2 & -> & Hr2).
  { intros n Hin. rewrite Hr1, not_elem_of_cons. split; [intros ->; done|]. apply Hn. by right. }
  exists r2. split; [done|]. intros n. rewrite Hr2, Hr1, fmap_cons, !elem_of_cons. tauto.
Qed.

(** Building the metrics on a registry that holds none of their names never panics, and registers every one
    of the 29; the buckets of every histogram increase, as the library requires; building them a second
    time on the same registry panics. *)
Theorem metrics_register_once {R} `{Registerer R} (r : R) :
  (forall m, m ∈ registered_metrics -> Name m ∉ names r) ->
  exists r', Metrics_New r = Ok r' /\
    (forall m, m ∈ registered_metrics -> Name m ∈ names r') /\ length registered_metrics = 29%nat /\
    forallb buckets_increase registered_metrics = true /\
    Metrics_New r' = Panic.
Proof.
  intros Hn. unfold Metrics_New. destruct (MustRegister_new registered_metrics r) as (r' & -> & Hr).
  - apply (bool_decide_unpack _). vm_compute. exact I.
  - intros n (m & -> & Hm)%list_elem_of_fmap. by apply Hn.
  - assert (forall m, m ∈ registered_metrics -> Name m ∈ names r') as Hall.
    { intros m Hm. apply Hr. left. apply list_elem_of_fmap. by exists m. }
    exists r'. split; [done|]. split; [done|]. split; [done|]. split; [vm_compute; done|].
    cbn [MustRegister registered_metrics]. by rewrite Register_dup by (apply Hall; unfold registered_metrics; left).
Qed.

(** The registry as the list of its names. *)
#[global] Instance name_registry : Registerer (list string).
Proof.
  refine {| names r := r; Register r m := if decide (Name m ∈ r) then None else Some (Name m :: r) |}.
  - intros r m Hm. rewrite decide_False by done. by eexists.
  - intros r m Hm. by rewrite decide_True.
Defined.

Lemma metrics_register_once_witness :
  exists r', Metrics_New ([] : list string) = Ok r' /\ Metrics_New r' = Panic.
Proof.
  destruct (metrics_register_once ([] : list string)) as (r' & H1 & _ & _ & _ & H2).
  - intros m _. apply not_elem_of_nil.
  - by exists r'.
Defined.
