(* ===== verification/Program.v ===== *)
(** * The program: reload and entry point (config/watcher.go, cmd/gateway/main.go)

    [WatchReload] over a schedule of signals, wake-ups of the watcher and the end
    of the context; [run] and [main] over the command line, with the loaded
    configuration and the gateway's outcome as arguments; [buildLogger] as the
    settings of the logger it makes. *)

From S2P Require Import Prelude GoString Config.

(** ** Reload on SIGHUP *)

(** [ch] has room for one signal; [applied] are the configurations given to
    [apply], [loads] counts the calls of [Load]. *)
Record watcher := { pending : bool; applied : list GatewayConfig; loads : nat; stopped : bool }.

(** [Wake] is the watcher receiving from [ch]: the environment and what reading
    the file gives at that moment. *)
Inductive watch_event := Sighup | Wake (env : environment) (file : res string) | CtxDone.

Definition watch_start : watcher := {| pending := false; applied := []; loads := 0; stopped := false |}.

Section Reload.
Context (decode : string -> res GatewayConfig).

Definition watch_step (w : watcher) (e : watch_event) : watcher :=
  if stopped w then w
  else match e with
       | CtxDone => {| pending := pending w; applied := applied w; loads := loads w; stopped := true |}
       | Sighup => {| pending := true; applied := applied w; loads := loads w; stopped := false |}
       | Wake env file =>
         if pending w then
           match Load decode env file with
           | inl _ => {| pending := false; applied := applied w; loads := S (loads w); stopped := false |}
           | inr cfg => {| pending := false; applied := applied w ++ [cfg]; loads := S (loads w); stopped := false |}
           end
         else w
       end.

Definition WatchReload (es : list watch_event) : watcher := foldl watch_step watch_start es.

Definition running (es : list watch_event) : Prop := CtxDone ∉ es.

Lemma stopped_run es w : CtxDone ∉ es -> stopped w = false -> stopped (foldl watch_step w es) = false.
Proof.
  revert w. induction es as [|e es IH]; intros w Hn Hs; [done|]. rewrite not_elem_of_cons in Hn. cbn [foldl].
  apply IH; [tauto|]. unfold watch_step. rewrite Hs. destruct e as [|env file|]; [done| |tauto].
  destruct (pending w); [|done]. by destruct (Load decode env file).
Qed.

(** Signals that find the channel full are dropped, the one in it stays. *)
Lemma pending_run es w :
  stopped w = false -> pending w = true -> (forall e, e ∈ es -> e = Sighup) ->
  let w' := foldl watch_step w es in pending w' = true /\ applied w' = applied w /\ loads w' = loads w /\ stopped w' = false.
Proof.
  revert w. induction es as [|e es IH]; intros w Hs Hp He; [done|]. cbn [foldl].
  rewrite (He e) by (by left).
  assert (watch_step w Sighup = {| pending := true; applied := applied w; loads := loads w; stopped := false |}) as ->.
  { unfold watch_step. by rewrite Hs. }
  apply (IH {| pending := true; applied := applied w; loads := loads w; stopped := false |}); [done..|].
  intros e' He'. apply He. by right.
Qed.

(** No reload is lost: when a SIGHUP arrives, alone or in a burst, the watcher's next wake-up reads the file as it
    is then; if it is valid, that configuration is applied next, and if not, nothing is applied and the
    watcher goes on.  What is applied is always the result of a successful [Load]. *)
Theorem reload_not_lost before burst env file :
  running before -> (forall e, e ∈ burst -> e = Sighup) ->
  let w := WatchReload before in
  let w' := WatchReload (before ++ Sighup :: burst ++ [Wake env file]) in
  stopped w' = false /\ loads w' = S (loads w) /\
  applied w' = applied w ++ match Load decode env file with inr cfg => [cfg] | inl _ => [] end.
Proof.
  intros Hr Hb. unfold WatchReload, running in *. rewrite !foldl_app. cbn [foldl].
  set (w := foldl watch_step watch_start before).
  assert (stopped w = false) as Hs by (by apply stopped_run).
  assert (watch_step w Sighup = {| pending := true; applied := applied w; loads := loads w; stopped := false |}) as E.
  { unfold watch_step. by rewrite Hs. }
  rewrite foldl_app, E. cbn [foldl].
  destruct (pending_run burst {| pending := true; applied := applied w; loads := loads w; stopped := false |}) as (P1 & P2 & P3 & P4); [done..|].
  unfold watch_step at 1 3 5. rewrite P4, P1. cbn in P2, P3.
  destruct (Load decode env file) as [err|cfg]; cbn; rewrite P2, P3, ?app_nil_r; done.
Qed.

End Reload.

(** A first reload fails (the file is gone), two signals in a row follow, and
    the file is read once for them. *)
Lemma reload_not_lost_witness :
  let before := [Sighup; Wake demo_env (inl (errors_New "no such file"))] in
  let w := WatchReload (fun _ => inr demo_file) before in
  let w' := WatchReload (fun _ => inr demo_file) (before ++ Sighup :: [Sighup] ++ [Wake demo_env (inr "x")]) in
  stopped w' = false /\ loads w' = S (loads w) /\
  applied w' = applied w ++ match Load (fun _ => inr demo_file) demo_env (inr "x") with inr cfg => [cfg] | inl _ => [] end.
Proof.
  apply (reload_not_lost (fun _ => inr demo_file) _ [Sighup] demo_env (inr "x")).
  - unfold running. rewrite !not_elem_of_cons. split; [done|]. split; [done|apply not_elem_of_nil].
  - intros e He. by apply list_elem_of_singleton in He.
Defined.

(** ** Logging *)

Inductive level := LevelDebug | LevelInfo | LevelWarn | LevelError.
#[global] Instance level_eq_dec : EqDecision level.
Proof. solve_decision. Defined.

Inductive handler := JSONHandler | TextHandler.

Record logger := { log_level : level; add_source : bool; log_handler : handler }.

Definition buildLogger (lvl format : string) : logger :=
  let slogLevel :=
    if String.eqb lvl "debug" then LevelDebug
    else if String.eqb lvl "warn" then LevelWarn
    else if String.eqb lvl "error" then LevelError
    else LevelInfo in
  {| log_level := slogLevel; add_source := bool_decide (slogLevel = LevelDebug);
     log_handler := if String.eqb format "json" then JSONHandler else TextHandler |}.

(** ** The entry point *)

Record flags := { configPath : string; showVersion : bool; dryRun : bool }.

Section Main.
Context {G : Type}.
Context (version : string).
Context (load : string -> res GatewayConfig).
Context (gateway_New : GatewayConfig -> logger -> res G).
Context (gateway_Run : G -> option go_error).

(** What is printed on standard output, whether a gateway was built, and the error returned. *)
Definition run (f : flags) : list string * bool * option go_error :=
  if showVersion f then (["sms-gate " +:+ version], false, None)
  else match load (configPath f) with
       | inl err => ([], false, Some (Wrapf "load config %q: %w" [configPath f] err))
       | inr conf =>
         if dryRun f then
           (["config OK: gateway_id=" +:+ G_ID (Gateway conf) +:+ ", modems=" +:+ itoa (Z.of_nat (length (Modems conf)))
             +:+ ", tunnel=" +:+ T_URL (Tunnel conf)], false, None)
         else
           match gateway_New conf (buildLogger (G_LogLevel (Gateway conf)) (G_LogFormat (Gateway conf))) with
           | inl err => ([], false, Some (Wrapf "build gateway: %w" [] err))
           | inr gw =>
             match gateway_Run gw with
             | Some err => ([], true, Some (Wrapf "gateway exited with error: %w" [] err))
             | None => ([], true, None)
             end
           end
       end.

(** [main]: the exit status. *)
Definition main (f : flags) : Z := match (run f).2 with Some _ => 1 | None => 0 end.

(** The command line.  "-version" touches neither configuration nor gateway and exits 0; "-dry-run" exits 0
    exactly when the configuration loads, without building a gateway; otherwise the exit status is 0
    exactly when the configuration loads, the gateway is built with the logger it names and runs to
    an end without error. *)
Theorem exit_status f :
  main f = 0%Z <->
  showVersion f = true \/
  exists conf, load (configPath f) = inr conf /\
    (dryRun f = true \/
     exists gw, gateway_New conf (buildLogger (G_LogLevel (Gateway conf)) (G_LogFormat (Gateway conf))) = inr gw /\
                gateway_Run gw = None).
Proof.
  unfold main, run. destruct (showVersion f); [cbn; tauto|].
  destruct (load (configPath f)) as [err|conf].
  { split; [done|]. by intros [?|(conf & ? & _)]. }
  destruct (dryRun f).
  { split; [|done]. intros _. right. exists conf. split; [done|by left]. }
  destruct (gateway_New conf _) as [err|gw] eqn:E.
  { split; [done|]. intros [?|(c & [= <-] & [?|(gw & E2 & _)])]; congruence. }
  destruct (gateway_Run gw) as [err|] eqn:E2.
  - split; [done|]. intros [?|(c & [= <-] & [?|(gw' & E3 & E4)])]; congruence.
  - split; [|done]. intros _. right. exists conf. split; [done|]. right. by exists gw.
Qed.

End Main.

(** ** Where validation and logger disagree *)

(** [validate] accepts a level in any case, [buildLogger] knows lower case only:
    "DEBUG" is accepted and logs at info. *)
Lemma upper_case_level_ignored :
  known_level "DEBUG" = true /\ log_level (buildLogger "DEBUG" "text") = LevelInfo /\
  log_level (buildLogger "debug" "text") = LevelDebug.
Proof. done. Qed.

(** The log format is not validated: any unknown one is text. *)
Lemma unknown_format_is_text f : f <> "json"%string -> log_handler (buildLogger "info" f) = TextHandler.
Proof. intros Hf. cbn. by destruct (String.eqb_spec f "json"). Qed.
