(* ===== verification/Gsm7Gen.v ===== *)
(** * The table generator (at/gen_gsm7.go)

    The text the generator prints before formatting, line by line, and a reader
    of Go rune literals.  [generated_tables_agree]: read back, the generated
    alphabets are those of at/pdu.go, entry by entry, and the generated reverse
    table is the codec's without the escape. *)

From S2P Require Import Prelude GoString Gsm7.

Local Open Scope Z_scope.

(** The generator's own tables. *)
Definition gsm7Basic : list Z :=
  [64; 163; 36; 165; 232; 233; 249; 236; 242; 199; 10; 216; 248; 13; 197; 229;
   916; 95; 934; 915; 923; 937; 928; 936; 931; 920; 926; 27; 198; 230; 223; 201;
   32; 33; 34; 35; 164; 37; 38; 39; 40; 41; 42; 43; 44; 45; 46; 47;
   48; 49; 50; 51; 52; 53; 54; 55; 56; 57; 58; 59; 60; 61; 62; 63;
   161; 65; 66; 67; 68; 69; 70; 71; 72; 73; 74; 75; 76; 77; 78; 79;
   80; 81; 82; 83; 84; 85; 86; 87; 88; 89; 90; 196; 214; 209; 220; 167;
   191; 97; 98; 99; 100; 101; 102; 103; 104; 105; 106; 107; 108; 109; 110; 111;
   112; 113; 114; 115; 116; 117; 118; 119; 120; 121; 122; 228; 246; 241; 252; 224].

Definition gen_Extension : gmap Z Z :=
  list_to_map [(10, 12); (20, 94); (40, 123); (41, 125); (47, 92); (60, 91); (61, 126); (62, 93); (64, 124); (101, 8364)].

(** ** Literals *)

(** [%0nx] and [%0nX]. *)
Fixpoint hex_fixed (n : nat) (z : Z) : list Z :=
  match n with
  | O => []
  | S n => hex_fixed n (z / 16) ++ [hex_digit (z mod 16)]
  end.
Definition hex_upper (n : nat) (z : Z) : list Z := map upper_byte (hex_fixed n z).

Definition quote (l : list Z) : list Z := [39] ++ l ++ [39].

(** The literal of a rune in the basic table. *)
Definition basic_literal (r : Z) : list Z :=
  if r =? 10 then quote (bytes_of "\n")
  else if r =? 13 then quote (bytes_of "\r")
  else if r =? 39 then bytes_of "0x27"
  else if r =? 27 then bytes_of "0x1B"
  else if (32 <=? r) && (r <=? 126) then quote [r]
  else quote (bytes_of "\u" ++ hex_fixed 4 r).

(** In the extension table. *)
Definition ext_literal (r : Z) : list Z :=
  if r =? 12 then quote (bytes_of "\f")
  else if r =? 92 then quote (bytes_of "\\")
  else quote (utf8_encode_rune r).

(** In the reverse table. *)
Definition reverse_literal (r : Z) : list Z :=
  if r =? 10 then quote (bytes_of "\n")
  else if r =? 13 then quote (bytes_of "\r")
  else if r =? 39 then bytes_of "0x" ++ hex_upper 4 r
  else if (32 <=? r) && (r <=? 126) then quote [r]
  else quote (bytes_of "\u" ++ hex_fixed 4 r).

(** ** The printed text *)

Definition line (l : list Z) : list Z := l ++ [10].

(** A row of sixteen literals. *)
Definition basic_row (i : nat) : list Z :=
  line ([9] ++ flat_map (fun j => (if (i <? j)%nat then [32] else []) ++ basic_literal (nth j gsm7Basic 0) ++ bytes_of ",")
                        (seq i 16)).

Definition ext_codes : list Z := [10; 20; 40; 41; 47; 60; 61; 62; 64; 101].

Definition ext_line (code : Z) : list Z :=
  line ([9] ++ bytes_of "0x" ++ hex_upper 2 code ++ bytes_of ": " ++
        ext_literal (default 0 (gen_Extension !! code)) ++ bytes_of ",").

(** The entries of the reverse table: all but the escape and empty slots. *)
Definition reverse_entries : list (Z * Z) :=
  filter (fun p => p.2 <> 27 /\ p.2 <> 0) (zip (seqZ 0 128) gsm7Basic).

Definition reverse_line (p : Z * Z) : list Z :=
  line ([9] ++ reverse_literal p.2 ++ bytes_of ": 0x" ++ hex_upper 2 p.1 ++ bytes_of ",").

(** The buffer handed to the formatter. *)
Definition generated : list Z :=
  line (bytes_of "// Code generated by gen_gsm7.go; DO NOT EDIT.") ++
  line (bytes_of "// Source: 3GPP TS 23.038 Table 6.2.1 and Table 6.2.1.1") ++ line [] ++
  line (bytes_of "package at") ++ line [] ++
  line (bytes_of "// gsm7Charset maps GSM7 code point (0-127) to Unicode rune.") ++
  line (bytes_of "// 3GPP TS 23.038 Table 6.2.1 — GSM 7-bit Default Alphabet.") ++
  line (bytes_of "var gsm7Charset = [128]rune{") ++
  flat_map basic_row [0; 16; 32; 48; 64; 80; 96; 112]%nat ++ line (bytes_of "}") ++ line [] ++
  line (bytes_of "// gsm7Extension maps GSM7 extension-table code points to Unicode rune.") ++
  line (bytes_of "// 3GPP TS 23.038 Table 6.2.1.1 — GSM 7-bit Default Extension Table.") ++
  line (bytes_of "var gsm7Extension = map[byte]rune{") ++
  flat_map ext_line ext_codes ++ line (bytes_of "}") ++ line [] ++
  line (bytes_of "// gsm7Reverse maps Unicode rune to GSM7 basic code point.") ++
  line (bytes_of "var gsm7Reverse = map[rune]byte{") ++
  flat_map reverse_line reverse_entries ++ line (bytes_of "}").

(** ** Reading the text *)

(** The value of a Go integer or rune literal at the head of [l], and the rest. *)
Fixpoint hex_digits (acc : Z) (n : nat) (l : list Z) : Z * list Z :=
  match n, l with
  | S n, c :: l' => match from_hex_char c with Some d => hex_digits (16 * acc + d) n l' | None => (acc, l) end
  | _, _ => (acc, l)
  end.

Definition unquote (r : Z) (l : list Z) : option (Z * list Z) :=
  match l with
  | 39 :: l => Some (r, l)
  | _ => None
  end.

Definition read_literal (l : list Z) : option (Z * list Z) :=
  match l with
  | 48 :: 120 :: l => Some (hex_digits 0 8 l)
  | 39 :: 92 :: 110 :: l => unquote 10 l
  | 39 :: 92 :: 114 :: l => unquote 13 l
  | 39 :: 92 :: 102 :: l => unquote 12 l
  | 39 :: 92 :: 92 :: l => unquote 92 l
  | 39 :: 92 :: 117 :: l => let '(r, l) := hex_digits 0 4 l in unquote r l
  | 39 :: 92 :: _ => None
  | 39 :: l =>
    match utf8_decode l with
    | r :: _ => unquote r (drop (length (utf8_encode_rune r)) l)
    | [] => None
    end
  | _ => None
  end.

(** Lines of the text between the one that starts with [head] and the next "}". *)
Fixpoint lines_of (cur : list Z) (l : list Z) : list (list Z) :=
  match l with
  | [] => []
  | 10 :: l => rev cur :: lines_of [] l
  | c :: l => lines_of (c :: cur) l
  end.

Fixpoint block_body (ls : list (list Z)) : list (list Z) :=
  match ls with
  | [] => []
  | l :: ls => if bool_decide (l = bytes_of "}") then [] else l :: block_body ls
  end.

Fixpoint block (head : list Z) (ls : list (list Z)) : list (list Z) :=
  match ls with
  | [] => []
  | l :: ls => if bool_decide (l = head) then block_body ls else block head ls
  end.

(** Separators the formatter also skips: tab, blank, comma, colon. *)
Definition separator (c : Z) : bool := existsb (Z.eqb c) [9; 32; 44; 58].

(** All literals of a line; each round consumes a byte. *)
Fixpoint literals (fuel : nat) (l : list Z) : option (list Z) :=
  match fuel, l with
  | _, [] => Some []
  | O, _ => None
  | S fuel, c :: l' =>
    if separator c then literals fuel l'
    else match read_literal l with
         | Some (r, rest) => rs ← literals fuel rest; Some (r :: rs)
         | None => None
         end
  end.

Definition read_block (head : string) : option (list Z) :=
  rows ← mapM (fun l => literals (length l) l) (block (bytes_of head) (lines_of [] generated));
  Some (concat rows).

Fixpoint pairs (l : list Z) : list (Z * Z) :=
  match l with
  | a :: b :: l => (a, b) :: pairs l
  | _ => []
  end.

(** The generated Go source, read back by the rules of Go's literals, declares exactly the tables the codec uses:
    the 128 runes of the basic alphabet in order and the extension table; its reverse table is the inverse the codec builds
    at start-up, for every rune but the escape. *)
Theorem generated_tables_agree :
  read_block "var gsm7Charset = [128]rune{" = Some gsm7Charset /\
  (list_to_map ∘ pairs) <$> read_block "var gsm7Extension = map[byte]rune{" = Some gsm7Extension /\
  (list_to_map ∘ pairs) <$> read_block "var gsm7Reverse = map[rune]byte{" = Some (delete 27 runeToGSM7).
Proof. split; [vm_compute; reflexivity|]. split; vm_compute; reflexivity. Qed.

(** The codec's own inverse also maps U+001B, to the escape code. *)
Lemma escape_is_encodable : runeToGSM7 !! 27 = Some 27.
Proof. vm_compute. reflexivity. Qed.
