(* ===== verification/Dial.v ===== *)
(** * Dialling and pacing (tunnel/manager.go: dial, backOff, the loop of Run)

    The request [dial] makes, its reaction to the answer, and the times the loop
    of [Run] waits between connections ([Tunnel] models what happens in a
    session).  [reconnect_pacing] bounds the waits. *)

From S2P Require Import Prelude GoString Protocol Float64 Backoff.

Local Open Scope Z_scope.

(** The fields of [ManagerConfig] these functions read; [D_TokenFn] is what the
    callback would return now. *)
Record DialConfig := {
  D_GatewayID : string; D_URL : string; D_Token : string; D_TokenFn : option string;
  D_TLSSkipVerify : bool; D_HandshakeTimeout : Z; D_ReconnectBase : Z; D_ReconnectMax : Z
}.

Record dial_request := {
  dr_url : string; dr_header : list (string * string); dr_handshakeTimeout : Z; dr_insecure : bool
}.

(** What [DialContext] gives: a connection, or an error with the status of the
    HTTP response if there was one. *)
Inductive dial_answer := Connected | Refused (status : option Z).

Definition dial_target (cfg : DialConfig) : dial_request :=
  {| dr_url := D_URL cfg;
     dr_header := [("Authorization", "Bearer " +:+ D_Token cfg); ("X-Gateway-ID", D_GatewayID cfg);
                   ("X-Protocol-Version", itoa ProtocolVersion)]%string;
     dr_handshakeTimeout := if D_HandshakeTimeout cfg <=? 0 then 15 * Second else D_HandshakeTimeout cfg;
     dr_insecure := D_TLSSkipVerify cfg |}.

(** [dial]: the request, the time slept, and whether there is a connection. *)
Definition dial (cfg : DialConfig) (answer : dial_answer) : dial_request * Z * bool :=
  let slept :=
    match answer with
    | Refused (Some status) => if (status =? 401) || (status =? 403) then 30 * Second else 0
    | _ => 0
    end in
  (dial_target cfg, slept, match answer with Connected => true | Refused _ => false end).

(** [backOff]: the counter and the delay, cut short when the context ends. *)
Definition backOff_delay (cfg : DialConfig) (attempt : Z) (coin : Z) (u : float64) : Z * Z :=
  let attempt := attempt + 1 in
  (attempt, ComputeWith attempt (D_ReconnectBase cfg) (D_ReconnectMax cfg) DefaultJitter coin u).

(** What one round of [Run] waits: the counter after it, the sleep in [dial]
    and the back-off after the failure or after the session. *)
Record pause := { p_attempt : Z; p_slept : Z; p_delay : Z }.

Definition pace_round (cfg : DialConfig) (attempt : Z) (answer : dial_answer) (coin : Z) (u : float64) : pause :=
  let '(_, slept, connected) := dial cfg answer in
  let attempt := if connected then 0 else attempt in
  let '(attempt, delay) := backOff_delay cfg attempt coin u in
  {| p_attempt := attempt; p_slept := slept; p_delay := delay |}.

Fixpoint pace (cfg : DialConfig) (attempt : Z) (rounds : list (dial_answer * Z * float64)) : list pause :=
  match rounds with
  | [] => []
  | (answer, coin, u) :: rounds =>
    let p := pace_round cfg attempt answer coin u in p :: pace cfg (p_attempt p) rounds
  end.

(** ** Pacing *)

(** Refused dials since the last session (one more when there was a session:
    its end counts as a failure). *)
Fixpoint streak (n : Z) (rounds : list (dial_answer * Z * float64)) : list Z :=
  match rounds with
  | [] => []
  | (Connected, _, _) :: rounds => 1 :: streak 1 rounds
  | (Refused _, _, _) :: rounds => (n + 1) :: streak (n + 1) rounds
  end.

(** At most a fifth off the nominal delay, up to the rounding of the arithmetic. *)
Definition within_fifth (d x : Z) : Prop := 4 * d - 15 <= 5 * x <= 6 * d + 10.

Definition fair (r : dial_answer * Z * float64) : Prop := exists u, r.2 = F u /\ (0 <= u <= 1)%Q.

Lemma jittered_bounds attempt base max coin u :
  in_int64 attempt = true -> 0 <= base <= 2 ^ 45 -> 0 <= max <= 2 ^ 45 -> (0 <= u <= 1)%Q ->
  within_fifth (nominal attempt base max) (ComputeWith attempt base max DefaultJitter coin (F u)).
Proof.
  intros Ha Hb Hm Hu. change DefaultJitter with (F (3602879701896397 # 18014398509481984)).
  destruct (ComputeWith_bounds attempt base max (3602879701896397 # 18014398509481984) coin u Ha Hb Hm ltac:(split; lra) Hu)
    as [_ [H1 H2]].
  set (r := ComputeWith _ _ _ _ _ _) in *. set (d := nominal attempt base max) in *.
  assert (0 <= inject_Z d <= 35184372088832)%Q as Hd.
  { change 0%Q with (inject_Z 0). change 35184372088832%Q with (inject_Z (2 ^ 45)). rewrite <- !Zle_Qle.
    unfold d, nominal. assert (0 <= 2 ^ doublings attempt) by (apply Z.pow_nonneg; lia). nia. }
  split; rewrite Zle_Qle, ?inject_Z_minus, ?inject_Z_plus, !inject_Z_mult.
  - unfold Z.sub. rewrite inject_Z_plus, inject_Z_mult. change (inject_Z 4) with 4%Q. change (inject_Z 5) with 5%Q.
    change (inject_Z (- (15))) with (-15 # 1)%Q. lra.
  - change (inject_Z 6) with 6%Q. change (inject_Z 5) with 5%Q. change (inject_Z 10) with 10%Q. lra.
Qed.

(** The server refused the gateway's credentials. *)
Definition auth_refused (a : dial_answer) : Prop := a = Refused (Some 401) \/ a = Refused (Some 403).

Lemma dial_slept cfg a :
  (auth_refused a -> (dial cfg a).1.2 = 30 * Second) /\ (~ auth_refused a -> (dial cfg a).1.2 = 0).
Proof.
  unfold auth_refused, dial. cbn [fst snd]. split; [by intros [-> | ->]|]. destruct a as [|[st|]]; try done.
  intros Hn. destruct (Z.eqb_spec st 401) as [->|]; [tauto|]. destruct (Z.eqb_spec st 403) as [->|]; [tauto|done].
Qed.

(** What the wait of a round is to be. *)
Definition paced (cfg : DialConfig) (r : dial_answer * Z * float64) (p : pause) : Prop :=
  let base := D_ReconnectBase cfg in let max := D_ReconnectMax cfg in
  within_fifth (nominal (p_attempt p) base max) (p_delay p) /\
  4 * Z.min base max - 15 <= 5 * p_delay p <= 6 * max + 10 /\
  (auth_refused r.1.1 -> p_slept p = 30 * Second) /\ (~ auth_refused r.1.1 -> p_slept p = 0).

Lemma within_fifth_limits attempt base max x :
  0 <= base -> 0 <= max -> within_fifth (nominal attempt base max) x -> 4 * Z.min base max - 15 <= 5 * x <= 6 * max + 10.
Proof.
  intros Hb Hm. unfold within_fifth, nominal. assert (1 <= 2 ^ doublings attempt).
  { apply (Z.pow_le_mono_r 2 0); [lia|]. unfold doublings. lia. } nia.
Qed.

(** C36: The pace of reconnection, for a base and a maximum delay of at most 2^45 ns (nine hours) and fewer than 2^62
    rounds.  Whatever the server answers and whatever jitter in [0, 1] is drawn, after its [k]-th failure in a row the
    manager waits min(base * 2^(k-1), max), a fifth more or less (and at most 3 ns for rounding), before it dials
    again; the end of a session counts as a failure, and a connection resets the count.  An authentication
    refusal (401 or 403) adds exactly thirty seconds and nothing else does.  So every wait is at least four fifths of the
    smaller of base and maximum, and at most six fifths of the maximum and those thirty seconds. *)
Theorem reconnect_pacing cfg rounds :
  0 <= D_ReconnectBase cfg <= 2 ^ 45 -> 0 <= D_ReconnectMax cfg <= 2 ^ 45 ->
  Z.of_nat (length rounds) < 2 ^ 62 -> Forall fair rounds ->
  p_attempt <$> pace cfg 0 rounds = streak 0 rounds /\ Forall2 (paced cfg) rounds (pace cfg 0 rounds).
Proof.
  intros Hb Hm Hl Hf. enough (forall n, 0 <= n -> n + Z.of_nat (length rounds) < 2 ^ 62 ->
    p_attempt <$> pace cfg n rounds = streak n rounds /\ Forall2 (paced cfg) rounds (pace cfg n rounds)) as H by (apply H; lia).
  clear Hl. induction Hf as [|[[a c] f] rounds (u & Hfu & Hu) Hf IH]; intros n Hn Hl; [by split; [|constructor]|].
  cbn [snd] in Hfu. subst f. cbn [length] in Hl. cbn [pace streak].
  set (m := match a with Connected => 0 | Refused _ => n end).
  assert (pace_round cfg n a c (F u) = {| p_attempt := m + 1; p_slept := (dial cfg a).1.2;
    p_delay := ComputeWith (m + 1) (D_ReconnectBase cfg) (D_ReconnectMax cfg) DefaultJitter c (F u) |}) as E by (by destruct a).
  assert (0 <= m <= n) as Hmn by (unfold m; destruct a; lia).
  destruct (IH (m + 1) ltac:(lia) ltac:(lia)) as [I1 I2]. rewrite E. cbn [p_attempt]. split.
  - rewrite fmap_cons, I1. by destruct a.
  - constructor; [|exact I2]. unfold paced. cbn [p_attempt p_delay p_slept fst].
    assert (within_fifth (nominal (m + 1) (D_ReconnectBase cfg) (D_ReconnectMax cfg))
      (ComputeWith (m + 1) (D_ReconnectBase cfg) (D_ReconnectMax cfg) DefaultJitter c (F u))) as HW.
    { apply jittered_bounds; try done. unfold in_int64. lia. }
    split; [done|]. split; [|apply dial_slept]. apply (within_fifth_limits (m + 1)); [lia|lia|done].
Qed.

Lemma reconnect_pacing_witness :
  let cfg := {| D_GatewayID := "gw"; D_URL := "wss://c"; D_Token := "t"; D_TokenFn := None; D_TLSSkipVerify := false;
                D_HandshakeTimeout := 0; D_ReconnectBase := Second; D_ReconnectMax := 60 * Second |} in
  let rounds := [(Refused None, 0, half); (Refused (Some 401), 1, half); (Connected, 0, half)] in
  p_attempt <$> pace cfg 0 rounds = [1; 2; 1] /\ Forall2 (paced cfg) rounds (pace cfg 0 rounds) /\
  p_slept <$> pace cfg 0 rounds = [0; 30 * Second; 0].
Proof.
  intros cfg rounds. split; [|split; [|reflexivity]];
    [refine (proj1 (reconnect_pacing cfg rounds _ _ _ _))|refine (proj2 (reconnect_pacing cfg rounds _ _ _ _))]; unfold cfg, rounds, Second; cbn; try lia;
  repeat constructor; (exists (1 # 2)%Q; split; [reflexivity|split; discriminate]).
Defined.

(** The token callback is documented to be called on each dial; [dial] sends the static token. *)
Lemma token_callback_ignored cfg fn :
  dial_target {| D_GatewayID := D_GatewayID cfg; D_URL := D_URL cfg; D_Token := D_Token cfg; D_TokenFn := fn;
                 D_TLSSkipVerify := D_TLSSkipVerify cfg; D_HandshakeTimeout := D_HandshakeTimeout cfg;
                 D_ReconnectBase := D_ReconnectBase cfg; D_ReconnectMax := D_ReconnectMax cfg |} = dial_target cfg.
Proof. reflexivity. Qed.
