(* ===== verification/Lifecycle.v ===== *)
(** * The gateway's HTTP server, scraper and life cycle (gateway/gateway.go: Run)

    The routes of the local HTTP server over the gateway of [Gateway]; the
    gauges the scraper publishes; and the end of [Run] as a function of the
    times at which the goroutines it waits for return.  [api_changes_nothing_else]
    says what a request can do; [run_clean_exit] when [Run] ends cleanly, and
    [gateway_stops_after_30s] that it does not wait for its context. *)

From S2P Require Import Prelude GoString Config RateLimit Buffer Serializer Protocol Registry Worker Tunnel TunnelProps Gateway.

Section Http.
Context {M DB : Type} `{HM : Modem M} `{HDB : SqlEngine DB}.
Local Abbreviation gateway := (@gateway M DB).

(** ** Responses *)

(** [rpath]: the path of the URL as sent, with nothing escaped in it. *)
Record http_request := { method : string; rpath : string; q_iccid : string }.

Record BuildMeta := { Commit : string; BuildTime : string; GoVersion : string }.

(** [Duration.Round(time.Second)] of a duration that is not negative. *)
Definition round_second (d : Z) : Z :=
  (let s := d / 1000000000 in if d mod 1000000000 <? 500000000 then s else s + 1)%Z.

(** [Duration.String] of whole seconds: hours and minutes once they are needed. *)
Definition duration_string (s : Z) : string :=
  (if (3600 <=? s)%Z then itoa (s / 3600) +:+ "h" else "") +:+
  (if (60 <=? s)%Z then itoa (s / 60 mod 60) +:+ "m" else "") +:+ itoa (s mod 60) +:+ "s".

Example uptimes :
  map (duration_string ∘ round_second) [0; 499999999; 500000000; 59500000000; 3599000000000; 7265000000000]%Z =
  ["0s"; "0s"; "1s"; "1m0s"; "59m59s"; "2h1m5s"].
Proof. reflexivity. Qed.

Record healthResponse := {
  HR_Status : string; HR_Version : string; HR_Commit : string; HR_BuildTime : string; HR_GoVersion : string; HR_Uptime : string
}.

(** [resp] of [healthHandler], under the status word. *)
Definition health_response (build : BuildMeta) (startTime now : Z) (word : string) : healthResponse :=
  {| HR_Status := word; HR_Version := agentVersion; HR_Commit := Commit build; HR_BuildTime := BuildTime build;
     HR_GoVersion := GoVersion build; HR_Uptime := duration_string (round_second (now - startTime)) |}.

(** The body of a response; [Metrics] is what the metrics library prints, [Text]
    a text the handler writes or gives to [http.Error], [Moved] the redirect to
    another path. *)
Inductive body := Metrics | Moved (to : string) | Text (t : string) | Health (h : healthResponse) | Statuses (l : list WorkerStatus).

(** ** Routes *)

Definition modemsHandler (g : gateway) (get : bool) : Z * body :=
  if negb get then (405%Z, Text "method not allowed")
  else (200%Z, Statuses (map_to_list (Snapshot (reg (g_tun g)))).*2).

(** What [modemResetHandler] writes with each status; [q] is the quotation mark. *)
Definition reset_text (code : Z) (ic : string) : string :=
  let q := String quote_char "" in
  if (code =? 405)%Z then "method not allowed"
  else if (code =? 400)%Z then "{" +:+ q +:+ "error" +:+ q +:+ ":" +:+ q +:+ "missing iccid query parameter" +:+ q +:+ "}"
  else if (code =? 404)%Z then "{" +:+ q +:+ "error" +:+ q +:+ ":" +:+ q +:+ "modem not found" +:+ q +:+ "}"
  else "{" +:+ q +:+ "status" +:+ q +:+ ":" +:+ q +:+ "reset requested" +:+ q +:+ "," +:+ q +:+ "iccid" +:+ q +:+ ":" +:+ q +:+
       ic +:+ q +:+ "}".

(** [cleanPath] of net/http: a rooted path without empty, dot and dot-dot
    elements; a final slash is kept. *)
Fixpoint clean_elements (rev_out elements : list string) : list string :=
  match elements with
  | [] => rev rev_out
  | e :: es =>
    if String.eqb e "" || String.eqb e "." then clean_elements rev_out es
    else if String.eqb e ".." then clean_elements (tail rev_out) es
    else clean_elements (e :: rev_out) es
  end.

Definition cleanPath (p : string) : string :=
  let elements := Split (ascii_of_byte 47) p in
  let np := String.concat "" (map (String.append "/") (clean_elements [] elements)) in
  match np with
  | "" => "/"
  | _ => if String.eqb (List.last elements "") "" then np +:+ "/" else np
  end.

Example clean_paths :
  map cleanPath ["/health"; "//modems//reset"; "/modems/../health"; "/modems/"; "/x/./"; ""; "/.."; "health"] =
  ["/health"; "/modems/reset"; "/health"; "/modems/"; "/x/"; "/"; "/"; "/health"].
Proof. reflexivity. Qed.

(** The paths of the [ServeMux] (without the pprof build tag); the mux answers a
    path that is not clean with a redirect to the clean one, except to CONNECT. *)
Definition serve (build : BuildMeta) (startTime : Z) (g : gateway) (r : http_request) : gateway * Z * body :=
  let get := String.eqb (method r) "GET" in
  if negb (String.eqb (method r) "CONNECT") && negb (String.eqb (cleanPath (rpath r)) (rpath r)) then
    (g, 301%Z, Moved (cleanPath (rpath r)))
  else if String.eqb (rpath r) "/metrics" then (g, 200%Z, Metrics)
  else if String.eqb (rpath r) "/health" then
    let '(c, word) := healthHandler g get in
    (g, c, if get then Health (health_response build startTime (tclock (g_tun g)) word) else Text word)
  else if String.eqb (rpath r) "/modems" then let '(c, b) := modemsHandler g get in (g, c, b)
  else if String.eqb (rpath r) "/modems/reset" then
    let '(g, c) := modemResetHandler g (String.eqb (method r) "POST") (q_iccid r) in (g, c, Text (reset_text c (q_iccid r)))
  else (g, 404%Z, Text "404 page not found").

(** A reset request for the worker at [addr] and nothing else. *)
Definition reset_requested (addr : nat) (g g' : gateway) : Prop :=
  g_slots g' = g_slots g /\ g_limiter g' = g_limiter g /\ g_next g' = g_next g /\ g_session g' = g_session g /\
  tbuf (g_tun g') = tbuf (g_tun g) /\ mgr (g_tun g') = mgr (g_tun g) /\ sent (g_tun g') = sent (g_tun g) /\
  workers (reg (g_tun g')) = workers (reg (g_tun g)) /\
  forall a, heap (reg (g_tun g')) !! a = (if decide (a = addr) then RequestReset else id) <$> heap (reg (g_tun g)) !! a.

(** C37: The local HTTP server cannot disturb the gateway: every request leaves its whole state unchanged, except a POST
    to /modems/reset that names a registered ICCID, which is answered 202 and does nothing but
    request a reset of that modem's worker; without an ICCID it is 400, with an unknown one 404, with another method
    405; and GET /health is 200 with status ok exactly while the tunnel is connected, degraded otherwise. *)
Theorem api_changes_nothing_else (build : BuildMeta) (startTime : Z) (g : gateway) (r : http_request) :
  let '(g', code, b) := serve build startTime g r in
  (g' = g \/
   rpath r = "/modems/reset"%string /\ method r = "POST"%string /\ code = 202%Z /\
   exists addr, workers (reg (g_tun g)) !! q_iccid r = Some addr /\ reset_requested addr g g') /\
  (rpath r = "/modems/reset"%string ->
   code = if negb (String.eqb (method r) "POST") then 405%Z
          else if String.eqb (q_iccid r) "" then 400%Z
          else match workers (reg (g_tun g)) !! q_iccid r with Some _ => 202%Z | None => 404%Z end) /\
  (rpath r = "/health"%string -> method r = "GET"%string ->
   (code = 200%Z <-> tstate (mgr (g_tun g)) = TunnelConnected) /\
   exists h, b = Health h /\ HR_Status h = (if (code =? 200)%Z then "ok" else "degraded")%string).
Proof.
  unfold serve. destruct (negb (String.eqb (method r) "CONNECT") && _) eqn:Ec.
  { apply andb_true_iff in Ec as [_ Ec]. split; [by left|]. split; intros Hp; rewrite Hp in Ec; by vm_compute in Ec. }
  clear Ec. destruct (String.eqb_spec (rpath r) "/metrics") as [E1|E1].
  { rewrite E1. split; [by left|]. split; done. }
  destruct (String.eqb_spec (rpath r) "/health") as [E2|E2].
  { rewrite E2. unfold healthHandler. destruct (String.eqb_spec (method r) "GET"); cbn [negb].
    - destruct (tstate _); (split; [by left|]; split; [done|]; intros _ _; split; [done|by eexists]).
    - split; [by left|]. split; done. }
  destruct (String.eqb_spec (rpath r) "/modems") as [E3|E3].
  { rewrite E3. destruct (modemsHandler g _). split; [by left|]. split; done. }
  destruct (String.eqb_spec (rpath r) "/modems/reset") as [E4|E4]; [|split; [by left|]; split; done].
  unfold modemResetHandler. destruct (String.eqb_spec (method r) "POST") as [Em|Em]; cbn [negb];
    [|split; [by left|]; split; [done|congruence]].
  destruct (String.eqb_spec (q_iccid r) ""); [split; [by left|]; split; [done|congruence]|].
  destruct (workers (reg (g_tun g)) !! q_iccid r) as [addr|] eqn:Ew; [|split; [by left|]; split; [done|congruence]].
  split; [|split; [done|congruence]]. right. do 3 (split; [done|]). exists addr. split; [done|].
  unfold reset_requested, on_tunnel. repeat split; try done.
  intros a. cbn. destruct (decide (a = addr)) as [->|Hne].
  - by rewrite lookup_alter_eq.
  - rewrite lookup_alter_ne by done. symmetry. apply option_fmap_id.
Qed.

(** ** The scraper *)

Record gauges := {
  QueueDepth : Z; BufferPendingCount : Z; OutboxDepth : Z;
  WorkerPoolTotal : Z; WorkerPoolActive : Z; WorkerPoolBanned : Z
}.

Definition OutboxLen (m : Manager) : Z := Z.of_nat (length (outbox m)).

(** One tick: a failing count leaves its gauge as it was. *)
Definition scrape (g : gateway) (old : gauges) : gauges :=
  let t := g_tun g in
  let '(total, active, banned) := PoolCounts (reg t) in
  {| QueueDepth := TotalQueueDepth (reg t);
     BufferPendingCount := match (PendingCount (tbuf t)).2 with inr pc => pc | inl _ => BufferPendingCount old end;
     OutboxDepth := OutboxLen (mgr t);
     WorkerPoolTotal := total; WorkerPoolActive := active; WorkerPoolBanned := banned |}.

End Http.

(** ** The end of Run *)

Definition shutdownTimeout : Z := 30 * 1000000000.

(** The goroutines in the wait group, in the order they are started. *)
Definition awaited (conf : GatewayConfig) : list string :=
  ["metrics-server"] ++ map (fun m => "modem-worker-" +:+ MC_Port m) (Modems conf) ++ ["tunnel-manager"].

(** When the last of them has returned, counted from the [select] at the end of
    [Run], if ever. *)
Fixpoint last_exit (returns : list (option Z)) : option Z :=
  match returns with
  | [] => Some 0%Z
  | r :: rs => match r, last_exit rs with Some a, Some b => Some (Z.max a b) | _, _ => None end
  end.

(** [Run]'s final [select], entered as soon as the goroutines are started, and
    the closing of the buffer: when it returns, whether all had exited, and the
    error it returns.  [returns] gives the time of each goroutine by its place
    among those awaited, [close] the result of the buffer's [Close]. *)
Definition Run_end (conf : GatewayConfig) (returns : nat -> option Z) (close : option go_error) : Z * bool * option go_error :=
  match last_exit (map returns (seq 0 (length (awaited conf)))) with
  | Some t => if (t <=? shutdownTimeout)%Z then (t, true, close) else (shutdownTimeout, false, close)
  | None => (shutdownTimeout, false, close)
  end.

Lemma last_exit_spec rs t : last_exit rs = Some t -> Forall (fun r => exists a, r = Some a /\ (a <= t)%Z) rs.
Proof.
  revert t. induction rs as [|[a|] rs IH]; intros t; cbn [last_exit]; [constructor| |done].
  destruct (last_exit rs) as [b|] eqn:E; [|done]. intros [= <-]. constructor; [exists a; split; [done|lia]|].
  eapply Forall_impl; [by apply IH|]. intros r (c & -> & Hc). exists c. split; [done|lia].
Qed.

(** A clean exit is reported only when every goroutine has returned. *)
Lemma run_clean_exit conf returns close t err :
  Run_end conf returns close = (t, true, err) ->
  err = close /\ forall i, i < length (awaited conf) -> exists a, returns i = Some a /\ (a <= t)%Z.
Proof.
  unfold Run_end. destruct (last_exit _) as [t'|] eqn:E; [|done]. destruct (_ <=? _)%Z; [|done]. intros [= <- <-].
  split; [done|]. intros i Hi. apply last_exit_spec in E. rewrite Forall_map, Forall_forall in E.
  apply E, elem_of_seq. lia.
Qed.

(** A gateway whose context is never cancelled: every goroutine works for ever,
    and the gateway stops after thirty seconds. *)
Lemma gateway_stops_after_30s conf : Run_end conf (fun _ => None) None = (30000000000%Z, false, None).
Proof. reflexivity. Qed.
