(* ===== verification/GatewayWf.v ===== *)
(** * The gateway's well-formedness

    Which workers exist, which of them run and which are reachable by tasks:
    the invariant [gateway_wf] of the heap of workers, the registry and the
    slots, preserved by every step of workers, tunnel and control API.
    [tunnel_rel] is the counterpart of [WorkerFrame.core_rel] for the tunnel: a
    relation that ignores everything but the registry, and that dispatching
    respects, is respected by every step of a session. *)

From S2P Require Import Prelude GoString Config Pdu RateLimit Buffer Serializer Protocol Registry Worker WorkerFrame WorkerSafety WorkerTasks WorkerSend Supervisor Tunnel TunnelProps Gateway.

(** ** The tunnel's use of the registry *)

Section TunnelFrame.
Context {DB : Type} `{HDB : SqlEngine DB}.
Variable conf : ManagerConfig.
Variable uuid : nat -> string.
Variable AddDays : Z -> Z -> Z.
Variable StatusFn : Registry -> list ModemStatus.
Variable write_ok : list outbound -> outbound -> bool.
Abbreviation tworld := (@tworld DB).

Record tunnel_rel (R : tworld -> tworld -> Prop) : Prop := {
  tr_same : forall t t', reg t' = reg t -> R t t';
  tr_dispatch : forall t task, R t (set_reg t (Dispatch (reg t) task).1) }.

Context (R : tworld -> tworld -> Prop) `{HR : !PreOrder R} (HC : tunnel_rel R).

Lemma t_same {A} (a : st tworld A) : (forall t, reg (a t).1 = reg t) -> preserves R a.
Proof. intros Ha t. apply (tr_same _ HC), Ha. Qed.

Lemma t_handleInbound raw : preserves R (handleInbound conf raw).
Proof.
  unfold handleInbound. destruct (Unmarshal_Envelope raw) as [e|env]; [by apply t_same|].
  destruct (String.eqb _ _).
  { destruct (Unmarshal_SMSDeliveredAck raw) as [e|ack]; [by apply t_same|]. apply t_same. intros t.
    cbv [mbind st_bind AckDelivered]. by destruct (MarkDelivered _ _ _). }
  destruct (String.eqb _ _); [|by apply t_same]. destruct (Unmarshal_Task raw) as [e|task]; [by apply t_same|].
  destruct (M_Routed conf); [|by apply t_same].
  apply preserves_bind; [exact _| |intros [e|]; by apply t_same].
  intros t. pose proof (tr_dispatch _ HC t task) as Hd. by destruct (Dispatch (reg t) task).
Qed.

Lemma t_await_ack i evs : preserves R (await_ack conf AddDays i evs).
Proof.
  induction evs as [|e evs IH]; intros t; cbn [await_ack];
    (destruct (decide _); [|by apply (tr_same _ HC)]); [by apply (tr_same _ HC)|].
  destruct e as [raw|e|o| |]; try (by apply (tr_same _ HC)).
  - pose proof (t_handleInbound raw t) as Hi. destruct (handleInbound conf raw t) as [t1 u]. etransitivity; [exact Hi|apply IH].
  - destruct (Push e t) as [t1 u] eqn:E. etransitivity; [|apply IH]. apply (tr_same _ HC).
    by injection E as <- _.
  - etransitivity; [|apply IH]. by apply (tr_same _ HC).
Qed.

Lemma t_flush_rows rs : forall evs, preserves R (flush_rows conf uuid AddDays write_ok rs evs).
Proof.
  induction rs as [|r rs IH]; intros evs t; cbn [flush_rows]; [by apply (tr_same _ HC)|].
  destruct (done_ctx t); [by apply (tr_same _ HC)|]. unfold t_envelope, writeJSON.
  destruct (write_ok _ _); [|by apply (tr_same _ HC)]. cbn iota beta.
  match goal with |- context [if ?b then flush_rows _ _ _ _ rs evs ?t1 else _] => set (t1' := t1) end.
  destruct (MaxPendingACKs <=? _).
  { etransitivity; [|apply IH]. by apply (tr_same _ HC). }
  set (t2 := set_mgr t1' _). pose proof (t_await_ack (ID r) evs t2) as Ha.
  destruct (await_ack conf AddDays (ID r) evs t2) as [t3 [evs' go]]. cbn [fst] in Ha.
  assert (R t t2) as H2 by (by apply (tr_same _ HC)).
  destruct go; (etransitivity; [exact H2|]); [etransitivity; [exact Ha|apply IH]|exact Ha].
Qed.

Lemma t_flushBuffer evs : preserves R (flushBuffer conf uuid AddDays write_ok evs).
Proof.
  intros t. unfold flushBuffer. destruct (flushing (mgr t)); [by apply (tr_same _ HC)|].
  unfold pending_rows. destruct (PendingRows _) as [db [e|rs]]; [by apply (tr_same _ HC)|].
  match goal with |- context [flush_rows _ _ _ _ rs evs ?t1] => set (t1' := t1) end.
  pose proof (t_flush_rows rs evs t1') as Hf. destruct (flush_rows _ _ _ _ _ _ _) as [t2 u].
  transitivity t1'; [by apply (tr_same _ HC)|]. transitivity t2; [exact Hf|]. by apply (tr_same _ HC).
Qed.

Lemma t_writeJSON e : preserves R (writeJSON write_ok e).
Proof. apply t_same. intros t. unfold writeJSON. by destruct (write_ok _ _). Qed.

Lemma t_cancel_on err : preserves R (cancel_on err).
Proof. apply t_same. intros t. by destruct err. Qed.

Lemma t_session_step e : preserves R (session_step conf uuid AddDays StatusFn write_ok e).
Proof.
  destruct e; cbn [session_step]; try (by apply t_same).
  - apply preserves_bind; [exact _|apply t_handleInbound|intros _; by apply t_same].
  - intros t. destruct (outbox (mgr t)) as [|e q]; [reflexivity|].
    etransitivity; [|exact (preserves_bind R _ _ (t_writeJSON e) t_cancel_on _)]. by apply (tr_same _ HC).
  - destruct ok; by apply t_same.
  - apply preserves_bind; [exact _| |apply t_cancel_on]. unfold sendHeartbeat.
    apply preserves_bind; [exact _| |].
    + apply t_same. intros t. unfold pending_count. by destruct (PendingCount (tbuf t)).
    + intros [e|n]; [by apply t_same|]. apply preserves_bind; [exact _|by apply t_same|intros env].
      apply preserves_bind; [exact _|apply preserves_get; exact _|intros t; apply t_writeJSON].
  - apply t_flushBuffer.
Qed.

Lemma t_session_open : preserves R (session_open conf uuid AddDays StatusFn write_ok).
Proof.
  unfold session_open, sendHello. apply preserves_bind; [exact _|by apply t_same|intros _].
  apply preserves_bind; [exact _|by apply t_same|intros _].
  apply preserves_bind; [exact _|by apply t_same|intros env].
  apply preserves_bind; [exact _|apply preserves_get; exact _|intros m; apply t_writeJSON].
Qed.
End TunnelFrame.

(** The registered names stay, and every worker of the heap keeps its identity. *)
Record reg_stable (r r' : Registry) : Prop := {
  rs_workers : workers r' = workers r;
  rs_heap : forall a, iccid <$> heap r' !! a = iccid <$> heap r !! a }.

#[global] Instance reg_stable_preorder : PreOrder reg_stable.
Proof. split; [by intros r|]. intros r1 r2 r3 [A1 A2] [B1 B2]. split; [congruence|]. intros a. by rewrite B2, A2. Qed.

Lemma send_stable r a it : reg_stable r (Registry_send r a it).1.
Proof.
  unfold Registry_send. destruct (heap r !! a) as [x|] eqn:Hx; [|reflexivity]. cbn [mbind option_bind].
  destruct (send_task x it) as [x'|] eqn:E; [|reflexivity].
  apply send_task_Some in E as [_ ->]. split; [done|]. intros b. cbn [heap fst].
  destruct (decide (b = a)) as [->|Hne]; [by rewrite lookup_insert_eq, Hx|by rewrite lookup_insert_ne].
Qed.

Lemma Dispatch_stable r task : reg_stable r (Dispatch r task).1.
Proof.
  unfold Dispatch. destruct (extractICCID task) as [e|ic]; [reflexivity|]. unfold Registry_Dispatch.
  destruct (workers r !! ic) as [a|]; [|reflexivity]. pose proof (send_stable r a (queued_task task)) as Hs.
  by destruct (Registry_send r a (queued_task task)).
Qed.

Lemma stable_tunnel_rel {DB} `{SqlEngine DB} :
  tunnel_rel (fun t t' : @tworld DB => reg_stable (reg t) (reg t')).
Proof. split; [intros t t' ->; reflexivity|]. intros t task. apply Dispatch_stable. Qed.

#[global] Instance stable_tunnel_preorder {DB} `{SqlEngine DB} :
  PreOrder (fun t t' : @tworld DB => reg_stable (reg t) (reg t')).
Proof. split; [by intros t|]. intros t1 t2 t3 H1 H2. by etransitivity. Qed.

(** ** A worker's step and its registration *)

Section Wf.
Context {M DB : Type} `{HM : Modem M} `{HDB : SqlEngine DB}.
Variable conf : ManagerConfig.
Variable uuid : nat -> string.
Variable AddDays : Z -> Z -> Z.
Variable write_ok : list outbound -> outbound -> bool.
Abbreviation world := (@world M DB).
Local Abbreviation gateway := (@gateway M DB).

(** A step keeps the worker's ICCID; it leaves the registry as it is, or takes
    the worker out of it when it ends. *)
Definition identity_kept (s s' : world) (r : option State) : Prop :=
  iccid (w s') = iccid (w s) /\
  registry s' = match r with None => registry s | Some _ => delete (iccid (w s)) (registry s) end.

Lemma loop_step_identity e (s : world) :
  let '(s', r) := loop_step uuid e s in identity_kept s s' r.
Proof. exact (loop_step_registry uuid e s). Qed.

(** ** The invariant *)

(** Every registered ICCID is that of a worker on the heap whose main loop one
    of the ports is running; running ports have workers of their own; addresses
    are allocated in order. *)
Record gateway_wf (g : gateway) : Prop := {
  gw_registered : forall ic a, workers (reg (g_tun g)) !! ic = Some a ->
    (exists x, heap (reg (g_tun g)) !! a = Some x /\ iccid x = ic) /\
    exists k sl, g_slots g !! k = Some sl /\ sl_phase sl = Running /\ sl_addr sl = a;
  gw_running : forall k sl, g_slots g !! k = Some sl -> sl_phase sl = Running ->
    is_Some (heap (reg (g_tun g)) !! sl_addr sl);
  gw_own : forall k1 k2 sl1 sl2, g_slots g !! k1 = Some sl1 -> g_slots g !! k2 = Some sl2 ->
    sl_phase sl1 = Running -> sl_phase sl2 = Running -> sl_addr sl1 = sl_addr sl2 -> k1 = k2;
  gw_alloc : forall a, is_Some (heap (reg (g_tun g)) !! a) -> a < g_next g }.

(** A step outside the workers: slots and addresses stay, the registry is stable. *)
Lemma stable_wf g g' :
  g_slots g' = g_slots g -> g_next g' = g_next g -> reg_stable (reg (g_tun g)) (reg (g_tun g')) ->
  gateway_wf g -> gateway_wf g'.
Proof.
  intros Hs Hn [Hw Hh] [W1 W2 W3 W4].
  assert (forall a, is_Some (heap (reg (g_tun g')) !! a) <-> is_Some (heap (reg (g_tun g)) !! a)) as Hsome.
  { intros a. specialize (Hh a). split; intros [x Hx]; rewrite Hx in Hh; cbn in Hh;
      [destruct (heap (reg (g_tun g)) !! a)|destruct (heap (reg (g_tun g')) !! a)]; done. }
  split.
  - intros ic a. rewrite Hw, Hs. intros Hic. destruct (W1 ic a Hic) as [(x & Hx & Hi) Hk]. split; [|done].
    specialize (Hh a). rewrite Hx in Hh. destruct (heap (reg (g_tun g')) !! a) as [y|]; [|done].
    exists y. cbn in Hh. split; [done|congruence].
  - intros k sl. rewrite Hs, Hsome. apply W2.
  - intros k1 k2 sl1 sl2. rewrite Hs. apply W3.
  - intros a. rewrite Hn, Hsome. apply W4.
Qed.

Lemma Push_all_reg (l : list outbound) : forall t : @tworld DB,
  reg (foldl (fun t e => (Push e t).1) t l) = reg t.
Proof. induction l as [|e l IH]; intros t; cbn [foldl]; [done|]. by rewrite IH. Qed.

(** The fields of the gateway after a worker's step is written back. *)
Lemma absorb_fields g k sl ph (s : world) :
  workers (reg (g_tun (absorb g k sl ph s))) = registry s /\
  heap (reg (g_tun (absorb g k sl ph s))) = <[sl_addr sl := w s]> (heap (reg (g_tun g))) /\
  g_slots (absorb g k sl ph s) = <[k := mkSlot (sl_conf sl) (prt s) (sl_addr sl) ph]> (g_slots g) /\
  g_next (absorb g k sl ph s) = g_next g.
Proof. unfold absorb. cbn [g_tun g_slots g_next]. by rewrite Push_all_reg. Qed.

(** A running worker's step. *)
Lemma absorb_running g k sl x (s : world) ph :
  gateway_wf g -> g_slots g !! k = Some sl -> sl_phase sl = Running -> heap (reg (g_tun g)) !! sl_addr sl = Some x ->
  iccid (w s) = iccid x ->
  registry s = (if decide (ph = Running) then workers (reg (g_tun g)) else delete (iccid x) (workers (reg (g_tun g)))) ->
  gateway_wf (absorb g k sl ph s).
Proof.
  intros [W1 W2 W3 W4] Hk Hp Hx Hi Hr.
  destruct (absorb_fields g k sl ph s) as (F1 & F2 & F3 & F4).
  assert (forall ic a, registry s !! ic = Some a -> workers (reg (g_tun g)) !! ic = Some a /\
    (a = sl_addr sl -> ph = Running)) as Hreg.
  { intros ic a. rewrite Hr. destruct (decide (ph = Running)) as [->|Hph]; [done|].
    rewrite lookup_delete_Some. intros [Hne Hic]. split; [done|]. intros ->. exfalso.
    destruct (W1 ic _ Hic) as [(y & Hy & Hiy) _]. congruence. }
  split.
  - intros ic a. rewrite F1, F2, F3. intros [Hic Hrun]%Hreg. destruct (W1 ic a Hic) as [(y & Hy & Hiy) (k' & sl' & Hk' & Hp' & Ha')].
    split.
    + destruct (decide (a = sl_addr sl)) as [->|Hne]; [exists (w s); rewrite lookup_insert_eq; split; [done|congruence]|].
      exists y. by rewrite lookup_insert_ne.
    + destruct (decide (k' = k)) as [->|Hne].
      * exists k. eexists. rewrite lookup_insert_eq. split; [done|]. cbn. rewrite Hk in Hk'. injection Hk' as <-.
        split; [by apply Hrun|done].
      * exists k', sl'. by rewrite lookup_insert_ne.
  - intros k' sl'. rewrite F2, F3. intros Hk' Hp'. destruct (decide (k' = k)) as [->|Hne].
    + rewrite lookup_insert_eq in Hk'. injection Hk' as <-. cbn. rewrite lookup_insert_eq. by eexists.
    + rewrite lookup_insert_ne in Hk' by done. destruct (decide (sl_addr sl' = sl_addr sl)) as [E|E];
        [rewrite E, lookup_insert_eq; by eexists|]. rewrite lookup_insert_ne by done. by apply (W2 k').
  - intros k1 k2 sl1 sl2. rewrite F3. intros H1 H2 P1 P2 HA.
    assert (forall k' sl', <[k := mkSlot (sl_conf sl) (prt s) (sl_addr sl) ph]> (g_slots g) !! k' = Some sl' ->
      sl_phase sl' = Running -> exists sl0, g_slots g !! k' = Some sl0 /\ sl_phase sl0 = Running /\ sl_addr sl0 = sl_addr sl') as Hb.
    { intros k' sl' Hl Hpl. destruct (decide (k' = k)) as [->|Hne].
      - rewrite lookup_insert_eq in Hl. injection Hl as <-. by exists sl.
      - rewrite lookup_insert_ne in Hl by done. by exists sl'. }
    destruct (Hb _ _ H1 P1) as (b1 & B1 & B2 & B3), (Hb _ _ H2 P2) as (b2 & C1 & C2 & C3).
    apply (W3 k1 k2 b1 b2); try done. congruence.
  - intros a. rewrite F2, F4. intros [y Hy]. destruct (decide (a = sl_addr sl)) as [->|Hne]; [apply W4; by exists x|].
    rewrite lookup_insert_ne in Hy by done. apply W4. by exists y.
Qed.

(** A fresh worker is written back: running and registered, or neither. *)
Lemma absorb_fresh g k sl0 (s : world) (ok : bool) :
  gateway_wf g -> g_slots g !! k = Some sl0 -> sl_phase sl0 = Idle ->
  registry s = (if ok then <[iccid (w s) := g_next g]> (workers (reg (g_tun g))) else workers (reg (g_tun g))) ->
  forall ph, (ph = Running <-> ok = true) ->
  gateway_wf (absorb (mkGateway (g_slots g) (g_limiter g) (g_tun g) (S (g_next g)) (g_session g)) k
                     (mkSlot (sl_conf sl0) (sl_port sl0) (g_next g) Idle) ph s).
Proof.
  intros [W1 W2 W3 W4] Hk Hp Hr ph Hph. set (g1 := mkGateway _ _ _ _ _). set (sl := mkSlot _ _ _ _).
  destruct (absorb_fields g1 k sl ph s) as (F1 & F2 & F3 & F4).
  change (sl_addr sl) with (g_next g) in *. change (g_slots g1) with (g_slots g) in *.
  change (g_tun g1) with (g_tun g) in *. change (g_next g1) with (S (g_next g)) in *.
  assert (heap (reg (g_tun g)) !! g_next g = None) as Hfresh.
  { destruct (heap (reg (g_tun g)) !! g_next g) eqn:E; [|done]. specialize (W4 (g_next g) ltac:(by eexists)). lia. }
  assert (forall k' sl', g_slots g !! k' = Some sl' -> sl_phase sl' = Running ->
    k' <> k /\ sl_addr sl' <> g_next g) as Hold.
  { intros k' sl' Hl Hpl. split; [intros ->; congruence|]. intros E. destruct (W2 k' sl' Hl Hpl) as [y Hy].
    rewrite E in Hy. congruence. }
  assert (forall k' sl', <[k := mkSlot (sl_conf sl) (prt s) (g_next g) ph]> (g_slots g) !! k' = Some sl' ->
    sl_phase sl' = Running -> k' = k /\ sl_addr sl' = g_next g /\ ok = true \/
    k' <> k /\ g_slots g !! k' = Some sl' /\ sl_addr sl' <> g_next g) as Hslots.
  { intros k' sl' Hl Hpl. destruct (decide (k' = k)) as [->|Hne].
    - rewrite lookup_insert_eq in Hl. injection Hl as <-. left. split; [done|]. split; [done|]. by apply Hph.
    - rewrite lookup_insert_ne in Hl by done. right. split; [done|]. split; [done|]. by apply (Hold k'). }
  split.
  - intros ic a. rewrite F1, F2, F3, Hr. intros Hic.
    assert (a = g_next g /\ ic = iccid (w s) /\ ok = true \/ workers (reg (g_tun g)) !! ic = Some a) as [(-> & -> & Hok)|Hic'].
    { destruct ok; [|by right]. destruct (decide (ic = iccid (w s))) as [->|Hne].
      - rewrite lookup_insert_eq in Hic. injection Hic as <-. by left.
      - rewrite lookup_insert_ne in Hic by done. by right. }
    + split; [exists (w s); by rewrite lookup_insert_eq|]. exists k. eexists. rewrite lookup_insert_eq.
      split; [done|]. split; [by apply Hph|done].
    + destruct (W1 ic a Hic') as [(y & Hy & Hiy) (k' & sl' & Hk' & Hp' & Ha')]. destruct (Hold k' sl' Hk' Hp') as [N1 N2].
      split; [exists y; rewrite lookup_insert_ne by congruence; done|]. exists k', sl'. by rewrite lookup_insert_ne.
  - intros k' sl'. rewrite F2, F3. intros Hl Hpl. destruct (Hslots k' sl' Hl Hpl) as [(-> & -> & _)|(Hne & Hg & Ha)].
    + rewrite lookup_insert_eq. by eexists.
    + rewrite lookup_insert_ne by done. by apply (W2 k').
  - intros k1 k2 sl1 sl2. rewrite F3. intros H1 H2 P1 P2 HA.
    destruct (Hslots _ _ H1 P1) as [(-> & A1 & _)|(N1 & G1 & A1)], (Hslots _ _ H2 P2) as [(-> & A2 & _)|(N2 & G2 & A2)];
      try done; try congruence. by apply (W3 k1 k2 sl1 sl2).
  - intros a. rewrite F2, F4. intros [y Hy]. destruct (decide (a = g_next g)) as [->|Hne]; [lia|].
    rewrite lookup_insert_ne in Hy by done. specialize (W4 a ltac:(by eexists)). lia.
Qed.

(** A worker keeps its place on the heap. *)
Definition heap_kept (g g' : gateway) : Prop :=
  forall a, is_Some (heap (reg (g_tun g)) !! a) -> is_Some (heap (reg (g_tun g')) !! a).

Lemma stable_heap g g' : reg_stable (reg (g_tun g)) (reg (g_tun g')) -> heap_kept g g'.
Proof.
  intros [_ Hh] a [x Hx]. specialize (Hh a). rewrite Hx in Hh. by destruct (heap (reg (g_tun g')) !! a).
Qed.

Lemma absorb_heap g k sl ph (s : world) : heap_kept g (absorb g k sl ph s).
Proof.
  intros a Ha. destruct (absorb_fields g k sl ph s) as (_ & -> & _). destruct (decide (a = sl_addr sl)) as [->|Hne].
  - rewrite lookup_insert_eq. by eexists.
  - by rewrite lookup_insert_ne.
Qed.

Lemma start_worker_wf g k dial open : gateway_wf g -> gateway_wf (start_worker g k dial open).
Proof.
  intros Hg. unfold start_worker. destruct (g_slots g !! k) as [sl|] eqn:Hsl; [|done].
  case_decide as Hp; [|done]. set (g1 := mkGateway _ _ _ _ _). destruct (start _ _ _ _) as [s r] eqn:E.
  apply (start_outcome uuid) in E. cbn [view registry w] in E.
  destruct r as [x|].
  - destruct E as (-> & _ & Hr). apply (absorb_fresh g k sl _ false Hg Hsl Hp); [exact Hr|done].
  - destruct E as (_ & Hr & _). by apply (absorb_fresh g k sl s true Hg Hsl Hp).
Qed.

Lemma run_worker_wf g k e : gateway_wf g -> gateway_wf (run_worker uuid g k e).
Proof.
  intros Hg. unfold run_worker. destruct (g_slots g !! k) as [sl|] eqn:Hsl; [|done].
  assert (forall x ev, sl_phase sl = Running -> heap (reg (g_tun g)) !! sl_addr sl = Some x ->
    gateway_wf (let '(s, r) := loop_step uuid ev (view g x (sl_port sl)) in
      match r with
      | None => absorb g k sl Running s
      | Some x => absorb g k sl (after_exit x) (close_port s).1
      end)) as Hstep.
  { intros x ev Hp Hx. pose proof (loop_step_identity ev (view g x (sl_port sl))) as HI.
    destruct (loop_step uuid ev (view g x (sl_port sl))) as [s [y|]]; destruct HI as [Hi Hr].
    - apply (absorb_running g k sl x); try done. by destruct y.
    - by apply (absorb_running g k sl x). }
  destruct e; try done; (destruct (sl_phase sl) eqn:Hp; try done;
    destruct (heap (reg (g_tun g)) !! sl_addr sl) as [x|] eqn:Hx; [by apply Hstep|done]).
Qed.

Lemma reset_stable (g : gateway) post ic : reg_stable (reg (g_tun g)) (reg (g_tun (modemResetHandler g post ic).1)).
Proof.
  unfold modemResetHandler. destruct post; [|reflexivity]. destruct (String.eqb ic ""); [reflexivity|].
  cbn [negb]. cbv zeta. destruct (workers _ !! ic) as [a|]; [|reflexivity].
  split; [done|]. intros b. cbn. destruct (decide (a = b)) as [->|Hne].
  - rewrite lookup_alter_eq. by destruct (heap _ !! b).
  - by rewrite lookup_alter_ne.
Qed.

Lemma reset_wf g post ic : gateway_wf g -> gateway_wf (modemResetHandler g post ic).1.
Proof.
  intros Hg. apply (stable_wf g); [| |apply reset_stable|done];
    unfold modemResetHandler; destruct post; [|done| |done]; (destruct (String.eqb ic ""); [done|]);
    cbn [negb]; cbv zeta; by destruct (workers _ !! ic).
Qed.

Lemma connect_wf g : gateway_wf g -> gateway_wf (connect conf uuid AddDays write_ok g).
Proof.
  intros Hg. unfold connect. cbv [mbind st_bind mupd st_modify].
  match goal with |- context [session_open conf uuid AddDays modemStatuses write_ok ?t] =>
    pose proof (t_session_open conf uuid AddDays modemStatuses write_ok _ stable_tunnel_rel t) as HS end.
  destruct (session_open _ _ _ _ _ _) as [t [e|]]; (revert Hg; apply stable_wf; [done|done|exact HS]).
Qed.

Lemma gateway_step_wf g a : gateway_wf g -> gateway_wf (gateway_step conf uuid AddDays write_ok g a).
Proof.
  intros Hg. destruct a as [k dial open|k e| | |e| |post ic]; cbn [gateway_step].
  - by apply start_worker_wf.
  - by apply run_worker_wf.
  - destruct (g_session g); [done|]. revert Hg. by apply stable_wf.
  - destruct (g_session g); [done|]. by apply connect_wf.
  - destruct (_ && _); [|done]. revert Hg. apply stable_wf; [done|done|].
    apply (t_session_step conf uuid AddDays modemStatuses write_ok _ stable_tunnel_rel).
  - destruct (_ && _); [|done]. revert Hg. by apply stable_wf.
  - by apply reset_wf.
Qed.

Lemma New_wf c opened d modem now g : New c opened d modem now = inr g -> gateway_wf g.
Proof.
  unfold New. destruct (Open opened d) as [d' [e|u]]; [done|]. intros H. injection H as <-.
  assert (forall k sl, (list_to_map (imap (fun k m => (k, mkSlot (worker_config c m) (NewSerializer, modem k) 0 Idle))
    (Modems c)) : gmap nat _) !! k = Some sl -> sl_phase sl = Idle) as Hidle.
  { intros k sl Hl. apply elem_of_list_to_map_2, elem_of_lookup_imap in Hl as (i & m & Hl & _). by injection Hl as _ ->. }
  split; cbn.
  - intros ic a Hic. by rewrite lookup_empty in Hic.
  - intros k sl Hl Hp. apply Hidle in Hl. congruence.
  - intros k1 k2 sl1 sl2 Hl _ Hp. apply Hidle in Hl. congruence.
  - intros a [x Hx]. by rewrite lookup_empty in Hx.
Qed.

Lemma gateway_run_wf steps : forall g, gateway_wf g -> gateway_wf (gateway_run conf uuid AddDays write_ok g steps).
Proof. induction steps as [|a steps IH]; intros g Hg; [done|]. by apply IH, gateway_step_wf. Qed.

(** The gateway's state is well formed.  After any run of the gateway that
    [New] returned (worker starts and failures, events of all main loops,
    dials, sessions, flushes, tasks, disconnections, resets), every ICCID the
    registry holds is that of a worker on the heap which one of the ports is
    running: a task never goes to a worker that failed, was banned or was
    replaced.  Two ports never run the same worker, and the next address is
    fresh. *)
Theorem gateway_well_formed (c : GatewayConfig) (opened : option go_error) (d : DB) (modem : nat -> M) (now : Z)
    (g : gateway) (steps : list gstep) :
  New c opened d modem now = inr g -> gateway_wf (gateway_run conf uuid AddDays write_ok g steps).
Proof. intros HN. by eapply gateway_run_wf, New_wf. Qed.
End Wf.

(** ** Witness *)

Definition demo_new : res (@gateway sim memdb) :=
  New demo_file None mem_empty (fun _ => {| slots := [(3%Z, demo_pdu)] |}) 1700000000000000000.

Definition started (g : res (@gateway sim memdb)) : @gateway sim memdb :=
  match g with inr g => g | inl _ => demo_gateway end.

Lemma gateway_well_formed_witness :
  gateway_wf (demo_run (started demo_new) demo_steps).
Proof.
  by apply (gateway_well_formed demo_conf demo_ids utc_days all_ok demo_file None mem_empty
    (fun _ => {| slots := [(3%Z, demo_pdu)] |}) 1700000000000000000).
Defined.

(** In that run a worker is registered and running; it is neither once the
    context is done. *)
Example demo_registered :
  let g := demo_run (started demo_new) demo_steps in
  let g' := demo_run g [GWorker 0 EvCtxDone] in
  (map_to_list (workers (reg (g_tun g))), sl_phase <$> g_slots g !! 0%nat,
   map_to_list (workers (reg (g_tun g'))), sl_phase <$> g_slots g' !! 0%nat) =
  ([(demo_iccid, 1)], Some Running, [], Some Ended).
Proof. by vm_compute. Qed.
