(* ===== verification/Concurrent.v ===== *)
(** * The gateway's goroutines, interleaved

    [Gateway] runs a flush of the buffer, and a write of the tunnel's writer, as
    one step.  Here the goroutines of a session (tunnel/manager.go: writer,
    reader, flushBuffer and the tickers of runSession) are state machines of
    their own beside the workers: a flush and the writer stop before and after
    each write, a flush between the write of a row and the registration of its
    acknowledgement, and a flush may outlive its session.  Every schedule of
    these steps is a run.  The end-to-end guarantees are proved for them. *)

From S2P Require Import Prelude GoString Config Pdu RateLimit Buffer Serializer Protocol Registry Worker WorkerFrame WorkerSafety WorkerTasks WorkerSend Supervisor Tunnel TunnelProps Gateway GatewayWf.

(** ** Goroutines of a session *)

(** [writer]: in its [select], inside [writeJSON], or returned. *)
Inductive writer := WIdle | WWriting (e : outbound) | WReturned.

(** [reader]: at the head of its loop, inside [ReadMessage], in the registry's
    [Dispatch] between the lookup of the worker at [addr] and the send, or
    returned. *)
Inductive reader := RHead | RReading | RSending (addr : nat) (task : Task) | RReturned.

(** [flushBuffer], at the head of its loop, inside [writeJSON], before the
    registration of the acknowledgement, or in the [select] that waits for it. *)
Inductive fphase := FCheck | FWriting (r : SMSRecord) (e : outbound) | FRegister (r : SMSRecord) | FWaiting (r : SMSRecord).

(** [f_session]: the session whose context and connection it was given. *)
Record flusher := mkFlusher { f_session : nat; f_rows : list SMSRecord; f_phase : fphase }.

(** The case of that [select] taken. *)
Inductive choice := SelAck | SelTimer | SelDone.

Section Concurrent.
Context {M DB : Type} `{HM : Modem M} `{HDB : SqlEngine DB}.
Variable conf : ManagerConfig.
Variable uuid : nat -> string.
Variable AddDays : Z -> Z -> Z.
Variable write_ok : list outbound -> outbound -> bool.

Local Abbreviation gateway := (@gateway M DB).
Local Abbreviation tworld := (@tworld DB).

(** [c_session] numbers the sessions; at most one flush holds [flushMu]. *)
Record conc := mkConc {
  c_gw : gateway;
  c_session : nat;
  c_writer : writer;
  c_reader : reader;
  c_flush : option flusher }.

Definition set_gw (c : conc) (g : gateway) : conc := mkConc g (c_session c) (c_writer c) (c_reader c) (c_flush c).
Definition set_writer (c : conc) (x : writer) : conc := mkConc (c_gw c) (c_session c) x (c_reader c) (c_flush c).
Definition set_reader (c : conc) (b : reader) : conc := mkConc (c_gw c) (c_session c) (c_writer c) b (c_flush c).
Definition set_flush (c : conc) (f : option flusher) : conc := mkConc (c_gw c) (c_session c) (c_writer c) (c_reader c) f.

Definition tun (c : conc) : tworld := g_tun (c_gw c).
Definition in_tunnel (c : conc) (a : st tworld ()) : conc := set_gw c (on_tunnel (c_gw c) a).

(** ** The flush *)

(** The session's context is done; its connection is closed. *)
Definition flush_ctx_done (c : conc) (f : flusher) : bool := negb (f_session f =? c_session c) || done_ctx (tun c).
Definition flush_conn_closed (c : conc) (f : flusher) : bool := negb (f_session f =? c_session c) || negb (g_session (c_gw c)).

Definition unlock : st tworld () := mupd (fun m => set_flushing m false).

Definition flush_end (c : conc) : conc := set_flush (in_tunnel c unlock) None.

(** [TryLock] and the query, called by a goroutine of session [k]. *)
Definition flush_begin (k : nat) (c : conc) : conc :=
  if flushing (mgr (tun c)) then c
  else
    let '(t, r) := pending_rows (set_mgr (tun c) (set_flushing (mgr (tun c)) true)) in
    let c := in_tunnel c (fun _ => (t, tt)) in
    match r with
    | inl _ => flush_end c
    | inr rows => set_flush c (Some (mkFlusher k rows FCheck))
    end.

Definition flush_goto (c : conc) (f : flusher) (p : fphase) : conc :=
  set_flush c (Some (mkFlusher (f_session f) (f_rows f) p)).

(** The next action of the flush. *)
Definition flush_step (s : choice) (c : conc) : conc :=
  match c_flush c with
  | None => c
  | Some f =>
    match f_phase f with
    | FCheck =>
      match f_rows f with
      | [] => flush_end c
      | r :: rs =>
        if flush_ctx_done c f then flush_end c
        else
          let '(t, env) := t_envelope uuid TypeSMSReceived (tun c) in
          let c := in_tunnel c (fun _ => (t, tt)) in
          set_flush c (Some (mkFlusher (f_session f) rs (FWriting r (replay conf env r))))
      end
    | FWriting r e =>
      if flush_conn_closed c f then flush_end c
      else
        let '(t, err) := writeJSON write_ok e (tun c) in
        let c := in_tunnel c (fun _ => (t, tt)) in
        match err with
        | Some _ => flush_end c
        | None => flush_goto c f (FRegister r)
        end
    | FRegister r =>
      if MaxPendingACKs <=? size (acks_pending (mgr (tun c))) then flush_goto c f FCheck
      else flush_goto (in_tunnel c (mupd (fun m => set_acks_pending m ({[ID r]} ∪ acks_pending m)))) f (FWaiting r)
    | FWaiting r =>
      match s with
      | SelAck => if decide (ID r ∈ acks_pending (mgr (tun c))) then c else flush_goto c f FCheck
      | SelTimer => flush_goto (in_tunnel c (mupd (fun m => set_acks_pending m (acks_pending m ∖ {[ID r]})))) f FCheck
      | SelDone => if flush_ctx_done c f then flush_end c else c
      end
    end
  end.

(** ** The writer *)

(** Taking an event from the outbox. *)
Definition writer_take (c : conc) : conc :=
  match c_writer c, outbox (mgr (tun c)) with
  | WIdle, e :: q => set_writer (in_tunnel c (mupd (fun m => set_outbox m q))) (WWriting e)
  | _, _ => c
  end.

(** A failed write, ping or heartbeat cancels the session and ends the writer. *)
Definition writer_fails (c : conc) : conc := set_writer (in_tunnel c cancel) WReturned.

(** [sendHeartbeat] up to the write. *)
Definition writer_heartbeat (c : conc) : conc :=
  match c_writer c with
  | WIdle =>
    let '(t, r) := pending_count (tun c) in
    match r with
    | inl _ => writer_fails (in_tunnel c (fun _ => (t, tt)))
    | inr n =>
      let '(t, env) := t_envelope uuid TypeHeartbeat t in
      set_writer (in_tunnel c (fun _ => (t, tt)))
        (WWriting (OutHeartbeat {| HB_Envelope := env; HB_GatewayID := M_GatewayID conf;
          HB_UptimeS := Z.quot (tclock t - M_StartTime conf) second; HB_PendingMsgs := n;
          HB_Modems := modemStatuses (reg t) |}))
    end
  | _ => c
  end.

Definition writer_ping (ok : bool) (c : conc) : conc :=
  match c_writer c with
  | WIdle => if ok then c else writer_fails c
  | _ => c
  end.

(** The write in progress ends. *)
Definition writer_write (c : conc) : conc :=
  match c_writer c with
  | WWriting e =>
    let '(t, err) := writeJSON write_ok e (tun c) in
    let c := in_tunnel c (fun _ => (t, tt)) in
    match err with
    | Some _ => writer_fails c
    | None => set_writer c WIdle
    end
  | _ => c
  end.

Definition writer_done (c : conc) : conc :=
  match c_writer c with
  | WIdle => if done_ctx (tun c) then set_writer c WReturned else c
  | _ => c
  end.

(** ** Two writes at once

    The WebSocket library panics when it finds another write in progress;
    [safe.Go] recovers the goroutine, which returns. *)

(** The flush is inside [writeJSON] on the connection of the running session. *)
Definition flush_writing (c : conc) : bool :=
  match c_flush c with
  | Some f => match f_phase f with FWriting _ _ => negb (flush_conn_closed c f) | _ => false end
  | None => false
  end.

(** The writer panics in a write or a ping: it returns without [cancel]. *)
Definition writer_panic (c : conc) : conc :=
  if flush_writing c then set_writer c WReturned else c.

(** The flush panics while the writer writes or pings; its [defer] unlocks. *)
Definition flush_panic (c : conc) : conc :=
  match c_writer c with
  | WReturned => c
  | _ => if flush_writing c then flush_end c else c
  end.

(** ** The reader and the session *)

(** The [select] at the head of the loop. *)
Definition reader_head (c : conc) : conc :=
  match c_reader c with
  | RHead => set_reader c (if done_ctx (tun c) then RReturned else RReading)
  | _ => c
  end.

(** The task of an inbound message and the worker registered for it. *)
Definition task_target (raw : option json) (t : tworld) : option (nat * Task) :=
  match Unmarshal_Envelope raw, Unmarshal_Task raw with
  | inr env, inr task =>
    if String.eqb (Type_ env) TypeTask && M_Routed conf then
      match extractICCID task with
      | inl _ => None
      | inr ic => (fun addr => (addr, task)) <$> workers (reg t) !! ic
      end
    else None
  | _, _ => None
  end.

(** [ReadMessage] returns a message: a task for a registered worker is sent in
    a step of its own, everything else is handled in this one. *)
Definition reader_message (raw : option json) (c : conc) : conc :=
  match c_reader c with
  | RReading =>
    match task_target raw (tun c) with
    | Some (addr, task) => set_reader c (RSending addr task)
    | None => set_reader (in_tunnel c (_ ← handleInbound conf raw; mret tt)) RHead
    end
  | _ => c
  end.

(** The send to the worker found, and the error acknowledgement when its queue
    is full. *)
Definition send_task_to (addr : nat) (task : Task) : st tworld () := fun t =>
  let '(r, err) := Registry_send (reg t) addr (queued_task task) in
  let t := set_reg t r in
  match err with
  | None => (t, tt)
  | Some e => Push (OutTaskAck (makeErrorAck (MessageID (Task_Envelope task)) (route_error e) (t_ms t))) t
  end.

Definition reader_send (c : conc) : conc :=
  match c_reader c with
  | RSending addr task => set_reader (in_tunnel c (send_task_to addr task)) RHead
  | _ => c
  end.

(** [ReadMessage] fails. *)
Definition reader_error (c : conc) : conc :=
  match c_reader c with
  | RReading => set_reader (if done_ctx (tun c) then c else in_tunnel c cancel) RReturned
  | _ => c
  end.

(** A dial that succeeds, up to the start of the goroutines. *)
Definition session_begin (c : conc) : conc :=
  if g_session (c_gw c) then c
  else
    let g := connect conf uuid AddDays write_ok (c_gw c) in
    mkConc g (S (c_session c)) (if g_session g then WIdle else WReturned) (if g_session g then RHead else RReturned) (c_flush c).

(** [wg.Wait] returns once writer and reader have. *)
Definition session_end (c : conc) : conc :=
  match c_writer c, c_reader c with
  | WReturned, RReturned => set_gw c (gateway_step conf uuid AddDays write_ok (c_gw c) GHangup)
  | _, _ => c
  end.

(** ** Steps *)

Inductive cstep :=
| CStart (k : nat) (dial : M -> res M) (open : M -> nat -> res M)
| CWorker (k : nat) (e : loop_event)
| CReset (post : bool) (ic : string)
| CDialFailed
| CConnect
| CHangup
| CReadStart
| CInbound (raw : option json)
| CSend
| CReadError
| CTake
| CHeartbeat
| CPing (ok : bool)
| CWrite
| CWriterDone
| CWriterPanic
| CFlushPanic
| CPurge
| CCancel
| CFlush (k : nat)
| CFlushStep (s : choice).

Definition on_gw (c : conc) (a : gstep) : conc := set_gw c (gateway_step conf uuid AddDays write_ok (c_gw c) a).

(** [CCancel]: the gateway's context, and with it the session's, is cancelled. *)
Definition conc_step (c : conc) (a : cstep) : conc :=
  match a with
  | CStart k dial open => on_gw c (GStart k dial open)
  | CWorker k e => on_gw c (GWorker k e)
  | CReset post ic => on_gw c (GReset post ic)
  | CDialFailed => on_gw c GDialFailed
  | CConnect => session_begin c
  | CHangup => session_end c
  | CReadStart => reader_head c
  | CInbound raw => reader_message raw c
  | CSend => reader_send c
  | CReadError => reader_error c
  | CTake => writer_take c
  | CHeartbeat => writer_heartbeat c
  | CPing ok => writer_ping ok c
  | CWrite => writer_write c
  | CWriterDone => writer_done c
  | CWriterPanic => writer_panic c
  | CFlushPanic => flush_panic c
  | CPurge => in_tunnel c (purge conf AddDays)
  | CCancel => in_tunnel c cancel
  | CFlush k => if (0 <? k) && (k <=? c_session c) then flush_begin k c else c
  | CFlushStep s => flush_step s c
  end.

Definition conc_run (c : conc) (steps : list cstep) : conc := foldl conc_step c steps.

(** The gateway [New] returned, before anything runs. *)
Definition conc_new (g : gateway) : conc := mkConc g 0 WReturned RReturned None.

(** ** What the tunnel's own steps leave alone *)

(** [still c c']: ports, workers, limiters, registry and buffer are the same. *)
Record still (c c' : conc) : Prop := {
  st_slots : g_slots (c_gw c') = g_slots (c_gw c);
  st_limiter : g_limiter (c_gw c') = g_limiter (c_gw c);
  st_next : g_next (c_gw c') = g_next (c_gw c);
  st_reg : reg (tun c') = reg (tun c);
  st_buf : tbuf (tun c') = tbuf (tun c) }.

#[local] Instance still_preorder : PreOrder still.
Proof. split; [by intros c|]. intros c1 c2 c3 [] []. split; congruence. Qed.

Lemma in_tunnel_still c (a : st tworld ()) :
  reg (a (tun c)).1 = reg (tun c) -> tbuf (a (tun c)).1 = tbuf (tun c) -> still c (in_tunnel c a).
Proof. by split. Qed.

Lemma flush_end_still c : still c (flush_end c).
Proof. by split. Qed.

Lemma writeJSON_still e c : still c (in_tunnel c (fun _ => ((writeJSON write_ok e (tun c)).1, tt))).
Proof. apply in_tunnel_still; unfold writeJSON; cbn; by destruct (write_ok _ _). Qed.

Lemma flush_step_still s c : still c (flush_step s c).
Proof.
  unfold flush_step. destruct (c_flush c) as [f|]; [|reflexivity]. destruct (f_phase f) as [|r e|r|r].
  - destruct (f_rows f) as [|r rs]; [apply flush_end_still|]. destruct (flush_ctx_done c f); [apply flush_end_still|by split].
  - destruct (flush_conn_closed c f); [apply flush_end_still|]. pose proof (writeJSON_still e c) as HW.
    destruct (writeJSON write_ok e (tun c)) as [t [err|]]; [|by destruct HW; split].
    transitivity (in_tunnel c (fun _ => (t, tt))); [exact HW|apply flush_end_still].
  - by destruct (_ <=? _).
  - destruct s; [by destruct (decide _)|by split|]. destruct (flush_ctx_done c f); [apply flush_end_still|reflexivity].
Qed.

Lemma writer_write_still c : still c (writer_write c).
Proof.
  unfold writer_write. destruct (c_writer c) as [|e|]; [reflexivity| |reflexivity].
  pose proof (writeJSON_still e c) as HW. destruct (writeJSON write_ok e (tun c)) as [t [err|]]; destruct HW; by split.
Qed.

Lemma writer_take_still c : still c (writer_take c).
Proof. unfold writer_take. destruct (c_writer c), (outbox (mgr (tun c))); by split. Qed.

(** ** No message is lost *)

Section Safety.
Context `{!SimStorage M} `{!SqlLaws DB}.

Definition cstep_marks (i : Z) (a : cstep) : bool :=
  match a with CInbound raw => bool_decide (ack_of raw = Some i) | _ => false end.

(** No worker purges its SIM, opening a port finds its SIM as it was left, and a
    message is received by a reader that reads. *)
Definition cstep_ok (c : conc) (a : cstep) : Prop :=
  match a with
  | CInbound _ => c_reader c = RReading
  | CWorker k e => step_spares (c_gw c) (GWorker k e) = true
  | CStart k dial open => step_reopens (GStart k dial open)
  | _ => True
  end.

(** What the worker at port [k] reads in a step. *)
Definition cstep_reads (c : conc) (a : cstep) (k : nat) : option (string * Z * string) :=
  match a with CWorker k' e => step_reads (c_gw c) (GWorker k' e) k | _ => None end.

Lemma still_advances mk c c' : still c c' -> advances mk (fun _ => None) (c_gw c) (c_gw c').
Proof. intros [Hs _ _ _ Hb]. apply tun_advances; [done|]. unfold db, tun in *. rewrite Hb. reflexivity. Qed.

Lemma flush_begin_advances mk k c : advances mk (fun _ => None) (c_gw c) (c_gw (flush_begin k c)).
Proof.
  unfold flush_begin. destruct (flushing _); [apply advances_refl|].
  pose proof (pending_rows_keeps AddDays mk (set_mgr (tun c) (set_flushing (mgr (tun c)) true))) as HK.
  destruct (pending_rows _) as [t [e|rs]]; by apply tun_advances.
Qed.

Lemma heartbeat_advances mk c : advances mk (fun _ => None) (c_gw c) (c_gw (writer_heartbeat c)).
Proof.
  unfold writer_heartbeat. destruct (c_writer c); try apply advances_refl.
  pose proof (run_op_delivers AddDays mk (tbuf (tun c)) OpPendingCount ltac:(done)) as HK. cbn [run_op] in HK.
  unfold pending_count. destruct (PendingCount (tbuf (tun c))) as [d [e|n]]; by apply tun_advances.
Qed.

Lemma reader_message_advances raw c :
  advances (fun i => bool_decide (ack_of raw = Some i)) (fun _ => None) (c_gw c) (c_gw (reader_message raw c)).
Proof.
  unfold reader_message. destruct (c_reader c); try apply advances_refl.
  destruct (task_target raw (tun c)) as [[addr task]|]; [apply advances_refl|]. apply tun_advances; [done|].
  by apply (session_step_keeps conf uuid AddDays modemStatuses write_ok (fun i => bool_decide (ack_of raw = Some i)) (SInbound raw)).
Qed.

Lemma send_task_to_buf addr task (t : tworld) : tbuf (send_task_to addr task t).1 = tbuf t.
Proof. unfold send_task_to. by destruct (Registry_send _ _ _) as [r [e|]]. Qed.

Lemma conc_step_advances c a :
  cstep_ok c a -> advances (fun i => cstep_marks i a) (cstep_reads c a) (c_gw c) (c_gw (conc_step c a)).
Proof.
  intros Hok. assert (forall b, step_spares (c_gw c) b = true -> step_reopens b -> (forall i, step_marks i b = false) ->
    advances (fun i => cstep_marks i a) (step_reads (c_gw c) b) (c_gw c) (c_gw (on_gw c b))) as Hgw.
  { intros b H1 H2 H3. apply (gateway_step_advances conf uuid AddDays write_ok); [done|done|]. intros i Hi. by rewrite H3 in Hi. }
  destruct a; cbn [conc_step cstep_ok] in *; try exact (Hgw _ Hok I (fun _ => eq_refl)); try (by apply Hgw);
    try change (cstep_reads c _) with (fun _ : nat => @None (string * Z * string)); try (by apply still_advances).
  - exact (Hgw (GStart k dial open) eq_refl Hok (fun _ => eq_refl)).
  - exact (Hgw (GReset post ic) eq_refl I (fun _ => eq_refl)).
  - exact (Hgw GDialFailed eq_refl I (fun _ => eq_refl)).
  - unfold session_begin. destruct (g_session (c_gw c)) eqn:E; [apply advances_refl|]. cbn [c_gw].
    pose proof (Hgw GConnect eq_refl I (fun _ => eq_refl)) as HA. unfold on_gw in HA. cbn [gateway_step set_gw c_gw] in HA.
    by rewrite E in HA.
  - unfold session_end. destruct (c_writer c), (c_reader c); try apply advances_refl.
    exact (Hgw GHangup eq_refl I (fun _ => eq_refl)).
  - unfold reader_head. destruct (c_reader c); by apply still_advances.
  - exact (reader_message_advances raw c).
  - unfold reader_send. destruct (c_reader c); try apply advances_refl. apply tun_advances; [done|].
    unfold db. cbn. rewrite send_task_to_buf. reflexivity.
  - unfold reader_error. destruct (c_reader c); try apply advances_refl. destruct (done_ctx _); by apply still_advances.
  - apply still_advances, writer_take_still.
  - apply heartbeat_advances.
  - unfold writer_ping. destruct (c_writer c); try apply advances_refl. destruct ok; by apply still_advances.
  - apply still_advances, writer_write_still.
  - unfold writer_done. destruct (c_writer c); try apply advances_refl. destruct (done_ctx _); by apply still_advances.
  - unfold writer_panic. destruct (flush_writing c); by apply still_advances.
  - unfold flush_panic. destruct (c_writer c), (flush_writing c); by apply still_advances.
  - apply tun_advances; [done|]. apply purge_keeps.
  - destruct (_ && _); [apply flush_begin_advances|apply advances_refl].
  - apply still_advances, flush_step_still.
Qed.

End Safety.

(** ** Well-formedness *)

(** The gateway is well formed; the flush lock is held exactly while there is a
    flush; without a session there is no writer or reader; a session whose
    reader has returned is cancelled; a worker to which a task is being sent has
    been allocated. *)
Record conc_wf (c : conc) : Prop := {
  cw_gateway : gateway_wf (c_gw c);
  cw_lock : flushing (mgr (tun c)) = match c_flush c with Some _ => true | None => false end;
  cw_idle : g_session (c_gw c) = false -> c_writer c = WReturned /\ c_reader c = RReturned;
  cw_cancelled : g_session (c_gw c) = true -> c_reader c = RReturned -> done_ctx (tun c) = true;
  cw_sending : forall addr task, c_reader c = RSending addr task -> is_Some (heap (reg (tun c)) !! addr);
  cw_session : forall f, c_flush c = Some f -> f_session f <= c_session c }.

(** What a step of the workers, of a failed dial or of the API leaves alone. *)
Record same_session (g g' : gateway) : Prop := {
  sm_session : g_session g' = g_session g;
  sm_done : done_ctx (g_tun g') = done_ctx (g_tun g);
  sm_flushing : flushing (mgr (g_tun g')) = flushing (mgr (g_tun g));
  sm_heap : heap_kept g g' }.

#[local] Instance same_session_refl : Reflexive same_session.
Proof. intros g. split; [done..|]. intros a Ha. exact Ha. Qed.

Lemma Push_all_same (l : list outbound) : forall t : tworld,
  done_ctx (foldl (fun t e => (Push e t).1) t l) = done_ctx t /\
  flushing (mgr (foldl (fun t e => (Push e t).1) t l)) = flushing (mgr t).
Proof.
  induction l as [|e l IH]; intros t; cbn [foldl]; [done|]. destruct (IH (Push e t).1) as [-> ->].
  cbn. split; [done|]. by case_match.
Qed.

Lemma absorb_same g k sl ph s : same_session g (absorb g k sl ph s).
Proof.
  unfold absorb. set (t := mkTworld _ _ _ _ _ _ _). destruct (Push_all_same (pushed s) t) as [H1 H2].
  split; [done|exact H1|exact H2|apply absorb_heap].
Qed.

Definition outside (b : @gstep M) : bool :=
  match b with GStart _ _ _ | GWorker _ _ | GReset _ _ | GDialFailed => true | _ => false end.

Lemma outside_same g b : outside b = true -> same_session g (gateway_step conf uuid AddDays write_ok g b).
Proof.
  destruct b as [k dial open|k e| | |e| |post ic]; intros Ho; try done; cbn [gateway_step].
  - unfold start_worker. destruct (g_slots g !! k) as [sl|]; [|reflexivity]. case_decide; [|reflexivity].
    destruct (start _ _ _ _) as [s [x|]]; match goal with |- same_session _ (absorb ?g1 ?k ?sl ?ph ?s1) =>
      destruct (absorb_same g1 k sl ph s1); by split end.
  - unfold run_worker. destruct (g_slots g !! k) as [sl|]; [|reflexivity].
    destruct e; try reflexivity; (destruct (sl_phase sl); try reflexivity; destruct (heap _ !! _) as [x|]; [|reflexivity];
      destruct (loop_step uuid _ _) as [s [y|]]; apply absorb_same).
  - destruct (g_session g); [reflexivity|]. split; [done..|]. intros a Ha. exact Ha.
  - pose proof (stable_heap _ _ (reset_stable g post ic)) as HS. revert HS.
    unfold modemResetHandler. destruct post; [|reflexivity]. destruct (String.eqb ic ""); [reflexivity|].
    cbn [negb]. cbv zeta. destruct (workers _ !! ic); [|reflexivity]. intros HS. by split.
Qed.

Lemma on_gw_wf c b : outside b = true -> conc_wf c -> conc_wf (on_gw c b).
Proof.
  intros Ho [W1 W2 W3 W4 W5 W6]. destruct (outside_same (c_gw c) b Ho) as [S1 S2 S3 S4].
  unfold on_gw, set_gw, tun in *. split; unfold tun; cbn [c_gw c_session c_writer c_reader c_flush].
  - by apply gateway_step_wf.
  - by rewrite S3.
  - by rewrite S1.
  - by rewrite S1, S2.
  - intros addr task Hr. by eapply S4, W5.
  - done.
Qed.

Lemma handleInbound_flushing raw (t : tworld) : flushing (mgr (handleInbound conf raw t).1) = flushing (mgr t).
Proof.
  unfold handleInbound. destruct (Unmarshal_Envelope raw) as [e|env]; [done|]. destruct (String.eqb _ _).
  - destruct (Unmarshal_SMSDeliveredAck raw) as [e|ack]; [done|]. cbv [mbind st_bind AckDelivered].
    by destruct (MarkDelivered _ _ _).
  - destruct (String.eqb _ _); [|done]. destruct (Unmarshal_Task raw) as [e|task]; [done|].
    destruct (M_Routed conf); [|done]. cbv [mbind st_bind]. destruct (Dispatch (reg t) task) as [r [e|]]; [|done].
    cbn. by case_match.
Qed.

(** A step of the tunnel's goroutines: the workers are stable, the session
    goes on, and what it does to lock, writer, reader and context is given. *)
Lemma session_step_wf c c' :
  conc_wf c -> g_slots (c_gw c') = g_slots (c_gw c) -> g_next (c_gw c') = g_next (c_gw c) ->
  reg_stable (reg (tun c)) (reg (tun c')) -> g_session (c_gw c') = g_session (c_gw c) ->
  flushing (mgr (tun c')) = match c_flush c' with Some _ => true | None => false end ->
  (c_writer c = WReturned -> c_writer c' = WReturned) -> (c_reader c = RReturned -> c_reader c' = RReturned) ->
  (c_reader c' = RReturned -> c_reader c = RReturned \/ done_ctx (tun c') = true) ->
  (forall addr task, c_reader c' = RSending addr task ->
     c_reader c = RSending addr task \/ is_Some (heap (reg (tun c)) !! addr)) ->
  (done_ctx (tun c) = true -> done_ctx (tun c') = true) ->
  c_session c' = c_session c ->
  (forall f', c_flush c' = Some f' -> (exists f, c_flush c = Some f /\ f_session f' = f_session f) \/ f_session f' <= c_session c) ->
  conc_wf c'.
Proof.
  intros [W1 W2 W3 W4 W5 W6] Hs Hn Hr Hg Hl Hw Hrd Hrd' Hsd Hd Hk Hf. split.
  - by apply (stable_wf (c_gw c)).
  - done.
  - rewrite Hg. intros Hg0. destruct (W3 Hg0). auto.
  - rewrite Hg. intros Hg0 H. destruct (Hrd' H); [|done]. apply Hd, W4; auto.
  - intros addr task H. apply (stable_heap _ _ Hr). destruct (Hsd addr task H); [by eapply W5|done].
  - intros f' Hf'. rewrite Hk. destruct (Hf f' Hf') as [(f & Hc & ->)|]; auto.
Qed.

Lemma still_wf c c' :
  conc_wf c -> still c c' -> g_session (c_gw c') = g_session (c_gw c) ->
  flushing (mgr (tun c')) = match c_flush c' with Some _ => true | None => false end ->
  (c_writer c = WReturned -> c_writer c' = WReturned) -> (c_reader c = RReturned -> c_reader c' = RReturned) ->
  (c_reader c' = RReturned -> c_reader c = RReturned \/ done_ctx (tun c') = true) ->
  (forall addr task, c_reader c' = RSending addr task ->
     c_reader c = RSending addr task \/ is_Some (heap (reg (tun c)) !! addr)) ->
  (done_ctx (tun c) = true -> done_ctx (tun c') = true) ->
  c_session c' = c_session c ->
  (forall f', c_flush c' = Some f' -> (exists f, c_flush c = Some f /\ f_session f' = f_session f) \/ f_session f' <= c_session c) ->
  conc_wf c'.
Proof. intros Hc [S1 _ S3 S4 _] **. apply (session_step_wf c); try done. by rewrite S4. Qed.

Lemma flush_step_wf s c : conc_wf c -> conc_wf (flush_step s c).
Proof.
  intros Hc. pose proof (cw_lock c Hc) as HL. unfold flush_step. destruct (c_flush c) as [f|] eqn:Hf; [|done].
  assert (conc_wf (flush_end c)) as Hend by (apply (still_wf c); auto; done).
  assert (forall c1 rows p, still c c1 -> g_session (c_gw c1) = g_session (c_gw c) -> flushing (mgr (tun c1)) = true ->
    c_writer c1 = c_writer c -> c_reader c1 = c_reader c -> done_ctx (tun c1) = done_ctx (tun c) -> c_session c1 = c_session c ->
    conc_wf (set_flush c1 (Some (mkFlusher (f_session f) rows p)))) as Hgo.
  { intros c1 rows p [S1 S2 S3 S4 S5] Hg Hl Hw Hr Hd Hk. apply (still_wf c); try done; unfold tun in *; cbn [set_flush c_gw c_writer c_reader];
      rewrite ?Hw, ?Hr, ?Hd; auto.
    intros f' [= <-]. left. by exists f. }
  destruct (f_phase f) as [|r e|r|r].
  - destruct (f_rows f) as [|r rs]; [done|]. destruct (flush_ctx_done c f); [done|]. by apply Hgo.
  - destruct (flush_conn_closed c f); [done|]. unfold writeJSON. destruct (write_ok _ _).
    + by apply (Hgo _ (f_rows f)).
    + apply (still_wf c); auto; done.
  - destruct (_ <=? _); by apply (Hgo _ (f_rows f)).
  - destruct s.
    + destruct (decide _); [done|]. by apply (Hgo _ (f_rows f)).
    + by apply (Hgo _ (f_rows f)).
    + by destruct (flush_ctx_done c f).
Qed.

Lemma flush_begin_wf k c : k <= c_session c -> conc_wf c -> conc_wf (flush_begin k c).
Proof.
  intros Hk Hc. pose proof (cw_lock c Hc) as HL. unfold flush_begin. destruct (flushing _) eqn:Hfl; [done|].
  unfold pending_rows. destruct (PendingRows _) as [d [e|rs]];
    (apply (session_step_wf c); auto; try done; try reflexivity).
  intros f' [= <-]. by right.
Qed.

(** The writer's and the reader's steps that cannot fail to keep the lock. *)
Lemma writer_step_wf c :
  conc_wf c ->
  conc_wf (writer_take c) /\ conc_wf (writer_heartbeat c) /\ (forall ok, conc_wf (writer_ping ok c)) /\
  conc_wf (writer_write c) /\ conc_wf (writer_done c).
Proof.
  intros Hc. pose proof (cw_lock c Hc) as HL.
  assert (conc_wf (writer_fails c)) as Hfail.
  { apply (still_wf c); auto; try done. intros f' Hf'. left. by exists f'. }
  unfold writer_take, writer_heartbeat, writer_ping, writer_write, writer_done. destruct (c_writer c) as [|e|] eqn:Hw; [| |by split_and!].
  - split_and!; [| |by intros []|done|].
    + destruct (outbox (mgr (tun c))) as [|e q]; [done|]. apply (still_wf c); auto; try done; [by rewrite Hw|].
      intros f' Hf'. left. by exists f'.
    + unfold pending_count, t_envelope. destruct (PendingCount _) as [d [e|n]];
        (apply (session_step_wf c); auto; try done; try reflexivity; try (by rewrite Hw);
         intros f' Hf'; left; by exists f').
    + destruct (done_ctx (tun c)) eqn:Hd; [|done]. apply (still_wf c); auto; try done. intros f' Hf'. left. by exists f'.
  - split_and!; try done. unfold writeJSON. destruct (write_ok _ _);
      (apply (still_wf c); auto; try done; try (by rewrite Hw); intros f' Hf'; left; by exists f').
Qed.

Lemma send_task_to_stable addr task (t : tworld) :
  quiet t (send_task_to addr task t).1 /\ flushing (mgr (send_task_to addr task t).1) = flushing (mgr t) /\
  reg_stable (reg t) (reg (send_task_to addr task t).1).
Proof.
  unfold send_task_to. pose proof (send_stable (reg t) addr (queued_task task)) as HS.
  destruct (Registry_send _ _ _) as [r [e|]]; cbn [fst] in *; [|by split_and!].
  split_and!; [done| |exact HS]. cbn. by case_match.
Qed.

Lemma task_target_alloc raw c addr task :
  conc_wf c -> task_target raw (tun c) = Some (addr, task) -> is_Some (heap (reg (tun c)) !! addr).
Proof.
  intros Hc. unfold task_target. destruct (Unmarshal_Envelope raw) as [|env]; [done|].
  destruct (Unmarshal_Task raw) as [|tk]; [done|]. destruct (_ && _); [|done]. destruct (extractICCID tk) as [|ic]; [done|].
  destruct (workers (reg (tun c)) !! ic) as [a|] eqn:Ha; [|done]. intros [= <- <-].
  destruct (gw_registered _ (cw_gateway _ Hc) _ _ Ha) as [(x & Hx & _) _]. by exists x.
Qed.

Lemma reader_step_wf c :
  conc_wf c ->
  conc_wf (reader_head c) /\ (forall raw, conc_wf (reader_message raw c)) /\ conc_wf (reader_send c) /\ conc_wf (reader_error c).
Proof.
  intros Hc. pose proof (cw_lock c Hc) as HL. unfold reader_head, reader_message, reader_send, reader_error.
  destruct (c_reader c) as [| |addr task|] eqn:Hr; split_and!; try done.
  - destruct (done_ctx (tun c)) eqn:Hd; (apply (still_wf c); auto; try done; try (by rewrite Hr));
      intros f' Hf'; left; by exists f'.
  - intros raw. destruct (task_target raw (tun c)) as [[addr task]|] eqn:Ht.
    + apply (still_wf c); auto; try done; try (by rewrite Hr).
      * intros a tk [= <- <-]. right. by eapply task_target_alloc.
      * intros f' Hf'. left. by exists f'.
    + set (a := (_ ← handleInbound conf raw; mret tt) : st tworld ()).
      assert (forall t, quiet t (a t).1 /\ flushing (mgr (a t).1) = flushing (mgr t) /\ reg_stable (reg t) (reg (a t).1)) as Ha.
      { intros t. pose proof (handleInbound_quiet conf raw t) as H1.
        pose proof (t_handleInbound conf _ stable_tunnel_rel raw t) as H2. pose proof (handleInbound_flushing raw t) as H3.
        unfold a. cbv [mbind st_bind]. by destruct (handleInbound conf raw t). }
      destruct (Ha (tun c)) as ([_ _ _ H2] & H3 & H4).
      apply (session_step_wf c); auto; try done; try (by rewrite Hr).
      * unfold tun in *. cbn. by rewrite H3.
      * unfold tun in *. cbn. by rewrite H2.
      * intros f' Hf'. left. by exists f'.
  - destruct (done_ctx (tun c)) eqn:Hd; (apply (still_wf c); auto; try done; try (by rewrite Hr));
      intros f' Hf'; left; by exists f'.
  - destruct (send_task_to_stable addr task (tun c)) as ([_ _ _ H2] & H3 & H4).
    apply (session_step_wf c); auto; try done; try (by rewrite Hr).
    + unfold tun in *. cbn. by rewrite H3.
    + unfold tun in *. cbn. by rewrite H2.
    + intros f' Hf'. left. by exists f'.
Qed.

Lemma connect_same (g : gateway) :
  flushing (mgr (g_tun (connect conf uuid AddDays write_ok g))) = flushing (mgr (g_tun g)).
Proof.
  unfold connect. cbv [mbind st_bind mupd st_modify session_open sendHello purge t_envelope st_get writeJSON].
  cbn. by destruct (write_ok _ _).
Qed.

Lemma session_begin_wf c : conc_wf c -> conc_wf (session_begin c).
Proof.
  intros Hc. unfold session_begin. destruct (g_session (c_gw c)) eqn:Hg; [done|]. destruct Hc as [W1 W2 W3 W4 W5 W6].
  pose proof (connect_same (c_gw c)) as HL.
  split; unfold tun in *; cbn [c_gw c_writer c_reader c_flush c_session].
  - by apply connect_wf.
  - by rewrite HL.
  - intros Hg'. by rewrite Hg'.
  - intros Hg'. by rewrite Hg'.
  - intros addr task. by destruct (g_session (connect conf uuid AddDays write_ok (c_gw c))).
  - intros f Hf. specialize (W6 f Hf). lia.
Qed.

Lemma session_end_wf c : conc_wf c -> conc_wf (session_end c).
Proof.
  intros Hc. unfold session_end. destruct (c_writer c) eqn:Hw; try done. destruct (c_reader c) eqn:Hr; try done.
  destruct Hc as [W1 W2 W3 W4 W5 W6]. split; unfold tun in *; cbn [set_gw c_gw c_writer c_reader c_flush c_session].
  - by apply gateway_step_wf.
  - rewrite <- W2. cbn [gateway_step]. by destruct (_ && _).
  - done.
  - cbn [gateway_step]. destruct (g_session (c_gw c)) eqn:Hg; cbn [andb]; [|congruence].
    by rewrite W4 by auto.
  - intros addr task. by rewrite Hr.
  - done.
Qed.

Lemma panic_wf c : conc_wf c -> conc_wf (writer_panic c) /\ conc_wf (flush_panic c).
Proof.
  intros Hc. pose proof (cw_lock c Hc) as HL.
  assert (conc_wf (flush_end c)) as Hend by (apply (still_wf c); auto; done).
  unfold writer_panic, flush_panic. destruct (flush_writing c); [|by destruct (c_writer c)].
  split; [|by destruct (c_writer c)]. apply (still_wf c); auto; try done. intros f' Hf'. left. by exists f'.
Qed.

Lemma conc_step_wf c a : conc_wf c -> conc_wf (conc_step c a).
Proof.
  intros Hc. destruct (writer_step_wf c Hc) as (H1 & H2 & H3 & H4 & H5). destruct (reader_step_wf c Hc) as (H6 & H7 & H8 & H9).
  destruct (panic_wf c Hc) as [H10 H11]. pose proof (cw_lock c Hc) as HL.
  destruct a; cbn [conc_step]; try (by apply on_gw_wf); auto.
  - by apply session_begin_wf.
  - by apply session_end_wf.
  - apply (session_step_wf c); auto; try done; try reflexivity. intros f' Hf'. left. by exists f'.
  - apply (still_wf c); auto; try done. intros f' Hf'. left. by exists f'.
  - destruct (_ && _) eqn:E; [|done]. apply flush_begin_wf; [|done]. apply andb_true_iff in E as [_ E]. by apply Nat.leb_le in E.
  - by apply flush_step_wf.
Qed.

Lemma conc_run_wf steps : forall c, conc_wf c -> conc_wf (conc_run c steps).
Proof. induction steps as [|a steps IH]; intros c Hc; [done|]. by apply IH, conc_step_wf. Qed.

Lemma conc_new_wf cfg opened d modem now g : New cfg opened d modem now = inr g -> conc_wf (conc_new g).
Proof.
  intros HN. pose proof (New_wf _ _ _ _ _ _ HN) as Hg. unfold New in HN. destruct (Open opened d) as [d' [e|u]]; [done|].
  injection HN as <-. by split.
Qed.

Lemma concurrent_steps_wf cfg opened d modem now g steps :
  New cfg opened d modem now = inr g -> conc_wf (conc_run (conc_new g) steps).
Proof. intros HN. by eapply conc_run_wf, conc_new_wf. Qed.


(** ** The lookup and the send of a task *)

(** Taken together they are [handleInbound]. *)
Lemma dispatch_in_two_steps raw c addr task :
  c_reader c = RReading -> conc_wf c -> task_target raw (tun c) = Some (addr, task) ->
  reader_send (reader_message raw c) = set_reader (in_tunnel c (_ ← handleInbound conf raw; mret tt)) RHead.
Proof.
  intros Hr Hc Ht. destruct (task_target_alloc raw c addr task Hc Ht) as [x Hx].
  unfold reader_message. rewrite Hr, Ht. unfold reader_send. cbn [set_reader c_reader].
  unfold set_reader, in_tunnel, set_gw, on_tunnel. cbn [c_gw c_session c_writer c_flush]. do 2 f_equal.
  change (g_tun (c_gw c)) with (tun c). cbv [mbind st_bind mret st_ret].
  unfold task_target in Ht. unfold handleInbound. destruct (Unmarshal_Envelope raw) as [|env]; [done|].
  destruct (Unmarshal_Task raw) as [|tk] eqn:Hu; [done|]. destruct (String.eqb_spec (Type_ env) TypeTask) as [Hty|]; [|done].
  cbn [andb] in Ht. destruct (M_Routed conf); [|done]. rewrite Hty. change (String.eqb TypeTask TypeSMSDeliveredAck) with false.
  change (String.eqb TypeTask TypeTask) with true. cbv iota. unfold Dispatch. destruct (extractICCID tk) as [|ic]; [done|].
  destruct (workers (reg (tun c)) !! ic) as [a|] eqn:Hw; [|done]. injection Ht as -> ->.
  cbv [mbind st_bind st_get mret st_ret]. unfold Registry_Dispatch. rewrite Hw. unfold send_task_to.
  by destruct (Registry_send (reg (tun c)) addr (queued_task task)) as [r [e|]].
Qed.

(** ** The end of a session *)

(** Only the return of its read takes a blocked reader out of it. *)
Definition read_returns (a : cstep) : bool :=
  match a with CInbound _ | CReadError => true | _ => false end.

Lemma blocked_step c a :
  conc_wf c -> c_reader c = RReading -> read_returns a = false ->
  let c' := conc_step c a in c_reader c' = RReading /\ c_session c' = c_session c.
Proof.
  intros Hc Hr Ha. destruct a; cbn [conc_step]; try done.
  - unfold session_begin. destruct (g_session (c_gw c)) eqn:Hg; [done|]. destruct (cw_idle c Hc Hg). congruence.
  - unfold session_end. rewrite Hr. by destruct (c_writer c).
  - unfold reader_head. by rewrite Hr.
  - unfold reader_send. by rewrite Hr.
  - unfold writer_take. by destruct (c_writer c), (outbox (mgr (tun c))).
  - unfold writer_heartbeat. destruct (c_writer c); try done. unfold pending_count. by destruct (PendingCount _) as [d [e|n]].
  - unfold writer_ping. by destruct (c_writer c), ok.
  - unfold writer_write. destruct (c_writer c); try done. unfold writeJSON. by destruct (write_ok _ _).
  - unfold writer_done. by destruct (c_writer c), (done_ctx (tun c)).
  - unfold writer_panic. by destruct (flush_writing c).
  - unfold flush_panic. by destruct (c_writer c), (flush_writing c).
  - destruct (_ && _); [|done]. unfold flush_begin. destruct (flushing _); [done|]. unfold pending_rows.
    by destruct (PendingRows _) as [d [e|rs]].
  - unfold flush_step. destruct (c_flush c) as [f|]; [|done]. destruct (f_phase f) as [|r e|r|r].
    + destruct (f_rows f); [done|]. by destruct (flush_ctx_done c f).
    + destruct (flush_conn_closed c f); [done|]. unfold writeJSON. by destruct (write_ok _ _).
    + by destruct (_ <=? _).
    + destruct s; [by destruct (decide _)|done|by destruct (flush_ctx_done c f)].
Qed.

Lemma blocked_run steps : forall c,
  conc_wf c -> c_reader c = RReading -> forallb (fun a => negb (read_returns a)) steps = true ->
  c_reader (conc_run c steps) = RReading /\ c_session (conc_run c steps) = c_session c.
Proof.
  induction steps as [|a steps IH]; intros c Hc Hr Hs; [done|]. cbn [forallb] in Hs.
  apply andb_true_iff in Hs as [Ha%negb_true_iff Hs]. destruct (blocked_step c a Hc Hr Ha) as [Hr' Hk'].
  destruct (IH _ (conc_step_wf c a Hc) Hr' Hs) as [H1 H2]. split; [exact H1|]. by rewrite <- Hk'.
Qed.

Lemma writer_returns c :
  done_ctx (tun c) = true -> c_reader c = RReturned ->
  let c' := writer_done (writer_write c) in
  c_writer c' = WReturned /\ done_ctx (tun c') = true /\ c_reader c' = RReturned.
Proof.
  intros Hd Hr. unfold writer_write. destruct (c_writer c) as [|e|] eqn:Hw.
  - unfold writer_done. rewrite Hw, Hd. by split_and!.
  - unfold writeJSON. destruct (write_ok _ _); [|by split_and!]. unfold writer_done. unfold tun in *. cbn. by rewrite Hd.
  - unfold writer_done. by rewrite Hw.
Qed.

(** C14: cancelling a session does not end it: it ends when its reader's read
    returns.  In any state the goroutines can reach in which the reader is
    blocked in ReadMessage: as long as the read does not return, with a message
    or an error, the session is the same and still open, whatever else happens
    (cancellation of the context, the return or panic of the writer, flushes,
    purges); and when the read fails, the writer's return and the end of the
    wait close the session. *)
Theorem session_ends_with_read (cfg : GatewayConfig) (opened : option go_error) (d : DB) (modem : nat -> M) (now : Z)
    (g : gateway) (steps later : list cstep) :
  New cfg opened d modem now = inr g ->
  let c := conc_run (conc_new g) steps in
  c_reader c = RReading -> forallb (fun a => negb (read_returns a)) later = true ->
  let c1 := conc_run c later in
  g_session (c_gw c1) = true /\ c_session c1 = c_session c /\
  let c2 := conc_run c1 [CReadError; CWrite; CWriterDone; CHangup] in
  g_session (c_gw c2) = false /\ c_writer c2 = WReturned /\ c_reader c2 = RReturned.
Proof.
  intros HN c Hr Hl c1. pose proof (concurrent_steps_wf cfg opened d modem now g steps HN) as Hc. fold c in Hc.
  destruct (blocked_run later c Hc Hr Hl) as [Hr1 Hk1]. pose proof (conc_run_wf later c Hc) as Hc1. fold c1 in Hr1, Hk1, Hc1.
  assert (g_session (c_gw c1) = true) as Hg1.
  { destruct (g_session (c_gw c1)) eqn:Hg; [done|]. destruct (cw_idle c1 Hc1 Hg). congruence. }
  split; [done|]. split; [done|]. cbv zeta. unfold conc_run at 1 2 3. cbn [foldl conc_step].
  assert (c_reader (reader_error c1) = RReturned /\ done_ctx (tun (reader_error c1)) = true /\
    g_session (c_gw (reader_error c1)) = true) as (R2 & D2 & G2).
  { unfold reader_error. rewrite Hr1. by destruct (done_ctx (tun c1)) eqn:Hd. }
  destruct (writer_returns _ D2 R2) as (W3 & D3 & R3). set (c3 := writer_done _) in *.
  unfold session_end. rewrite W3, R3. unfold tun in *. cbn [set_gw c_gw c_writer c_reader gateway_step].
  rewrite D3, andb_true_r. by destruct (g_session (c_gw c3)) eqn:Hg.
Qed.

(** ** A flush run alone

    [Tunnel.flushBuffer] is the flush on the events that reach it while it
    waits.  It is the run of this file in which nothing else happens. *)

(** Inbound messages, timeouts and cancellation: the events that are steps of
    the tunnel itself. *)
Definition own_event (e : flush_event) : Prop :=
  match e with FPush _ | FBuffer _ => False | _ => True end.

(** A flush between two rows, in the session that started it. *)
Record flushing_at (c : conc) (rs : list SMSRecord) : Prop := {
  fa_flush : c_flush c = Some (mkFlusher (c_session c) rs FCheck);
  fa_session : g_session (c_gw c) = true;
  fa_reader : c_reader c = RReading;
  fa_wf : conc_wf c }.

(** The run [steps] of [c] makes the tunnel [t] and nothing else: [frame_of] is
    what is left alone. *)
Definition frame_of (c c' : conc) : Prop :=
  c_session c' = c_session c /\ c_writer c' = c_writer c /\ c_reader c' = c_reader c /\
  g_slots (c_gw c') = g_slots (c_gw c) /\ g_session (c_gw c') = g_session (c_gw c).

Lemma frame_of_trans c1 c2 c3 : frame_of c1 c2 -> frame_of c2 c3 -> frame_of c1 c3.
Proof. unfold frame_of. intuition congruence. Qed.

Lemma conc_run_app c l1 l2 : conc_run c (l1 ++ l2) = conc_run (conc_run c l1) l2.
Proof. apply foldl_app. Qed.

(** An inbound message is handled by the reader's steps. *)
Lemma inbound_simulated raw c :
  conc_wf c -> c_reader c = RReading -> done_ctx (tun c) = false ->
  exists steps, let c' := conc_run c steps in
    frame_of c c' /\ c_flush c' = c_flush c /\ conc_wf c' /\ tun c' = (handleInbound conf raw (tun c)).1.
Proof.
  intros Hc Hr Hd. set (c1 := set_reader (in_tunnel c (_ ← handleInbound conf raw; mret tt)) RHead).
  assert (tun c1 = (handleInbound conf raw (tun c)).1) as Ht.
  { unfold c1, tun, in_tunnel, on_tunnel. cbn [set_reader set_gw c_gw g_tun].
    cbv [mbind st_bind mret st_ret]. by destruct (handleInbound conf raw _). }
  assert (exists steps, conc_run c steps = c1) as (steps & Hs).
  { destruct (task_target raw (tun c)) as [[addr task]|] eqn:Htt.
    - exists [CInbound raw; CSend]. cbn [conc_run foldl conc_step]. by apply (dispatch_in_two_steps raw c addr task).
    - exists [CInbound raw]. cbn [conc_run foldl conc_step]. unfold reader_message. by rewrite Hr, Htt. }
  exists (steps ++ [CReadStart]). cbv zeta. rewrite conc_run_app.
  assert (conc_run c1 [CReadStart] = set_reader c1 RReading) as H1.
  { cbn [conc_run foldl conc_step]. unfold reader_head. cbn [c1 set_reader c_reader]. fold c1. rewrite Ht.
    by rewrite (q_ctx _ _ (handleInbound_quiet conf raw (tun c))), Hd. }
  pose proof (conc_run_wf [CReadStart] _ (conc_run_wf steps c Hc)) as Hwf. rewrite Hs in *. rewrite H1 in *.
  split_and!; [|done|done|exact Ht]. by split_and!.
Qed.

(** Waiting for the acknowledgement of row [r]. *)
Lemma await_simulated evs : forall c r rs,
  Forall own_event evs -> conc_wf c -> c_flush c = Some (mkFlusher (c_session c) rs (FWaiting r)) ->
  g_session (c_gw c) = true -> c_reader c = RReading -> done_ctx (tun c) = false ->
  let '(t, (evs', go_on)) := await_ack conf AddDays (ID r) evs (tun c) in
  Forall own_event evs' /\ exists steps,
    let c' := conc_run c steps in
    frame_of c c' /\ conc_wf c' /\
    (if (go_on : bool) then c_flush c' = Some (mkFlusher (c_session c) rs FCheck) /\ tun c' = t
     else c_flush c' = None /\ tun c' = (unlock t).1).
Proof.
  assert (forall c r rs s, conc_wf c -> c_flush c = Some (mkFlusher (c_session c) rs (FWaiting r)) ->
    s <> SelDone -> (s = SelAck -> ID r ∉ acks_pending (mgr (tun c))) ->
    let c' := conc_run c [CFlushStep s] in
    frame_of c c' /\ conc_wf c' /\ c_flush c' = Some (mkFlusher (c_session c) rs FCheck) /\
    tun c' = match s with SelTimer => set_mgr (tun c) (set_acks_pending (mgr (tun c)) (acks_pending (mgr (tun c)) ∖ {[ID r]})) | _ => tun c end) as Hsel.
  { intros c r rs s Hc Hf Hs Ha. split; [|split; [by apply conc_run_wf|]];
      cbn [conc_run foldl conc_step]; unfold flush_step; rewrite Hf; cbn [f_phase];
      destruct s; try done; rewrite decide_False by (by apply Ha); by cbn. }
  induction evs as [|e evs IH]; intros c r rs He Hc Hf Hg Hr Hd; cbn [await_ack].
  - destruct (decide _) as [Hin|Hin]; (split; [constructor|]).
    + exists [CFlushStep SelTimer]. by apply (Hsel c r rs SelTimer).
    + exists [CFlushStep SelAck]. by apply (Hsel c r rs SelAck).
  - destruct (decide _) as [Hin|Hin].
    2:{ split; [done|]. exists [CFlushStep SelAck]. by apply (Hsel c r rs SelAck). }
    apply Forall_cons in He as [He Hevs]. destruct e as [raw|e|o| |]; try done.
    + destruct (inbound_simulated raw c Hc Hr Hd) as (s1 & (F1 & F2 & F3 & F4 & F5) & Fl & Hc1 & Ht).
      cbv zeta in *. set (c1 := conc_run c s1) in *.
      specialize (IH c1 r rs Hevs Hc1). rewrite Fl, F1, F5, F3, Ht in IH.
      specialize (IH Hf Hg Hr). rewrite (q_ctx _ _ (handleInbound_quiet conf raw (tun c))) in IH. specialize (IH Hd).
      destruct (handleInbound conf raw (tun c)) as [t1 u]. cbn [fst] in IH.
      destruct (await_ack conf AddDays (ID r) evs t1) as [t2 [evs' go_on]]. destruct IH as [H1 (steps & HF & HW & HG)].
      split; [done|]. exists (s1 ++ steps). cbv zeta. rewrite conc_run_app. fold c1. split; [|by split].
      by apply (frame_of_trans c c1).
    + split; [done|]. exists [CFlushStep SelTimer]. by apply (Hsel c r rs SelTimer).
    + split; [done|]. exists [CCancel; CFlushStep SelDone]. cbv zeta. split; [|split; [by apply conc_run_wf|]];
        cbn [conc_run foldl conc_step]; unfold flush_step; cbn [in_tunnel set_gw c_flush]; rewrite Hf; cbn [f_phase];
        unfold flush_ctx_done; cbn; by rewrite orb_true_r.
Qed.

(** The first steps of a row: up to its registration, when the write succeeds. *)
Lemma row_written c r rs :
  flushing_at c (r :: rs) -> done_ctx (tun c) = false ->
  let '(t, env) := t_envelope uuid TypeSMSReceived (tun c) in
  let '(t, err) := writeJSON write_ok (replay conf env r) t in
  let c' := conc_run c [CFlushStep SelAck; CFlushStep SelAck] in
  frame_of c c' /\
  match err with
  | Some _ => c_flush c' = None /\ tun c' = (unlock t).1
  | None => c_flush c' = Some (mkFlusher (c_session c) rs (FRegister r)) /\ tun c' = t
  end.
Proof.
  intros [Hf Hg Hr _] Hd. destruct (t_envelope uuid TypeSMSReceived (tun c)) as [t env] eqn:Et.
  set (c1 := set_flush (in_tunnel c (fun _ => (t, tt))) (Some (mkFlusher (c_session c) rs (FWriting r (replay conf env r))))).
  assert (flush_step SelAck c = c1) as H1.
  { unfold flush_step. rewrite Hf. cbn [f_phase f_rows]. unfold flush_ctx_done. cbn [f_session].
    rewrite Nat.eqb_refl, Hd, Et. done. }
  assert (flush_conn_closed c1 (mkFlusher (c_session c) rs (FWriting r (replay conf env r))) = false) as H2.
  { unfold flush_conn_closed. cbn. by rewrite Nat.eqb_refl, Hg. }
  cbn [conc_run foldl conc_step]. rewrite H1. unfold flush_step. cbn [c1 set_flush c_flush f_phase]. fold c1. rewrite H2.
  change (tun c1) with t. destruct (writeJSON write_ok (replay conf env r) t) as [t2 [err|]]; by split_and!.
Qed.

Lemma rows_simulated rs : forall evs c,
  Forall own_event evs -> flushing_at c rs ->
  exists steps,
    let c' := conc_run c steps in
    frame_of c c' /\ c_flush c' = None /\ tun c' = (unlock (flush_rows conf uuid AddDays write_ok rs evs (tun c)).1).1.
Proof.
  induction rs as [|r rs IH]; intros evs c He Hc; cbn [flush_rows].
  { exists [CFlushStep SelAck]. destruct Hc as [Hf Hg Hr _]. cbn [conc_run foldl conc_step]. unfold flush_step. rewrite Hf. by cbn. }
  destruct (done_ctx (tun c)) eqn:Hd.
  { exists [CFlushStep SelAck]. destruct Hc as [Hf Hg Hr _]. cbn [conc_run foldl conc_step]. unfold flush_step. rewrite Hf.
    cbn [f_phase f_rows]. unfold flush_ctx_done. rewrite Hd, orb_true_r. by cbn. }
  pose proof (row_written c r rs Hc Hd) as HW. destruct (t_envelope uuid TypeSMSReceived (tun c)) as [t0 env] eqn:Et.
  destruct (writeJSON write_ok (replay conf env r) t0) as [t [err|]] eqn:Ew; destruct HW as [HF HW].
  { exists [CFlushStep SelAck; CFlushStep SelAck]. split; [done|]. exact HW. }
  set (c1 := conc_run c [CFlushStep SelAck; CFlushStep SelAck]) in *. destruct HW as [Hf1 Ht1].
  destruct HF as (HF1 & HF2 & HF3 & HF4 & HF5). destruct Hc as [Hf Hg Hr Hwf]. rewrite <- HF1 in Hf1.
  assert (done_ctx t = false) as Hdt.
  { unfold t_envelope in Et. injection Et as <- _. unfold writeJSON in Ew. destruct (write_ok _ _); [|done].
    injection Ew as <-. exact Hd. }
  assert (conc_wf (conc_run c [CFlushStep SelAck; CFlushStep SelAck; CFlushStep SelAck])) as Hwf2 by (by apply conc_run_wf).
  set (c2 := conc_step c1 (CFlushStep SelAck)).
  assert (conc_run c [CFlushStep SelAck; CFlushStep SelAck; CFlushStep SelAck] = c2) as Hrun by done.
  assert (frame_of c c2) as Hframe2.
  { unfold c2, conc_step, flush_step. rewrite Hf1. cbn [f_phase]. destruct (_ <=? _); by split_and!. }
  assert (forall steps (t' : tworld), frame_of c2 (conc_run c2 steps) /\ c_flush (conc_run c2 steps) = None /\
    tun (conc_run c2 steps) = t' -> exists steps, let c' := conc_run c steps in frame_of c c' /\ c_flush c' = None /\ tun c' = t') as Hthen.
  { intros steps t' (A1 & A2 & A3). exists ([CFlushStep SelAck; CFlushStep SelAck; CFlushStep SelAck] ++ steps).
    cbv zeta. rewrite conc_run_app, Hrun. split; [by apply (frame_of_trans c c2)|by split]. }
  destruct Hframe2 as (G1 & G2 & G3 & G4 & G5).
  unfold c2, conc_step, flush_step in G1, G2, G3, G4, G5, Hthen, Hrun. rewrite Hf1 in G1, G2, G3, G4, G5, Hthen, Hrun. cbn [f_phase] in G1, G2, G3, G4, G5, Hthen, Hrun.
  rewrite Hrun in Hwf2. rewrite Ht1 in *. clear c2. destruct (MaxPendingACKs <=? size (acks_pending (mgr t))).
  - set (c2 := flush_goto _ _ _) in *. destruct (IH evs c2 He) as (steps & HS).
    { split; [done|by rewrite G5|by rewrite G3|done]. }
    apply (Hthen steps). cbv zeta in HS. by rewrite <- Ht1.
  - set (c2 := flush_goto _ _ _) in *. set (t2 := set_mgr t _).
    assert (tun c2 = t2) as Ht2.
    { change (tun c2) with (set_mgr (tun c1) (set_acks_pending (mgr (tun c1)) ({[ID r]} ∪ acks_pending (mgr (tun c1))))).
      by rewrite Ht1. }
    pose proof (await_simulated evs c2 r rs He) as HA. rewrite Ht2 in HA.
    destruct (await_ack conf AddDays (ID r) evs t2) as [t3 [evs' go_on]].
    destruct HA as [He' (steps & HF & HW & HG)]; [done|done|by rewrite G5|by rewrite G3|done|].
    destruct go_on.
    + destruct HG as [HG1 HG2]. destruct HF as (K1 & K2 & K3 & K4 & K5).
      destruct (IH evs' (conc_run c2 steps) He') as (steps' & HS).
      { split; [rewrite HG1; by rewrite K1|by rewrite K5, G5|by rewrite K3, G3|done]. }
      apply (Hthen (steps ++ steps')). rewrite conc_run_app. rewrite HG2 in HS. cbv zeta in HS.
      destruct HS as (L1 & L2 & L3). split; [|by split]. by apply (frame_of_trans c2 (conc_run c2 steps)).
    + apply (Hthen steps). destruct HG as [HG1 HG2]. by split.
Qed.

(** A flush is a run of its goroutine.  What [Tunnel.flushBuffer] makes of
    the tunnel, given the inbound messages, timeouts and cancellation that reach
    it while it waits, is what some schedule of the goroutines' steps makes of
    it, from any state of a session in which no flush is under way; writer,
    ports and session are left alone and the lock is free again.  So the
    theorems about [flushBuffer] speak of runs of the gateway. *)
Theorem flush_simulated (evs : list flush_event) (c : conc) :
  Forall own_event evs -> conc_wf c -> g_session (c_gw c) = true -> c_reader c = RReading -> c_flush c = None -> 0 < c_session c ->
  exists steps, let c' := conc_run c steps in
    frame_of c c' /\ c_flush c' = None /\ tun c' = (flushBuffer conf uuid AddDays write_ok evs (tun c)).1.
Proof.
  intros He Hc Hg Hr Hf Hk. pose proof (cw_lock c Hc) as HL. rewrite Hf in HL. unfold flushBuffer. rewrite HL.
  assert (conc_step c (CFlush (c_session c)) = flush_begin (c_session c) c) as Hb.
  { cbn [conc_step]. rewrite Nat.leb_refl. by destruct (Nat.ltb_spec 0 (c_session c)); [|lia]. }
  unfold flush_begin in Hb. rewrite HL in Hb. destruct (pending_rows _) as [t [e|rs]] eqn:EP.
  - exists [CFlush (c_session c)]. cbv zeta. cbn [conc_run foldl]. rewrite Hb. by cbn.
  - set (c1 := set_flush _ _) in Hb. destruct (rows_simulated rs evs c1 He) as (steps & HF & H1 & H2).
    { split; try done. rewrite <- Hb. by apply conc_step_wf. }
    exists (CFlush (c_session c) :: steps). cbv zeta. cbn [conc_run foldl]. rewrite Hb.
    fold (conc_run c1 steps). split; [exact HF|]. split; [done|]. rewrite H2. change (tun c1) with t.
    by destruct (flush_rows conf uuid AddDays write_ok rs evs t).
Qed.

End Concurrent.

(** ** Witnesses *)

Abbreviation demo_crun := (conc_run demo_conf demo_ids utc_days all_ok).

(** One modem whose SIM holds a message at index 3; the worker starts while the
    first dial fails, the tunnel connects, the message is announced and stored;
    a flush and the writer write at the same time; the acknowledgement overtakes
    the flush's registration, which then waits for the timer. *)
Definition demo_opening : list (@cstep sim) :=
  [CDialFailed; CStart 0 (fun _ => inl (errors_New "no")) (fun m _ => inr m); CConnect; CReadStart;
   CWorker 0 (EvReader (Scan (cmti 3))); CWorker 0 EvURC; CFlush 1; CFlushStep SelAck; CTake].

Definition demo_schedule : list (@cstep sim) :=
  demo_opening ++
  [CWrite; CFlushStep SelAck; CHeartbeat; CWrite; CInbound (ack_json "1"); CFlushStep SelAck; CFlushStep SelAck;
   CReadStart;
   CReset true demo_iccid; CWorker 0 EvReset; CFlushStep SelTimer; CReadError; CWriterDone; CHangup; CPurge;
   CFlushStep SelAck; CConnect].

Definition demo_conc : @conc sim memdb := conc_new (started demo_new).

(** The acknowledgement is received after the flush's write. *)
Definition demo_acked : list (@cstep sim) :=
  demo_opening ++ [CWrite; CFlushStep SelAck; CFlushStep SelAck; CInbound (ack_json "1"); CReadStart; CFlushStep SelAck].


(** In that run the message has left the SIM and the queue. *)
Example demo_acked_run :
  let g := c_gw (demo_crun (conc_new demo_gateway) demo_acked) in
  (slots ∘ snd ∘ sl_port <$> g_slots g !! 0%nat) = Some [] /\ queue (inbox_of (db g)) = [] /\
  length (archive (inbox_of (db g))) = 1.
Proof. by vm_compute. Qed.


(** The context is cancelled while flush and writer are both writing, and the
    writer panics. *)
Lemma session_ends_with_read_witness :
  let c := demo_crun demo_conc demo_opening in
  let c1 := demo_crun c [CCancel; CWriterPanic; CFlushStep SelDone; CFlushStep SelDone; CHangup; CPurge] in
  g_session (c_gw c1) = true /\ c_session c1 = c_session c /\
  let c2 := demo_crun c1 [CReadError; CWrite; CWriterDone; CHangup] in
  g_session (c_gw c2) = false /\ c_writer c2 = WReturned /\ c_reader c2 = RReturned.
Proof.
  apply (session_ends_with_read demo_conf demo_ids utc_days all_ok demo_file None mem_empty
    (fun _ => {| slots := [(3%Z, demo_pdu)] |}) 1700000000000000000 (started demo_new) demo_opening);
    [reflexivity|by vm_compute|by vm_compute].
Defined.

Lemma flush_simulated_witness :
  let c := demo_crun demo_conc (take 6 demo_opening) in
  exists steps, let c' := demo_crun c steps in
    frame_of c c' /\ c_flush c' = None /\
    tun c' = (flushBuffer demo_conf demo_ids utc_days all_ok [FInbound demo_task_json; FTimeout] (tun c)).1.
Proof.
  apply (flush_simulated demo_conf demo_ids utc_days all_ok [FInbound demo_task_json; FTimeout]
           (demo_crun demo_conc (take 6 demo_opening))).
  - by repeat constructor.
  - apply (concurrent_steps_wf demo_conf demo_ids utc_days all_ok demo_file None mem_empty
      (fun _ => {| slots := [(3%Z, demo_pdu)] |}) 1700000000000000000). reflexivity.
  - by vm_compute.
  - by vm_compute.
  - by vm_compute.
  - by_eval.
Defined.

(** In the demonstration the message ends up acknowledged and the second session
    begins with an empty queue. *)
Example demo_schedule_run :
  let c := demo_crun demo_conc demo_schedule in
  (c_session c, g_session (c_gw c), length (queue (inbox_of (db (c_gw c)))), length (archive (inbox_of (db (c_gw c))))) =
  (2, true, 0, 1).
Proof. by vm_compute. Qed.

(** ** Two writers

    The WebSocket library allows one goroutine at a time to write a message on a
    connection, and leaves it to its users to ensure it.  The flush and the
    writer share the connection without a lock. *)
Definition writing (c : @conc sim memdb) : nat :=
  (match c_writer c with WWriting _ => 1 | _ => 0 end) +
  (match c_flush c with Some f => match f_phase f with FWriting _ _ => 1 | _ => 0 end | None => 0 end).

Lemma two_goroutines_write_at_once : writing (demo_crun demo_conc demo_opening) = 2.
Proof. by vm_compute. Qed.

(** After the writer's panic the session goes on without a writer: its context
    is not done and the reader is reading. *)
Lemma panic_leaves_session_without_writer :
  let c := demo_crun demo_conc (demo_opening ++ [CWriterPanic]) in
  g_session (c_gw c) = true /\ done_ctx (tun c) = false /\ c_writer c = WReturned /\ c_reader c = RReading.
Proof. by vm_compute. Qed.

(** ** A task sent to a worker that has left

    The worker is found; before the send it fails (its watchdog has seen it
    stalled) and leaves the registry.  The task goes to the queue of a worker
    that nobody runs, and the cloud gets no answer. *)
Definition demo_late_send : list (@cstep sim) :=
  [CDialFailed; CStart 0 (fun _ => inl (errors_New "no")) (fun m _ => inr m); CConnect; CReadStart;
   CInbound (Some (JObj [("type", JStr TypeTask); ("message_id", JStr "t1"); ("ts", JNum "0");
              ("action", JStr ActionCheckSignal); ("payload", JObj [("iccid", JStr demo_iccid)])]));
   CWorker 0 (EvElapse (1000 * second)); CWorker 0 EvWatchdog; CWorker 0 EvSignal; CSend].

Lemma task_sent_to_dead_worker :
  let c := demo_crun demo_conc demo_late_send in
  workers (reg (tun c)) = ∅ /\ outbox (mgr (tun c)) = [] /\ c_reader c = RHead /\
  (length ∘ inboundCh <$> heap (reg (tun c)) !! 1) = Some 1 /\ (sl_phase <$> g_slots (c_gw c) !! 0) = Some Idle.
Proof. by vm_compute. Qed.
