(* ===== verification/ConcurrentBounds.v ===== *)
(** * Bounds on the tunnel's memory

    Over every schedule of [Concurrent]: the outbox never exceeds its channel,
    and the map of awaited acknowledgements never holds more than two entries,
    the one awaited and one that a cancelled flush left behind, so that its
    limit of 1000 is never reached. *)

From S2P Require Import Prelude GoString Config Pdu RateLimit Buffer Serializer Protocol Registry Worker WorkerFrame WorkerSafety WorkerTasks WorkerSend Supervisor Tunnel TunnelProps Gateway GatewayWf Concurrent.

(** ** What the manager's own actions do *)

Section Shrinks.
Context {DB : Type} `{HDB : SqlEngine DB}.
Variable conf : ManagerConfig.

Local Abbreviation tworld := (@tworld DB).

(** The outbox stays within its channel and no acknowledgement is awaited that
    was not before. *)
Definition shrinks (t t' : tworld) : Prop :=
  (length (outbox (mgr t)) <= outbox_cap -> length (outbox (mgr t')) <= outbox_cap) /\
  acks_pending (mgr t') ⊆ acks_pending (mgr t).

#[global] Instance shrinks_preorder : PreOrder shrinks.
Proof. split; [by intros t; split|]. intros t1 t2 t3 [A1 B1] [A2 B2]. split; [auto|by etransitivity]. Qed.

Lemma shrinks_same (t t' : tworld) :
  outbox (mgr t') = outbox (mgr t) -> acks_pending (mgr t') ⊆ acks_pending (mgr t) -> shrinks t t'.
Proof. intros Ho Ha. split; [by rewrite Ho|done]. Qed.

Lemma Push_shrinks e : preserves (S := tworld) shrinks (Push e).
Proof.
  intros t. unfold Push, mupd, st_modify. cbn [fst].
  destruct (Nat.ltb_spec (length (outbox (mgr t))) outbox_cap); split;
    cbn [set_mgr mgr set_outbox outbox acks_pending]; rewrite ?length_app; cbn [length]; done || lia.
Qed.

Lemma Push_all_shrinks (l : list outbound) : forall t : tworld, shrinks t (foldl (fun t e => (Push e t).1) t l).
Proof. induction l as [|e l IH]; intros t; cbn [foldl]; [done|]. etransitivity; [apply Push_shrinks|apply IH]. Qed.

Lemma handleInbound_shrinks raw : preserves (S := tworld) shrinks (handleInbound conf raw).
Proof.
  unfold handleInbound. destruct (Unmarshal_Envelope raw) as [e|env]; [apply preserves_ret; exact _|].
  destruct (String.eqb _ _).
  - destruct (Unmarshal_SMSDeliveredAck raw) as [e|ack]; [apply preserves_ret; exact _|].
    apply preserves_bind; [exact _| |intros _; apply preserves_ret; exact _].
    intros t. unfold AckDelivered. destruct (MarkDelivered _ _ _). apply shrinks_same; [done|]. cbn. set_solver.
  - destruct (String.eqb _ _); [|apply preserves_ret; exact _].
    destruct (Unmarshal_Task raw) as [e|task]; [apply preserves_ret; exact _|].
    destruct (M_Routed conf); [|apply preserves_ret; exact _].
    apply preserves_bind; [exact _|intros t; destruct (Dispatch (reg t) task); by apply shrinks_same|].
    intros [e|]; [|apply preserves_ret; exact _].
    apply preserves_bind; [exact _|apply preserves_get; exact _|intros now].
    apply preserves_bind; [exact _|apply Push_shrinks|intros _; apply preserves_ret; exact _].
Qed.

Lemma send_task_to_shrinks addr task : preserves (S := tworld) shrinks (send_task_to addr task).
Proof.
  intros t. unfold send_task_to. destruct (Registry_send _ _ _) as [r [e|]]; [|by apply shrinks_same].
  etransitivity; [|apply Push_shrinks]. by apply shrinks_same.
Qed.
End Shrinks.

(** ** The invariant *)

Section Bounds.
Context {M DB : Type} `{HM : Modem M} `{HDB : SqlEngine DB}.
Variable conf : ManagerConfig.
Variable uuid : nat -> string.
Variable AddDays : Z -> Z -> Z.
Variable write_ok : list outbound -> outbound -> bool.

Local Abbreviation gateway := (@gateway M DB).
Local Abbreviation conc := (@conc M DB).
Local Abbreviation step := (conc_step conf uuid AddDays write_ok).
Local Abbreviation run := (conc_run conf uuid AddDays write_ok).

Definition pending (c : conc) : gset Z := acks_pending (mgr (tun c)).

(** The acknowledgement the flush waits for. *)
Definition awaited_ack (c : conc) : gset Z :=
  match f_phase <$> c_flush c with Some (FWaiting r) => {[ID r]} | _ => ∅ end.

(** Entries that may still be left behind before the map is drained: one by the
    flush of an ended session, one by the running session or its flush. *)
Definition registers (c : conc) (f : flusher) : bool :=
  match f_phase f with
  | FRegister _ | FWaiting _ => true
  | FWriting _ _ => negb (flush_conn_closed c f)
  | FCheck => false
  end.

Definition session_live (c : conc) : bool := g_session (c_gw c) && negb (done_ctx (tun c)).

Definition old_slot (c : conc) : nat :=
  match c_flush c with
  | Some f => if negb (f_session f =? c_session c) && registers c f then 1 else 0
  | None => 0
  end.

Definition current_slot (c : conc) : nat :=
  if session_live c then 1 else
  match c_flush c with
  | Some f => if (f_session f =? c_session c) && registers c f then 1 else 0
  | None => 0
  end.

Record within (c : conc) : Prop := {
  wi_outbox : length (outbox (mgr (tun c))) <= outbox_cap;
  wi_acks : size (pending c ∖ awaited_ack c) + old_slot c + current_slot c <= if g_session (c_gw c) then 2 else 1 }.

(** The bound it gives. *)
Lemma within_acks c : within c -> size (pending c) <= 2.
Proof.
  intros [_ H]. assert (size (pending c) <= size (pending c ∖ awaited_ack c) + size (awaited_ack c)) as Hs.
  { rewrite Nat.add_comm, <- size_union_alt. apply subseteq_size. set_solver. }
  unfold awaited_ack, old_slot, current_slot, registers in *. destruct (c_flush c) as [f|]; cbn [fmap option_fmap option_map] in *.
  - destruct (f_phase f); rewrite ?size_empty, ?size_singleton in Hs;
      destruct (f_session f =? c_session c), (g_session (c_gw c)), (session_live c); cbn [negb andb] in *; try lia;
      destruct (negb (flush_conn_closed c f)); lia.
  - rewrite size_empty in Hs. destruct (g_session (c_gw c)); lia.
Qed.

(** A step that leaves the flush and the session alone. *)
Lemma shrinks_within c c' :
  shrinks (tun c) (tun c') -> c_flush c' = c_flush c -> c_session c' = c_session c ->
  g_session (c_gw c') = g_session (c_gw c) -> (done_ctx (tun c) = true -> done_ctx (tun c') = true) ->
  within c -> within c'.
Proof.
  intros [Ho Ha] Hf Hk Hg Hd [W1 W2]. split; [by apply Ho|].
  assert (size (pending c' ∖ awaited_ack c') <= size (pending c ∖ awaited_ack c)) as Hs.
  { apply subseteq_size. unfold awaited_ack. rewrite Hf. unfold pending. set_solver. }
  assert (old_slot c' = old_slot c) as Hold.
  { unfold old_slot, registers, flush_conn_closed. by rewrite Hf, Hk, Hg. }
  assert (current_slot c' <= current_slot c) as Hcur.
  { unfold current_slot, session_live, registers, flush_conn_closed. rewrite Hf, Hk, Hg.
    destruct (done_ctx (tun c)) eqn:E; [by rewrite (Hd eq_refl)|].
    destruct (g_session (c_gw c)), (done_ctx (tun c')); cbn [andb negb]; repeat case_match; lia. }
  rewrite Hold, Hg. lia.
Qed.

(** ** The steps *)

Lemma outside_shrinks g b :
  outside b = true -> shrinks (g_tun g) (g_tun (gateway_step conf uuid AddDays write_ok g b)).
Proof.
  assert (forall (g1 : gateway) k sl ph (s : @world M DB), g_tun g1 = g_tun g -> shrinks (g_tun g) (g_tun (absorb g1 k sl ph s))) as HA.
  { intros g1 k sl ph s E. unfold absorb. cbn [g_tun]. rewrite E. etransitivity; [|apply Push_all_shrinks]. by apply shrinks_same. }
  destruct b as [k dial open|k e| | |e| |post ic]; intros Ho; try done; cbn [gateway_step].
  - unfold start_worker. destruct (g_slots g !! k) as [sl|]; [|done]. case_decide; [|done].
    destruct (start _ _ _ _) as [s [x|]]; by apply HA.
  - unfold run_worker. destruct (g_slots g !! k) as [sl|]; [|done].
    destruct e; try done; (destruct (sl_phase sl); try done; destruct (heap _ !! _) as [x|]; [|done];
      destruct (loop_step uuid _ _) as [s [y|]]; by apply HA).
  - destruct (g_session g); [done|by apply shrinks_same].
  - unfold modemResetHandler. destruct post; [|done]. destruct (String.eqb ic ""); [done|].
    cbn [negb]. cbv zeta. destruct (workers _ !! ic); [by apply shrinks_same|done].
Qed.

Lemma on_gw_within c b : outside b = true -> within c -> within (on_gw conf uuid AddDays write_ok c b).
Proof.
  intros Ho. destruct (outside_same conf uuid AddDays write_ok (c_gw c) b Ho) as [S1 S2 _ _].
  apply shrinks_within; [by apply outside_shrinks|done|done|exact S1|].
  unfold tun. cbn. by rewrite S2.
Qed.

Lemma connect_shrinks (g : gateway) : shrinks (g_tun g) (g_tun (connect conf uuid AddDays write_ok g)).
Proof.
  unfold connect. cbv [mbind st_bind mupd st_modify session_open sendHello purge t_envelope st_get writeJSON].
  cbn. destruct (write_ok _ _); by apply shrinks_same.
Qed.

Lemma session_begin_within c : conc_wf c -> within c -> within (session_begin conf uuid AddDays write_ok c).
Proof.
  intros Hc W. unfold session_begin. destruct (g_session (c_gw c)) eqn:Hg; [exact W|]. destruct W as [W1 W2]. rewrite Hg in W2.
  destruct (connect_shrinks (c_gw c)) as [Ho Ha]. set (g := connect _ _ _ _ _) in *.
  set (c' := mkConc _ _ _ _ _). split; [by apply Ho|].
  assert (size (pending c' ∖ awaited_ack c') <= size (pending c ∖ awaited_ack c)) as Hs.
  { apply subseteq_size. unfold awaited_ack, pending, c', tun in *. cbn [c_flush c_gw]. set_solver. }
  assert (old_slot c' <= old_slot c + current_slot c /\ current_slot c' <= if g_session g then 1 else 0) as [Hold Hcur].
  { unfold old_slot, current_slot, session_live. rewrite Hg. cbn [c' c_flush c_session c_gw andb]. destruct (c_flush c) as [f|] eqn:Hf.
    - pose proof (cw_session c Hc f Hf) as Hle. replace (f_session f =? S (c_session c)) with false by lia. cbn [negb andb].
      assert (registers c' f = true -> registers c f = true) as Hreg.
      { unfold registers. destruct (f_phase f); try done. unfold flush_conn_closed. cbn [c' c_session].
        by replace (f_session f =? S (c_session c)) with false by lia. }
      split; [|destruct (g_session g); cbn [andb]; [destruct (done_ctx _); cbn|]; lia].
      destruct (registers c' f); [rewrite Hreg by done|lia]. destruct (f_session f =? c_session c); cbn; lia.
    - split; [lia|]. destruct (g_session g); cbn [andb]; [destruct (done_ctx _); cbn|]; lia. }
  change (g_session (c_gw c')) with (g_session g). destruct (g_session g); lia.
Qed.

Lemma session_end_within c : within c -> within (session_end conf uuid AddDays write_ok c).
Proof.
  intros W. unfold session_end. destruct (c_writer c); try done. destruct (c_reader c); try done.
  cbn [gateway_step]. destruct (g_session (c_gw c) && done_ctx (g_tun (c_gw c))); [|by destruct W; split].
  set (c' := set_gw _ _). destruct W as [W1 _]. split; [exact W1|].
  assert (pending c' = ∅) as Hp by done. rewrite Hp.
  replace (∅ ∖ awaited_ack c') with (∅ : gset Z) by set_solver. rewrite size_empty.
  unfold old_slot, current_slot, session_live. change (g_session (c_gw c')) with false. cbn [andb].
  destruct (c_flush c') as [f|]; [|lia]. destruct (f_session f =? c_session c'), (registers c' f); cbn; lia.
Qed.

(** ** The flush *)

(** A step of the flush that changes only its phase and the map. *)
Lemma flush_moves c c' :
  outbox (mgr (tun c')) = outbox (mgr (tun c)) -> g_session (c_gw c') = g_session (c_gw c) ->
  size (pending c' ∖ awaited_ack c') + old_slot c' + current_slot c' <=
  size (pending c ∖ awaited_ack c) + old_slot c + current_slot c -> within c -> within c'.
Proof. intros Ho Hg Hs [W1 W2]. split; [by rewrite Ho|]. rewrite Hg. lia. Qed.

Lemma flush_end_within c : (awaited_ack c = ∅ \/ exists f, c_flush c = Some f /\ flush_ctx_done c f = true) ->
  within c -> within (flush_end c).
Proof.
  intros Hx. apply flush_moves; [done|done|]. unfold awaited_ack, old_slot, current_slot.
  change (c_flush (flush_end c)) with (@None flusher). cbn [fmap option_fmap option_map].
  change (pending (flush_end c)) with (pending c). change (session_live (flush_end c)) with (session_live c).
  destruct Hx as [Hx|(f & Hf & Hd)].
  - fold (awaited_ack c). rewrite Hx. destruct (session_live c); lia.
  - rewrite Hf. cbn [fmap option_fmap option_map]. unfold registers.
    destruct (f_phase f) as [|r e|r|r] eqn:Hp; try (destruct (session_live c); lia).
    assert (size (pending c ∖ ∅) <= size (pending c ∖ {[ID r]}) + 1) as Hs.
    { rewrite <- (size_singleton (C := gset Z) (ID r)), Nat.add_comm, <- size_union_alt. apply subseteq_size. set_solver. }
    unfold flush_ctx_done in Hd. destruct (f_session f =? c_session c) eqn:Hk; cbn [negb andb orb] in *.
    + unfold session_live. rewrite Hd. cbn [negb]. rewrite andb_false_r. lia.
    + destruct (session_live c); lia.
Qed.

Lemma flush_to c c1 f rows p :
  c_flush c = Some f -> outbox (mgr (tun c1)) = outbox (mgr (tun c)) -> g_session (c_gw c1) = g_session (c_gw c) ->
  done_ctx (tun c1) = done_ctx (tun c) -> c_session c1 = c_session c ->
  let f' := mkFlusher (f_session f) rows p in
  (registers c f' = true -> registers c f = true \/ (f_session f = c_session c /\ session_live c = true)) ->
  pending c1 ∖ awaited_ack (set_flush c1 (Some f')) ⊆ pending c ∖ awaited_ack c ->
  within c -> within (set_flush c1 (Some f')).
Proof.
  intros Hf Ho Hg Hd Hk f' Hreg Hsub. apply flush_moves; [done|done|].
  apply subseteq_size in Hsub. unfold pending, tun in *. cbn [set_flush c_gw] in *.
  unfold old_slot, current_slot, session_live, registers, flush_conn_closed, tun in *. cbn [set_flush c_flush c_session c_gw].
  rewrite Hf, Hg, Hd, Hk. cbn [f' f_session f_phase] in *. destruct (f_session f =? c_session c) eqn:E; cbn [negb andb orb] in *.
  - destruct (g_session (c_gw c) && negb (done_ctx (g_tun (c_gw c)))) eqn:EL; [lia|].
    match goal with |- context [if ?b then 1 else 0] => destruct b eqn:Eb end; [|lia].
    destruct (Hreg eq_refl) as [->|[_ ?]]; [lia|done].
  - match goal with |- _ + (if ?b then 1 else 0) + _ <= _ => destruct b eqn:Eb end; [|lia].
    destruct (Hreg eq_refl) as [->|[? _]]; [lia|]. apply Nat.eqb_neq in E. done.
Qed.

Lemma flush_step_within s c : within c -> within (flush_step conf uuid write_ok s c).
Proof.
  intros W. unfold flush_step. destruct (c_flush c) as [f|] eqn:Hf; [|done].
  assert (forall p, f_phase f = p -> match p with FWaiting _ => False | _ => True end -> awaited_ack c = ∅) as Haw.
  { intros p Hp Hn. unfold awaited_ack. rewrite Hf. cbn. rewrite Hp. by destruct p. }
  destruct (f_phase f) as [|r e|r|r] eqn:Hp.
  - destruct (f_rows f) as [|r rs]; [apply flush_end_within; [left; exact (Haw _ eq_refl I)|done]|].
    destruct (flush_ctx_done c f) eqn:Hd; [apply flush_end_within; [left; exact (Haw _ eq_refl I)|done]|].
    cbn [t_envelope]. apply (flush_to c _ f); try done.
    + intros Hreg. right. unfold flush_ctx_done in Hd. apply orb_false_iff in Hd as [Hd1 Hd2].
      apply negb_false_iff, Nat.eqb_eq in Hd1. split; [done|]. unfold session_live. rewrite Hd2.
      unfold registers, flush_conn_closed in Hreg. cbn [f_phase f_session] in Hreg. rewrite Hd1, Nat.eqb_refl in Hreg.
      by destruct (g_session (c_gw c)).
    + rewrite (Haw _ eq_refl I). unfold awaited_ack, pending, tun. cbn. set_solver.
  - destruct (flush_conn_closed c f) eqn:Hcl; [apply flush_end_within; [left; exact (Haw _ eq_refl I)|done]|].
    unfold writeJSON. destruct (write_ok _ _).
    + apply (flush_to c _ f); try done.
      * intros _. left. unfold registers. by rewrite Hp, Hcl.
      * rewrite (Haw _ eq_refl I). unfold awaited_ack, pending, tun. cbn. set_solver.
    + apply flush_end_within; [left; unfold awaited_ack; cbn; rewrite Hf; cbn; by rewrite Hp|]. destruct W. by split.
  - destruct (_ <=? _).
    + apply (flush_to c c f); try done. rewrite (Haw _ eq_refl I). unfold awaited_ack. cbn. set_solver.
    + apply (flush_to c _ f); try done.
      * intros _. left. unfold registers. by rewrite Hp.
      * rewrite (Haw _ eq_refl I). unfold awaited_ack, pending, tun. cbn. set_solver.
  - assert (awaited_ack c = {[ID r]}) as Ha by (unfold awaited_ack; rewrite Hf; cbn; by rewrite Hp).
    destruct s.
    + destruct (decide _) as [|Hin]; [done|]. apply (flush_to c c f); try done.
      rewrite Ha. unfold awaited_ack, pending in *. cbn. set_solver.
    + apply (flush_to c _ f); try done. rewrite Ha. unfold awaited_ack, pending, tun. cbn. set_solver.
    + destruct (flush_ctx_done c f) eqn:Hd; [|done]. apply flush_end_within; [right; by exists f|done].
Qed.

Lemma conc_step_within c a : conc_wf c -> within c -> within (step c a).
Proof.
  intros Hc W. destruct a; cbn [conc_step]; try (by apply on_gw_within).
  - by apply session_begin_within.
  - by apply session_end_within.
  - unfold reader_head. destruct (c_reader c); try done. by apply (shrinks_within c).
  - unfold reader_message. destruct (c_reader c); try done. destruct (task_target _ _ _) as [[addr task]|]; [by apply (shrinks_within c)|].
    pose proof (handleInbound_shrinks conf raw (tun c)) as HS. pose proof (handleInbound_quiet conf raw (tun c)) as [_ _ _ HD].
    apply (shrinks_within c); try done; unfold tun, in_tunnel, on_tunnel in *; cbn [set_reader set_gw c_gw g_tun];
      cbv [mbind st_bind mret st_ret]; destruct (handleInbound conf raw _); cbn [fst] in *; [done|by rewrite HD].
  - unfold reader_send. destruct (c_reader c); try done.
    destruct (send_task_to_stable addr task (tun c)) as ([_ _ _ HD] & _ & _).
    apply (shrinks_within c); try done; [apply send_task_to_shrinks|]. unfold tun in *. cbn. by rewrite HD.
  - unfold reader_error. destruct (c_reader c); try done. destruct (done_ctx (tun c)) eqn:Hd; by apply (shrinks_within c).
  - unfold writer_take. destruct (c_writer c); try done. destruct (outbox (mgr (tun c))) as [|e q] eqn:Ho; [done|].
    apply (shrinks_within c); try done. split; [|done]. unfold tun in *. cbn. rewrite Ho. cbn. lia.
  - unfold writer_heartbeat. destruct (c_writer c); try done. unfold pending_count.
    destruct (PendingCount _) as [d [e|n]]; by apply (shrinks_within c).
  - unfold writer_ping. destruct (c_writer c), ok; try done. by apply (shrinks_within c).
  - unfold writer_write. destruct (c_writer c); try done. unfold writeJSON. destruct (write_ok _ _); by apply (shrinks_within c).
  - unfold writer_done. destruct (c_writer c); try done. destruct (done_ctx _); by apply (shrinks_within c).
  - unfold writer_panic. destruct (flush_writing c); by apply (shrinks_within c).
  - unfold flush_panic. destruct (c_writer c), (flush_writing c) eqn:Hw; try done;
      (apply flush_end_within; [left|done]); unfold flush_writing, awaited_ack in *; destruct (c_flush c) as [f|]; cbn in *; try done;
      by destruct (f_phase f).
  - by apply (shrinks_within c).
  - by apply (shrinks_within c).
  - destruct (_ && _); [|done]. unfold flush_begin. destruct (flushing (mgr (tun c))) eqn:Hfl; [done|].
    assert (c_flush c = None) as Hf by (pose proof (cw_lock c Hc) as HL; rewrite Hfl in HL; by destruct (c_flush c)).
    unfold pending_rows. destruct (PendingRows _) as [d [e|rs]]; revert W; (apply flush_moves; [done|done|]);
      unfold pending, awaited_ack, old_slot, current_slot, session_live, registers, tun; cbn; rewrite Hf; cbn;
      rewrite ?andb_false_r; lia.
  - by apply flush_step_within.
Qed.

Lemma conc_run_within steps : forall c, conc_wf c -> within c -> within (run c steps).
Proof.
  induction steps as [|a steps IH]; intros c Hc W; [done|].
  apply IH; [by apply conc_step_wf|by apply conc_step_within].
Qed.

(** C28: the tunnel's memory is bounded.  In every state that a schedule of the
    goroutines reaches from what [New] returned, between any two of their
    steps, the outbox holds at most 256 events and the map of awaited
    acknowledgements at most two: the one a flush waits for and one left by a
    flush that ended with its session's context, so the limit of 1000 that
    flushBuffer checks is never reached. *)
Theorem tunnel_queues_bounded (cfg : GatewayConfig) (opened : option go_error) (d : DB) (modem : nat -> M) (now : Z)
    (g : gateway) (steps : list (@cstep M)) :
  New cfg opened d modem now = inr g ->
  let m := mgr (tun (run (conc_new g) steps)) in
  length (outbox m) <= outbox_cap /\ size (acks_pending m) <= 2.
Proof.
  intros HN m. pose proof (conc_new_wf _ _ _ _ _ _ HN) as Hc.
  assert (within (conc_new g)) as W.
  { unfold New in HN. destruct (Open opened d) as [d' [e|u]]; [done|]. injection HN as <-. split; [cbn; unfold outbox_cap; lia|]. unfold pending, awaited_ack, old_slot, current_slot, session_live, tun. cbn. rewrite difference_empty_L, size_empty. lia. }
  pose proof (conc_run_within steps _ Hc W) as W'. split; [by apply W'|by apply within_acks].
Qed.
End Bounds.

(** ** Witness *)

Lemma tunnel_queues_bounded_witness :
  let m := mgr (tun (demo_crun demo_conc demo_schedule)) in
  length (outbox m) <= outbox_cap /\ size (acks_pending m) <= 2.
Proof.
  by apply (tunnel_queues_bounded demo_conf demo_ids utc_days all_ok demo_file None mem_empty
    (fun _ => {| slots := [(3%Z, demo_pdu)] |}) 1700000000000000000 (started demo_new)).
Defined.
