(* ===== verification/ConcurrentTasks.v ===== *)
(** * Tasks through the whole gateway

    The ledger of tasks over the schedules of [Concurrent]: every task the cloud
    sends is on its way to a worker's queue or in it, or its acknowledgement is
    in the outbox or has been taken by the writer; only a full outbox loses
    one. *)

From S2P Require Import Prelude GoString Config Pdu RateLimit Buffer Serializer Protocol Registry Worker WorkerFrame WorkerSafety WorkerTasks WorkerSend Supervisor Tunnel TunnelProps Gateway GatewayWf Concurrent.

(** Permutations of concatenated lists of ids, by counting each id. *)
Ltac perm_lia :=
  repeat match goal with H : _ ≡ₚ _ |- _ => rewrite (Permutation_count_occ String.string_dec) in H end;
  apply (Permutation_count_occ String.string_dec);
  let i := fresh "i" in intros i;
  repeat match goal with H : forall x, count_occ _ _ x = _ |- _ => specialize (H i) end;
  repeat rewrite count_occ_app in *; cbn [count_occ] in *; lia.

(** ** The tasks queued at workers *)

Definition worker_ids (x : Worker) : list string := map task_id (inboundCh x).

(** The message ids of all queued tasks, in some order; a worker that has ended
    keeps its place on the heap and its queue. *)
Definition queue_ids (h : gmap nat Worker) : list string := map_to_list h ≫= fun p => worker_ids p.2.

Definition all_acked (h : gmap nat Worker) : Prop := map_Forall (fun _ x => Forall with_ack (inboundCh x)) h.

Lemma queue_ids_fresh h a x : h !! a = None -> queue_ids (<[a := x]> h) ≡ₚ worker_ids x ++ queue_ids h.
Proof. intros Hn. unfold queue_ids. by rewrite map_to_list_insert. Qed.

Lemma queue_ids_split h a x : h !! a = Some x -> queue_ids h ≡ₚ worker_ids x ++ queue_ids (delete a h).
Proof. intros Hx. rewrite <- (insert_delete_id h a x Hx) at 1. apply queue_ids_fresh, lookup_delete_eq. Qed.

Lemma queue_ids_insert h a x : queue_ids (<[a := x]> h) ≡ₚ worker_ids x ++ queue_ids (delete a h).
Proof. rewrite <- insert_delete_eq. apply queue_ids_fresh, lookup_delete_eq. Qed.

Lemma queue_ids_keep h a x y : h !! a = Some x -> worker_ids y = worker_ids x -> queue_ids (<[a := y]> h) ≡ₚ queue_ids h.
Proof. intros Hx Hy. by rewrite queue_ids_insert, (queue_ids_split h a x Hx), Hy. Qed.

(** ** Pushing *)

Lemma Push_lost {DB} `{SqlEngine DB} e (t : @tworld DB) :
  exists lost, ack_ids (outbox (mgr (Push e t).1)) ++ lost ≡ₚ ack_ids (outbox (mgr t)) ++ ack_ids [e] /\
    (length (outbox (mgr (Push e t).1)) < outbox_cap -> lost = []).
Proof.
  cbn [Push mupd st_modify fst mgr set_mgr]. destruct (Nat.ltb_spec (length (outbox (mgr t))) outbox_cap) as [Hl|Hl].
  - exists []. cbn [set_outbox outbox]. by rewrite ack_ids_app, app_nil_r.
  - exists (ack_ids [e]). split; [done|]. intros Hl'. lia.
Qed.

Lemma Push_grows {DB} `{SqlEngine DB} e (t : @tworld DB) :
  length (outbox (mgr t)) <= length (outbox (mgr (Push e t).1)).
Proof.
  cbn [Push mupd st_modify fst mgr set_mgr]. case_match; cbn [set_outbox outbox]; rewrite ?length_app; lia.
Qed.

Lemma Push_all_grows {DB} `{SqlEngine DB} (l : list outbound) : forall t : @tworld DB,
  length (outbox (mgr t)) <= length (outbox (mgr (foldl (fun t e => (Push e t).1) t l))).
Proof. induction l as [|e l IH]; intros t; cbn [foldl]; [done|]. etransitivity; [apply Push_grows|apply IH]. Qed.

Lemma Push_all_lost {DB} `{SqlEngine DB} (l : list outbound) : forall t : @tworld DB,
  let t' := foldl (fun t e => (Push e t).1) t l in
  exists lost, ack_ids (outbox (mgr t')) ++ lost ≡ₚ ack_ids (outbox (mgr t)) ++ ack_ids l /\
    (length (outbox (mgr t')) < outbox_cap -> lost = []).
Proof.
  induction l as [|e l IH]; intros t; cbn [foldl].
  - exists []. cbn. by rewrite !app_nil_r.
  - destruct (Push_lost e t) as (l1 & H1 & N1). destruct (IH (Push e t).1) as (l2 & H2 & N2). cbv zeta in H2, N2.
    pose proof (Push_all_grows l (Push e t).1). exists (l2 ++ l1). split.
    + change (e :: l) with ([e] ++ l). rewrite ack_ids_app. perm_lia.
    + intros Hl. rewrite N2 by done. cbn. apply N1. lia.
Qed.

(** ** Starting a worker leaves its empty queue *)

Section Start.
Context {M DB : Type} `{HM : Modem M} `{HDB : SqlEngine DB}.
Variable uuid : nat -> string.

Definition same_queue (s s' : @world M DB) : Prop :=
  inboundCh (w s') = inboundCh (w s) /\ ack_ids (pushed s') = ack_ids (pushed s).

#[local] Instance same_queue_preorder : PreOrder same_queue.
Proof. split; [by intros s|]. intros s1 s2 s3 [] []. split; congruence. Qed.

Lemma same_queue_core : core_rel uuid same_queue.
Proof.
  pose proof (frame_core uuid (M := M) (DB := DB)) as HF.
  split; intros; intros s; (split; [apply fr_queue|apply fr_acks]); by apply HF.
Qed.

Lemma start_queue self dial open : preserves same_queue (start self dial open).
Proof.
  assert (forall f : Worker -> Worker, (forall x, inboundCh (f x) = inboundCh x) -> preserves same_queue (upd f)) as Hu.
  { intros f Hf s. split; [apply Hf|done]. }
  unfold start. apply preserves_bind; [exact _|apply (h_openPort uuid _ same_queue_core)|intros [e|m]].
  - apply preserves_bind; [exact _|by apply Hu|intros _; apply preserves_ret; exact _].
  - apply preserves_bind; [exact _|by intros s|intros _].
    apply preserves_bind; [exact _|by apply (h_runInitSequence uuid _ same_queue_core)|intros [e|]].
    + apply preserves_bind; [exact _|by apply Hu|intros _; apply preserves_ret; exact _].
    + by intros s.
Qed.
End Start.

(** ** The ledger *)

Section Ledger.
Context {M DB : Type} `{HM : Modem M} `{HDB : SqlEngine DB}.
Variable conf : ManagerConfig.
Variable uuid : nat -> string.
Variable AddDays : Z -> Z -> Z.
Variable write_ok : list outbound -> outbound -> bool.

Local Abbreviation gateway := (@gateway M DB).
Local Abbreviation tworld := (@tworld DB).
Local Abbreviation conc := (@conc M DB).
Local Abbreviation step := (conc_step conf uuid AddDays write_ok).

(** The task an inbound message carries. *)
Definition task_of (raw : option json) : list string :=
  match Unmarshal_Envelope raw, Unmarshal_Task raw with
  | inr env, inr task =>
    if String.eqb (Type_ env) TypeTask && M_Routed conf then [MessageID (Task_Envelope task)] else []
  | _, _ => []
  end.

(** What a step receives, and the acknowledgements it takes out of the outbox
    to write them. *)
Definition received (c : conc) (a : @cstep M) : list string :=
  match a, c_reader c with CInbound raw, RReading => task_of raw | _, _ => [] end.

Definition taken (c : conc) (a : @cstep M) : list string :=
  match a, c_writer c with
  | CTake, WIdle => ack_ids (take 1 (outbox (mgr (tun c))))
  | _, _ => []
  end.

(** The task the reader is about to send to the worker it has found. *)
Definition in_flight (c : conc) : list string :=
  match c_reader c with RSending _ task => [MessageID (Task_Envelope task)] | _ => [] end.

Definition outbox_acks (t : tworld) : list string := ack_ids (outbox (mgr t)).
Definition ledger (t : tworld) : list string := outbox_acks t ++ queue_ids (heap (reg t)).

(** From [t] to [t'] the ledger gains [ins] and loses [outs], and what a full
    outbox drops. *)
Definition balanced (t t' : tworld) (ins outs : list string) : Prop :=
  (all_acked (heap (reg t)) -> all_acked (heap (reg t'))) /\
  (all_acked (heap (reg t)) ->
   exists lost, ledger t' ++ outs ++ lost ≡ₚ ledger t ++ ins /\ (length (outbox (mgr t')) < outbox_cap -> lost = [])).

Lemma balanced_same t t' : outbox (mgr t') = outbox (mgr t) -> reg t' = reg t -> balanced t t' [] [].
Proof.
  intros Ho Hr. split; [by rewrite Hr|]. intros _. exists []. unfold ledger, outbox_acks. by rewrite Ho, Hr.
Qed.

(** A worker at [a] is replaced, and events are pushed. *)
Lemma absorb_balanced g k sl ph (s : @world M DB) :
  (all_acked (heap (reg (g_tun g))) -> Forall with_ack (inboundCh (w s))) ->
  (all_acked (heap (reg (g_tun g))) ->
   ack_ids (pushed s) ++ worker_ids (w s) ++ queue_ids (delete (sl_addr sl) (heap (reg (g_tun g)))) ≡ₚ
   queue_ids (heap (reg (g_tun g)))) ->
  balanced (g_tun g) (g_tun (absorb g k sl ph s)) [] [].
Proof.
  intros Hw HP. unfold absorb. cbn [g_tun]. set (t := mkTworld _ _ _ _ _ _ _).
  assert (reg (foldl (fun t e => (Push e t).1) t (pushed s)) = reg t) as Hr by apply Push_all_reg.
  unfold balanced, ledger, outbox_acks. rewrite Hr. subst t. cbn [reg heap]. split.
  - intros Ha. apply map_Forall_insert_2; [by apply Hw|done].
  - intros Ha. set (t := mkTworld _ _ _ _ _ _ _). destruct (Push_all_lost (pushed s) t) as (lost & HL & HN).
    exists lost. split; [|done]. cbn [app]. rewrite app_nil_r, queue_ids_insert, <- (HP Ha).
    change (outbox (mgr (g_tun g))) with (outbox (mgr t)).
    rewrite (app_assoc (ack_ids (outbox (mgr t)))), <- HL, <- !app_assoc. apply Permutation_app_head.
    rewrite app_assoc. apply Permutation_app_comm.
Qed.

Lemma start_balanced g k dial open : gateway_wf g -> balanced (g_tun g) (g_tun (start_worker g k dial open)) [] [].
Proof.
  intros Hg. unfold start_worker. destruct (g_slots g !! k) as [sl|]; [|by apply balanced_same].
  case_decide; [|by apply balanced_same]. set (g1 := mkGateway _ _ _ _ _).
  assert (heap (reg (g_tun g)) !! g_next g = None) as Hfresh.
  { destruct (heap (reg (g_tun g)) !! g_next g) eqn:E; [|done]. pose proof (gw_alloc g Hg (g_next g) ltac:(by eexists)). lia. }
  pose proof (start_queue uuid (g_next g) (dial (sl_port sl).2) (open (sl_port sl).2)
    (view g1 (NewWorker (sl_conf sl)) (sl_port sl))) as [HQ HA].
  destruct (start _ _ _ _) as [s r]. cbn [fst view w pushed NewWorker inboundCh] in HQ, HA.
  assert (forall s1 ph, w s1 = w s -> pushed s1 = pushed s ->
    balanced (g_tun g1) (g_tun (absorb g1 k (mkSlot (sl_conf sl) (sl_port sl) (g_next g) Idle) ph s1)) [] []) as Hb.
  { intros s1 ph E1 E2. apply absorb_balanced; rewrite E1, ?E2, ?HA; [by rewrite HQ|]. intros _.
    unfold worker_ids. rewrite HQ. cbn [map app ack_ids omap list_omap sl_addr g1 g_tun]. by rewrite delete_id. }
  destruct r; by apply Hb.
Qed.

Lemma run_balanced g k e : balanced (g_tun g) (g_tun (run_worker uuid g k e)) [] [].
Proof.
  unfold run_worker. destruct (g_slots g !! k) as [sl|]; [|by apply balanced_same].
  assert (forall x ev, (forall it, ev <> EvDispatch it) -> heap (reg (g_tun g)) !! sl_addr sl = Some x ->
    forall s1 ph, w s1 = w (loop_step uuid ev (view g x (sl_port sl))).1 ->
      pushed s1 = pushed (loop_step uuid ev (view g x (sl_port sl))).1 ->
      balanced (g_tun g) (g_tun (absorb g k sl ph s1)) [] []) as Hb.
  { intros x ev He Hx s1 ph E1 E2.
    assert (accepts (view g x (sl_port sl)) ev = []) as Hacc by (destruct ev; try done; by destruct (He it)).
    assert (forall Ha : all_acked (heap (reg (g_tun g))), Forall with_ack (inboundCh x)) as Hq by (intros Ha; by apply (Ha _ _ Hx)).
    assert (dispatch_with_ack ev) as Hd by (destruct ev; try done; by destruct (He it)).
    apply absorb_balanced; rewrite E1, ?E2; intros Ha;
      destruct (loop_step_tasks uuid ev (view g x (sl_port sl)) (Hq Ha) Hd) as [H1 H2]; [exact H2|].
    rewrite Hacc in H1. cbn [view pushed acked ack_ids omap list_omap app map] in H1. unfold acked, waiting in H1.
    rewrite app_assoc. unfold worker_ids. rewrite H1, app_nil_r. symmetry. by apply queue_ids_split. }
  destruct e; try (by apply balanced_same);
    (destruct (sl_phase sl); try (by apply balanced_same);
     destruct (heap (reg (g_tun g)) !! sl_addr sl) as [x|] eqn:Hx; [|by apply balanced_same];
     match goal with |- context [loop_step uuid ?ev ?s0] =>
       pose proof (Hb x ev ltac:(done) eq_refl) as Hb'; destruct (loop_step uuid ev s0) as [s [y|]] end;
     apply Hb'; done).
Qed.

(** [Dispatch] queues the task or leaves everything alone. *)
Lemma Registry_send_ledger r a task :
  let '(r', err) := Registry_send r a (queued_task task) in
  match err with
  | Some _ => r' = r
  | None =>
    (all_acked (heap r) -> all_acked (heap r')) /\
    queue_ids (heap r') ≡ₚ queue_ids (heap r) ++ [MessageID (Task_Envelope task)]
  end.
Proof.
  unfold Registry_send. destruct (heap r !! a) as [x|] eqn:Hx; [|done]. cbn [mbind option_bind].
  destruct (send_task x _) as [x'|] eqn:E; [|done]. apply send_task_Some in E as [_ ->]. cbn [heap]. split.
  - intros Ha. apply map_Forall_insert_2; [|done]. cbn. apply Forall_app. split; [by apply (Ha a)|by repeat constructor].
  - rewrite queue_ids_insert, (queue_ids_split _ _ _ Hx). unfold worker_ids. cbn. rewrite map_app, <- !app_assoc.
    apply Permutation_app_head, Permutation_app_comm.
Qed.

Lemma Dispatch_ledger r task :
  let '(r', err) := Dispatch r task in
  match err with
  | Some _ => r' = r
  | None =>
    (all_acked (heap r) -> all_acked (heap r')) /\
    queue_ids (heap r') ≡ₚ queue_ids (heap r) ++ [MessageID (Task_Envelope task)]
  end.
Proof.
  unfold Dispatch. destruct (extractICCID task) as [e|ic]; [done|]. unfold Registry_Dispatch.
  destruct (workers r !! ic) as [a|]; [|done].
  pose proof (Registry_send_ledger r a task). by destruct (Registry_send r a (queued_task task)) as [r' [e|]].
Qed.

(** A task refused with an error acknowledgement, and a task queued. *)
Lemma refusal_balanced ack (t : tworld) : balanced t (Push ack t).1 (ack_ids [ack]) [].
Proof.
  destruct (Push_lost ack t) as (lost & HL & HN). assert (reg (Push ack t).1 = reg t) as Hr by done.
  unfold balanced, ledger, outbox_acks. rewrite Hr. split; [done|]. intros _. exists lost. split; [|done]. perm_lia.
Qed.

Lemma queued_balanced r id (t : tworld) :
  (all_acked (heap (reg t)) -> all_acked (heap r)) -> queue_ids (heap r) ≡ₚ queue_ids (heap (reg t)) ++ [id] ->
  balanced t (set_reg t r) [id] [].
Proof.
  intros HA HD. split; [exact HA|]. intros _. exists []. split; [|done]. unfold ledger, outbox_acks.
  cbn [set_reg reg mgr]. perm_lia.
Qed.

Lemma inbound_balanced raw (t : tworld) : balanced t (handleInbound conf raw t).1 (task_of raw) [].
Proof.
  unfold handleInbound, task_of. destruct (Unmarshal_Envelope raw) as [e|env]; [by apply balanced_same|].
  destruct (String.eqb_spec (Type_ env) TypeSMSDeliveredAck) as [Hty|Hty].
  - rewrite Hty. change (String.eqb TypeSMSDeliveredAck TypeTask) with false. cbn [andb].
    assert (match Unmarshal_Task raw with inl _ | _ => [] end = [] :> list string) as -> by (by destruct (Unmarshal_Task raw)).
    destruct (Unmarshal_SMSDeliveredAck raw) as [e|ack]; [by apply balanced_same|].
    cbv [mbind st_bind AckDelivered]. destruct (MarkDelivered _ _ _). by apply balanced_same.
  - destruct (String.eqb (Type_ env) TypeTask); cbn [andb]; [|by destruct (Unmarshal_Task raw); apply balanced_same].
    destruct (Unmarshal_Task raw) as [e|task]; [by apply balanced_same|].
    destruct (M_Routed conf); [|by apply balanced_same]. cbv [mbind st_bind].
    pose proof (Dispatch_ledger (reg t) task) as HD. destruct (Dispatch (reg t) task) as [r [e|]].
    + subst r. cbv [st_get mret st_ret]. set (ack := OutTaskAck _).
      pose proof (refusal_balanced ack (set_reg t (reg t))) as HB.
      by destruct (Push ack (set_reg t (reg t))).
    + destruct HD as [HA HD]. by apply queued_balanced.
Qed.

Lemma send_balanced addr task (t : tworld) :
  balanced t (send_task_to addr task t).1 [MessageID (Task_Envelope task)] [].
Proof.
  unfold send_task_to. pose proof (Registry_send_ledger (reg t) addr task) as HD.
  destruct (Registry_send (reg t) addr (queued_task task)) as [r [e|]].
  - subst r. set (ack := OutTaskAck _). apply (refusal_balanced ack (set_reg t (reg t))).
  - destruct HD as [HA HD]. by apply queued_balanced.
Qed.

Lemma reset_balanced (g : gateway) post ic : balanced (g_tun g) (g_tun (modemResetHandler g post ic).1) [] [].
Proof.
  unfold modemResetHandler. destruct post; [|by apply balanced_same]. destruct (String.eqb ic ""); [by apply balanced_same|].
  cbn [negb]. cbv zeta. destruct (workers _ !! ic) as [a|]; [|by apply balanced_same].
  assert (forall h, all_acked h -> all_acked (alter RequestReset a h)) as HA.
  { intros h Hh b y Hy. destruct (decide (a = b)) as [->|Hne].
    - rewrite lookup_alter_eq in Hy. destruct (h !! b) as [x|] eqn:Hx; [|done]. injection Hy as <-. by apply (Hh b x).
    - rewrite lookup_alter_ne in Hy by done. by apply (Hh b). }
  split; [apply HA|]. intros _. exists []. split; [|done]. unfold ledger, outbox_acks. cbn.
  rewrite !app_nil_r. apply Permutation_app_head. destruct (heap (reg (g_tun g)) !! a) as [x|] eqn:Hx.
  - rewrite <- (insert_id _ _ _ Hx) at 1. rewrite alter_insert_eq. by apply (queue_ids_keep _ _ x).
  - by rewrite alter_id by congruence.
Qed.

Lemma connect_calm (g : gateway) :
  outbox (mgr (g_tun (connect conf uuid AddDays write_ok g))) = outbox (mgr (g_tun g)) /\
  reg (g_tun (connect conf uuid AddDays write_ok g)) = reg (g_tun g).
Proof.
  unfold connect. cbv [mbind st_bind mupd st_modify session_open sendHello purge t_envelope st_get writeJSON].
  cbn. by destruct (write_ok _ _).
Qed.

Lemma flush_step_outbox s (c : conc) : outbox (mgr (tun (flush_step conf uuid write_ok s c))) = outbox (mgr (tun c)).
Proof.
  unfold flush_step, flush_end, flush_goto. destruct (c_flush c) as [f|]; [|done].
  destruct (f_phase f) as [|r e|r|r].
  - destruct (f_rows f); [done|]. by destruct (flush_ctx_done c f).
  - destruct (flush_conn_closed c f); [done|]. unfold writeJSON. by destruct (write_ok _ _).
  - by destruct (_ <=? _).
  - destruct s; [by destruct (decide _)|done|by destruct (flush_ctx_done c f)].
Qed.

(** The same for the whole state, with the task in flight. *)
Definition cledger (c : conc) : list string := ledger (tun c) ++ in_flight c.

Definition cbalanced (c c' : conc) (ins outs : list string) : Prop :=
  (all_acked (heap (reg (tun c))) -> all_acked (heap (reg (tun c')))) /\
  (all_acked (heap (reg (tun c))) ->
   exists lost, cledger c' ++ outs ++ lost ≡ₚ cledger c ++ ins /\ (length (outbox (mgr (tun c'))) < outbox_cap -> lost = [])).

Lemma balanced_conc c c' ins ins' outs :
  balanced (tun c) (tun c') ins outs -> in_flight c' ++ ins ≡ₚ in_flight c ++ ins' -> cbalanced c c' ins' outs.
Proof.
  intros [HA HB] HF. split; [exact HA|]. intros Ha. destruct (HB Ha) as (lost & HP & HN). exists lost. split; [|done].
  unfold cledger. perm_lia.
Qed.

Lemma balanced_reader c c' outs : balanced (tun c) (tun c') [] outs -> c_reader c' = c_reader c -> cbalanced c c' [] outs.
Proof. intros HB Hr. apply (balanced_conc c c' [] [] outs HB). unfold in_flight. by rewrite Hr. Qed.

(** A step that moves neither tasks nor acknowledgements. *)
Ltac unmoved := by apply balanced_reader, eq_refl; apply balanced_same.

Lemma task_target_of raw (t : tworld) addr task :
  task_target conf raw t = Some (addr, task) -> task_of raw = [MessageID (Task_Envelope task)].
Proof.
  unfold task_target, task_of. destruct (Unmarshal_Envelope raw), (Unmarshal_Task raw) as [|task']; try done.
  destruct (_ && _); [|done]. destruct (extractICCID task'); [done|]. destruct (workers _ !! _); [|done]. by intros [= <- <-].
Qed.

(** The steps of the reader. *)
Lemma reader_balanced c :
  cbalanced c (reader_head c) [] [] /\ cbalanced c (reader_send c) [] [] /\ cbalanced c (reader_error c) [] [] /\
  forall raw, cbalanced c (reader_message conf raw c) (received c (CInbound raw)) [].
Proof.
  unfold reader_head, reader_send, reader_error, reader_message, received.
  assert (forall ins x, in_flight (set_reader c x) ≡ₚ in_flight c ++ ins -> cbalanced c (set_reader c x) ins []) as Hmove.
  { intros ins x Hx. apply (balanced_conc _ _ []); [by apply balanced_same|]. by rewrite app_nil_r. }
  destruct (c_reader c) as [| |addr task|] eqn:Hr; split_and!; try (intros raw); try unmoved.
  - apply Hmove. unfold in_flight. rewrite Hr. cbn. by destruct (done_ctx (tun c)).
  - apply (balanced_conc _ _ []); [by destruct (done_ctx (tun c)); apply balanced_same|]. unfold in_flight. by rewrite Hr.
  - destruct (task_target conf raw (tun c)) as [[addr task]|] eqn:Ht.
    + apply Hmove. unfold in_flight. rewrite Hr. cbn. by rewrite (task_target_of _ _ _ _ Ht).
    + apply (balanced_conc _ _ (task_of raw)); [|unfold in_flight; by rewrite Hr].
      pose proof (inbound_balanced raw (tun c)) as Hb. unfold tun, in_tunnel, on_tunnel in *. cbn [set_reader set_gw c_gw g_tun].
      cbv [mbind st_bind mret st_ret]. by destruct (handleInbound conf raw (g_tun (c_gw c))).
  - apply (balanced_conc _ _ [MessageID (Task_Envelope task)]); [|unfold in_flight; by rewrite Hr].
    apply send_balanced.
Qed.

(** The steps of the writer. *)
Lemma writer_balanced c :
  cbalanced c (writer_take c) [] (taken c CTake) /\ cbalanced c (writer_heartbeat conf uuid c) [] [] /\
  (forall ok, cbalanced c (writer_ping ok c) [] []) /\ cbalanced c (writer_write write_ok c) [] [] /\
  cbalanced c (writer_done c) [] [] /\ cbalanced c (writer_panic c) [] [].
Proof.
  split_and!.
  - unfold writer_take, taken. destruct (c_writer c); try unmoved.
    destruct (outbox (mgr (tun c))) as [|e q] eqn:Ho; [unmoved|].
    apply balanced_reader; [|done]. split; [done|]. intros _. exists []. split; [|done]. unfold ledger, outbox_acks. rewrite Ho.
    change (e :: q) with ([e] ++ q). rewrite ack_ids_app. change (take 1 ([e] ++ q)) with [e].
    change (outbox (mgr (tun (set_writer _ _)))) with q. change (heap (reg (tun (set_writer _ _)))) with (heap (reg (tun c))).
    perm_lia.
  - unfold writer_heartbeat. destruct (c_writer c); try unmoved.
    unfold pending_count, t_envelope. destruct (PendingCount _) as [d [e|n]]; unmoved.
  - intros ok. unfold writer_ping. destruct (c_writer c), ok; unmoved.
  - destruct (writer_write_still write_ok c) as [_ _ _ Hr _].
    assert (outbox (mgr (tun (writer_write write_ok c))) = outbox (mgr (tun c)) /\ c_reader (writer_write write_ok c) = c_reader c) as [Ho Hk].
    { unfold writer_write. destruct (c_writer c); try done. unfold writeJSON. by destruct (write_ok _ _). }
    by apply balanced_reader, Hk; apply balanced_same.
  - unfold writer_done. destruct (c_writer c), (done_ctx (tun c)); unmoved.
  - unfold writer_panic. destruct (flush_writing c); unmoved.
Qed.

(** A session begins and ends with nothing in flight. *)
Lemma session_balanced c : conc_wf c ->
  cbalanced c (session_begin conf uuid AddDays write_ok c) [] [] /\ cbalanced c (session_end conf uuid AddDays write_ok c) [] [].
Proof.
  intros Hc. split.
  - unfold session_begin. destruct (g_session (c_gw c)) eqn:Hg; [unmoved|].
    destruct (connect_calm (c_gw c)) as [Ho He]. destruct (cw_idle c Hc Hg) as [_ Hr].
    apply (balanced_conc _ _ []); [exact (balanced_same (tun c) (g_tun (connect conf uuid AddDays write_ok (c_gw c))) Ho He)|].
    unfold in_flight. cbn [c_reader]. rewrite Hr. by destruct (g_session (connect _ _ _ _ _)).
  - unfold session_end. destruct (c_writer c); try unmoved.
    destruct (c_reader c) eqn:Hr; try unmoved.
    apply balanced_reader; [|done]. unfold tun. cbn [set_gw c_gw gateway_step]. destruct (_ && _); by apply balanced_same.
Qed.

(** The steps of the flush. *)
Lemma flush_balanced c :
  (forall k, cbalanced c (flush_begin k c) [] []) /\ (forall s, cbalanced c (flush_step conf uuid write_ok s c) [] []) /\
  cbalanced c (flush_panic c) [] [].
Proof.
  split_and!.
  - intros k. unfold flush_begin. destruct (flushing _); [unmoved|].
    unfold pending_rows. destruct (PendingRows _) as [d [e|rs]]; unmoved.
  - intros s. destruct (flush_step_still conf uuid write_ok s c) as [_ _ _ Hr _].
    apply balanced_reader; [apply balanced_same; [apply flush_step_outbox|done]|].
    unfold flush_step, flush_end, flush_goto. destruct (c_flush c) as [f|]; [|done]. destruct (f_phase f) as [|r e|r|r].
    + destruct (f_rows f); [done|]. by destruct (flush_ctx_done c f).
    + destruct (flush_conn_closed c f); [done|]. by destruct (writeJSON _ _ _) as [? []].
    + by destruct (_ <=? _).
    + destruct s; [by destruct (decide _)|done|by destruct (flush_ctx_done c f)].
  - unfold flush_panic. destruct (c_writer c), (flush_writing c); unmoved.
Qed.

Lemma step_balanced c a : conc_wf c -> cbalanced c (step c a) (received c a) (taken c a).
Proof.
  intros Hc. pose proof (cw_gateway c Hc) as Hg. pose proof (reader_balanced c) as (R1 & R2 & R3 & R4).
  pose proof (writer_balanced c) as (W1 & W2 & W3 & W4 & W5 & W6). pose proof (flush_balanced c) as (F1 & F2 & F3).
  pose proof (session_balanced c Hc) as [S1 S2].
  destruct a; try apply R4; cbn [conc_step received taken]; auto;
    try (apply balanced_reader, eq_refl; cbn [on_gw]; unfold on_gw, tun; cbn [set_gw c_gw gateway_step]).
  - by apply start_balanced.
  - apply run_balanced.
  - apply reset_balanced.
  - destruct (g_session (c_gw c)); by apply balanced_same.
  - by apply balanced_same.
  - by apply balanced_same.
  - destruct (_ && _); [apply F1|]. unmoved.
Qed.

(** ** Runs *)

Fixpoint received_in (c : conc) (steps : list (@cstep M)) : list string :=
  match steps with [] => [] | a :: steps => received c a ++ received_in (step c a) steps end.

Fixpoint taken_in (c : conc) (steps : list (@cstep M)) : list string :=
  match steps with [] => [] | a :: steps => taken c a ++ taken_in (step c a) steps end.

(** The outbox is not full after any of the steps. *)
Fixpoint never_full (c : conc) (steps : list (@cstep M)) : Prop :=
  match steps with
  | [] => True
  | a :: steps => length (outbox (mgr (tun (step c a)))) < outbox_cap /\ never_full (step c a) steps
  end.

Lemma run_ledger steps : forall c, conc_wf c -> all_acked (heap (reg (tun c))) ->
  let c' := conc_run conf uuid AddDays write_ok c steps in
  exists lost, cledger c' ++ taken_in c steps ++ lost ≡ₚ cledger c ++ received_in c steps /\
    (never_full c steps -> lost = []).
Proof.
  induction steps as [|a steps IH]; intros c Hc Ha; cbv zeta; cbn [received_in taken_in never_full].
  - exists []. by rewrite !app_nil_r.
  - destruct (step_balanced c a Hc) as [HA HB]. destruct (HB Ha) as (l1 & H1 & N1).
    destruct (IH (step c a) (conc_step_wf _ _ _ _ c a Hc) (HA Ha)) as (l2 & H2 & N2). exists (l1 ++ l2). split.
    + change (conc_run conf uuid AddDays write_ok c (a :: steps)) with (conc_run conf uuid AddDays write_ok (step c a) steps).
      set (L := cledger (conc_run _ _ _ _ _ _)) in *. set (T := taken_in _ _) in *. set (R := received_in _ _) in *.
      perm_lia.
    + intros [F1 F2]. by rewrite (N1 F1), (N2 F2).
Qed.

(** C2: every task is answered exactly once.  Over any schedule of the gateway's
    goroutines, from what [New] returned, the message ids of the tasks received
    are, each as often as it was received, those of the acknowledgements the
    writer has taken to the connection, of those waiting in the outbox, of the
    tasks queued at workers (where those of a worker that failed stay), of the
    task the reader is about to send to the worker it has looked up, and of
    acknowledgements dropped by a full outbox, of which there are none when the
    outbox was never full.  In particular no task is acknowledged twice, and
    nothing is acknowledged that was not received. *)
Theorem tasks_answered_once (cfg : GatewayConfig) (opened : option go_error) (d : DB) (modem : nat -> M) (now : Z)
    (g : gateway) (steps : list (@cstep M)) :
  New cfg opened d modem now = inr g ->
  let c := conc_new g in
  let c' := conc_run conf uuid AddDays write_ok c steps in
  exists lost,
    received_in c steps ≡ₚ
    taken_in c steps ++ outbox_acks (tun c') ++ queue_ids (heap (reg (tun c'))) ++ in_flight c' ++ lost /\
    (never_full c steps -> lost = []).
Proof.
  intros HN c c'. pose proof (conc_new_wf _ _ _ _ _ _ HN) as Hc.
  assert (cledger c = [] /\ heap (reg (tun c)) = ∅) as [HL HH].
  { unfold New in HN. destruct (Open opened d) as [d' [e|u]]; [done|]. by injection HN as <-. }
  destruct (run_ledger steps c Hc) as (lost & HP & HN'); [rewrite HH; apply map_Forall_empty|].
  rewrite HL in HP. exists lost. split; [|done]. unfold cledger, ledger in HP. fold c' in HP. clear -HP. perm_lia.
Qed.
End Ledger.

(** ** Witness *)

Definition task_json (id ic : string) : option json :=
  Some (JObj [("type", JStr TypeTask); ("message_id", JStr id); ("ts", JNum "0");
              ("action", JStr ActionCheckSignal); ("payload", JObj [("iccid", JStr ic)])]).

(** Two tasks for the modem and one for an unknown one; one is executed while
    the flush waits, and a fourth is about to be sent to the worker. *)
Definition demo_tasks : list (@cstep sim) :=
  demo_opening ++
  [CWrite; CInbound (task_json "t1" demo_iccid); CSend; CReadStart; CFlushStep SelAck;
   CInbound (task_json "t2" "unknown"); CReadStart; CFlushStep SelAck;
   CInbound (task_json "t3" demo_iccid); CSend; CReadStart; CWorker 0 EvTask; CTake; CFlushStep SelTimer; CWrite;
   CInbound (task_json "t4" demo_iccid)].

Lemma tasks_answered_once_witness :
  let c' := demo_crun demo_conc demo_tasks in
  exists lost,
    received_in demo_conf demo_ids utc_days all_ok demo_conc demo_tasks ≡ₚ
    taken_in demo_conf demo_ids utc_days all_ok demo_conc demo_tasks ++
      outbox_acks (tun c') ++ queue_ids (heap (reg (tun c'))) ++ in_flight c' ++ lost /\
    (never_full demo_conf demo_ids utc_days all_ok demo_conc demo_tasks -> lost = []).
Proof.
  by apply (tasks_answered_once demo_conf demo_ids utc_days all_ok demo_file None mem_empty
    (fun _ => {| slots := [(3%Z, demo_pdu)] |}) 1700000000000000000 (started demo_new) demo_tasks).
Defined.

Example demo_tasks_ledger :
  let c' := demo_crun demo_conc demo_tasks in
  (received_in demo_conf demo_ids utc_days all_ok demo_conc demo_tasks,
   taken_in demo_conf demo_ids utc_days all_ok demo_conc demo_tasks,
   outbox_acks (tun c'), queue_ids (heap (reg (tun c'))), in_flight c') =
  (["t1"; "t2"; "t3"; "t4"], ["t2"], ["t1"], ["t3"], ["t4"]).
Proof. by vm_compute. Qed.
